(* ===== verification/_CoqProject ===== *)
-Q . S2P
Prelude.v
Logic.v
Text.v
Models.v
Schema.v
Api.v
Validation.v
Schedule.v
Runs.v
RunLifecycle.v
RunSafety.v
Access.v
Sessions.v
Accounts.v
Authn.v
Records.v
Sync.v
Connections.v
ConnectionSafety.v
Runtime.v
RuntimeSafety.v
AuditLogs.v
Inbox.v
InboxSafety.v
WorkCards.v
WorkCardSafety.v
Catalog.v
CatalogSafety.v
SingleSignOn.v
Config.v
ConfigSafety.v
ConnectorWorkers.v
WorkerSafety.v
SchedulerSafety.v
RetentionSafety.v
Dashboard.v
DashboardSafety.v
Values.v
Secrets.v
SecretsSafety.v
ConnectorConfigs.v
ConnectorRoutes.v
ConnectorRouteSafety.v
AdapterValues.v
Http.v
MonitoringAdapter.v
ErpAdapter.v
AzureDevOps.v
GraphAdapter.v
GraphSafety.v
Dispatch.v
AzureSafety.v
AdapterSafety.v
MicrosoftOAuth.v
OAuthSafety.v
EntraLogin.v
EntraSafety.v
EntraBounds.v
Commands.v
CommandSafety.v
DemoSeed.v
DemoSafety.v
RunSystem.v
Startup.v
StartupSafety.v
Routes.v
OpenApi.v
OpenApiSafety.v
