(* ===== verification/Prelude.v ===== *)
(** * A verification development of the internal developer portal

    The portal is a Rust program: a Rocket server and a background worker that share
    a PostgreSQL database. Teams keep a catalog of packages and services in it;
    connectors import work cards, calendar events, notifications and service health
    from other systems; users see what their roles and memberships allow.

    ** How the parts interact

    A connector has a scope, which every record it imports inherits, a configuration
    with secrets and a schedule. The scheduler of the worker turns a due configuration
    into a queued run; a worker claims the run under a lease, renews the lease while
    an adapter fetches a payload, and commits the imported records together with the
    result of the run, if it still holds the lease. Administrators can also run,
    import, retry and cancel through the API. Recovery requeues or fails the runs
    whose lease has expired, retention deletes what has aged. Every read is filtered
    by the access scope of the user; every administrative change is audited. Users
    sign in with a password, throttled per bucket, or through Microsoft Entra.

    ** Files

    Foundations.
    - Prelude.v (this file): record update, the effect monad, statements,
      transactions, tables, three-valued SQL conditions, orders.
    - Logic.v: the program logic of the monad (preserved invariants, Hoare rules,
      evaluation on a connection without faults, what a reading computation sees).
    - Text.v: Rust strings, machine integers, chrono durations. Values.v:
      serde_json values. Http.v: outgoing requests and what a computation sends.
    - Models.v: the structs of models.rs. Schema.v: the tables of schema.rs with the
      constraints of the migrations. Api.v: api.rs. Validation.v: validation.rs and
      the Validate implementations of models.rs.
    Runs and workers.
    - Schedule.v: schedules and backoff. Runs.v: ConnectorRunRepository, with the
      abstract life cycle and its refinement in RunLifecycle.v, the theorems about its
      operations in RunSafety.v, and the steps of the whole system (operations, result,
      import, scheduler, retention and seeding transactions) with the programs that take
      them in RunSystem.v.
    - Records.v: the imported records and services; Sync.v: the interface of a table of synchronised
      records, its instances, and reconciliation proved against the interface.
    - Connections.v and ConnectionSafety.v: connectors, configurations, workers.
    - Runtime.v and RuntimeSafety.v: connectors/runtime.rs.
    - ConnectorWorkers.v: connectors/worker.rs, with WorkerSafety.v (its transactions
      move runs along the life cycle, lease policies), SchedulerSafety.v and
      RetentionSafety.v.
    Accounts and access.
    - Access.v: access scopes and role checks. Sessions.v: sessions and throttling.
      Accounts.v: users and roles. Authn.v: the request guard and password sign-in.
      SingleSignOn.v: pending OIDC sign-ins and external identities.
      EntraLogin.v: entra_auth.rs, with EntraSafety.v (who gets a session) and
      EntraBounds.v (bounds, redirects, names, a started sign-in can be finished).
      Commands.v and CommandSafety.v: the account commands of commands.rs and cli.rs.
      DemoSeed.v and DemoSafety.v: the demonstration data of commands.rs.
      Startup.v and StartupSafety.v: how the processes of server_app.rs and bin start.
      Config.v and ConfigSafety.v: config.rs.
    The interface of the server.
    - Routes.v: the attribute and signature of every handler, the routes and catchers
      server_app.rs mounts. OpenApi.v: openapi.rs. OpenApiSafety.v: the document against
      the routes and the request guard.
    What users see.
    - AuditLogs.v, Inbox.v and InboxSafety.v, WorkCards.v and WorkCardSafety.v,
      Catalog.v and CatalogSafety.v, Dashboard.v and DashboardSafety.v: the route
      files of the same names and the repositories behind them.
    Connector API and adapters.
    - Secrets.v and SecretsSafety.v: crypto.rs. ConnectorConfigs.v:
      connector_config_validation.rs. ConnectorRoutes.v and ConnectorRouteSafety.v:
      connectors/routes.rs.
    - AdapterValues.v: connector_adapters/shared.rs; MonitoringAdapter.v,
      ErpAdapter.v (with the samples), AzureDevOps.v, GraphAdapter.v: the adapters;
      Dispatch.v: connector_adapters.rs and the instance of the interface Adapters
      of Runtime.v; GraphSafety.v, AzureSafety.v and AdapterSafety.v: their theorems.
    - MicrosoftOAuth.v and OAuthSafety.v: connectors/oauth.rs, and that no operation
      stores a secret text unencrypted.

    ** State and effects

    A Rust function over a connection is a computation of the monad [M]: from a
    [Conn] to an [outcome] (a value, an error, or a panic) and a [Conn]. The [Conn]
    holds the database content ([Schema.Db], one list of rows per table), the open
    transaction, the clock with the increments of its next readings, the next serial
    number, and the failures that the environment injects into the next statements.
    Theorems quantify over all of these, so they hold for every timing and every
    database failure. A failed statement aborts the open transaction, and a commit of
    an aborted transaction rolls back, as in PostgreSQL; a commit either takes effect and
    is reported, or fails and rolls back, so a commit whose acknowledgement is lost is
    not covered. Concurrency is at the grain of what PostgreSQL commits at once, one
    statement or one transaction: theorems about several processes quantify over
    interleavings of such steps, and RunSystem.v shows which programs are sequences of
    them. The steps are serialized: the row locks (FOR UPDATE, SKIP LOCKED) order
    them, and rows that a claim skips because another process holds them do not occur.
    A theorem about a single handler runs it without other processes in between, unless it
    says otherwise. An adapter is a computation over [Http.Net], where the peer answers
    each request as it likes, depending on all requests before; the redirects that reqwest
    follows by itself are a parameter of the theorem on credentials in GraphSafety.v.

    ** What the theorems show

    The queue: every operation refines the life cycle of a run; one active run per
    source and target; results commit only for the holder of a live lease; finished runs
    stay as they are and retries end, through every interleaving of the steps of the
    system; recovery leaves no expired lease. The demonstration source is apart: seeding
    rewrites its runs at will and is shown to touch no other. Imports: a complete snapshot leaves exactly
    its items live, an incomplete one archives nothing; the scheduler and the
    retention pass do exactly what is due. Access: filters agree with the access
    scope, sign-in opens a session only for verified credentials, sessions are
    bounded, catalog and connector changes need their role. Interface: the security that
    the API document states is what the guard asks for. Entra: a callback signs in
    only the account of a verified id token that answers a stored transaction, stays on
    the portal, and cannot be used to flood the provider; linking moves no identity;
    seeding the demonstration touches nothing else; a
    test process works on test databases only. Secrets: redaction hides
    exactly the secrets, encryption covers exactly the texts among them and is undone by
    decryption, the state of a finished connection is used up. Adapters: credentials stay
    at the configured host, requests are
    bounded, and a snapshot is declared complete only when nothing was left out.
    Where the code does not do what it means to, a theorem states what it does.

    ** Bounds and fuel

    Loops over rows, items and pages are structural. [Secrets.shorten] has fuel
    equal to the length of the preview, which each round shortens. [AzureDevOps.chunks]
    has one unit of fuel per element. A worker run is a list of cycles, each of
    any length; the number of pages and items of an adapter is the configured one.
    Integers are [Z] with the checks and wrap-around of their Rust type written out
    where the code can reach them (saturating backoff, checked schedule products,
    conversions of u64 to i64, chrono durations).

    ** Parameters

    Code outside the repository is a class: Unicode case mapping and collation,
    SHA-256, Argon2, random bytes, AES-GCM, Base64, JSON Web Tokens, UUIDs, the printers,
    parsers and derived decoders of serde, the texts of chrono and diesel, the url
    and uuid crates, reqwest, advisory locks and the monotonic clock. A theorem that
    relies on such code names what it relies on as a hypothesis and has a witness
    with a concrete instance.

    ** Not modelled

    Rocket's dispatch beyond the matching of paths and ranks, the JSON schemas utoipa
    derives, clap and printing, the static page of the OAuth callback and the file server
    mounted beside the routes, logging, the sharing of connections and hashing permits
    between concurrent sign-ins, and the TypeScript frontend. Texts are byte strings; that
    PostgreSQL refuses the character U+0000 in a text column is not among the constraints
    of Schema.v. *)
From stdpp Require Export base list strings sorting gmap.
From Stdlib Require Export ZArith Lia.

Open Scope Z_scope.

(** ** Record update *)

(** [Eta R] spells a record as its constructor applied to its projections;
    [Setter f] is derived from it, so that [r <| f := v |>] reads like the
    struct update of the source. *)
Class Eta (R : Type) := eta : R -> R.

Class Setter {R A : Type} (proj : R -> A) := set_field : A -> R -> R.

Ltac solve_setter :=
  lazymatch goal with
  | |- @Setter ?R ?A ?proj =>
    let inst := constr:(_ : Eta R) in
    let inst' := eval red in inst in
    let g := constr:(fun (v : A) (r : R) =>
       ltac:(let e := eval cbv beta in (inst' r) in
             lazymatch eval pattern (proj r) in e with
             | ?h _ => let t := eval cbv beta in (h v) in exact t
             end)) in
    exact g
  end.

#[export] Hint Extern 1 (Setter _) => solve_setter : typeclass_instances.

Notation "r <| f := v |>" := (set_field (proj:=f) v r)
  (at level 1, left associativity, f at level 9, v at level 200,
   format "r <|  f  :=  v  |>").

(** ** Errors of the database layer *)

(** The kinds of [diesel::result::DatabaseErrorKind] the source tells apart;
    every other kind is [KindUnknown]. *)
Inductive DatabaseErrorKind :=
  | UniqueViolation
  | ForeignKeyViolation
  | CheckViolation
  | UnableToSendCommand
  | ClosedConnection
  | KindUnknown.

(** [diesel::result::Error]. *)
Inductive DieselError :=
  | DNotFound
  | DDatabaseError (kind : DatabaseErrorKind)
  | DQueryBuilderError (message : string)
  | DBrokenTransactionManager.

#[export] Instance DatabaseErrorKind_eq_dec : EqDecision DatabaseErrorKind.
Proof. solve_decision. Defined.

#[export] Instance DieselError_eq_dec : EqDecision DieselError.
Proof. solve_decision. Defined.

(** ** The effect monad: a connection, an error type, panics *)

(** A computation returns a value, returns an [Err], or panics. *)
Inductive outcome (E A : Type) :=
  | Ok (a : A)
  | Err (e : E)
  | Panic.
Arguments Ok {E A} a.
Arguments Err {E A} e.
Arguments Panic {E A}.

(** What one database connection and its process see: the database content,
    the open transaction (nesting depth, start time, whether PostgreSQL has put
    it in the aborted state), the process clock with the increments of its next
    readings, the next value of the SERIAL sequences, and the failures the
    environment will inject into the next statements. *)
Record Conn (D : Type) := mkConn {
  db : D;
  tx_depth : nat;
  tx_now : Z;
  aborted : bool;
  clock : Z;
  ticks : list Z;
  next_serial : Z;
  faults : list (option DatabaseErrorKind)
}.
Arguments mkConn {D}.
Arguments db {D}.
Arguments tx_depth {D}.
Arguments tx_now {D}.
Arguments aborted {D}.
Arguments clock {D}.
Arguments ticks {D}.
Arguments next_serial {D}.
Arguments faults {D}.

#[export] Instance eta_Conn D : Eta (Conn D) := fun c =>
  mkConn (db c) (tx_depth c) (tx_now c) (aborted c) (clock c) (ticks c)
         (next_serial c) (faults c).

Definition M (D E A : Type) : Type := Conn D -> outcome E A * Conn D.

Definition ret {D E A} (a : A) : M D E A := fun c => (Ok a, c).

Definition fail {D E A} (e : E) : M D E A := fun c => (Err e, c).

Definition panic {D E A} : M D E A := fun c => (Panic, c).

Definition bind {D E A B} (m : M D E A) (k : A -> M D E B) : M D E B := fun c =>
  match m c with
  | (Ok a, c') => k a c'
  | (Err e, c') => (Err e, c')
  | (Panic, c') => (Panic, c')
  end.

(** [match m { Ok(a) => .., Err(e) => .. }]: the result as a value. *)
Definition catch {D E F A B} (m : M D E A) (k : E + A -> M D F B) : M D F B := fun c =>
  match m c with
  | (Ok a, c') => k (inr a) c'
  | (Err e, c') => k (inl e) c'
  | (Panic, c') => (Panic, c')
  end.

(** The error conversion of the [?] operator. *)
Definition map_err {D E F A} (f : E -> F) (m : M D E A) : M D F A :=
  catch m (fun r => match r with inl e => fail (f e) | inr a => ret a end).

(** [option.ok_or(e)?] *)
Definition ok_or {D E A} (e : E) (o : option A) : M D E A :=
  match o with Some a => ret a | None => fail e end.

(** A call that panics where the model's function is undefined. *)
Definition or_panic {D E A} (o : option A) : M D E A :=
  match o with Some a => ret a | None => panic end.

(** [Utc::now()]: the environment chooses by how much the clock has moved. *)
Definition utc_now {D E} : M D E Z := fun c =>
  let t := clock c + hd 0 (ticks c) in
  (Ok t, c <| clock := t |> <| ticks := tl (ticks c) |>).

(** A [for] loop over a vector with an accumulator. *)
Fixpoint for_each {D E A S} (l : list A) (s : S) (body : S -> A -> M D E S) : M D E S :=
  match l with
  | [] => ret s
  | x :: l' => bind (body s x) (fun s' => for_each l' s' body)
  end.

Declare Scope portal_scope.
Delimit Scope portal_scope with portal.

Notation "x <- m ;; k" := (bind m (fun x => k))
  (at level 100, m at next level, right associativity) : portal_scope.
Notation "m ;;; k" := (bind m (fun _ => k))
  (at level 100, right associativity) : portal_scope.

Open Scope portal_scope.

(** ** Statements and transactions *)

(** A SQL statement: from [NOW()], the next SERIAL value and the database
    content to the new SERIAL value and an error or a result and the new
    content. *)
Definition Stmt (D A : Type) : Type := Z -> Z -> D -> Z * (DatabaseErrorKind + A * D).

(** SQL [NOW()] is the start time of the open transaction. *)
Definition sql_now {D} (c : Conn D) : Z :=
  if (tx_depth c =? 0)%nat then clock c else tx_now c.

(** Executing one statement. An injected failure or a violated constraint
    aborts the open transaction; in an aborted transaction every statement
    fails until the rollback. *)
Definition exec {D A} (s : Stmt D A) : M D DieselError A := fun c =>
  let in_tx := negb (tx_depth c =? 0)%nat in
  match hd None (faults c) with
  | Some k =>
      (Err (DDatabaseError k), c <| faults := tl (faults c) |> <| aborted := in_tx |>)
  | None =>
      if aborted c then
        (Err (DDatabaseError KindUnknown), c <| faults := tl (faults c) |>)
      else
        match s (sql_now c) (next_serial c) (db c) with
        | (n, inr (a, d)) =>
            (Ok a, c <| faults := tl (faults c) |> <| next_serial := n |> <| db := d |>)
        | (n, inl k) =>
            (Err (DDatabaseError k), c <| faults := tl (faults c) |> <| next_serial := n |>
                      <| aborted := in_tx |>)
        end
  end.

(** A control statement (BEGIN, SAVEPOINT, COMMIT, RELEASE). *)
Definition control {D} : M D DieselError unit := exec (fun _ n d => (n, inr (tt, d))).

Definition rollback_to {D} (start : Conn D) (c : Conn D) : Conn D :=
  c <| db := db start |> <| tx_depth := tx_depth start |>
    <| tx_now := tx_now start |> <| aborted := aborted start |>.

Definition leave_tx {D} (start : Conn D) (c : Conn D) : Conn D :=
  c <| tx_depth := tx_depth start |> <| tx_now := tx_now start |>.

(** [conn.transaction(body)]: BEGIN (or SAVEPOINT when nested), the body, then
    COMMIT (RELEASE) on [Ok] and ROLLBACK on [Err]. COMMIT of an aborted
    outermost transaction rolls back and reports success, as PostgreSQL does;
    a panic drops the connection, which rolls back. *)
Definition transaction {D E A} (from : DieselError -> E) (body : M D E A) : M D E A := fun c =>
  match control c with
  | (Err e, c0) => (Err (from e), c0)
  | (Panic, c0) => (Panic, c0)
  | (Ok _, c0) =>
      let inside := c0 <| tx_depth := S (tx_depth c0) |>
                       <| tx_now := sql_now c0 |> in
      match body inside with
      | (Ok a, c1) =>
          if aborted c1 && (tx_depth c0 =? 0)%nat then (Ok a, rollback_to c0 c1)
          else
            match control c1 with
            | (Ok _, c2) => (Ok a, leave_tx c0 c2)
            | (Err e, c2) => (Err (from e), rollback_to c0 c2)
            | (Panic, c2) => (Panic, rollback_to c0 c2)
            end
      | (Err e, c1) => (Err e, rollback_to c0 c1)
      | (Panic, c1) => (Panic, rollback_to c0 c1)
      end
  end.

(** ** Three-valued SQL conditions *)

Definition tv : Type := option bool.

Definition tv_and (a b : tv) : tv :=
  match a, b with
  | Some false, _ | _, Some false => Some false
  | Some true, Some true => Some true
  | _, _ => None
  end.

Definition tv_or (a b : tv) : tv :=
  match a, b with
  | Some true, _ | _, Some true => Some true
  | Some false, Some false => Some false
  | _, _ => None
  end.

(** A comparison of two nullable values is NULL when either is. *)
Definition tv_cmp {A B} (op : A -> B -> bool) (x : option A) (y : option B) : tv :=
  match x, y with
  | Some a, Some b => Some (op a b)
  | _, _ => None
  end.

Definition is_null {A} (x : option A) : tv :=
  Some (match x with None => true | Some _ => false end).

Definition is_not_null {A} (x : option A) : tv :=
  Some (match x with None => false | Some _ => true end).

(** A WHERE clause keeps the rows whose condition is TRUE. *)
Definition holds (t : tv) : bool := match t with Some true => true | _ => false end.

Definition str_eqb (s t : string) : bool := bool_decide (s = t).

Notation "x =s y" := (str_eqb x y) (at level 70) : portal_scope.

(** Column conditions: equality of texts and integers, order of timestamps,
    membership ([= ANY]). *)
Definition eq_text (x y : option string) : tv := tv_cmp str_eqb x y.
Definition eq_int (x y : option Z) : tv := tv_cmp Z.eqb x y.
Definition ne_int (x y : option Z) : tv := tv_cmp (fun a b => negb (a =? b)) x y.
Definition lt_ts (x y : option Z) : tv := tv_cmp Z.ltb x y.
Definition le_ts (x y : option Z) : tv := tv_cmp Z.leb x y.
Definition gt_ts (x y : option Z) : tv := tv_cmp Z.gtb x y.
Definition ge_ts (x y : option Z) : tv := tv_cmp Z.geb x y.
Definition any_int (x : option Z) (l : list Z) : tv :=
  match x with Some a => Some (existsb (Z.eqb a) l) | None => None end.

Lemma holds_and a b : holds (tv_and a b) = holds a && holds b.
Proof. by destruct a as [[]|], b as [[]|]. Qed.

Lemma holds_or a b : holds (tv_or a b) = holds a || holds b.
Proof. by destruct a as [[]|], b as [[]|]. Qed.

Lemma str_eqb_eq s t : str_eqb s t = true <-> s = t.
Proof. unfold str_eqb. by rewrite bool_decide_eq_true. Qed.

Lemma str_eqb_spec s t : reflect (s = t) (str_eqb s t).
Proof. apply iff_reflect. symmetry. apply str_eqb_eq. Qed.

Lemma str_eqb_refl s : str_eqb s s = true.
Proof. by apply str_eqb_eq. Qed.

Lemma str_eqb_neq s t : str_eqb s t = false <-> s <> t.
Proof. unfold str_eqb. by rewrite bool_decide_eq_false. Qed.

(** ** Tables *)

(** A table of the schema: its rows in the content, the constraints a changed
    row must meet in the new content, and the referential actions of its
    deletions. *)
Class Table (D R : Type) := {
  rows : D -> list R;
  set_rows : list R -> D -> D;
  violated : D -> R -> option DatabaseErrorKind;
  on_delete : list R -> D -> DatabaseErrorKind + D;
  rows_set_rows : forall l d, rows (set_rows l d) = l;
  set_rows_rows : forall d, set_rows (rows d) d = d
}.

Section Sql.
Context {D R : Type} {T : Table D R}.

Fixpoint first_violation (d : D) (changed : list R) : option DatabaseErrorKind :=
  match changed with
  | [] => None
  | r :: l => match violated d r with Some k => Some k | None => first_violation d l end
  end.

Definition checked {A} (d : D) (changed : list R) (a : A) : DatabaseErrorKind + A * D :=
  match first_violation d changed with
  | Some k => inl k
  | None => inr (a, d)
  end.

Definition sql_select (P : R -> bool) : Stmt D (list R) := fun _ n d =>
  (n, inr (List.filter P (rows d), d)).

Definition sql_count (P : R -> bool) : Stmt D Z := fun _ n d =>
  (n, inr (Z.of_nat (length (List.filter P (rows d))), d)).

(** [UPDATE .. WHERE P SET f RETURNING *]. *)
Definition sql_update (P : R -> bool) (f : Z -> R -> R) : Stmt D (list R) := fun now n d =>
  let changed := map (f now) (List.filter P (rows d)) in
  let d' := set_rows (map (fun r => if P r then f now r else r) (rows d)) d in
  (n, checked d' changed changed).

(** [DELETE .. WHERE P RETURNING *]. *)
Definition sql_delete (P : R -> bool) : Stmt D (list R) := fun _ n d =>
  let gone := List.filter P (rows d) in
  let d' := set_rows (List.filter (fun r => negb (P r)) (rows d)) d in
  (n, match on_delete gone d' with
      | inl k => inl k
      | inr d'' => inr (gone, d'')
      end).

(** [INSERT .. RETURNING *]; the row takes [NOW()] and the next SERIAL. *)
Definition sql_insert (mk : Z -> Z -> R) : Stmt D R := fun now n d =>
  let r := mk now n in
  (n + 1, checked (set_rows (rows d ++ [r]) d) [r] r).

Fixpoint mint (now n : Z) (mks : list (Z -> Z -> R)) : list R :=
  match mks with
  | [] => []
  | mk :: l => mk now n :: mint now (n + 1) l
  end.

Definition sql_insert_many (mks : list (Z -> Z -> R)) : Stmt D (list R) := fun now n d =>
  let new := mint now n mks in
  (n + Z.of_nat (length mks), checked (set_rows (rows d ++ new) d) new new).

(** [INSERT .. ON CONFLICT (key) DO UPDATE SET f]. *)
Definition sql_upsert (same : R -> bool) (mk : Z -> Z -> R) (f : Z -> R -> R) : Stmt D R :=
  fun now n d =>
    match List.filter same (rows d) with
    | [] => sql_insert mk now n d
    | r :: _ =>
        match sql_update same f now (n + 1) d with
        | (n', inr (_, d')) => (n', inr (f now r, d'))
        | (n', inl e) => (n', inl e)
        end
    end.

(** [INSERT .. ON CONFLICT (key) DO NOTHING]: the number of rows inserted. *)
Definition sql_insert_or_ignore (same : R -> bool) (mk : Z -> Z -> R) : Stmt D Z :=
  fun now n d =>
    match List.filter same (rows d) with
    | [] => match sql_insert mk now n d with
            | (n', inr (_, d')) => (n', inr (1, d'))
            | (n', inl e) => (n', inl e)
            end
    | _ :: _ => (n + 1, inr (0, d))
    end.
End Sql.

(** A read-only query over several tables (a join). *)
Definition sql_query {D A} (f : D -> A) : Stmt D A := fun _ n d => (n, inr (f d, d)).

(** [.first()] / [.get_result()]: no row is [NotFound], raised by the client. *)
Definition first_row {D R} (m : M D DieselError (list R)) : M D DieselError R :=
  l <- m ;;
  match l with
  | [] => fail DNotFound
  | r :: _ => ret r
  end.

(** [.optional()] *)
Definition optional {D R} (m : M D DieselError R) : M D DieselError (option R) :=
  catch m (fun r =>
    match r with
    | inr a => ret (Some a)
    | inl DNotFound => ret None
    | inl e => fail e
    end).

(** The number of affected rows of [.execute()]. *)
Definition affected {D R} (m : M D DieselError (list R)) : M D DieselError Z :=
  l <- m ;; ret (Z.of_nat (length l)).

(** [LIMIT n]. *)
Definition limit {R} (n : Z) (l : list R) : list R := take (Z.to_nat n) l.

(** [OFFSET n]. *)
Definition offset {R} (n : Z) (l : list R) : list R := drop (Z.to_nat n) l.

(** [ORDER BY]: a stable insertion sort for a boolean comparison. *)
Fixpoint insert_by {R} (leb : R -> R -> bool) (x : R) (l : list R) : list R :=
  match l with
  | [] => [x]
  | y :: l' => if leb x y then x :: l else y :: insert_by leb x l'
  end.

Fixpoint order_by {R} (leb : R -> R -> bool) (l : list R) : list R :=
  match l with
  | [] => []
  | x :: l' => insert_by leb x (order_by leb l')
  end.

(** Lexicographic sort keys: each key gives a comparison. *)
Fixpoint lex_leb {R} (keys : list (R -> R -> comparison)) (x y : R) : bool :=
  match keys with
  | [] => true
  | k :: ks => match k x y with Lt => true | Gt => false | Eq => lex_leb ks x y end
  end.

(** Ascending and descending order of a NOT NULL key, and of a nullable key
    with PostgreSQL's defaults (NULLS LAST when ascending, NULLS FIRST when
    descending). *)
Definition asc {R} (f : R -> Z) (x y : R) : comparison := f x ?= f y.
Definition desc {R} (f : R -> Z) (x y : R) : comparison := f y ?= f x.

Definition asc_null {R} (f : R -> option Z) (x y : R) : comparison :=
  match f x, f y with
  | Some a, Some b => a ?= b
  | Some _, None => Lt
  | None, Some _ => Gt
  | None, None => Eq
  end.

Definition desc_null {R} (f : R -> option Z) (x y : R) : comparison :=
  match f x, f y with
  | Some a, Some b => b ?= a
  | Some _, None => Gt
  | None, Some _ => Lt
  | None, None => Eq
  end.

(** A connection with no open transaction and no injected failures. *)
Definition calm {D} (d : D) (t : Z) (tk : list Z) (n : Z) : Conn D :=
  mkConn d 0 0 false t tk n [].

(** ** Generic lemmas on lists *)

Section Ordering.
Context {R : Type} (leb : R -> R -> bool).

Lemma insert_by_perm x l : insert_by leb x l ≡ₚ x :: l.
Proof.
  induction l as [|y l IH]; simpl; [done|].
  destruct (leb x y); [done|]. rewrite IH. constructor.
Qed.

Lemma order_by_perm l : order_by leb l ≡ₚ l.
Proof. induction l as [|x l IH]; simpl; [done|]. by rewrite insert_by_perm, IH. Qed.

Lemma elem_of_order_by x l : x ∈ order_by leb l <-> x ∈ l.
Proof. by rewrite order_by_perm. Qed.

Lemma length_order_by l : length (order_by leb l) = length l.
Proof. by rewrite order_by_perm. Qed.

Hypothesis leb_total : forall x y, leb x y = true \/ leb y x = true.
Hypothesis leb_trans : forall x y z, leb x y = true -> leb y z = true -> leb x z = true.

Lemma insert_by_sorted x l :
  StronglySorted (fun a b => leb a b = true) l ->
  StronglySorted (fun a b => leb a b = true) (insert_by leb x l).
Proof.
  induction 1 as [|y l Hs IH Hall]; simpl; [by repeat constructor|].
  destruct (leb x y) eqn:E.
  - constructor; [by constructor|]. constructor; [done|].
    eapply Forall_impl; [exact Hall|]. eauto.
  - constructor; [done|]. rewrite insert_by_perm. constructor; [|done].
    destruct (leb_total x y); congruence.
Qed.

Lemma order_by_sorted l : StronglySorted (fun a b => leb a b = true) (order_by leb l).
Proof. induction l; simpl; [constructor|]. by apply insert_by_sorted. Qed.
End Ordering.

(** Sort keys that order rows, ties included: a lexicographic sort by such keys
    is a total preorder. *)
Class OrderKey {R} (k : R -> R -> comparison) : Prop := {
  key_antisym : forall x y, k x y = CompOpp (k y x);
  key_tie : forall x y z, k x y = Eq -> k x z = k y z;
  key_lt_trans : forall x y z, k x y = Lt -> k y z = Lt -> k x z = Lt
}.

#[export] Instance asc_key {R} (f : R -> Z) : OrderKey (asc f).
Proof.
  split; unfold asc; intros.
  - apply Z.compare_antisym.
  - match goal with H : _ = Eq |- _ => apply Z.compare_eq in H; by rewrite H end.
  - rewrite Z.compare_lt_iff in *. lia.
Qed.

#[export] Instance flip_key {R} (k : R -> R -> comparison) :
  OrderKey k -> OrderKey (fun x y => k y x).
Proof.
  intros [Ha Ht Hl]. split; intros.
  - apply Ha.
  - rewrite (Ha z x), (Ha z y). f_equal. symmetry. by apply Ht.
  - by apply (Hl _ y).
Qed.

Section LexOrder.
Context {R : Type}.

Lemma lex_leb_total keys : Forall (@OrderKey R) keys -> forall x y,
  lex_leb keys x y = true \/ lex_leb keys y x = true.
Proof.
  induction 1 as [|k ks [Ha _ _] _ IH]; intros x y; simpl; [by left|].
  rewrite (Ha x y). destruct (k y x); simpl; auto.
Qed.

Lemma lex_leb_trans keys : Forall (@OrderKey R) keys -> forall x y z,
  lex_leb keys x y = true -> lex_leb keys y z = true -> lex_leb keys x z = true.
Proof.
  induction 1 as [|k ks [Ha Ht Hl] _ IH]; intros x y z; simpl; [done|].
  destruct (k x y) eqn:E1; [|destruct (k y z) eqn:E2|done].
  - rewrite (Ht x y z E1). destruct (k y z); eauto.
  - assert (k x z = Lt) as ->; [|done].
    rewrite (Ha x z), <- (Ht y z x E2), <- Ha. done.
  - by rewrite (Hl x y z).
  - done.
Qed.
End LexOrder.

Lemma elem_of_filter_b {A} (P : A -> bool) (x : A) l :
  x ∈ List.filter P l <-> x ∈ l /\ P x = true.
Proof. rewrite !list_elem_of_In. apply filter_In. Qed.

Lemma filter_filter_b {A} (P Q : A -> bool) (l : list A) :
  List.filter P (List.filter Q l) = List.filter (fun x => Q x && P x) l.
Proof.
  induction l as [|x l IH]; simpl; [done|].
  destruct (Q x); simpl; [destruct (P x)|]; by rewrite IH.
Qed.

Lemma filter_ext_b {A} (P Q : A -> bool) (l : list A) :
  (forall x, x ∈ l -> P x = Q x) -> List.filter P l = List.filter Q l.
Proof.
  induction l as [|x l IH]; intros H; simpl; [done|].
  rewrite (H x), IH; [done| |left]. intros y Hy. apply H. by right.
Qed.

Lemma filter_none_b {A} (P : A -> bool) (l : list A) :
  (forall x, x ∈ l -> P x = false) -> List.filter P l = [].
Proof.
  induction l as [|x l IH]; intros H; simpl; [done|].
  rewrite (H x) by left. apply IH. intros y Hy. apply H. by right.
Qed.

Lemma filter_all_b {A} (P : A -> bool) (l : list A) :
  (forall x, x ∈ l -> P x = true) -> List.filter P l = l.
Proof.
  induction l as [|x l IH]; intros H; simpl; [done|].
  rewrite (H x) by left. f_equal. apply IH. intros y Hy. apply H. by right.
Qed.

Lemma filter_nil_inv_b {A} (P : A -> bool) (l : list A) (x : A) :
  List.filter P l = [] -> x ∈ l -> P x = false.
Proof.
  intros E Hx. destruct (P x) eqn:Hp; [|done].
  assert (x ∈ List.filter P l) as Hin by (by apply elem_of_filter_b).
  rewrite E in Hin. by apply elem_of_nil in Hin.
Qed.

Lemma NoDup_map_filter_b {A B} (f : A -> B) (P : A -> bool) (l : list A) :
  NoDup (map f l) -> NoDup (map f (List.filter P l)).
Proof.
  induction l as [|x l IH]; simpl; [done|]. rewrite NoDup_cons. intros [Hx Hl].
  destruct (P x); simpl; [|by apply IH]. apply NoDup_cons. split; [|by apply IH].
  contradict Hx. apply list_elem_of_fmap in Hx as (y & -> & Hy).
  apply list_elem_of_fmap. exists y. split; [done|]. by apply elem_of_filter_b in Hy as [??].
Qed.

(** Two rows of a table with the same key are the same row. *)
Lemma NoDup_map_inj {A B} (f : A -> B) (l : list A) x y :
  NoDup (map f l) -> x ∈ l -> y ∈ l -> f x = f y -> x = y.
Proof.
  induction l as [|z l IH]; simpl; [by intros _ ?%elem_of_nil|].
  rewrite NoDup_cons. intros [Hz Hl] [->|Hx]%elem_of_cons [->|Hy]%elem_of_cons E; auto.
  - contradict Hz. rewrite E. apply list_elem_of_fmap. eauto.
  - contradict Hz. rewrite <- E. apply list_elem_of_fmap. eauto.
Qed.

(** A key lookup in a table with unique keys finds exactly that row. *)
Lemma filter_key {A} (key : A -> Z) (l : list A) (x : A) :
  NoDup (map key l) -> x ∈ l -> List.filter (fun y => key y =? key x) l = [x].
Proof.
  induction l as [|z l IH]; simpl; [by intros _ ?%elem_of_nil|].
  rewrite NoDup_cons. intros [Hz Hl] [->|Hx]%elem_of_cons.
  - rewrite Z.eqb_refl. f_equal. apply filter_none_b. intros y Hy. apply Z.eqb_neq. intros E.
    contradict Hz. rewrite <- E. apply list_elem_of_fmap. eauto.
  - destruct (Z.eqb_spec (key z) (key x)) as [E|]; [|by apply IH].
    contradict Hz. rewrite E. apply list_elem_of_fmap. eauto.
Qed.

(** Updating rows without touching their keys keeps the keys. *)
Lemma map_key_update {A B} (key : A -> B) (P : A -> bool) (f : A -> A) (l : list A) :
  (forall x, key (f x) = key x) ->
  map key (map (fun r => if P r then f r else r) l) = map key l.
Proof.
  intros H. induction l as [|x l IH]; simpl; [done|]. rewrite IH. destruct (P x); by rewrite ?H.
Qed.

Lemma elem_of_update {A} (P : A -> bool) (f : A -> A) (l : list A) (y : A) :
  y ∈ map (fun r => if P r then f r else r) l <->
  (exists x, x ∈ l /\ P x = true /\ y = f x) \/ (y ∈ l /\ P y = false).
Proof.
  rewrite list_elem_of_fmap. split.
  - intros (x & -> & Hx). destruct (P x) eqn:E; [left; eauto|right; eauto].
  - intros [(x & Hx & E & ->)|[Hy E]]; [exists x|exists y]; by rewrite E.
Qed.

Lemma length_filter_app {A} (P : A -> bool) (l k : list A) :
  length (List.filter P (l ++ k)) = (length (List.filter P l) + length (List.filter P k))%nat.
Proof. by rewrite List.filter_app, length_app. Qed.

(** An update whose condition meets no row changes nothing. *)
Lemma map_none_b {A} (P : A -> bool) (f : A -> A) (l : list A) :
  (forall x, x ∈ l -> P x = false) -> map (fun r => if P r then f r else r) l = l.
Proof.
  induction l as [|x l IH]; intros H; simpl; [done|].
  rewrite (H x) by left. rewrite IH; [done|]. intros y Hy. apply H. by right.
Qed.

Lemma filter_perm_b {A} (P : A -> bool) (l k : list A) :
  l ≡ₚ k -> List.filter P l ≡ₚ List.filter P k.
Proof.
  induction 1 as [|x l k _ IH|x y l|l k m _ IH1 _ IH2]; simpl.
  - done.
  - destruct (P x); [by constructor|done].
  - destruct (P x), (P y); try done. constructor.
  - by etrans.
Qed.

(** Dropping the first [n] of a selection by key leaves the rest. *)
Lemma filter_not_taken {A} (key : A -> Z) (n : nat) (l : list A) :
  NoDup (map key l) ->
  List.filter (fun x => negb (existsb (Z.eqb (key x)) (map key (take n l)))) l = drop n l.
Proof.
  revert n. induction l as [|x l IH]; intros [|n]; simpl; try done.
  - intros _. f_equal. clear IH. induction l as [|y l IHl]; simpl; [done|by rewrite IHl].
  - rewrite NoDup_cons. intros [Hx Hl]. rewrite Z.eqb_refl. simpl. rewrite <- IH by done.
    apply filter_ext_b. intros y Hy. destruct (Z.eqb_spec (key y) (key x)) as [E|]; [|done].
    contradict Hx. rewrite <- E. apply list_elem_of_fmap. eauto.
Qed.

Lemma filter_comm_b {A} (P Q : A -> bool) (l : list A) :
  List.filter P (List.filter Q l) = List.filter Q (List.filter P l).
Proof. rewrite !filter_filter_b. apply filter_ext_b. intros x _. apply andb_comm. Qed.

Lemma elem_of_take {A} (n : nat) (l : list A) x : x ∈ take n l -> x ∈ l.
Proof. intros H. eapply elem_of_sublist; [exact H|]. apply sublist_take. Qed.

(** What an update does to the rows it selects and to the others. *)
Lemma filter_update_hit {A} (P : A -> bool) (f : A -> A) (l : list A) :
  (forall x, x ∈ l -> P x = true -> P (f x) = true) ->
  List.filter P (map (fun r => if P r then f r else r) l) = map f (List.filter P l).
Proof.
  induction l as [|x l IH]; intros H; simpl; [done|].
  assert (forall y, y ∈ l -> P y = true -> P (f y) = true) as Hl by (intros y Hy; apply H; by right).
  destruct (P x) eqn:E; simpl; [rewrite (H x (list_elem_of_here _ _) E)|rewrite E]; by rewrite IH.
Qed.

Lemma filter_update_miss {A} (P : A -> bool) (f : A -> A) (l : list A) :
  (forall x, x ∈ l -> P x = true -> P (f x) = true) ->
  List.filter (fun r => negb (P r)) (map (fun r => if P r then f r else r) l) =
  List.filter (fun r => negb (P r)) l.
Proof.
  induction l as [|x l IH]; intros H; simpl; [done|].
  rewrite IH by (intros y Hy; apply H; by right).
  destruct (P x) eqn:E; simpl; [rewrite (H x (list_elem_of_here _ _) E)|rewrite E]; done.
Qed.
