(* ===== verification/Logic.v ===== *)
(** Program logic of the effect monad: Hoare rules for statements,
    transactions and loops, the preservation of database invariants, and the
    evaluation of computations on a calm connection. *)
From S2P Require Import Prelude.

Section Rules.
Context {D : Type}.

(** [hoare P m Q X]: started outside an aborted transaction on a content
    that satisfies [P], [m] ends with [Ok a] outside an aborted transaction
    in [Q a], or with an error (or a panic, [None]) in [X]. *)
Definition hoare {E A} (P : D -> Prop) (m : M D E A) (Q : A -> D -> Prop)
    (X : option E -> bool -> D -> Prop) : Prop :=
  forall c, aborted c = false -> P (db c) ->
    match m c with
    | (Ok a, c') => aborted c' = false /\ Q a (db c')
    | (Err e, c') => X (Some e) (aborted c') (db c')
    | (Panic, c') => X None (aborted c') (db c')
    end.

Lemma hoare_conseq {E A} (P P' : D -> Prop) (m : M D E A) Q Q' X X' :
  hoare P m Q X ->
  (forall d, P' d -> P d) -> (forall a d, Q a d -> Q' a d) ->
  (forall e ab d, X e ab d -> X' e ab d) ->
  hoare P' m Q' X'.
Proof.
  intros H HP HQ HX c Hab Hc. specialize (H c Hab (HP _ Hc)).
  destruct (m c) as [[a|e|] c']; [destruct H|..]; auto.
Qed.

Lemma hoare_ret {E A} (P : D -> Prop) (a : A) (Q : A -> D -> Prop) X :
  (forall d, P d -> Q a d) -> hoare (E:=E) P (ret a) Q X.
Proof. intros H c Hab Hc. split; auto. Qed.

Lemma hoare_fail {E A} (P : D -> Prop) (e : E) (Q : A -> D -> Prop) X :
  (forall d, P d -> X (Some e) false d) -> hoare P (fail e) Q X.
Proof. intros H c Hab Hc. simpl. rewrite Hab. auto. Qed.

Lemma hoare_panic {E A} (P : D -> Prop) (Q : A -> D -> Prop) X :
  (forall d, P d -> X None false d) -> hoare (E:=E) P panic Q X.
Proof. intros H c Hab Hc. simpl. rewrite Hab. auto. Qed.

Lemma hoare_bind {E A B} (P : D -> Prop) (m : M D E A) (k : A -> M D E B) R Q X :
  hoare P m R X -> (forall a, hoare (R a) (k a) Q X) -> hoare P (bind m k) Q X.
Proof.
  intros Hm Hk c Hab Hc. unfold bind. specialize (Hm c Hab Hc).
  destruct (m c) as [[a|e|] c']; [|done..]. destruct Hm. by apply Hk.
Qed.

Lemma hoare_catch {E F A B} (P : D -> Prop) (m : M D E A) (k : E + A -> M D F B) R X' Q X :
  hoare P m R X' ->
  (forall a, hoare (R a) (k (inr a)) Q X) ->
  (forall e, hoare (X' (Some e) false) (k (inl e)) Q X) ->
  (forall e c, aborted c = true -> X' (Some e) true (db c) ->
     match k (inl e) c with
     | (Ok a, c') => aborted c' = false /\ Q a (db c')
     | (Err e', c') => X (Some e') (aborted c') (db c')
     | (Panic, c') => X None (aborted c') (db c')
     end) ->
  (forall ab d, X' None ab d -> X None ab d) ->
  hoare P (catch m k) Q X.
Proof.
  intros Hm Hok Herr Hab' Hpan c Hab Hc. unfold catch. specialize (Hm c Hab Hc).
  destruct (m c) as [[a|e|] c']; [by apply Hok; apply Hm| |by apply Hpan].
  destruct (aborted c') eqn:E'; [by apply Hab'|by apply Herr].
Qed.

Lemma hoare_map_err {E F A} (f : E -> F) (P : D -> Prop) (m : M D E A) Q X :
  hoare P m Q (fun e ab d => X (f <$> e) ab d) -> hoare P (map_err f m) Q X.
Proof.
  intros Hm c Hab Hc. unfold map_err, catch. specialize (Hm c Hab Hc).
  by destruct (m c) as [[a|e|] c'].
Qed.

Lemma hoare_now {E B} (P : D -> Prop) (k : Z -> M D E B) Q X :
  (forall t, hoare P (k t) Q X) -> hoare P (bind utc_now k) Q X.
Proof. intros H c Hab Hc. apply H; [exact Hab|exact Hc]. Qed.

Lemma hoare_exec {A} (s : Stmt D A) (P : D -> Prop) (Q : A -> D -> Prop) X :
  (forall now n d n' a d', P d -> s now n d = (n', inr (a, d')) -> Q a d') ->
  (forall k ab d, P d -> X (Some (DDatabaseError k)) ab d) ->
  hoare P (exec s) Q X.
Proof.
  intros HQ HX c Hab Hc. unfold exec. destruct (hd None (faults c)); [by apply HX|].
  rewrite Hab. destruct (s _ _ _) as [n [k|[a d']]] eqn:Es; [by apply HX|].
  split; [exact Hab|]. by eapply HQ.
Qed.

Lemma hoare_first_row {R} (m : M D DieselError (list R)) (P : D -> Prop) Q X :
  hoare P m (fun l d => match l with [] => X (Some DNotFound) false d | r :: _ => Q r d end) X ->
  hoare P (first_row m) Q X.
Proof.
  intros Hm. eapply hoare_bind; [exact Hm|].
  intros [|r l]; [by apply hoare_fail|by apply hoare_ret].
Qed.

Lemma hoare_affected {R} (m : M D DieselError (list R)) (P : D -> Prop) Q X :
  hoare P m (fun l d => Q (Z.of_nat (length l)) d) X -> hoare P (affected m) Q X.
Proof. intros Hm. eapply hoare_bind; [exact Hm|]. intros l. by apply hoare_ret. Qed.

Lemma hoare_optional {R} (m : M D DieselError R) (P : D -> Prop) Q X :
  hoare P m (fun r d => Q (Some r) d)
    (fun e ab d => match e with
                   | Some DNotFound => ab = false /\ Q None d
                   | _ => X e ab d end) ->
  hoare P (optional m) Q X.
Proof.
  intros Hm c Hab Hc. unfold optional, catch. specialize (Hm c Hab Hc).
  destruct (m c) as [[a|[]|] c']; auto.
Qed.

(** On [Ok] the body's effect is committed; otherwise the content is the one
    the transaction started from. *)
Lemma hoare_transaction {E A} from (P : D -> Prop) (body : M D E A) Q X :
  hoare P body Q (fun _ _ _ => True) ->
  (forall e ab d, P d -> X e ab d) ->
  hoare P (transaction from body) Q X.
Proof.
  intros Hb HX c Hab Hc. unfold transaction, control, exec.
  destruct (hd None (faults c)); [by apply HX|]. rewrite Hab. cbn -[sql_now].
  match goal with |- context [body ?i] =>
    pose proof (Hb i Hab Hc) as H; destruct (body i) as [[a|e|] c1] end;
    [|by apply HX..].
  destruct H as [Hab1 HQ]. rewrite Hab1. cbn. destruct (hd None (faults c1)); cbn.
  - by apply HX.
  - by rewrite Hab1.
Qed.

Lemma hoare_for_each {E A S} (l : list A) (body : S -> A -> M D E S) (I : S -> D -> Prop) X s :
  (forall s x, x ∈ l -> hoare (I s) (body s x) I X) ->
  hoare (I s) (for_each l s body) I X.
Proof.
  revert s. induction l as [|x l IH]; intros s H; simpl; [by apply hoare_ret|].
  eapply hoare_bind; [apply H; left|]. intros s'. apply IH. intros. apply H. by right.
Qed.

(** ** Preservation of an invariant by every outcome *)

Definition preserves {E A} (I : D -> Prop) (m : M D E A) : Prop :=
  forall c, I (db c) -> I (db (snd (m c))).

Lemma preserves_ret {E A} I (a : A) : preserves (E:=E) I (ret a).
Proof. by intros c. Qed.

Lemma preserves_fail {E A} I (e : E) : preserves (A:=A) I (fail e).
Proof. by intros c. Qed.

Lemma preserves_panic {E A} I : preserves (E:=E) (A:=A) I panic.
Proof. by intros c. Qed.

Lemma preserves_now {E} I : preserves (E:=E) I utc_now.
Proof. by intros c. Qed.

Lemma preserves_bind {E A B} I (m : M D E A) (k : A -> M D E B) :
  preserves I m -> (forall a, preserves I (k a)) -> preserves I (bind m k).
Proof.
  intros Hm Hk c Hc. unfold bind. specialize (Hm c Hc).
  destruct (m c) as [[a|e|] c']; [by apply Hk|done..].
Qed.

Lemma preserves_catch {E F A B} I (m : M D E A) (k : E + A -> M D F B) :
  preserves I m -> (forall r, preserves I (k r)) -> preserves I (catch m k).
Proof.
  intros Hm Hk c Hc. unfold catch. specialize (Hm c Hc).
  destruct (m c) as [[a|e|] c']; [by apply Hk..|done].
Qed.

Lemma preserves_map_err {E F A} I (f : E -> F) (m : M D E A) :
  preserves I m -> preserves I (map_err f m).
Proof. intros Hm. apply preserves_catch; [done|]. by intros [e|a] c. Qed.

Lemma preserves_exec {A} I (s : Stmt D A) :
  (forall now n d n' a d', I d -> s now n d = (n', inr (a, d')) -> I d') ->
  preserves I (exec s).
Proof.
  intros H c Hc. unfold exec. destruct (hd None (faults c)); [done|].
  destruct (aborted c); [done|].
  destruct (s _ _ _) as [n [k|[a d']]] eqn:Es; [done|]. by eapply H.
Qed.

Lemma preserves_first_row {R} I (m : M D DieselError (list R)) :
  preserves I m -> preserves I (first_row m).
Proof. intros Hm. apply preserves_bind; [done|]. by intros [|r l] c. Qed.

Lemma preserves_optional {R} I (m : M D DieselError R) :
  preserves I m -> preserves I (optional m).
Proof. intros Hm. apply preserves_catch; [done|]. by intros [[]|a] c. Qed.

Lemma preserves_affected {R} I (m : M D DieselError (list R)) :
  preserves I m -> preserves I (affected m).
Proof. intros Hm. apply preserves_bind; [done|]. by intros l c. Qed.

Lemma preserves_control I : preserves I (control (D:=D)).
Proof. apply preserves_exec. intros ??????? [=]. by subst. Qed.

Lemma preserves_transaction {E A} I from (body : M D E A) :
  preserves I body -> preserves I (transaction from body).
Proof.
  intros Hb c Hc. unfold transaction.
  pose proof (preserves_control I c Hc) as H0.
  destruct (control c) as [[u|e|] c0]; [|done..]. simpl in H0.
  match goal with |- context [body ?i] =>
    pose proof (Hb i H0) as H1; destruct (body i) as [[a|e|] c1] end; [|done..].
  simpl in H1. destruct (aborted c1 && _); [done|].
  pose proof (preserves_control I c1 H1) as H2.
  by destruct (control c1) as [[u'|e'|] c2].
Qed.

Lemma preserves_for_each {E A S} I (l : list A) (body : S -> A -> M D E S) s :
  (forall s x, preserves I (body s x)) -> preserves I (for_each l s body).
Proof.
  intros H. revert s. induction l as [|x l IH]; intros s; simpl; [apply preserves_ret|].
  by apply preserves_bind.
Qed.

(** A computation that returns [Err] inside a transaction leaves the content
    as it found it. *)
Lemma transaction_atomic {E A} from (body : M D E A) c :
  (forall a c', transaction from body c <> (Ok a, c')) ->
  db (snd (transaction from body c)) = db c.
Proof.
  unfold transaction. pose proof (preserves_control (fun d => d = db c) c eq_refl) as H0.
  destruct (control c) as [[u|e|] c0]; [|done..]. simpl in H0.
  match goal with |- context [body ?i] => destruct (body i) as [[a|e|] c1] end; [|done..].
  destruct (aborted c1 && _); [done|].
  destruct (control c1) as [[u'|e'|] c2]; intros H; [by destruct (H a (leave_tx c0 c2))|done..].
Qed.
End Rules.

Lemma preserves_or_panic {D E A} (I : D -> Prop) (o : option A) :
  preserves (E:=E) I (or_panic o).
Proof. by destruct o; intros c. Qed.

Lemma preserves_ok_or {D E A} (I : D -> Prop) (e : E) (o : option A) :
  preserves I (ok_or e o).
Proof. by destruct o; intros c. Qed.

(** Reading changes nothing. *)
Lemma preserves_select {D R} {T : Table D R} (I : D -> Prop) (p : R -> bool) :
  preserves I (exec (sql_select p)).
Proof. apply preserves_exec. by intros ?????? ? [= _ _ <-]. Qed.

Lemma preserves_count {D R} {T : Table D R} (I : D -> Prop) (p : R -> bool) :
  preserves I (exec (sql_count p)).
Proof. apply preserves_exec. by intros ?????? ? [= _ _ <-]. Qed.

Lemma preserves_query {D A} (I : D -> Prop) (f : D -> A) : preserves I (exec (sql_query f)).
Proof. apply preserves_exec. by intros ?????? ? [= _ _ <-]. Qed.

(** The preservation rules the [preserve] tactic applies. *)
Create HintDb portal.

#[export] Hint Resolve preserves_ret preserves_fail preserves_panic preserves_now
  preserves_bind preserves_catch preserves_map_err preserves_first_row preserves_optional
  preserves_affected preserves_control preserves_transaction preserves_for_each
  preserves_or_panic preserves_ok_or preserves_select preserves_count preserves_query : portal.

(** Splits a preservation goal along the structure of the program. *)
Ltac preserve :=
  repeat first
    [ progress intros
    | apply preserves_ret | apply preserves_fail | apply preserves_panic
    | apply preserves_now | apply preserves_transaction | apply preserves_for_each
    | apply preserves_bind | apply preserves_map_err | apply preserves_first_row
    | apply preserves_optional | apply preserves_affected | apply preserves_catch
    | apply preserves_or_panic | apply preserves_ok_or
    | apply preserves_select | apply preserves_count | apply preserves_query
    | match goal with |- preserves _ (match ?x with _ => _ end) => destruct x end
    | solve [eauto with portal] ].

(** ** Statements *)

Section Statements.
Context {D R : Type} {T : Table D R}.

Lemma sql_update_inv (P : R -> bool) f now n (d : D) n' a d' :
  sql_update P f now n d = (n', inr (a, d')) ->
  a = map (f now) (List.filter P (rows d)) /\
  d' = set_rows (map (fun r => if P r then f now r else r) (rows d)) d /\
  first_violation d' a = None.
Proof. unfold sql_update, checked. intros H. case_match; by simplify_eq. Qed.

Lemma sql_insert_inv (mk : Z -> Z -> R) now n (d : D) n' a d' :
  sql_insert mk now n d = (n', inr (a, d')) ->
  a = mk now n /\ n' = n + 1 /\ d' = set_rows (rows d ++ [a]) d /\ violated d' a = None.
Proof. unfold sql_insert, checked. simpl. intros H. repeat case_match; by simplify_eq. Qed.

Lemma sql_delete_inv (P : R -> bool) now n (d : D) n' a d' :
  sql_delete P now n d = (n', inr (a, d')) ->
  a = List.filter P (rows d) /\
  on_delete a (set_rows (List.filter (fun r => negb (P r)) (rows d)) d) = inr d'.
Proof. unfold sql_delete. intros H. case_match; by simplify_eq. Qed.

Lemma sql_upsert_inv (same : R -> bool) mk f now n (d : D) n' a d' :
  sql_upsert same mk f now n d = (n', inr (a, d')) ->
  List.filter same (rows d) = [] /\ d' = set_rows (rows d ++ [mk now n]) d \/
  d' = set_rows (map (fun r => if same r then f now r else r) (rows d)) d.
Proof.
  unfold sql_upsert. destruct (List.filter same (rows d)) as [|r l] eqn:E.
  - intros (-> & _ & -> & _)%sql_insert_inv. by left.
  - destruct (sql_update same f now (n + 1) d) as [n1 [k|[l1 d1]]] eqn:E1; intros [=]; subst.
    right. by apply sql_update_inv in E1 as (_ & -> & _).
Qed.

Lemma hoare_select (P : R -> bool) (d0 : D) Q X :
  Q (List.filter P (rows d0)) d0 ->
  (forall k ab, X (Some (DDatabaseError k)) ab d0) ->
  hoare (fun d => d = d0) (exec (sql_select P)) Q X.
Proof. intros HQ HX. apply hoare_exec; [|by intros ??? ->]. by intros ?????? -> [= <- <- <-]. Qed.

Lemma hoare_count (P : R -> bool) (d0 : D) Q X :
  Q (Z.of_nat (length (List.filter P (rows d0)))) d0 ->
  (forall k ab, X (Some (DDatabaseError k)) ab d0) ->
  hoare (fun d => d = d0) (exec (sql_count P)) Q X.
Proof. intros HQ HX. apply hoare_exec; [|by intros ??? ->]. by intros ?????? -> [= <- <- <-]. Qed.

Lemma hoare_update (P : R -> bool) f (d0 : D) Q X :
  (forall now d', d' = set_rows (map (fun r => if P r then f now r else r) (rows d0)) d0 ->
     first_violation d' (map (f now) (List.filter P (rows d0))) = None ->
     Q (map (f now) (List.filter P (rows d0))) d') ->
  (forall k ab, X (Some (DDatabaseError k)) ab d0) ->
  hoare (fun d => d = d0) (exec (sql_update P f)) Q X.
Proof.
  intros HQ HX. apply hoare_exec; [|by intros ??? ->].
  intros now n d n' a d' -> H. apply sql_update_inv in H as (-> & Hd & Hv). by eapply HQ.
Qed.

Lemma hoare_insert (mk : Z -> Z -> R) (d0 : D) Q X :
  (forall now n d', d' = set_rows (rows d0 ++ [mk now n]) d0 ->
     violated d' (mk now n) = None -> Q (mk now n) d') ->
  (forall k ab, X (Some (DDatabaseError k)) ab d0) ->
  hoare (fun d => d = d0) (exec (sql_insert mk)) Q X.
Proof.
  intros HQ HX. apply hoare_exec; [|by intros ??? ->].
  intros now n d n' a d' -> H. apply sql_insert_inv in H as (-> & _ & Hd & Hv). by eapply HQ.
Qed.

Lemma hoare_delete (P : R -> bool) (d0 : D) Q X :
  (forall d', on_delete (List.filter P (rows d0))
                (set_rows (List.filter (fun r => negb (P r)) (rows d0)) d0) = inr d' ->
     Q (List.filter P (rows d0)) d') ->
  (forall k ab, X (Some (DDatabaseError k)) ab d0) ->
  hoare (fun d => d = d0) (exec (sql_delete P)) Q X.
Proof.
  intros HQ HX. apply hoare_exec; [|by intros ??? ->].
  intros now n d n' a d' -> H. apply sql_delete_inv in H as (-> & Hd). by eapply HQ.
Qed.
End Statements.

(** Selecting rows and sorting them on the server. *)
Lemma hoare_pure_after {D E A B} (P : D -> Prop) (m : M D E A) (f : A -> B) Q X :
  hoare P m (fun a d => Q (f a) d) X -> hoare P (bind m (fun a => ret (f a))) Q X.
Proof. intros H. eapply hoare_bind; [exact H|]. intros a. by apply hoare_ret. Qed.

(** A pure precondition selects the database the rest starts from. *)
Lemma hoare_at {D E A} (P : D -> Prop) (m : M D E A) Q X :
  (forall d0, P d0 -> hoare (fun d => d = d0) m Q X) -> hoare P m Q X.
Proof. intros H c Hab Hc. by apply (H (db c)). Qed.

Lemma hoare_or_panic {D E A B} (o : option A) (P : D -> Prop) (k : A -> M D E B) Q X :
  (forall a, o = Some a -> hoare P (k a) Q X) ->
  (o = None -> forall d, P d -> X None false d) ->
  hoare P (bind (or_panic o) k) Q X.
Proof.
  intros Hk Hn. destruct o as [a|]; simpl.
  - eapply hoare_bind; [by apply (hoare_ret P a (fun b d => b = a /\ P d))|].
    intros b. apply hoare_at. intros d0 [-> H0]. intros c Hab Hc. apply Hk; [done|done|].
    by rewrite Hc.
  - intros c Hab Hc. simpl. rewrite Hab. by apply Hn.
Qed.

(** [evolves R m]: whatever the outcome, the content moves by [R]. *)
Definition evolves {D E A} (R : D -> D -> Prop) (m : M D E A) : Prop :=
  forall c, aborted c = false -> R (db c) (db (snd (m c))).

Lemma hoare_evolves {D E A} (R : D -> D -> Prop) (m : M D E A) :
  (forall d0, hoare (fun d => d = d0) m (fun _ d => R d0 d) (fun _ _ d => R d0 d)) ->
  evolves R m.
Proof.
  intros H c Hab. specialize (H (db c) c Hab eq_refl).
  destruct (m c) as [[a|e|] c']; [by destruct H|done..].
Qed.

(** ** Total correctness *)

(** A connection on which nothing is injected: no failure, and the clock reads
    [t] throughout. *)
Definition quiet {D} (t : Z) (c : Conn D) : Prop :=
  faults c = [] /\ ticks c = [] /\ clock c = t /\ (tx_depth c <> 0%nat -> tx_now c = t).

Definition still {D} (t : Z) (c : Conn D) : Prop := aborted c = false /\ quiet t c.

(** [yields t P m Q]: on a still connection whose content meets [P], [m] ends in
    an outcome that [Q] allows; after [Ok] the connection can be used on. *)
Definition yields {D E A} (t : Z) (P : D -> Prop) (m : M D E A)
    (Q : outcome E A -> D -> Prop) : Prop :=
  forall c, still t c -> P (db c) ->
    match m c with
    | (Ok a, c') => still t c' /\ tx_depth c' = tx_depth c /\ Q (Ok a) (db c')
    | (Err e, c') => quiet t c' /\ tx_depth c' = tx_depth c /\ Q (Err e) (db c')
    | (Panic, c') => Q Panic (db c')
    end.

Lemma still_calm {D} (d : D) t n : still t (calm d t [] n).
Proof. by split_and!. Qed.

Section TotalRules.
Context {D : Type} (t : Z).

Lemma total_ret {E A} (P : D -> Prop) (a : A) (Q : outcome E A -> D -> Prop) :
  (forall d, P d -> Q (Ok a) d) -> yields t P (ret a) Q.
Proof. intros H c Hs Hc. split_and!; auto. Qed.

Lemma total_fail {E A} (P : D -> Prop) (e : E) (Q : outcome E A -> D -> Prop) :
  (forall d, P d -> Q (Err e) d) -> yields t P (fail e) Q.
Proof. intros H c [_ Hs] Hc. split_and!; auto. Qed.

Lemma total_conseq {E A} (P P' : D -> Prop) (m : M D E A) Q Q' :
  yields t P m Q -> (forall d, P' d -> P d) -> (forall o d, Q o d -> Q' o d) -> yields t P' m Q'.
Proof.
  intros Hm HP HQ c Hs Hc. specialize (Hm c Hs (HP _ Hc)).
  destruct (m c) as [[a|e|] c']; naive_solver.
Qed.

Lemma total_bind {E A B} (P : D -> Prop) (m : M D E A) (k : A -> M D E B) R Q :
  yields t P m R ->
  (forall a, yields t (R (Ok a)) (k a) Q) ->
  (forall e d, R (Err e) d -> Q (Err e) d) ->
  (forall d, R Panic d -> Q Panic d) ->
  yields t P (bind m k) Q.
Proof.
  intros Hm Hk He Hp c Hs Hc. unfold bind. specialize (Hm c Hs Hc).
  destruct (m c) as [[a|e|] c']; [|naive_solver|auto].
  destruct Hm as (Hs' & Hd & HR). specialize (Hk a c' Hs' HR). rewrite <- Hd. done.
Qed.

Lemma total_now {E A} (P : D -> Prop) (k : Z -> M D E A) Q :
  yields t P (k t) Q -> yields t P (bind utc_now k) Q.
Proof.
  intros Hk c Hs Hc. unfold bind, utc_now. destruct Hs as (Ha & Hf & Ht & Hcl & Hn).
  rewrite Ht. simpl. rewrite Z.add_0_r, Hcl.
  specialize (Hk (c <| clock := t |> <| ticks := [] |>)). by apply Hk.
Qed.

(** A statement that changes nothing but the content. *)
Lemma total_exec {A} (s : Stmt D A) (d0 : D) (Q : outcome DieselError A -> D -> Prop) :
  (forall n, match snd (s t n d0) with
             | inr (a, d) => Q (Ok a) d
             | inl k => Q (Err (DDatabaseError k)) d0
             end) ->
  yields t (fun d => d = d0) (exec s) Q.
Proof.
  intros H c (Ha & Hf & Ht & Hcl & Hn) Hc. unfold exec. rewrite Hf, Ha. cbn [hd].
  assert (sql_now c = t) as ->.
  { unfold sql_now. destruct (tx_depth c) eqn:E; simpl; [done|]. by apply Hn. }
  specialize (H (next_serial c)). rewrite Hc.
  destruct (s t (next_serial c) d0) as [n [k|[a d]]]; simpl in *.
  - split; [|by rewrite Hc]. by split_and!.
  - by split_and!.
Qed.

Lemma total_first_row {R} (P : D -> Prop) (m : M D DieselError (list R)) Q :
  yields t P m (fun o d => match o with
                          | Ok [] => Q (Err DNotFound) d
                          | Ok (r :: _) => Q (Ok r) d
                          | Err e => Q (Err e) d
                          | Panic => Q Panic d
                          end) ->
  yields t P (first_row m) Q.
Proof.
  intros H. eapply total_bind; [exact H| |done|done].
  intros [|r l]; [by apply total_fail|by apply total_ret].
Qed.

Lemma total_pure_after {E A B} (P : D -> Prop) (m : M D E A) (f : A -> B) Q :
  yields t P m (fun o d => match o with
                          | Ok a => Q (Ok (f a)) d
                          | Err e => Q (Err e) d
                          | Panic => Q Panic d
                          end) ->
  yields t P (bind m (fun a => ret (f a))) Q.
Proof. intros H. eapply total_bind; [exact H| |done|done]. intros a. by apply total_ret. Qed.

Lemma total_affected {R} (P : D -> Prop) (m : M D DieselError (list R)) Q :
  yields t P m (fun o d => match o with
                          | Ok l => Q (Ok (Z.of_nat (length l))) d
                          | Err e => Q (Err e) d
                          | Panic => Q Panic d
                          end) ->
  yields t P (affected m) Q.
Proof. apply total_pure_after. Qed.

(** An error is caught only where it leaves the transaction usable. *)
Lemma total_optional {R} (P : D -> Prop) (m : M D DieselError R) Q :
  (forall c, aborted c = false -> forall c', m c = (Err DNotFound, c') -> aborted c' = false) ->
  yields t P m (fun o d => match o with
                          | Ok r => Q (Ok (Some r)) d
                          | Err DNotFound => Q (Ok None) d
                          | Err e => Q (Err e) d
                          | Panic => Q Panic d
                          end) ->
  yields t P (optional m) Q.
Proof.
  intros Hn H c Hs Hc. unfold optional, catch. specialize (H c Hs Hc).
  destruct (m c) as [[a|e|] c'] eqn:E; [done| |done].
  destruct e; try done; []. destruct H as (Hq & Hd & HQ), Hs as [Ha _].
  specialize (Hn c Ha c' E). by split_and!.
Qed.

Lemma total_map_err {E F A} (P : D -> Prop) (f : E -> F) (m : M D E A) Q :
  yields t P m (fun o d => match o with
                          | Ok r => Q (Ok r) d
                          | Err e => Q (Err (f e)) d
                          | Panic => Q Panic d
                          end) ->
  yields t P (map_err f m) Q.
Proof.
  intros H c Hs Hc. unfold map_err, catch. specialize (H c Hs Hc).
  by destruct (m c) as [[a|e|] c'].
Qed.

(** The body runs inside, at the transaction's start time; an error or a
    panic takes the content back. *)
Lemma total_transaction {E A} (from : DieselError -> E) (body : M D E A) d0 Q :
  yields t (fun d => d = d0) body (fun o d => match o with
                               | Ok a => Q (Ok a) d
                               | Err e => Q (Err e) d0
                               | Panic => Q Panic d0
                               end) ->
  yields t (fun d => d = d0) (transaction from body) Q.
Proof.
  intros Hb c Hs Hc. pose proof Hs as (Ha & Hf & Ht & Hcl & Hn).
  assert (Hnow : sql_now c = t).
  { unfold sql_now. destruct (tx_depth c) eqn:Edepth; simpl; [done|]. by apply Hn. }
  unfold transaction, control, exec. rewrite Hf, Ha. cbn -[sql_now].
  match goal with |- context [body ?i] =>
    assert (still t i) as Hi by (split_and!; simpl; try done; rewrite <- Hnow; reflexivity);
    specialize (Hb i Hi Hc); destruct (body i) as [[a|e|] c1] end.
  - destruct Hb as ((Ha1 & Hf1 & Ht1 & Hcl1 & Hn1) & Hd1 & HQ).
    rewrite Ha1, Hf1. cbn. by split_and!.
  - destruct Hb as ((Hf1 & Ht1 & Hcl1 & Hn1) & Hd & HQ). simpl in *.
    rewrite Hc. by split_and!.
  - simpl. by rewrite Hc.
Qed.
End TotalRules.

Section TotalStatements.
Context {D R : Type} {T : Table D R} (t : Z).

Lemma total_select (P : R -> bool) (d0 : D) (Q : outcome DieselError (list R) -> D -> Prop) :
  Q (Ok (List.filter P (rows d0))) d0 -> yields t (fun d => d = d0) (exec (sql_select P)) Q.
Proof. intros H. by apply total_exec. Qed.

Lemma total_count (P : R -> bool) (d0 : D) (Q : outcome DieselError Z -> D -> Prop) :
  Q (Ok (Z.of_nat (length (List.filter P (rows d0))))) d0 ->
  yields t (fun d => d = d0) (exec (sql_count P)) Q.
Proof. intros H. by apply total_exec. Qed.

Lemma total_update (P : R -> bool) f (d0 : D) (Q : outcome DieselError (list R) -> D -> Prop) :
  (let changed := map (f t) (List.filter P (rows d0)) in
   let d' := set_rows (map (fun r => if P r then f t r else r) (rows d0)) d0 in
   match first_violation d' changed with
   | None => Q (Ok changed) d'
   | Some k => Q (Err (DDatabaseError k)) d0
   end) ->
  yields t (fun d => d = d0) (exec (sql_update P f)) Q.
Proof. intros H. apply total_exec. intros n. simpl in *. unfold checked. by destruct (first_violation _ _). Qed.

Lemma total_insert (mk : Z -> Z -> R) (d0 : D) (Q : outcome DieselError R -> D -> Prop) :
  (forall n, let d' := set_rows (rows d0 ++ [mk t n]) d0 in
   match violated d' (mk t n) with
   | None => Q (Ok (mk t n)) d'
   | Some k => Q (Err (DDatabaseError k)) d0
   end) ->
  yields t (fun d => d = d0) (exec (sql_insert mk)) Q.
Proof.
  intros H. apply total_exec. intros n. specialize (H n). simpl in *. unfold checked. simpl.
  by destruct (violated _ _).
Qed.

Lemma total_delete (P : R -> bool) (d0 : D) (Q : outcome DieselError (list R) -> D -> Prop) :
  (match on_delete (List.filter P (rows d0))
           (set_rows (List.filter (fun r => negb (P r)) (rows d0)) d0) with
   | inr d' => Q (Ok (List.filter P (rows d0))) d'
   | inl k => Q (Err (DDatabaseError k)) d0
   end) ->
  yields t (fun d => d = d0) (exec (sql_delete P)) Q.
Proof. intros H. apply total_exec. intros n. simpl in *. by destruct (on_delete _ _). Qed.
End TotalStatements.

Lemma total_at {D E A} t (P : D -> Prop) (m : M D E A) Q :
  (forall d0, P d0 -> yields t (fun d => d = d0) m Q) -> yields t P m Q.
Proof. intros H c Hs Hc. by apply (H (db c)). Qed.

Lemma total_or_panic {D E A B} t (o : option A) (P : D -> Prop) (k : A -> M D E B) Q :
  (forall a, o = Some a -> yields t P (k a) Q) ->
  (o = None -> forall d, P d -> Q Panic d) ->
  yields t P (bind (or_panic o) k) Q.
Proof. intros Hk Hn. destruct o as [a|]; [by apply Hk|]. intros c Hs Hc. by apply Hn. Qed.

(** [.optional()] around [.first()] or [.get_result()]. *)
Lemma first_row_not_aborted {D R} (m : M D DieselError (list R)) c c' :
  (forall c1, m c <> (Err DNotFound, c1)) -> (forall l c1, m c = (Ok l, c1) -> aborted c1 = false) ->
  first_row m c = (Err DNotFound, c') -> aborted c' = false.
Proof.
  intros Hm Ha. unfold first_row, bind. destruct (m c) as [[l|e|] c1] eqn:E.
  - specialize (Ha l c1 eq_refl). destruct l; intros [=]; by subst.
  - intros [=]; subst. by destruct (Hm c').
  - done.
Qed.

Lemma exec_ok_not_aborted {D A} (s : Stmt D A) c a c' :
  exec s c = (Ok a, c') -> aborted c' = false.
Proof.
  unfold exec. destruct (hd None (faults c)); [done|]. destruct (aborted c) eqn:E; [done|].
  destruct (s _ _ _) as [n [k|[b d]]]; intros [=]; by subst.
Qed.

Lemma exec_not_found {D A} (s : Stmt D A) c c' : exec s c <> (Err DNotFound, c').
Proof.
  unfold exec. destruct (hd None (faults c)); [done|]. destruct (aborted c); [done|].
  by destruct (s _ _ _) as [n [k|[b d]]].
Qed.

Lemma total_optional_first {D R B} t (P : D -> Prop) (s : Stmt D B) (f : B -> list R) Q :
  yields t P (first_row (l <- exec s ;; ret (f l)))
    (fun o d => match o with
                | Ok r => Q (Ok (Some r)) d
                | Err DNotFound => Q (Ok None) d
                | Err e => Q (Err e) d
                | Panic => Q Panic d
                end) ->
  yields t P (optional (first_row (l <- exec s ;; ret (f l)))) Q.
Proof.
  apply total_optional. intros c _ c'. apply first_row_not_aborted; unfold bind, ret.
  - intros c1. destruct (exec s c) as [[a|e|] c2] eqn:E; [done| |done].
    intros [=]; subst. by apply exec_not_found in E.
  - intros l c1. destruct (exec s c) as [[a|e|] c2] eqn:E; intros [=]; subst.
    by eapply exec_ok_not_aborted.
Qed.

Lemma total_optional_exec {D R} t (P : D -> Prop) (s : Stmt D (list R)) Q :
  yields t P (first_row (exec s))
    (fun o d => match o with
                | Ok r => Q (Ok (Some r)) d
                | Err DNotFound => Q (Ok None) d
                | Err e => Q (Err e) d
                | Panic => Q Panic d
                end) ->
  yields t P (optional (first_row (exec s))) Q.
Proof.
  apply total_optional. intros c _ c'. apply first_row_not_aborted.
  - intros c1. apply exec_not_found.
  - intros l c1. apply exec_ok_not_aborted.
Qed.

(** ** Operations that start by reading the clock *)

(** The reading of the clock that an operation takes first. *)
Definition reading {D} (c : Conn D) : Z := clock c + hd 0 (ticks c).

Lemma run_at_reading {D E A} (k : Z -> M D E A) c Q X :
  aborted c = false -> hoare (fun d => d = db c) (k (reading c)) Q X ->
  match bind utc_now k c with
  | (Ok a, c') => Q a (db c')
  | (Err e, c') => X (Some e) (aborted c') (db c')
  | (Panic, c') => X None (aborted c') (db c')
  end.
Proof.
  intros Ha H. unfold bind, utc_now.
  match goal with |- context [k _ ?c1] => specialize (H c1 Ha eq_refl) end.
  unfold reading in H. destruct (k _ _) as [[a|e|] c']; [by destruct H|done..].
Qed.

(** [starts t P m Q]: like [hoare], for a computation whose first reading of the
    clock is [t]. *)
Definition starts {D E A} (t : Z) (P : D -> Prop) (m : M D E A) (Q : A -> D -> Prop) : Prop :=
  forall c, aborted c = false -> reading c = t -> P (db c) ->
    match m c with
    | (Ok a, c') => aborted c' = false /\ Q a (db c')
    | _ => True
    end.

Lemma starts_now {D E A} t (P : D -> Prop) (k : Z -> M D E A) Q :
  hoare P (k t) Q (fun _ _ _ => True) -> starts t P (bind utc_now k) Q.
Proof.
  intros H c Ha Hr Hp. unfold bind, utc_now.
  match goal with |- context [k _ ?c1] => specialize (H c1 Ha Hp) end.
  unfold reading in Hr. rewrite Hr in H |- *. by destruct (k _ _) as [[a|e|] c'].
Qed.

Lemma starts_exec {D A B} t (P : D -> Prop) (s : Stmt D A) (k : A -> M D DieselError B) R Q :
  (forall now n d n' a d', P d -> s now n d = (n', inr (a, d')) -> R a d') ->
  (forall a, starts t (R a) (k a) Q) -> starts t P (bind (exec s) k) Q.
Proof.
  intros Hs Hk c Ha Hr Hp. unfold bind, exec. destruct (hd None (faults c)); [done|]. rewrite Ha.
  destruct (s _ _ _) as [n [e|[a d]]] eqn:E; [done|]. apply (Hk a); try done.
  by eapply Hs.
Qed.

Lemma transaction_starts {D E A} from (body : M D E A) c Q :
  aborted c = false -> starts (reading c) (fun d => d = db c) body Q ->
  match transaction from body c with
  | (Ok a, c') => Q a (db c')
  | (_, c') => db c' = db c
  end.
Proof.
  intros Ha H. unfold transaction, control, exec.
  destruct (hd None (faults c)); [done|]. rewrite Ha. cbn -[sql_now].
  match goal with |- context [body ?i] => specialize (H i Ha eq_refl eq_refl);
    destruct (body i) as [[a|e|] c1] end; [|done..].
  destruct H as [Ha1 HQ]. rewrite Ha1. cbn. destruct (hd None (faults c1)); [done|]. cbn.
  done.
Qed.

Lemma transaction_at_reading {D E A} from (k : Z -> M D E A) c Q :
  aborted c = false -> hoare (fun d => d = db c) (k (reading c)) Q (fun _ _ _ => True) ->
  match transaction from (bind utc_now k) c with
  | (Ok a, c') => Q a (db c')
  | (_, c') => db c' = db c
  end.
Proof. intros Ha H. by apply transaction_starts, starts_now. Qed.

(** A guarded single-row update: the row that met the guard, or no change. *)
Lemma optional_update_effect {D R} {T : Table D R} (P : R -> bool) f (d0 : D) :
  hoare (fun d => d = d0) (optional (first_row (exec (sql_update P (fun _ => f)))))
    (fun o d => match o with
                | Some r => exists x, x ∈ rows d0 /\ P x = true /\ r = f x /\
                    d = set_rows (map (fun y => if P y then f y else y) (rows d0)) d0
                | None => d = d0 /\ forall x, x ∈ rows d0 -> P x = false
                end)
    (fun _ _ d => d = d0).
Proof.
  apply hoare_optional, hoare_first_row, hoare_update; [|done]. intros _ d' -> _.
  destruct (List.filter P (rows d0)) as [|x l] eqn:E; simpl.
  - assert (forall x, x ∈ rows d0 -> P x = false) as Hf by (intros x; by apply filter_nil_inv_b).
    by rewrite map_none_b, set_rows_rows.
  - exists x. assert (x ∈ List.filter P (rows d0)) as Hx by (rewrite E; left).
    apply elem_of_filter_b in Hx as [??]. done.
Qed.

(** ** Code that runs outside a transaction *)

(** Outside a transaction a failed statement changes nothing and the next one
    can be executed. *)
Definition top {D} (c : Conn D) : Prop := tx_depth c = 0%nat /\ aborted c = false.

Definition outer {D E A} (P : D -> Prop) (m : M D E A) (Q : A -> D -> Prop)
    (X : option E -> D -> Prop) : Prop :=
  forall c, top c -> P (db c) ->
    match m c with
    | (Ok a, c') => top c' /\ Q a (db c')
    | (Err e, c') => top c' /\ X (Some e) (db c')
    | (Panic, c') => X None (db c')
    end.

Section OuterRules.
Context {D : Type}.

Lemma outer_conseq {E A} (P P' : D -> Prop) (m : M D E A) Q Q' X X' :
  outer P m Q X -> (forall d, P' d -> P d) -> (forall a d, Q a d -> Q' a d) ->
  (forall e d, X e d -> X' e d) -> outer P' m Q' X'.
Proof.
  intros H HP HQ HX c Ht Hc. specialize (H c Ht (HP _ Hc)).
  destruct (m c) as [[a|e|] c']; naive_solver.
Qed.

Lemma outer_ret {E A} (P : D -> Prop) (a : A) (Q : A -> D -> Prop) (X : option E -> D -> Prop) :
  (forall d, P d -> Q a d) -> outer P (ret a) Q X.
Proof. intros H c Ht Hc. split; auto. Qed.

Lemma outer_fail {E A} (P : D -> Prop) (e : E) (Q : A -> D -> Prop) X :
  (forall d, P d -> X (Some e) d) -> outer P (fail e) Q X.
Proof. intros H c Ht Hc. split; auto. Qed.

Lemma outer_bind {E A B} (P : D -> Prop) (m : M D E A) (k : A -> M D E B) R Q X :
  outer P m R X -> (forall a, outer (R a) (k a) Q X) -> outer P (bind m k) Q X.
Proof.
  intros Hm Hk c Ht Hc. unfold bind. specialize (Hm c Ht Hc).
  destruct (m c) as [[a|e|] c']; [|done..]. destruct Hm. by apply Hk.
Qed.

Lemma outer_catch {E F A B} (P : D -> Prop) (m : M D E A) (k : E + A -> M D F B) R X' Q X :
  outer P m R X' -> (forall a, outer (R a) (k (inr a)) Q X) ->
  (forall e, outer (X' (Some e)) (k (inl e)) Q X) -> (forall d, X' None d -> X None d) ->
  outer P (catch m k) Q X.
Proof.
  intros Hm Hok Herr Hpan c Ht Hc. unfold catch. specialize (Hm c Ht Hc).
  destruct (m c) as [[a|e|] c']; [|..|by apply Hpan]; destruct Hm; [by apply Hok|by apply Herr].
Qed.

Lemma outer_map_err {E F A} (f : E -> F) (P : D -> Prop) (m : M D E A) Q X :
  outer P m Q (fun e d => X (f <$> e) d) -> outer P (map_err f m) Q X.
Proof.
  intros Hm. eapply outer_catch; [exact Hm| | |done].
  - intros a. by apply outer_ret.
  - intros e. by apply outer_fail.
Qed.

Lemma outer_now {E B} (P : D -> Prop) (k : Z -> M D E B) Q X :
  (forall t, outer P (k t) Q X) -> outer P (bind utc_now k) Q X.
Proof. intros H c Ht Hc. apply H; [exact Ht|exact Hc]. Qed.

Lemma outer_or_panic {E A B} (o : option A) (P : D -> Prop) (k : A -> M D E B) Q X :
  (forall a, o = Some a -> outer P (k a) Q X) -> (forall d, P d -> X None d) ->
  outer P (bind (or_panic o) k) Q X.
Proof. intros Hk Hn. destruct o as [a|]; [by apply Hk|]. intros c Ht Hc. by apply Hn. Qed.

Lemma outer_at {E A} (P : D -> Prop) (m : M D E A) Q X :
  (forall d0, P d0 -> outer (fun d => d = d0) m Q X) -> outer P m Q X.
Proof. intros H c Ht Hc. by apply (H (db c)). Qed.

(** A computation in which nothing is caught. *)
Lemma outer_hoare {E A} (P : D -> Prop) (m : M D E A) Q X :
  (forall c, top c -> match m c with (Panic, _) => True | (_, c') => top c' end) ->
  hoare P m Q (fun e _ d => X e d) -> outer P m Q X.
Proof.
  intros Hk Hm c Ht Hc. specialize (Hk c Ht). destruct Ht as [Ht Ha]. specialize (Hm c Ha Hc).
  destruct (m c) as [[a|e|] c']; [split; [done|apply Hm]|split; done|done].
Qed.

Lemma exec_top {A} (s : Stmt D A) c :
  top c -> match exec s c with (Panic, _) => True | (_, c') => top c' end.
Proof.
  intros [Ht Ha]. unfold exec. rewrite Ht, Ha. simpl. destruct (hd None (faults c)); [done|].
  by destruct (s _ _ _) as [n [k|[a d]]].
Qed.

Lemma transaction_top {E A} from (body : M D E A) c :
  top c -> match transaction from body c with (Panic, _) => True | (_, c') => top c' end.
Proof.
  intros Ht. unfold transaction. pose proof (exec_top (fun _ n d => (n, inr (tt, d))) c Ht) as H0.
  fold (control (D:=D)) in H0. destruct (control c) as [[[]|e|] c0]; [|done|done].
  destruct H0 as [Hd Ha]. destruct (body _) as [[a|e|] c1]; [|split; done|done].
  destruct (aborted c1 && _); [split; done|].
  destruct (control c1) as [[u|e|] c2] eqn:E2; [|split; done|done].
  split; [done|]. by apply exec_ok_not_aborted in E2.
Qed.

Lemma outer_exec {A} (s : Stmt D A) (P : D -> Prop) (Q : A -> D -> Prop) X :
  (forall now n d n' a d', P d -> s now n d = (n', inr (a, d')) -> Q a d') ->
  (forall k d, P d -> X (Some (DDatabaseError k)) d) ->
  outer P (exec s) Q X.
Proof.
  intros HQ HX. apply outer_hoare; [|apply hoare_exec; auto].
  intros c Ht. by apply exec_top.
Qed.

Lemma outer_transaction {E A} from (P : D -> Prop) (body : M D E A) Q X :
  hoare P body Q (fun _ _ _ => True) -> (forall e d, P d -> X e d) ->
  outer P (transaction from body) Q X.
Proof.
  intros Hb HX. apply outer_hoare; [intros c Ht; by apply transaction_top|].
  apply hoare_transaction; [exact Hb|]. intros e _ d. apply HX.
Qed.

Lemma outer_first_row {R} (m : M D DieselError (list R)) (P : D -> Prop) Q X :
  outer P m (fun l d => match l with [] => X (Some DNotFound) d | r :: _ => Q r d end) X ->
  outer P (first_row m) Q X.
Proof.
  intros Hm. eapply outer_bind; [exact Hm|].
  intros [|r l]; [by apply outer_fail|by apply outer_ret].
Qed.

Lemma outer_affected {R} (m : M D DieselError (list R)) (P : D -> Prop) Q X :
  outer P m (fun l d => Q (Z.of_nat (length l)) d) X -> outer P (affected m) Q X.
Proof. intros Hm. eapply outer_bind; [exact Hm|]. intros l. by apply outer_ret. Qed.

Lemma outer_optional {R} (m : M D DieselError R) (P : D -> Prop) Q X :
  outer P m (fun r d => Q (Some r) d)
    (fun e d => match e with Some DNotFound => Q None d | _ => X e d end) ->
  outer P (optional m) Q X.
Proof.
  intros Hm. eapply outer_catch; [exact Hm| | |done].
  - intros a. by apply outer_ret.
  - intros []; [by apply outer_ret|by apply outer_fail..].
Qed.
End OuterRules.

(** A selection outside a transaction. *)
Lemma outer_select {D R} {T : Table D R} (p : R -> bool) (d0 : D) Q X :
  Q (List.filter p (rows d0)) d0 -> (forall k, X (Some (DDatabaseError k)) d0) ->
  outer (fun d => d = d0) (exec (sql_select p)) Q X.
Proof. intros HQ HX. apply outer_exec; [|by intros ? ? ->]. by intros ?????? -> [= <- <- <-]. Qed.

(** The rows of an [outer] selection that were met. *)
Lemma outer_find {D R} {T : Table D R} (p : R -> bool) (d0 : D) (Q : R -> D -> Prop) X :
  (forall r, r ∈ rows d0 -> p r = true -> Q r d0) ->
  (List.filter p (rows d0) = [] -> X (Some DNotFound) d0) ->
  (forall k, X (Some (DDatabaseError k)) d0) ->
  outer (fun d => d = d0) (first_row (exec (sql_select p))) Q X.
Proof.
  intros HQ HN HX. apply outer_first_row, outer_select; [|done].
  destruct (List.filter p (rows d0)) as [|r l] eqn:E; [by apply HN|].
  assert (r ∈ List.filter p (rows d0)) as Hr by (rewrite E; left).
  apply elem_of_filter_b in Hr as [? ?]. by apply HQ.
Qed.

(** One selection, on any connection. *)
Lemma find_cases {D R} {T : Table D R} (p : R -> bool) c o c' :
  first_row (exec (sql_select p)) c = (o, c') ->
  db c' = db c /\ reading c' = reading c /\
  match o with
  | Ok r => r ∈ rows (db c) /\ p r = true
  | Err DNotFound => List.filter p (rows (db c)) = []
  | _ => True
  end.
Proof.
  unfold first_row, bind, exec, sql_select, reading.
  destruct (hd None (faults c)); [by intros [= <- <-]|].
  destruct (aborted c); [by intros [= <- <-]|].
  destruct (List.filter p (rows (db c))) as [|r l] eqn:E; intros [= <- <-]; simpl; [done|].
  assert (r ∈ List.filter p (rows (db c))) as Hr by (rewrite E; left).
  by apply elem_of_filter_b in Hr.
Qed.

Lemma select_cases {D R} {T : Table D R} (p : R -> bool) c o c' :
  exec (sql_select p) c = (o, c') ->
  db c' = db c /\ reading c' = reading c /\
  match o with Ok l => l = List.filter p (rows (db c)) | _ => True end.
Proof.
  unfold exec, sql_select, reading.
  destruct (hd None (faults c)); [by intros [= <- <-]|].
  destruct (aborted c); by intros [= <- <-].
Qed.

Lemma outer_at_reading {D E A} (k : Z -> M D E A) c Q X :
  top c -> outer (fun d => d = db c) (k (reading c)) Q X ->
  match bind utc_now k c with
  | (Ok a, c') => top c' /\ Q a (db c')
  | (Err e, c') => top c' /\ X (Some e) (db c')
  | (Panic, c') => X None (db c')
  end.
Proof. intros Ht H. unfold bind, utc_now. by apply H. Qed.

(** Computations that leave the connection usable outside a transaction. *)
Definition tops {D E A} (m : M D E A) : Prop :=
  forall c, top c -> match m c with (Panic, _) => True | (_, c') => top c' end.

Lemma tops_bind {D E A B} (m : M D E A) (k : A -> M D E B) :
  tops m -> (forall a, tops (k a)) -> tops (bind m k).
Proof.
  intros Hm Hk c Ht. unfold bind. specialize (Hm c Ht). destruct (m c) as [[a|e|] c']; [|done..].
  by apply Hk.
Qed.

Lemma tops_map_err {D E F A} (f : E -> F) (m : M D E A) : tops m -> tops (map_err f m).
Proof.
  intros Hm c Ht. unfold map_err, catch. specialize (Hm c Ht). by destruct (m c) as [[a|e|] c'].
Qed.

Lemma outer_preserves {D E A} (I : D -> Prop) (m : M D E A) :
  tops m -> preserves I m -> outer I m (fun _ => I) (fun _ => I).
Proof.
  intros Ht Hp c Hc HI. specialize (Ht c Hc). specialize (Hp c HI).
  by destruct (m c) as [[a|e|] c'].
Qed.

Lemma outer_ok_or {D E A B} (e : E) (o : option A) (P : D -> Prop) (k : A -> M D E B) Q X :
  (forall a, o = Some a -> outer P (k a) Q X) -> (forall d, P d -> X (Some e) d) ->
  outer P (bind (ok_or e o) k) Q X.
Proof. intros Hk Hn. destruct o as [a|]; [by apply Hk|]. intros c Ht Hc. split; auto. Qed.

(** A step that only decides whether to go on. *)
Definition decides {D E A} (m : M D E A) : Prop :=
  forall c, (exists a, m c = (Ok a, c)) \/ (exists e, m c = (Err e, c)).

Lemma outer_decides {D E A B} (m : M D E A) (P : D -> Prop) (k : A -> M D E B) Q X :
  decides m -> (forall a, outer P (k a) Q X) -> (forall e d, P d -> X (Some e) d) ->
  outer P (bind m k) Q X.
Proof.
  intros Hm Hk HX c Ht Hc. unfold bind.
  destruct (Hm c) as [[a ->]|[e ->]]; [by apply Hk|]. split; auto.
Qed.

(** Equivalent conditions select the same rows. *)
Lemma find_ext {D R} {T : Table D R} (p q : R -> bool) (c : Conn D) :
  (forall r, p r = q r) -> first_row (exec (sql_select p)) c = first_row (exec (sql_select q)) c.
Proof.
  intros H. unfold first_row, bind, exec, sql_select.
  by rewrite (filter_ext_b p q (rows (db c))) by auto.
Qed.

(** Writes to one table keep what does not depend on it. *)
Section PreservesWrites.
Context {D R : Type} {T : Table D R} (I : D -> Prop).
Hypothesis Hset : forall l d, I d -> I (set_rows l d).

Lemma preserves_update (P : R -> bool) f : preserves I (exec (sql_update P f)).
Proof. apply preserves_exec. intros ?????? ? (_ & -> & _)%sql_update_inv. auto. Qed.

Lemma preserves_insert (mk : Z -> Z -> R) : preserves I (exec (sql_insert mk)).
Proof. apply preserves_exec. intros ?????? ? (_ & _ & -> & _)%sql_insert_inv. auto. Qed.

Lemma preserves_insert_many (mks : list (Z -> Z -> R)) : preserves I (exec (sql_insert_many mks)).
Proof.
  apply preserves_exec. intros now n d n' a d' Hd. unfold sql_insert_many, checked.
  destruct (first_violation _ _); intros [=]; subst; auto.
Qed.

Lemma preserves_insert_or_ignore (same : R -> bool) mk :
  preserves I (exec (sql_insert_or_ignore same mk)).
Proof.
  apply preserves_exec. intros now n d n' a d' Hd. unfold sql_insert_or_ignore.
  destruct (List.filter same (rows d)); [|intros [=]; by subst].
  unfold sql_insert, checked. destruct (first_violation _ _); intros [=]; subst; auto.
Qed.

Lemma preserves_upsert (same : R -> bool) mk f : preserves I (exec (sql_upsert same mk f)).
Proof.
  apply preserves_exec. intros now n d n' a d' Hd. unfold sql_upsert.
  destruct (List.filter same (rows d)) as [|r l]; unfold sql_insert, sql_update, checked;
    destruct (first_violation _ _); intros [=]; subst; auto.
Qed.

Lemma preserves_delete (P : R -> bool) :
  (forall gone d d', I d -> on_delete gone d = inr d' -> I d') ->
  preserves I (exec (sql_delete P)).
Proof.
  intros Hdel. apply preserves_exec. intros ?????? ? (_ & H)%sql_delete_inv. eauto.
Qed.
End PreservesWrites.

(** Proves that a program which writes other tables keeps [I]. *)
Ltac preserve_writes :=
  preserve;
  first [ apply preserves_update | apply preserves_insert | apply preserves_insert_many
        | apply preserves_insert_or_ignore | apply preserves_upsert ]; done.

Lemma for_each_ext {D E A S} (l : list A) (f g : S -> A -> M D E S) s c :
  (forall s x c, f s x c = g s x c) -> for_each l s f c = for_each l s g c.
Proof.
  intros H. revert s c. induction l as [|x l IH]; intros s c; simpl; [done|].
  unfold bind. rewrite H. destruct (g s x c) as [[a|e|] c']; auto.
Qed.

(** In an aborted transaction every statement fails. *)
Lemma exec_aborted {D A} (s : Stmt D A) (c : Conn D) :
  aborted c = true -> exists k c', exec s c = (Err (DDatabaseError k), c') /\ db c' = db c.
Proof.
  intros Ha. unfold exec. destruct (hd None (faults c)); [eauto|]. rewrite Ha. eauto.
Qed.

(** A sequence that returns: what each part returned. *)
Lemma bind_returns {D E A B} (m : M D E A) (k : A -> M D E B) c b c' :
  bind m k c = (Ok b, c') -> exists a c1, m c = (Ok a, c1) /\ k a c1 = (Ok b, c').
Proof. unfold bind. destruct (m c) as [[a|e|] c1]; [eauto|done..]. Qed.

Lemma preserves_same {D E A B} (f : D -> B) (m : M D E A) c o c' :
  preserves (fun d => f d = f (db c)) m -> m c = (o, c') -> f (db c') = f (db c).
Proof. intros H E1. specialize (H c eq_refl). by rewrite E1 in H. Qed.

Lemma transaction_returns {D E A} from (body : M D E A) c a c' :
  transaction from body c = (Ok a, c') ->
  exists i c1, db i = db c /\ tx_depth i <> 0%nat /\ body i = (Ok a, c1) /\
    (aborted c1 = false -> db c' = db c1).
Proof.
  unfold transaction. pose proof (preserves_control (fun d => d = db c) c eq_refl) as H0.
  destruct (control c) as [[u|e|] c0]; [|done..]. simpl in H0.
  match goal with |- context [body ?i] => destruct (body i) as [[a'|e|] c1] eqn:Eb; [|done..];
    intros H; exists i, c1 end. do 2 (split; [done|]).
  pose proof (preserves_control (fun d => d = db c1) c1 eq_refl) as H1. revert H.
  destruct (aborted c1); simpl; [destruct (tx_depth c0 =? 0)%nat|];
    try destruct (control c1) as [[u'|e'|] c2]; intros [=]; subst; done.
Qed.

(** ** Failed transactions stay failed *)

(** Inside a transaction, an aborted connection stays aborted. *)
Definition sticky {D E A} (m : M D E A) : Prop :=
  forall c, tx_depth c <> 0%nat ->
    tx_depth (snd (m c)) <> 0%nat /\ (aborted c = true -> aborted (snd (m c)) = true).

Section Sticky.
Context {D : Type}.

Lemma sticky_ret {E A} (a : A) : sticky (D:=D) (E:=E) (ret a).
Proof. by intros c. Qed.

Lemma sticky_fail {E A} (e : E) : sticky (D:=D) (A:=A) (fail e).
Proof. by intros c. Qed.

Lemma sticky_now {E} : sticky (D:=D) (E:=E) utc_now.
Proof. by intros c. Qed.

Lemma sticky_exec {A} (s : Stmt D A) : sticky (exec s).
Proof.
  intros c Hd. unfold exec. apply Nat.eqb_neq in Hd as Hd'. rewrite Hd'.
  destruct (hd None (faults c)); [done|]. destruct (aborted c) eqn:Ha; [done|].
  by destruct (s _ _ _) as [n [e|[a d]]].
Qed.

Lemma sticky_catch {E F A B} (m : M D E A) (k : E + A -> M D F B) :
  sticky m -> (forall r, sticky (k r)) -> sticky (catch m k).
Proof.
  intros Hm Hk c Hd. unfold catch. specialize (Hm c Hd).
  destruct (m c) as [[a|e|] c1]; simpl in Hm; [| |done];
    destruct Hm as [Hd1 Ha1];
    match goal with |- context [k ?r c1] => destruct (Hk r c1 Hd1) as [Hd2 Ha2] end; auto.
Qed.

Lemma sticky_bind {E A B} (m : M D E A) (k : A -> M D E B) :
  sticky m -> (forall a, sticky (k a)) -> sticky (bind m k).
Proof.
  intros Hm Hk. apply (sticky_catch m (fun r => match r with inr a => k a | inl e => fail e end));
    [done|]. intros [e|a]; [apply sticky_fail|apply Hk].
Qed.

Lemma sticky_for_each {E A S} (l : list A) (body : S -> A -> M D E S) s :
  (forall s x, sticky (body s x)) -> sticky (for_each l s body).
Proof.
  intros Hb. revert s. induction l as [|x l IH]; intros s; simpl; [apply sticky_ret|].
  by apply sticky_bind.
Qed.

Lemma sticky_map_err {E F A} (f : E -> F) (m : M D E A) : sticky m -> sticky (map_err f m).
Proof. intros H. apply sticky_catch; [done|]. intros []; [apply sticky_fail|apply sticky_ret]. Qed.

Lemma sticky_first_row {R} (m : M D DieselError (list R)) : sticky m -> sticky (first_row m).
Proof. intros H. apply sticky_bind; [done|]. intros []; [apply sticky_fail|apply sticky_ret]. Qed.

Lemma sticky_affected {R} (m : M D DieselError (list R)) : sticky m -> sticky (affected m).
Proof. intros H. apply sticky_bind; [done|]. intros; apply sticky_ret. Qed.

(** A statement that fails inside a transaction aborts it. *)
Lemma exec_failure_aborts {A} (s : Stmt D A) c :
  tx_depth c <> 0%nat -> (forall a c', exec s c <> (Ok a, c')) -> aborted (snd (exec s c)) = true.
Proof.
  unfold exec. intros Hd. apply Nat.eqb_neq in Hd as ->.
  destruct (hd None (faults c)); [done|]. destruct (aborted c) eqn:Ha; [done|].
  destruct (s _ _ _) as [n [e|[a d]]]; [done|]. intros H. by edestruct H.
Qed.
End Sticky.

(** Splits a [sticky] goal along the structure of the program. *)
Ltac stick :=
  repeat first
    [ progress intros
    | apply sticky_ret | apply sticky_fail | apply sticky_now | apply sticky_exec
    | apply sticky_for_each | apply sticky_bind | apply sticky_map_err | apply sticky_first_row
    | apply sticky_affected | apply sticky_catch
    | match goal with |- sticky (match ?x with _ => _ end) => destruct x end ].

Lemma exec_returns {D A} (s : Stmt D A) c a c' :
  exec s c = (Ok a, c') -> exists now n n', s now n (db c) = (n', inr (a, db c')).
Proof.
  unfold exec. destruct (hd None (faults c)); [done|]. destruct (aborted c); [done|].
  destruct (s _ _ _) as [n [e|[a' d]]] eqn:E; [done|]. intros [= <- <-]. eauto.
Qed.

(** A loop one of whose iterations aborts the transaction ends aborted. *)
Lemma for_each_aborts {D E A S} (I : D -> Prop) (body : S -> A -> M D E S) x l :
  (forall s y, sticky (body s y)) -> (forall s y, preserves I (body s y)) ->
  (forall s c, tx_depth c <> 0%nat -> I (db c) -> aborted (snd (body s x c)) = true) ->
  x ∈ l -> forall s c s' c', tx_depth c <> 0%nat -> I (db c) ->
  for_each l s body c = (Ok s', c') -> aborted c' = true.
Proof.
  intros Hst Hp Hx. induction l as [|y l IH]; [by intros ?%not_elem_of_nil|].
  intros Hin s c s' c' Hd Hi (s1 & c1 & E1 & E2)%bind_returns.
  pose proof (Hst s y c Hd) as [Hd1 _]. pose proof (Hp s y c Hi) as Hi1. rewrite E1 in Hd1, Hi1.
  apply elem_of_cons in Hin as [<-|Hin]; [|by eapply IH].
  pose proof (Hx s c Hd Hi) as Ha. rewrite E1 in Ha.
  pose proof (sticky_for_each l body s1 Hst c1 Hd1) as [_ Ha2].
  change (for_each l s1 body c1 = (Ok s', c')) in E2. rewrite E2 in Ha2. auto.
Qed.

(** An update that returns its first row. *)
Lemma update_returns {D R} {T : Table D R} (P : R -> bool) f (c : Conn D) r c' :
  first_row (exec (sql_update P f)) c = (Ok r, c') ->
  exists now x, x ∈ rows (db c) /\ P x = true /\ r = f now x /\
    db c' = set_rows (map (fun y => if P y then f now y else y) (rows (db c))) (db c).
Proof.
  intros (l & c1 & (now & n & n' & (-> & Hd & _)%sql_update_inv)%exec_returns & Hl)%bind_returns.
  destruct (List.filter P (rows (db c))) as [|x l] eqn:Ef; [done|]. simpl in Hl.
  injection Hl as <- <-. assert (x ∈ List.filter P (rows (db c))) as Hx by (rewrite Ef; left).
  apply elem_of_filter_b in Hx as [Hx HP]. exists now, x. done.
Qed.

(** A statement that fails changes nothing. *)
Lemma exec_fails {D A} (s : Stmt D A) c o c' :
  exec s c = (o, c') -> match o with Ok _ => True | _ => db c' = db c end.
Proof.
  unfold exec. destruct (hd None (faults c)); [by intros [= <- <-]|].
  destruct (aborted c); [by intros [= <- <-]|].
  destruct (s _ _ _) as [n [e|[a d]]]; by intros [= <- <-].
Qed.

Lemma transaction_effect {D E A} from (body : M D E A) c Q :
  aborted c = false -> hoare (fun d => d = db c) body Q (fun _ _ _ => True) ->
  match transaction from body c with
  | (Ok a, c') => Q a (db c')
  | (_, c') => db c' = db c
  end.
Proof.
  intros Ha H. apply transaction_starts; [done|]. intros c1 Ha1 _ Hd. specialize (H c1 Ha1 Hd).
  by destruct (body c1) as [[a|e|] c'].
Qed.

(** ** Aborted connections *)

(** [refuses m]: on an aborted connection [m] fails with a database error and
    changes nothing. *)
Definition refuses {D A} (m : M D DieselError A) : Prop :=
  forall c, aborted c = true -> exists k c', m c = (Err (DDatabaseError k), c') /\ db c' = db c.

Lemma refuses_exec {D A} (s : Stmt D A) : refuses (exec s).
Proof. intros c Ha. unfold exec. rewrite Ha. destruct (hd None (faults c)); eauto. Qed.

Lemma refuses_bind {D A B} (m : M D DieselError A) (k : A -> M D DieselError B) :
  refuses m -> refuses (bind m k).
Proof. intros H c Ha. unfold bind. destruct (H c Ha) as (e & c' & -> & Hd). eauto. Qed.

Lemma refuses_now {D A} (k : Z -> M D DieselError A) :
  (forall t, refuses (k t)) -> refuses (bind utc_now k).
Proof.
  intros H c Ha. unfold bind, utc_now.
  match goal with |- context [k ?t ?c'] => exact (H t c' Ha) end.
Qed.

Lemma refuses_optional {D A} (m : M D DieselError A) : refuses m -> refuses (optional m).
Proof. intros H c Ha. unfold optional, catch. destruct (H c Ha) as (e & c' & -> & Hd). eauto. Qed.

Lemma refuses_transaction {D A} (body : M D DieselError A) : refuses (transaction id body).
Proof.
  intros c Ha. unfold transaction.
  destruct (refuses_exec (fun _ n d => (n, inr (tt, d))) c Ha) as (k & c' & E & Hd).
  unfold control. rewrite E. eauto.
Qed.

(** A preorder along which [m] moves the content is kept by every outcome, also
    on an aborted connection. *)
Lemma preserves_evolves {D A} (R : D -> D -> Prop) (m : M D DieselError A) d0 :
  (forall x y z, R x y -> R y z -> R x z) -> evolves R m -> refuses m -> preserves (R d0) m.
Proof.
  intros Ht He Hr c Hc. destruct (aborted c) eqn:Ha.
  - destruct (Hr c Ha) as (k & c' & -> & Hd). simpl. by rewrite Hd.
  - eapply Ht; [exact Hc|]. by apply He.
Qed.

(** ** Reading *)

(** [sees d m R]: started on [d], [m] only returns results in [R], and the
    content is still [d]. *)
Definition sees {D E A} (d : D) (m : M D E A) (R : A -> Prop) : Prop :=
  forall c a c', db c = d -> m c = (Ok a, c') -> db c' = d /\ R a.

Section Reading.
Context {D : Type} (d : D).

Lemma sees_weaken {E A} (m : M D E A) (R R' : A -> Prop) :
  sees d m R -> (forall a, R a -> R' a) -> sees d m R'.
Proof. intros H HR c a c' Hc E'. destruct (H c a c' Hc E'). auto. Qed.

Lemma sees_ret {E A} (a : A) (R : A -> Prop) : R a -> sees (E:=E) d (ret a) R.
Proof. by intros H c b c' Hc [= <- <-]. Qed.

Lemma sees_fail {E A} (e : E) (R : A -> Prop) : sees d (fail e) R.
Proof. by intros c a c' Hc. Qed.

Lemma sees_bind {E A B} (m : M D E A) (k : A -> M D E B) R Q :
  sees d m R -> (forall a, R a -> sees d (k a) Q) -> sees d (bind m k) Q.
Proof.
  intros Hm Hk c b c' Hc E'. unfold bind in E'. destruct (m c) as [[a|e|] c1] eqn:E1; [|done..].
  destruct (Hm c a c1 Hc E1) as [Hd Ha]. by apply (Hk a Ha c1).
Qed.

Lemma sees_now {E B} (k : Z -> M D E B) Q : (forall t, sees d (k t) Q) -> sees d (bind utc_now k) Q.
Proof. intros H c b c' Hc E'. unfold bind, utc_now in E'. by apply H in E'. Qed.

Lemma sees_or_panic {E A B} (o : option A) (k : A -> M D E B) Q :
  (forall a, o = Some a -> sees d (k a) Q) -> sees d (bind (or_panic o) k) Q.
Proof. intros H. destruct o; [by apply H|]. by intros c a c' Hc. Qed.

Lemma sees_map_err {E F A} (f : E -> F) (m : M D E A) R : sees d m R -> sees d (map_err f m) R.
Proof.
  intros H c a c' Hc E'. unfold map_err, catch in E'. destruct (m c) as [[b|e|] c1] eqn:E1; try done.
  apply (H c a c' Hc). injection E' as -> ->. exact E1.
Qed.

Lemma sees_query {A} (f : D -> A) (R : A -> Prop) : R (f d) -> sees d (exec (sql_query f)) R.
Proof.
  intros H c a c' Hc E'. unfold exec, sql_query in E'.
  destruct (hd None (faults c)); [done|]. destruct (aborted c); [done|].
  injection E' as <- <-. simpl. by rewrite Hc.
Qed.

Lemma sees_select {R} {T : Table D R} (p : R -> bool) (Q : list R -> Prop) :
  Q (List.filter p (rows d)) -> sees d (exec (sql_select p)) Q.
Proof. apply (sees_query (fun d => List.filter p (rows d))). Qed.

Lemma sees_count {R} {T : Table D R} (p : R -> bool) (Q : Z -> Prop) :
  Q (Z.of_nat (length (List.filter p (rows d)))) -> sees d (exec (sql_count p)) Q.
Proof. apply (sees_query (fun d => Z.of_nat (length (List.filter p (rows d))))). Qed.

Lemma sees_first_row {R} (m : M D DieselError (list R)) (Q : R -> Prop) :
  sees d m (fun l => forall r l', l = r :: l' -> Q r) -> sees d (first_row m) Q.
Proof.
  intros H. eapply sees_bind; [exact H|]. intros [|r l] Hl; [apply sees_fail|apply sees_ret; eauto].
Qed.

Lemma sees_optional {R} (m : M D DieselError R) (Q : option R -> Prop) :
  sees d m (fun r => Q (Some r)) -> preserves (fun x => x = d) m -> Q None -> sees d (optional m) Q.
Proof.
  intros H Hp Hn c a c' Hc E'. unfold optional, catch in E'. specialize (Hp c Hc).
  destruct (m c) as [[b|[]|] c1] eqn:E1; try done; injection E' as <- <-; [by apply (H c)|done].
Qed.
End Reading.
