(* ===== verification/Text.v ===== *)
(** Rust strings: UTF-8 byte strings with the operations of [str] the portal
    uses. Unicode case mapping is a parameter ([Unicode]); everything else is
    computed. *)
From S2P Require Import Prelude.
From Stdlib Require Import Ascii.
From stdpp Require Import pretty.

Open Scope Z_scope.
Open Scope portal_scope.

(** The Unicode lower-case mapping ([str::to_lowercase], PostgreSQL [lower]). *)
Class Unicode := { to_lowercase : string -> string }.

(** ** Characters *)

Definition byte (n : nat) : string := String (Ascii.ascii_of_nat n) EmptyString.

Definition continuation (a : Ascii.ascii) : bool :=
  let n := Ascii.nat_of_ascii a in ((128 <=? n) && (n <? 192))%nat.

(** [str::chars]: a character is its lead byte with its continuation bytes. *)
Fixpoint chars (s : string) : list string :=
  match s with
  | EmptyString => []
  | String a s' =>
      match chars s' with
      | (String b g) :: gs =>
          if continuation b then String a (String b g) :: gs
          else String a EmptyString :: String b g :: gs
      | gs => String a EmptyString :: gs
      end
  end.

Definition concat_str (l : list string) : string := foldr String.append EmptyString l.

Definition char_count (s : string) : nat := length (chars s).

(** [str::len]: the number of bytes. *)
Definition byte_len (s : string) : Z := Z.of_nat (String.length s).

(** The characters with the Unicode property White_Space. *)
Definition white_space : list string :=
  map byte [9; 10; 11; 12; 13; 32]%nat ++
  map (fun p => String.append (byte 194) (byte p)) [133; 160]%nat ++
  [String.append (byte 225) (String.append (byte 154) (byte 128))] ++
  map (fun p => String.append (byte 226) (String.append (byte 128) (byte p)))
    [128; 129; 130; 131; 132; 133; 134; 135; 136; 137; 138; 168; 169; 175]%nat ++
  [String.append (byte 226) (String.append (byte 129) (byte 159));
   String.append (byte 227) (String.append (byte 128) (byte 128))].

Definition is_whitespace (c : string) : bool := existsb (str_eqb c) white_space.

Fixpoint drop_while {A} (P : A -> bool) (l : list A) : list A :=
  match l with
  | [] => []
  | x :: l' => if P x then drop_while P l' else l
  end.

(** [str::trim]. *)
Definition trim (s : string) : string :=
  concat_str (rev (drop_while is_whitespace (rev (drop_while is_whitespace (chars s))))).

Definition is_empty (s : string) : bool := str_eqb s "".

(** ** ASCII case, search *)

Definition ascii_lower (a : Ascii.ascii) : Ascii.ascii :=
  let n := Ascii.nat_of_ascii a in
  if ((65 <=? n) && (n <=? 90))%nat then Ascii.ascii_of_nat (n + 32) else a.

Fixpoint to_ascii_lowercase (s : string) : string :=
  match s with
  | EmptyString => EmptyString
  | String a s' => String (ascii_lower a) (to_ascii_lowercase s')
  end.

Definition eq_ignore_ascii_case (s t : string) : bool :=
  str_eqb (to_ascii_lowercase s) (to_ascii_lowercase t).

Definition starts_with (s p : string) : bool := String.prefix p s.

Fixpoint contains (s sub : string) : bool :=
  String.prefix sub s ||
  match s with EmptyString => false | String _ s' => contains s' sub end.

Fixpoint str_strip_prefix (p s : string) : option string :=
  match p, s with
  | EmptyString, _ => Some s
  | String a p', String b s' => if Ascii.eqb a b then str_strip_prefix p' s' else None
  | _, _ => None
  end.

(** [strip_suffix] of one character. *)
Fixpoint strip_suffix_char (x : Ascii.ascii) (s : string) : option string :=
  match s with
  | EmptyString => None
  | String a EmptyString => if Ascii.eqb a x then Some EmptyString else None
  | String a s' => String a <$> strip_suffix_char x s'
  end.

(** [split_once(' ')]. *)
Fixpoint split_once (x : Ascii.ascii) (s : string) : option (string * string) :=
  match s with
  | EmptyString => None
  | String a s' =>
      if Ascii.eqb a x then Some (EmptyString, s')
      else (fun '(l, r) => (String a l, r)) <$> split_once x s'
  end.

(** [split(|c| P c)] for a predicate on ASCII characters. *)
Fixpoint split_on (P : Ascii.ascii -> bool) (s : string) : list string :=
  match s with
  | EmptyString => [EmptyString]
  | String a s' =>
      if P a then EmptyString :: split_on P s'
      else match split_on P s' with
           | seg :: segs => String a seg :: segs
           | [] => [String a EmptyString]
           end
  end.

Definition is_ascii_alphanumeric (a : Ascii.ascii) : bool :=
  let n := Ascii.nat_of_ascii a in
  (((48 <=? n) && (n <=? 57)) || ((65 <=? n) && (n <=? 90)) || ((97 <=? n) && (n <=? 122)))%nat.

Fixpoint join (sep : string) (l : list string) : string :=
  match l with
  | [] => EmptyString
  | [x] => x
  | x :: l' => String.append x (String.append sep (join sep l'))
  end.

(** The first [n] characters: [s.chars().take(n).collect()]. *)
Definition take_chars (n : nat) (s : string) : string := concat_str (take n (chars s)).

(** ** Machine integers *)

Definition i32_max : Z := 2147483647.
Definition i32_min : Z := -2147483648.
Definition i64_max : Z := 9223372036854775807.
Definition i64_min : Z := -9223372036854775808.
Definition u64_max : Z := 18446744073709551615.

(** [as i64] of a [u64]: two's complement. *)
Definition u64_as_i64 (z : Z) : Z := if z <=? i64_max then z else z - 18446744073709551616.

(** [as u64] of an [i64]. *)
Definition i64_as_u64 (z : Z) : Z := if 0 <=? z then z else z + 18446744073709551616.

Definition clamp (lo hi z : Z) : Z := Z.max lo (Z.min hi z).

Definition i32_saturating_add (a b : Z) : Z := clamp i32_min i32_max (a + b).
Definition i32_saturating_sub (a b : Z) : Z := clamp i32_min i32_max (a - b).
Definition i64_saturating_mul (a b : Z) : Z := clamp i64_min i64_max (a * b).
Definition i64_checked_mul (a b : Z) : option Z :=
  let p := a * b in if (i64_min <=? p) && (p <=? i64_max) then Some p else None.

Definition digit (a : Ascii.ascii) : option Z :=
  let n := Ascii.nat_of_ascii a in
  if ((48 <=? n) && (n <=? 57))%nat then Some (Z.of_nat n - 48) else None.

(** A non-empty run of decimal digits. *)
Fixpoint digits_from (acc : Z) (s : string) : option Z :=
  match s with
  | EmptyString => Some acc
  | String a s' => match digit a with Some x => digits_from (10 * acc + x) s' | None => None end
  end.

Definition digits (s : string) : option Z :=
  match s with EmptyString => None | _ => digits_from 0 s end.

Definition in_range (lo hi : Z) (o : option Z) : option Z :=
  match o with
  | Some z => if (lo <=? z) && (z <=? hi) then Some z else None
  | None => None
  end.

(** [str::parse] for a signed integer: an optional sign, digits, no overflow. *)
Definition parse_signed (lo hi : Z) (s : string) : option Z :=
  match s with
  | String "-"%char s' => in_range lo hi (Z.opp <$> digits s')
  | String "+"%char s' => in_range lo hi (digits s')
  | _ => in_range lo hi (digits s)
  end.

Definition parse_i32 : string -> option Z := parse_signed i32_min i32_max.
Definition parse_i64 : string -> option Z := parse_signed i64_min i64_max.

(** For an unsigned integer a leading minus is an invalid digit. *)
Definition parse_u64 (s : string) : option Z :=
  match s with
  | String "+"%char s' => in_range 0 u64_max (digits s')
  | _ => in_range 0 u64_max (digits s)
  end.

(** [to_string] of an integer. *)
Definition int_to_string (z : Z) : string := pretty z.

(** [clippy]-style [value.min(i32::MAX as usize) as i32]. *)
Definition usize_as_i32 (n : Z) : Z := Z.min n i32_max.

(** ** Time *)

Definition second : Z := 1000000.
Definition day : Z := 86400 * second.

(** [chrono::Duration::seconds] panics beyond [i64::MAX / 1000]. *)
Definition duration_seconds (s : Z) : option Z :=
  if (- (i64_max / 1000) <=? s) && (s <=? i64_max / 1000) then Some (s * second) else None.

Definition duration_days (n : Z) : option Z :=
  if (i64_min <=? n * 86400) && (n * 86400 <=? i64_max) then duration_seconds (n * 86400) else None.

Definition datetime_min : Z := -8334601228800 * second.
Definition datetime_max : Z := 8210266876799 * second + 999999.

(** [DateTime + Duration] panics outside the range of [DateTime<Utc>]. *)
Definition datetime_add (t d : Z) : option Z :=
  if (datetime_min <=? t + d) && (t + d <=? datetime_max) then Some (t + d) else None.

(** [Duration::num_seconds] and [num_milliseconds] truncate toward zero. *)
Definition num_seconds (d : Z) : Z := Z.quot d second.
Definition num_milliseconds (d : Z) : Z := Z.quot d 1000.

(** ** Facts *)

Lemma str_app_cons a s t : String.append (String a s) t = String a (String.append s t).
Proof. reflexivity. Qed.

Lemma str_app_nil s : String.append "" s = s.
Proof. reflexivity. Qed.

Lemma str_app_assoc s t u : String.append (String.append s t) u = String.append s (String.append t u).
Proof. induction s as [|a s IH]; [done|]. by rewrite !str_app_cons, IH. Qed.

Lemma str_app_empty s : String.append s "" = s.
Proof. induction s as [|a s IH]; [done|]. by rewrite str_app_cons, IH. Qed.

Lemma concat_chars s : concat_str (chars s) = s.
Proof.
  induction s as [|a s IH]; simpl; [done|].
  destruct (chars s) as [|[|b g] gs]; simpl in *;
    [|rewrite str_app_nil in IH|destruct (continuation b); simpl; rewrite str_app_cons in IH];
    rewrite ?str_app_cons, ?str_app_nil, ?IH; congruence.
Qed.

Lemma drop_while_nil {A} (P : A -> bool) l : drop_while P l = [] -> forall x, x ∈ l -> P x = true.
Proof.
  induction l as [|y l IH]; simpl; [by intros _ x ?%elem_of_nil|].
  destruct (P y) eqn:E; [|done]. intros H x [->|Hx]%elem_of_cons; auto.
Qed.

Lemma clamp_bounds lo hi z : lo <= hi -> lo <= clamp lo hi z <= hi.
Proof. unfold clamp. lia. Qed.

Lemma digits_from_nonneg s acc z : 0 <= acc -> digits_from acc s = Some z -> acc <= z.
Proof.
  revert acc. induction s as [|a s IH]; intros acc Hacc; simpl; [intros [= <-]; lia|].
  destruct (digit a) as [x|] eqn:E; [|done].
  unfold digit in E. case_match eqn:E2; [|done]. injection E as <-.
  apply andb_prop in E2 as [E2 _]. apply Nat.leb_le in E2.
  intros H. apply IH in H; lia.
Qed.

Lemma in_range_bounds lo hi o z : in_range lo hi o = Some z -> lo <= z <= hi.
Proof. destruct o; simpl; [|done]. case_match eqn:E; [|done]. intros [= <-]. lia. Qed.

Lemma parse_signed_bounds lo hi s z : parse_signed lo hi s = Some z -> lo <= z <= hi.
Proof. unfold parse_signed. intros H. repeat case_match; by eapply in_range_bounds. Qed.

Lemma parse_i64_bounds s z : parse_i64 s = Some z -> i64_min <= z <= i64_max.
Proof. apply parse_signed_bounds. Qed.

Lemma parse_u64_bounds s z : parse_u64 s = Some z -> 0 <= z <= u64_max.
Proof. unfold parse_u64. intros H. repeat case_match; by eapply in_range_bounds. Qed.

(** ** Printing and parsing integers *)

Lemma digit_char (x : N) : (x < 10)%N -> digit (pretty_N_char x) = Some (Z.of_N x).
Proof.
  intros H. assert (x ∈ (fun n => N.of_nat n) <$> seq 0 10) as Hin.
  { apply list_elem_of_fmap. exists (N.to_nat x). rewrite N2Nat.id. split; [done|].
    apply elem_of_seq. lia. }
  revert x Hin H. apply (Forall_forall (fun x => (x < 10)%N -> digit (pretty_N_char x) = Some (Z.of_N x))).
  repeat constructor.
Qed.

Lemma digits_from_pretty_go (x : N) s :
  digits_from 0 (pretty_N_go x s) = digits_from (Z.of_N x) s.
Proof.
  revert s. induction (N.lt_wf_0 x) as [x _ IH]; intros s.
  destruct (decide (x = 0)%N) as [->|Hx].
  - by rewrite pretty_N_go_0.
  - rewrite pretty_N_go_step by lia. rewrite IH by (apply N.div_lt; lia).
    simpl. rewrite digit_char by (by apply N.mod_lt). f_equal.
    pose proof (N.div_mod x 10 ltac:(lia)). lia.
Qed.

(** A positive integer prints as a non-empty run of digits with its value. *)
Lemma int_to_string_pos (z : Z) :
  0 < z -> int_to_string z <> "" /\ digits (int_to_string z) = Some z.
Proof.
  intros Hz. destruct z as [|p|p]; try lia. change (int_to_string (Z.pos p)) with (pretty (N.pos p)).
  unfold pretty, pretty_N. destruct (decide _); [done|]. pose proof (digits_from_pretty_go (N.pos p) "") as H'. simpl in H'.
  destruct (pretty_N_go (N.pos p) "") as [|a s] eqn:E; [done|]. done.
Qed.

(** Every character of a text satisfies a predicate. *)
Fixpoint all_chars (P : ascii -> bool) (s : string) : bool :=
  match s with EmptyString => true | String a s' => P a && all_chars P s' end.

Lemma all_chars_app P s t : all_chars P (String.append s t) = all_chars P s && all_chars P t.
Proof.
  induction s as [|a s IH]; [done|]. rewrite str_app_cons. simpl. rewrite IH. by destruct (P a).
Qed.

Lemma all_chars_impl (P Q : ascii -> bool) s :
  (forall a, P a = true -> Q a = true) -> all_chars P s = true -> all_chars Q s = true.
Proof.
  intros H. induction s as [|a s IH]; [done|]. simpl. intros [Ha Hs]%andb_prop.
  by rewrite (H a Ha), (IH Hs).
Qed.

(** ** Splitting at a character *)

Lemma split_on_none (P : ascii -> bool) s : all_chars (fun a => negb (P a)) s = true -> split_on P s = [s].
Proof.
  induction s as [|a s IH]; [done|]. simpl. intros [Ha%negb_true_iff Hs]%andb_prop. by rewrite Ha, (IH Hs).
Qed.

Lemma split_on_app (P : ascii -> bool) s x t :
  all_chars (fun a => negb (P a)) s = true -> P x = true ->
  split_on P (String.append s (String x t)) = s :: split_on P t.
Proof.
  intros Hs Hx. induction s as [|a s IH]; simpl; [by rewrite Hx|].
  simpl in Hs. apply andb_prop in Hs as [Ha%negb_true_iff Hs]. by rewrite Ha, (IH Hs).
Qed.

(** ASCII texts are their bytes. *)
Definition ascii_char (a : ascii) : bool := (Ascii.nat_of_ascii a <? 128)%nat.

Lemma digits_all_digits s acc z :
  digits_from acc s = Some z -> all_chars (fun a => bool_decide (is_Some (digit a))) s = true.
Proof.
  revert acc. induction s as [|a s IH]; intros acc; simpl; [done|].
  destruct (digit a) eqn:E; [|done]. intros H%IH. rewrite H. by rewrite bool_decide_eq_true_2.
Qed.

(** A digit is neither a sign nor an upper-case letter nor white space. *)
Lemma digit_code a x : digit a = Some x -> (48 <= Ascii.nat_of_ascii a <= 57)%nat.
Proof.
  unfold digit. cbv zeta. intros H. case_match eqn:E; [|done].
  apply andb_prop in E as [E1%Nat.leb_le E2%Nat.leb_le]. done.
Qed.

Lemma parse_signed_digits lo hi s z :
  digits s = Some z -> lo <= z <= hi -> parse_signed lo hi s = Some z.
Proof.
  intros H Hz. assert (in_range lo hi (Some z) = Some z) as Hr.
  { simpl. replace ((lo <=? z) && (z <=? hi)) with true by lia. done. }
  unfold parse_signed. destruct s as [|a s]; [done|]. pose proof H as H'. simpl in H.
  destruct (digit a) eqn:E; [|done]. apply digit_code in E.
  destruct a as [[][][][][][][][]]; try (by rewrite H'); vm_compute in E; lia.
Qed.

Lemma parse_i64_print (z : Z) : 0 < z <= i64_max -> parse_i64 (int_to_string z) = Some z.
Proof.
  intros Hz. apply parse_signed_digits; [apply int_to_string_pos; lia|]. unfold i64_min. lia.
Qed.

Lemma strip_suffix_app x s : strip_suffix_char x (String.append s (String x EmptyString)) = Some s.
Proof.
  induction s as [|a s IH]; [simpl; by rewrite Ascii.eqb_refl|].
  rewrite str_app_cons. destruct (String.append s (String x "")) as [|b t] eqn:E; [by destruct s|].
  change (strip_suffix_char x (String a (String b t)))
    with (String a <$> strip_suffix_char x (String b t)). by rewrite IH.
Qed.

Lemma str_strip_prefix_app p s : str_strip_prefix p (String.append p s) = Some s.
Proof.
  induction p as [|a p IH]; [done|]. rewrite str_app_cons. simpl. by rewrite Ascii.eqb_refl.
Qed.

(** An ASCII text without upper-case letters is its own lower-case form. *)
Definition lower_ascii (a : ascii) : bool :=
  let n := Ascii.nat_of_ascii a in (n <? 128)%nat && negb ((65 <=? n) && (n <=? 90))%nat.

Lemma to_ascii_lowercase_id s : all_chars lower_ascii s = true -> to_ascii_lowercase s = s.
Proof.
  induction s as [|a s IH]; simpl; [done|]. intros [Ha Hs]%andb_prop. rewrite IH by done.
  unfold lower_ascii in Ha. apply andb_prop in Ha as [_ Ha%negb_true_iff].
  unfold ascii_lower. by rewrite Ha.
Qed.

Lemma chars_of_ascii s :
  all_chars ascii_char s = true -> chars s = map (fun a => String a "") (String.list_ascii_of_string s).
Proof.
  induction s as [|a s IH]; [done|]. intros Hs. simpl in Hs. apply andb_prop in Hs as [_ Hs].
  simpl. rewrite (IH Hs). destruct s as [|b s]; [done|]. simpl in Hs.
  apply andb_prop in Hs as [Hb _]. unfold ascii_char in Hb. apply Nat.ltb_lt in Hb. simpl. unfold continuation.
  by rewrite (proj2 (Nat.leb_gt 128 _) Hb).
Qed.

Lemma chars_ascii s :
  all_chars lower_ascii s = true -> chars s = map (fun a => String a "") (String.list_ascii_of_string s).
Proof.
  intros Hs. apply chars_of_ascii. eapply all_chars_impl; [|exact Hs]. intros a Ha.
  unfold lower_ascii in Ha. by apply andb_prop in Ha as [Ha _].
Qed.

(** A text that starts and ends with ASCII characters other than white space
    is its own [trim]. *)
Lemma trim_id a s b :
  all_chars lower_ascii (String a (String.append s (String b ""))) = true ->
  is_whitespace (String a "") = false -> is_whitespace (String b "") = false ->
  trim (String a (String.append s (String b ""))) = String a (String.append s (String b "")).
Proof.
  intros Hs Ha Hb. unfold trim. rewrite <- (concat_chars (String a _)) at 2.
  rewrite (chars_ascii _ Hs). f_equal.
  change (String.list_ascii_of_string (String a (String.append s (String b ""))))
    with (a :: String.list_ascii_of_string (String.append s (String b ""))).
  rewrite map_cons. simpl drop_while at 2. rewrite Ha.
  assert (forall t, String.list_ascii_of_string (String.append t (String b ""))
                    = String.list_ascii_of_string t ++ [b]) as ->.
  { induction t as [|x t IH]; [done|]. rewrite str_app_cons. simpl. by rewrite IH. }
  rewrite map_app. simpl map at 2. rewrite app_comm_cons.
  set (l := _ :: map _ _). rewrite rev_app_distr. cbn [rev app drop_while]. rewrite Hb.
  cbn [rev]. by rewrite rev_involutive.
Qed.

Lemma strip_suffix_ne x y s :
  x <> y -> strip_suffix_char x (String.append s (String y EmptyString)) = None.
Proof.
  intros Hne. induction s as [|a s IH].
  - simpl. by rewrite (proj2 (Ascii.eqb_neq y x)) by congruence.
  - rewrite str_app_cons. destruct (String.append s (String y "")) as [|b t] eqn:E; [by destruct s|].
    change (strip_suffix_char x (String a (String b t)))
      with (String a <$> strip_suffix_char x (String b t)). by rewrite IH.
Qed.

(** ** Splitting into characters *)

Fixpoint continuations (s : string) : bool :=
  match s with EmptyString => true | String a s' => continuation a && continuations s' end.

Lemma chars_cons a s :
  chars (String a s) =
  match chars s with
  | String b g :: gs =>
      if continuation b then String a (String b g) :: gs else String a "" :: String b g :: gs
  | gs => String a "" :: gs
  end.
Proof. reflexivity. Qed.

Lemma chars_head a s : exists r gs, chars (String a s) = String a r :: gs.
Proof.
  rewrite chars_cons. destruct (chars s) as [|[|b g] gs]; [eauto..|]. destruct (continuation b); eauto.
Qed.

Lemma chars_char a r s :
  continuations r = true -> (s = "" \/ exists b s', s = String b s' /\ continuation b = false) ->
  chars (String a (String.append r s)) = String a r :: chars s.
Proof.
  intros Hr Hs. revert a Hr. induction r as [|b r IH]; intros a Hr.
  - rewrite str_app_nil, chars_cons. destruct Hs as [->|(b & s' & -> & Hb)]; [done|].
    destruct (chars_head b s') as (r & gs & ->). by rewrite Hb.
  - simpl in Hr. apply andb_true_iff in Hr as [Hb Hr].
    rewrite str_app_cons, chars_cons, (IH b Hr). by rewrite Hb.
Qed.

(** A first byte with continuation bytes; the first byte of a text apart, it is no
    continuation byte itself. *)
Definition char_shape (c : string) : Prop := exists a r, c = String a r /\ continuations r = true.

Definition lead_shape (c : string) : Prop :=
  exists a r, c = String a r /\ continuations r = true /\ continuation a = false.

Definition split_shape (l : list string) : Prop :=
  match l with [] => True | c :: l' => char_shape c /\ Forall lead_shape l' end.

Lemma lead_char c : lead_shape c -> char_shape c.
Proof. intros (a & r & -> & Hr & _). by exists a, r. Qed.

Lemma chars_shape s : split_shape (chars s).
Proof.
  induction s as [|a s IH]; [done|]. rewrite chars_cons. destruct (chars s) as [|[|b g] gs].
  - split; [by exists a, ""|constructor].
  - destruct IH as [(b & r & [=] & _) _].
  - destruct IH as [(b' & r & [= <- <-] & Hr) Hl]. destruct (continuation b) eqn:Hb.
    + split; [|done]. exists a, (String b g). split; [done|]. simpl. by rewrite Hb, Hr.
    + split; [by exists a, ""|]. constructor; [|done]. by exists b, g.
Qed.

Lemma split_concat l : split_shape l -> chars (concat_str l) = l.
Proof.
  destruct l as [|c l]; [done|]. intros [Hc Hl]. revert c Hc.
  induction Hl as [|d l Hd Hl IH]; intros c (a & r & -> & Hr).
  - change (concat_str [String a r]) with (String a (String.append r "")). by apply chars_char; [|left].
  - change (concat_str (String a r :: d :: l)) with (String a (String.append r (concat_str (d :: l)))).
    rewrite chars_char; [by rewrite (IH d (lead_char d Hd))|done|]. right.
    destruct Hd as (b & r' & -> & _ & Hb). by eexists _, _.
Qed.

Lemma split_suffix l l' : split_shape (l ++ l') -> split_shape l'.
Proof.
  destruct l as [|c l]; [done|]. intros [_ Hl]. apply Forall_app in Hl as [_ Hl].
  destruct Hl as [|d l' Hd Hl]; [done|]. split; [by apply lead_char|done].
Qed.

Lemma split_prefix l l' : split_shape (l ++ l') -> split_shape l.
Proof. destruct l as [|c l]; [done|]. intros [Hc Hl]. by apply Forall_app in Hl as [Hl _]. Qed.

(** ** Trimming twice *)

Lemma drop_while_split {A} (P : A -> bool) l : exists k, l = k ++ drop_while P l.
Proof.
  induction l as [|x l [k IH]]; [by exists []|]. simpl. destruct (P x); [|by exists []].
  exists (x :: k). simpl. by rewrite <- IH.
Qed.

Lemma drop_while_twice {A} (P : A -> bool) l : drop_while P (drop_while P l) = drop_while P l.
Proof.
  induction l as [|x l IH]; [done|]. simpl. destruct (P x) eqn:E; [done|]. simpl. by rewrite E.
Qed.

(** A prefix of a list whose head does not satisfy [P] has nothing to drop. *)
Lemma drop_while_prefix {A} (P : A -> bool) l k k' :
  drop_while P l = k ++ k' -> drop_while P k = k.
Proof.
  intros H. destruct k as [|x k]; [done|]. pose proof (drop_while_twice P l) as H2. rewrite H in H2.
  simpl in *. destruct (P x); [|done]. exfalso.
  destruct (drop_while_split P (k ++ k')) as [j Hj]. rewrite H2 in Hj.
  apply (f_equal length) in Hj. rewrite !length_app in Hj. simpl in Hj. rewrite length_app in Hj. lia.
Qed.

(** The characters that [trim] keeps. *)
Definition trimmed_chars (P : string -> bool) (l : list string) : list string :=
  rev (drop_while P (rev (drop_while P l))).

Lemma trimmed_chars_prefix P l : exists k, drop_while P l = trimmed_chars P l ++ k.
Proof.
  destruct (drop_while_split P (rev (drop_while P l))) as [k Hk]. exists (rev k).
  unfold trimmed_chars. rewrite <- rev_app_distr, <- Hk. by rewrite rev_involutive.
Qed.

Lemma trimmed_chars_twice P l : trimmed_chars P (trimmed_chars P l) = trimmed_chars P l.
Proof.
  destruct (trimmed_chars_prefix P l) as [k Hk]. unfold trimmed_chars at 1.
  rewrite (drop_while_prefix P l _ _ Hk). unfold trimmed_chars.
  by rewrite rev_involutive, drop_while_twice.
Qed.

Lemma trim_chars s : chars (trim s) = trimmed_chars is_whitespace (chars s).
Proof.
  apply split_concat. pose proof (chars_shape s) as H.
  destruct (drop_while_split is_whitespace (chars s)) as [j Hj]. rewrite Hj in H.
  apply split_suffix in H. destruct (trimmed_chars_prefix is_whitespace (chars s)) as [k Hk].
  rewrite Hk in H. by apply split_prefix in H.
Qed.

Lemma trim_trim s : trim (trim s) = trim s.
Proof.
  change (trim (trim s)) with (concat_str (trimmed_chars is_whitespace (chars (trim s)))).
  by rewrite trim_chars, trimmed_chars_twice.
Qed.
