(* ===== verification/Models.v ===== *)
(** The rows and requests of [src/src/models.rs]: one record per struct, in a
    module that carries its field names. Timestamps are microseconds since the
    epoch (the resolution of TIMESTAMPTZ), [i32] and [i64] columns are [Z],
    texts are their UTF-8 bytes. *)
From S2P Require Import Prelude.

(** [models.rs]: [Connector]. *)
Module Connectors.
Record Connector := mkConnector {
  id : Z;
  source : string;
  kind : string;
  display_name : string;
  status : string;
  last_run_at : option Z;
  last_success_at : option Z;
  created_at : Z;
  updated_at : Z;
  scope_type : string;
  owner_user_id : option Z;
  maintainer_id : option Z
}.
#[global] Instance eta_Connector : Eta Connector := fun r =>
  mkConnector (id r) (source r) (kind r) (display_name r) (status r) (last_run_at r) (last_success_at r) (created_at r) (updated_at r) (scope_type r) (owner_user_id r) (maintainer_id r).
End Connectors.

(** [models.rs]: [NewConnector]. *)
Module NewConn.
Record NewConnector := mkNewConnector {
  source : string;
  kind : string;
  display_name : string;
  status : string;
  scope_type : string;
  owner_user_id : option Z;
  maintainer_id : option Z
}.
#[global] Instance eta_NewConnector : Eta NewConnector := fun r =>
  mkNewConnector (source r) (kind r) (display_name r) (status r) (scope_type r) (owner_user_id r) (maintainer_id r).
End NewConn.

(** [models.rs]: [ConnectorScopeUpdate]. *)
Module ScopeUpdate.
Record ConnectorScopeUpdate := mkConnectorScopeUpdate {
  scope_type : string;
  owner_user_id : option Z;
  maintainer_id : option Z
}.
#[global] Instance eta_ConnectorScopeUpdate : Eta ConnectorScopeUpdate := fun r =>
  mkConnectorScopeUpdate (scope_type r) (owner_user_id r) (maintainer_id r).
End ScopeUpdate.

(** [models.rs]: [ConnectorUpdate]. *)
Module ConnUpdate.
Record ConnectorUpdate := mkConnectorUpdate {
  kind : string;
  display_name : string;
  status : string
}.
#[global] Instance eta_ConnectorUpdate : Eta ConnectorUpdate := fun r =>
  mkConnectorUpdate (kind r) (display_name r) (status r).
End ConnUpdate.

(** [models.rs]: [ConnectorConfig]. *)
Module Config.
Record ConnectorConfig := mkConnectorConfig {
  id : Z;
  source : string;
  target : string;
  enabled : bool;
  schedule_cron : option string;
  config : string;
  sample_payload : string;
  created_at : Z;
  updated_at : Z;
  last_scheduled_at : option Z;
  next_run_at : option Z;
  last_scheduled_run_id : option Z
}.
#[global] Instance eta_ConnectorConfig : Eta ConnectorConfig := fun r =>
  mkConnectorConfig (id r) (source r) (target r) (enabled r) (schedule_cron r) (config r) (sample_payload r) (created_at r) (updated_at r) (last_scheduled_at r) (next_run_at r) (last_scheduled_run_id r).
End Config.

(** [models.rs]: [NewConnectorConfig]. *)
Module NewConfig.
Record NewConnectorConfig := mkNewConnectorConfig {
  source : string;
  target : string;
  enabled : bool;
  schedule_cron : option string;
  config : string;
  sample_payload : string;
  last_scheduled_at : option Z;
  next_run_at : option Z;
  last_scheduled_run_id : option Z
}.
#[global] Instance eta_NewConnectorConfig : Eta NewConnectorConfig := fun r =>
  mkNewConnectorConfig (source r) (target r) (enabled r) (schedule_cron r) (config r) (sample_payload r) (last_scheduled_at r) (next_run_at r) (last_scheduled_run_id r).
End NewConfig.

(** [models.rs]: [ConnectorConfigUpdate]. *)
Module ConfigUpdate.
Record ConnectorConfigUpdate := mkConnectorConfigUpdate {
  target : string;
  enabled : bool;
  schedule_cron : option string;
  config : string;
  sample_payload : string
}.
#[global] Instance eta_ConnectorConfigUpdate : Eta ConnectorConfigUpdate := fun r =>
  mkConnectorConfigUpdate (target r) (enabled r) (schedule_cron r) (config r) (sample_payload r).
End ConfigUpdate.

(** [models.rs]: [ConnectorRun]. *)
Module Run.
Record ConnectorRun := mkConnectorRun {
  id : Z;
  source : string;
  target : string;
  status : string;
  success_count : Z;
  failure_count : Z;
  duration_ms : Z;
  error_message : option string;
  started_at : Z;
  finished_at : option Z;
  trigger : string;
  payload : option string;
  claimed_at : option Z;
  worker_id : option string;
  attempt_count : Z;
  max_attempts : Z;
  next_attempt_at : Z;
  lease_expires_at : option Z;
  heartbeat_at : option Z;
  cancel_requested_at : option Z;
  cancelled_at : option Z;
  parent_run_id : option Z;
  snapshot_complete : option bool;
  archived_count : Z
}.
#[global] Instance eta_ConnectorRun : Eta ConnectorRun := fun r =>
  mkConnectorRun (id r) (source r) (target r) (status r) (success_count r) (failure_count r) (duration_ms r) (error_message r) (started_at r) (finished_at r) (trigger r) (payload r) (claimed_at r) (worker_id r) (attempt_count r) (max_attempts r) (next_attempt_at r) (lease_expires_at r) (heartbeat_at r) (cancel_requested_at r) (cancelled_at r) (parent_run_id r) (snapshot_complete r) (archived_count r).
End Run.

(** [models.rs]: [NewConnectorRun]. *)
Module NewRun.
Record NewConnectorRun := mkNewConnectorRun {
  source : string;
  target : string;
  status : string;
  success_count : Z;
  failure_count : Z;
  duration_ms : Z;
  error_message : option string;
  started_at : Z;
  finished_at : option Z;
  trigger : string;
  payload : option string;
  claimed_at : option Z;
  worker_id : option string;
  attempt_count : Z;
  max_attempts : Z;
  next_attempt_at : Z;
  lease_expires_at : option Z;
  heartbeat_at : option Z;
  cancel_requested_at : option Z;
  cancelled_at : option Z;
  parent_run_id : option Z;
  snapshot_complete : option bool;
  archived_count : Z
}.
#[global] Instance eta_NewConnectorRun : Eta NewConnectorRun := fun r =>
  mkNewConnectorRun (source r) (target r) (status r) (success_count r) (failure_count r) (duration_ms r) (error_message r) (started_at r) (finished_at r) (trigger r) (payload r) (claimed_at r) (worker_id r) (attempt_count r) (max_attempts r) (next_attempt_at r) (lease_expires_at r) (heartbeat_at r) (cancel_requested_at r) (cancelled_at r) (parent_run_id r) (snapshot_complete r) (archived_count r).
End NewRun.

(** [models.rs]: [ConnectorRunStateUpdate]. *)
Module RunUpdate.
Record ConnectorRunStateUpdate := mkConnectorRunStateUpdate {
  status : string;
  success_count : Z;
  failure_count : Z;
  duration_ms : Z;
  error_message : option string;
  finished_at : option Z;
  snapshot_complete : option bool;
  archived_count : Z
}.
#[global] Instance eta_ConnectorRunStateUpdate : Eta ConnectorRunStateUpdate := fun r =>
  mkConnectorRunStateUpdate (status r) (success_count r) (failure_count r) (duration_ms r) (error_message r) (finished_at r) (snapshot_complete r) (archived_count r).
End RunUpdate.

(** [models.rs]: [ConnectorRunItem]. *)
Module RunItem.
Record ConnectorRunItem := mkConnectorRunItem {
  id : Z;
  connector_run_id : Z;
  source : string;
  target : string;
  record_id : option Z;
  external_id : option string;
  status : string;
  snapshot : option string;
  created_at : Z
}.
#[global] Instance eta_ConnectorRunItem : Eta ConnectorRunItem := fun r =>
  mkConnectorRunItem (id r) (connector_run_id r) (source r) (target r) (record_id r) (external_id r) (status r) (snapshot r) (created_at r).
End RunItem.

(** [models.rs]: [NewConnectorRunItem]. *)
Module NewItem.
Record NewConnectorRunItem := mkNewConnectorRunItem {
  connector_run_id : Z;
  source : string;
  target : string;
  record_id : option Z;
  external_id : option string;
  status : string;
  snapshot : option string
}.
#[global] Instance eta_NewConnectorRunItem : Eta NewConnectorRunItem := fun r =>
  mkNewConnectorRunItem (connector_run_id r) (source r) (target r) (record_id r) (external_id r) (status r) (snapshot r).
End NewItem.

(** [models.rs]: [ConnectorRunItemError]. *)
Module ItemError.
Record ConnectorRunItemError := mkConnectorRunItemError {
  id : Z;
  connector_run_id : Z;
  source : string;
  target : string;
  external_id : option string;
  message : string;
  raw_item : option string;
  created_at : Z
}.
#[global] Instance eta_ConnectorRunItemError : Eta ConnectorRunItemError := fun r =>
  mkConnectorRunItemError (id r) (connector_run_id r) (source r) (target r) (external_id r) (message r) (raw_item r) (created_at r).
End ItemError.

(** [models.rs]: [NewConnectorRunItemError]. *)
Module NewItemError.
Record NewConnectorRunItemError := mkNewConnectorRunItemError {
  connector_run_id : Z;
  source : string;
  target : string;
  external_id : option string;
  message : string;
  raw_item : option string
}.
#[global] Instance eta_NewConnectorRunItemError : Eta NewConnectorRunItemError := fun r =>
  mkNewConnectorRunItemError (connector_run_id r) (source r) (target r) (external_id r) (message r) (raw_item r).
End NewItemError.

(** [models.rs]: [ConnectorWorker]. *)
Module Worker.
Record ConnectorWorker := mkConnectorWorker {
  id : Z;
  worker_id : string;
  status : string;
  scheduler_enabled : bool;
  retention_enabled : bool;
  current_run_id : option Z;
  last_error : option string;
  started_at : Z;
  last_seen_at : Z;
  updated_at : Z
}.
#[global] Instance eta_ConnectorWorker : Eta ConnectorWorker := fun r =>
  mkConnectorWorker (id r) (worker_id r) (status r) (scheduler_enabled r) (retention_enabled r) (current_run_id r) (last_error r) (started_at r) (last_seen_at r) (updated_at r).
End Worker.

(** [models.rs]: [ConnectorWorkerHeartbeat]. *)
Module Heartbeat.
Record ConnectorWorkerHeartbeat := mkConnectorWorkerHeartbeat {
  worker_id : string;
  status : string;
  scheduler_enabled : bool;
  retention_enabled : bool;
  current_run_id : option Z;
  last_error : option string;
  started_at : Z
}.
#[global] Instance eta_ConnectorWorkerHeartbeat : Eta ConnectorWorkerHeartbeat := fun r =>
  mkConnectorWorkerHeartbeat (worker_id r) (status r) (scheduler_enabled r) (retention_enabled r) (current_run_id r) (last_error r) (started_at r).
End Heartbeat.

(** [models.rs]: [MaintenanceRun]. *)
Module Maintenance.
Record MaintenanceRun := mkMaintenanceRun {
  id : Z;
  task : string;
  status : string;
  worker_id : option string;
  started_at : Z;
  finished_at : Z;
  duration_ms : Z;
  health_checks_deleted : Z;
  connector_runs_deleted : Z;
  audit_logs_deleted : Z;
  error_message : option string;
  created_at : Z
}.
#[global] Instance eta_MaintenanceRun : Eta MaintenanceRun := fun r =>
  mkMaintenanceRun (id r) (task r) (status r) (worker_id r) (started_at r) (finished_at r) (duration_ms r) (health_checks_deleted r) (connector_runs_deleted r) (audit_logs_deleted r) (error_message r) (created_at r).
End Maintenance.

(** [models.rs]: [NewMaintenanceRun]. *)
Module NewMaintenance.
Record NewMaintenanceRun := mkNewMaintenanceRun {
  task : string;
  status : string;
  worker_id : option string;
  started_at : Z;
  finished_at : Z;
  duration_ms : Z;
  health_checks_deleted : Z;
  connector_runs_deleted : Z;
  audit_logs_deleted : Z;
  error_message : option string
}.
#[global] Instance eta_NewMaintenanceRun : Eta NewMaintenanceRun := fun r =>
  mkNewMaintenanceRun (task r) (status r) (worker_id r) (started_at r) (finished_at r) (duration_ms r) (health_checks_deleted r) (connector_runs_deleted r) (audit_logs_deleted r) (error_message r).
End NewMaintenance.

(** [models.rs]: [AuditLog]. *)
Module Audit.
Record AuditLog := mkAuditLog {
  id : Z;
  actor_user_id : option Z;
  action : string;
  resource_type : string;
  resource_id : option string;
  metadata : option string;
  created_at : Z
}.
#[global] Instance eta_AuditLog : Eta AuditLog := fun r =>
  mkAuditLog (id r) (actor_user_id r) (action r) (resource_type r) (resource_id r) (metadata r) (created_at r).
End Audit.

(** [models.rs]: [NewAuditLog]. *)
Module NewAudit.
Record NewAuditLog := mkNewAuditLog {
  actor_user_id : option Z;
  action : string;
  resource_type : string;
  resource_id : option string;
  metadata : option string
}.
#[global] Instance eta_NewAuditLog : Eta NewAuditLog := fun r =>
  mkNewAuditLog (actor_user_id r) (action r) (resource_type r) (resource_id r) (metadata r).
End NewAudit.

(** [models.rs]: [Maintainer]. *)
Module Maint.
Record Maintainer := mkMaintainer {
  id : Z;
  display_name : string;
  email : string;
  created_at : Z
}.
#[global] Instance eta_Maintainer : Eta Maintainer := fun r =>
  mkMaintainer (id r) (display_name r) (email r) (created_at r).
End Maint.

(** [models.rs]: [NewMaintainer]. *)
Module NewMaint.
Record NewMaintainer := mkNewMaintainer {
  display_name : string;
  email : string
}.
#[global] Instance eta_NewMaintainer : Eta NewMaintainer := fun r =>
  mkNewMaintainer (display_name r) (email r).
End NewMaint.

(** [models.rs]: [MaintainerMember]. *)
Module Member.
Record MaintainerMember := mkMaintainerMember {
  id : Z;
  maintainer_id : Z;
  user_id : Z;
  role : string;
  created_at : Z
}.
#[global] Instance eta_MaintainerMember : Eta MaintainerMember := fun r =>
  mkMaintainerMember (id r) (maintainer_id r) (user_id r) (role r) (created_at r).
End Member.

(** [models.rs]: [NewMaintainerMember]. *)
Module NewMember.
Record NewMaintainerMember := mkNewMaintainerMember {
  maintainer_id : Z;
  user_id : Z;
  role : string
}.
#[global] Instance eta_NewMaintainerMember : Eta NewMaintainerMember := fun r =>
  mkNewMaintainerMember (maintainer_id r) (user_id r) (role r).
End NewMember.

(** [models.rs]: [Package]. *)
Module Pkg.
Record Package := mkPackage {
  id : Z;
  maintainer_id : Z;
  slug : string;
  name : string;
  version : string;
  description : option string;
  created_at : Z;
  status : string;
  repository_url : option string;
  documentation_url : option string;
  updated_at : Z
}.
#[global] Instance eta_Package : Eta Package := fun r =>
  mkPackage (id r) (maintainer_id r) (slug r) (name r) (version r) (description r) (created_at r) (status r) (repository_url r) (documentation_url r) (updated_at r).
End Pkg.

(** [models.rs]: [NewPackage]. *)
Module NewPkg.
Record NewPackage := mkNewPackage {
  maintainer_id : Z;
  slug : string;
  name : string;
  version : string;
  status : string;
  description : option string;
  repository_url : option string;
  documentation_url : option string
}.
#[global] Instance eta_NewPackage : Eta NewPackage := fun r =>
  mkNewPackage (maintainer_id r) (slug r) (name r) (version r) (status r) (description r) (repository_url r) (documentation_url r).
End NewPkg.

(** [models.rs]: [Service]. *)
Module Svc.
Record Service := mkService {
  id : Z;
  maintainer_id : Z;
  slug : string;
  name : string;
  lifecycle_status : string;
  health_status : string;
  description : option string;
  repository_url : option string;
  dashboard_url : option string;
  runbook_url : option string;
  last_checked_at : option Z;
  created_at : Z;
  updated_at : Z;
  source : string;
  external_id : option string
}.
#[global] Instance eta_Service : Eta Service := fun r =>
  mkService (id r) (maintainer_id r) (slug r) (name r) (lifecycle_status r) (health_status r) (description r) (repository_url r) (dashboard_url r) (runbook_url r) (last_checked_at r) (created_at r) (updated_at r) (source r) (external_id r).
End Svc.

(** [models.rs]: [ServiceHealthCheck]. *)
Module Check.
Record ServiceHealthCheck := mkServiceHealthCheck {
  id : Z;
  service_id : Z;
  connector_run_id : option Z;
  source : string;
  external_id : option string;
  health_status : string;
  previous_health_status : option string;
  checked_at : Z;
  response_time_ms : option Z;
  message : option string;
  raw_payload : option string;
  created_at : Z
}.
#[global] Instance eta_ServiceHealthCheck : Eta ServiceHealthCheck := fun r =>
  mkServiceHealthCheck (id r) (service_id r) (connector_run_id r) (source r) (external_id r) (health_status r) (previous_health_status r) (checked_at r) (response_time_ms r) (message r) (raw_payload r) (created_at r).
End Check.

(** [models.rs]: [NewServiceHealthCheck]. *)
Module NewCheck.
Record NewServiceHealthCheck := mkNewServiceHealthCheck {
  service_id : Z;
  connector_run_id : option Z;
  source : string;
  external_id : option string;
  health_status : string;
  previous_health_status : option string;
  checked_at : Z;
  response_time_ms : option Z;
  message : option string;
  raw_payload : option string
}.
#[global] Instance eta_NewServiceHealthCheck : Eta NewServiceHealthCheck := fun r =>
  mkNewServiceHealthCheck (service_id r) (connector_run_id r) (source r) (external_id r) (health_status r) (previous_health_status r) (checked_at r) (response_time_ms r) (message r) (raw_payload r).
End NewCheck.

(** [models.rs]: [NewService]. *)
Module NewSvc.
Record NewService := mkNewService {
  source : string;
  external_id : option string;
  maintainer_id : Z;
  slug : string;
  name : string;
  lifecycle_status : string;
  health_status : string;
  description : option string;
  repository_url : option string;
  dashboard_url : option string;
  runbook_url : option string;
  last_checked_at : option Z
}.
#[global] Instance eta_NewService : Eta NewService := fun r =>
  mkNewService (source r) (external_id r) (maintainer_id r) (slug r) (name r) (lifecycle_status r) (health_status r) (description r) (repository_url r) (dashboard_url r) (runbook_url r) (last_checked_at r).
End NewSvc.

(** [models.rs]: [CalendarEvent]. *)
Module Event.
Record CalendarEvent := mkCalendarEvent {
  id : Z;
  source : string;
  external_id : string;
  title : string;
  body : option string;
  organizer : option string;
  location : option string;
  starts_at : Z;
  ends_at : Z;
  time_zone : option string;
  is_all_day : bool;
  is_cancelled : bool;
  web_url : option string;
  join_url : option string;
  connector_id : option Z;
  owner_user_id : option Z;
  maintainer_id : option Z;
  source_updated_at : option Z;
  last_seen_run_id : option Z;
  archived_at : option Z;
  created_at : Z;
  updated_at : Z
}.
#[global] Instance eta_CalendarEvent : Eta CalendarEvent := fun r =>
  mkCalendarEvent (id r) (source r) (external_id r) (title r) (body r) (organizer r) (location r) (starts_at r) (ends_at r) (time_zone r) (is_all_day r) (is_cancelled r) (web_url r) (join_url r) (connector_id r) (owner_user_id r) (maintainer_id r) (source_updated_at r) (last_seen_run_id r) (archived_at r) (created_at r) (updated_at r).
End Event.

(** [models.rs]: [NewCalendarEvent]. *)
Module NewEvent.
Record NewCalendarEvent := mkNewCalendarEvent {
  source : string;
  external_id : string;
  title : string;
  body : option string;
  organizer : option string;
  location : option string;
  starts_at : Z;
  ends_at : Z;
  time_zone : option string;
  is_all_day : bool;
  is_cancelled : bool;
  web_url : option string;
  join_url : option string;
  connector_id : option Z;
  owner_user_id : option Z;
  maintainer_id : option Z;
  source_updated_at : option Z;
  last_seen_run_id : option Z;
  archived_at : option Z
}.
#[global] Instance eta_NewCalendarEvent : Eta NewCalendarEvent := fun r =>
  mkNewCalendarEvent (source r) (external_id r) (title r) (body r) (organizer r) (location r) (starts_at r) (ends_at r) (time_zone r) (is_all_day r) (is_cancelled r) (web_url r) (join_url r) (connector_id r) (owner_user_id r) (maintainer_id r) (source_updated_at r) (last_seen_run_id r) (archived_at r).
End NewEvent.

(** [models.rs]: [WorkCard]. *)
Module Card.
Record WorkCard := mkWorkCard {
  id : Z;
  source : string;
  external_id : option string;
  title : string;
  status : string;
  priority : string;
  assignee : option string;
  project : option string;
  work_item_type : option string;
  assignee_source_id : option string;
  assignee_user_id : option Z;
  due_at : option Z;
  url : option string;
  created_at : Z;
  updated_at : Z;
  connector_id : option Z;
  owner_user_id : option Z;
  maintainer_id : option Z;
  source_updated_at : option Z;
  last_seen_run_id : option Z;
  archived_at : option Z
}.
#[global] Instance eta_WorkCard : Eta WorkCard := fun r =>
  mkWorkCard (id r) (source r) (external_id r) (title r) (status r) (priority r) (assignee r) (project r) (work_item_type r) (assignee_source_id r) (assignee_user_id r) (due_at r) (url r) (created_at r) (updated_at r) (connector_id r) (owner_user_id r) (maintainer_id r) (source_updated_at r) (last_seen_run_id r) (archived_at r).
End Card.

(** [models.rs]: [NewWorkCard]. *)
Module NewCard.
Record NewWorkCard := mkNewWorkCard {
  source : string;
  external_id : option string;
  title : string;
  status : string;
  priority : string;
  assignee : option string;
  project : option string;
  work_item_type : option string;
  assignee_source_id : option string;
  assignee_user_id : option Z;
  due_at : option Z;
  url : option string;
  connector_id : option Z;
  owner_user_id : option Z;
  maintainer_id : option Z;
  source_updated_at : option Z;
  last_seen_run_id : option Z;
  archived_at : option Z
}.
#[global] Instance eta_NewWorkCard : Eta NewWorkCard := fun r =>
  mkNewWorkCard (source r) (external_id r) (title r) (status r) (priority r) (assignee r) (project r) (work_item_type r) (assignee_source_id r) (assignee_user_id r) (due_at r) (url r) (connector_id r) (owner_user_id r) (maintainer_id r) (source_updated_at r) (last_seen_run_id r) (archived_at r).
End NewCard.

(** [models.rs]: [Notification]. *)
Module Notif.
Record Notification := mkNotification {
  id : Z;
  source : string;
  title : string;
  body : option string;
  severity : string;
  is_read : bool;
  url : option string;
  created_at : Z;
  updated_at : Z;
  external_id : option string;
  connector_id : option Z;
  owner_user_id : option Z;
  maintainer_id : option Z;
  source_updated_at : option Z;
  last_seen_run_id : option Z;
  archived_at : option Z
}.
#[global] Instance eta_Notification : Eta Notification := fun r =>
  mkNotification (id r) (source r) (title r) (body r) (severity r) (is_read r) (url r) (created_at r) (updated_at r) (external_id r) (connector_id r) (owner_user_id r) (maintainer_id r) (source_updated_at r) (last_seen_run_id r) (archived_at r).
End Notif.

(** [models.rs]: [NotificationView]. *)
Module View.
Record NotificationView := mkNotificationView {
  id : Z;
  source : string;
  title : string;
  body : option string;
  severity : string;
  is_read : bool;
  source_is_read : bool;
  url : option string;
  created_at : Z;
  updated_at : Z;
  external_id : option string;
  connector_id : option Z;
  owner_user_id : option Z;
  maintainer_id : option Z;
  source_updated_at : option Z;
  last_seen_run_id : option Z;
  archived_at : option Z;
  read_at : option Z;
  dismissed_at : option Z;
  snoozed_until : option Z
}.
#[global] Instance eta_NotificationView : Eta NotificationView := fun r =>
  mkNotificationView (id r) (source r) (title r) (body r) (severity r) (is_read r) (source_is_read r) (url r) (created_at r) (updated_at r) (external_id r) (connector_id r) (owner_user_id r) (maintainer_id r) (source_updated_at r) (last_seen_run_id r) (archived_at r) (read_at r) (dismissed_at r) (snoozed_until r).
End View.

(** [models.rs]: [NewNotification]. *)
Module NewNotif.
Record NewNotification := mkNewNotification {
  source : string;
  external_id : option string;
  title : string;
  body : option string;
  severity : string;
  is_read : bool;
  url : option string;
  connector_id : option Z;
  owner_user_id : option Z;
  maintainer_id : option Z;
  source_updated_at : option Z;
  last_seen_run_id : option Z;
  archived_at : option Z
}.
#[global] Instance eta_NewNotification : Eta NewNotification := fun r =>
  mkNewNotification (source r) (external_id r) (title r) (body r) (severity r) (is_read r) (url r) (connector_id r) (owner_user_id r) (maintainer_id r) (source_updated_at r) (last_seen_run_id r) (archived_at r).
End NewNotif.

(** [models.rs]: [NotificationReceipt]. *)
Module Receipt.
Record NotificationReceipt := mkNotificationReceipt {
  id : Z;
  notification_id : Z;
  user_id : Z;
  read_at : option Z;
  dismissed_at : option Z;
  snoozed_until : option Z;
  created_at : Z;
  updated_at : Z
}.
#[global] Instance eta_NotificationReceipt : Eta NotificationReceipt := fun r =>
  mkNotificationReceipt (id r) (notification_id r) (user_id r) (read_at r) (dismissed_at r) (snoozed_until r) (created_at r) (updated_at r).
End Receipt.

(** [models.rs]: [User]. *)
Module Users.
Record User := mkUser {
  id : Z;
  username : string;
  password : string;
  created_at : Z
}.
#[global] Instance eta_User : Eta User := fun r =>
  mkUser (id r) (username r) (password r) (created_at r).
End Users.

(** [models.rs]: [NewUser]. *)
Module NewUsr.
Record NewUser := mkNewUser {
  username : string;
  password : string
}.
#[global] Instance eta_NewUser : Eta NewUser := fun r =>
  mkNewUser (username r) (password r).
End NewUsr.

(** [models.rs]: [ExternalIdentity]. *)
Module Identity.
Record ExternalIdentity := mkExternalIdentity {
  id : Z;
  user_id : Z;
  provider : string;
  issuer : string;
  subject : option string;
  tenant_id : string;
  object_id : string;
  preferred_username : option string;
  display_name : option string;
  email : option string;
  last_login_at : option Z;
  created_at : Z;
  updated_at : Z
}.
#[global] Instance eta_ExternalIdentity : Eta ExternalIdentity := fun r =>
  mkExternalIdentity (id r) (user_id r) (provider r) (issuer r) (subject r) (tenant_id r) (object_id r) (preferred_username r) (display_name r) (email r) (last_login_at r) (created_at r) (updated_at r).
End Identity.

(** [models.rs]: [NewExternalIdentity]. *)
Module NewIdentity.
Record NewExternalIdentity := mkNewExternalIdentity {
  user_id : Z;
  provider : string;
  issuer : string;
  subject : option string;
  tenant_id : string;
  object_id : string;
  preferred_username : option string;
  display_name : option string;
  email : option string;
  last_login_at : option Z
}.
#[global] Instance eta_NewExternalIdentity : Eta NewExternalIdentity := fun r =>
  mkNewExternalIdentity (user_id r) (provider r) (issuer r) (subject r) (tenant_id r) (object_id r) (preferred_username r) (display_name r) (email r) (last_login_at r).
End NewIdentity.

(** [models.rs]: [Role]. *)
Module Roles.
Record Role := mkRole {
  id : Z;
  code : string;
  name : string;
  created_at : Z
}.
#[global] Instance eta_Role : Eta Role := fun r =>
  mkRole (id r) (code r) (name r) (created_at r).
End Roles.

(** [models.rs]: [NewRole]. *)
Module NewRl.
Record NewRole := mkNewRole {
  code : string;
  name : string
}.
#[global] Instance eta_NewRole : Eta NewRole := fun r =>
  mkNewRole (code r) (name r).
End NewRl.

(** [models.rs]: [UserRole]. *)
Module URole.
Record UserRole := mkUserRole {
  id : Z;
  user_id : Z;
  role_id : Z
}.
#[global] Instance eta_UserRole : Eta UserRole := fun r =>
  mkUserRole (id r) (user_id r) (role_id r).
End URole.

(** [models.rs]: [NewUserRole]. *)
Module NewURole.
Record NewUserRole := mkNewUserRole {
  user_id : Z;
  role_id : Z
}.
#[global] Instance eta_NewUserRole : Eta NewUserRole := fun r =>
  mkNewUserRole (user_id r) (role_id r).
End NewURole.

(** [models.rs]: [Session]. *)
Module Sess.
Record Session := mkSession {
  id : Z;
  user_id : Z;
  token_hash : string;
  expires_at : Z;
  created_at : Z;
  auth_method : string;
  last_seen_at : Z;
  ip_address : option string;
  user_agent : option string
}.
#[global] Instance eta_Session : Eta Session := fun r =>
  mkSession (id r) (user_id r) (token_hash r) (expires_at r) (created_at r) (auth_method r) (last_seen_at r) (ip_address r) (user_agent r).
End Sess.

(** [models.rs]: [NewSession]. *)
Module NewSess.
Record NewSession := mkNewSession {
  user_id : Z;
  token_hash : string;
  expires_at : Z;
  auth_method : string;
  last_seen_at : Z;
  ip_address : option string;
  user_agent : option string
}.
#[global] Instance eta_NewSession : Eta NewSession := fun r =>
  mkNewSession (user_id r) (token_hash r) (expires_at r) (auth_method r) (last_seen_at r) (ip_address r) (user_agent r).
End NewSess.

(** [models.rs]: [LoginThrottleBucket]. *)
Module Bucket.
Record LoginThrottleBucket := mkLoginThrottleBucket {
  bucket_hash : string;
  failure_count : Z;
  window_started_at : Z;
  locked_until : option Z;
  updated_at : Z
}.
#[global] Instance eta_LoginThrottleBucket : Eta LoginThrottleBucket := fun r =>
  mkLoginThrottleBucket (bucket_hash r) (failure_count r) (window_started_at r) (locked_until r) (updated_at r).
End Bucket.

(** [models.rs]: [NewLoginThrottleBucket]. *)
Module NewBucket.
Record NewLoginThrottleBucket := mkNewLoginThrottleBucket {
  bucket_hash : string;
  failure_count : Z;
  window_started_at : Z;
  locked_until : option Z;
  updated_at : Z
}.
#[global] Instance eta_NewLoginThrottleBucket : Eta NewLoginThrottleBucket := fun r =>
  mkNewLoginThrottleBucket (bucket_hash r) (failure_count r) (window_started_at r) (locked_until r) (updated_at r).
End NewBucket.

(** [models.rs]: [OidcLoginTransaction]. *)
Module Oidc.
Record OidcLoginTransaction := mkOidcLoginTransaction {
  state_hash : string;
  browser_binding_hash : string;
  nonce : string;
  pkce_verifier_ciphertext : string;
  return_to : string;
  expires_at : Z;
  created_at : Z
}.
#[global] Instance eta_OidcLoginTransaction : Eta OidcLoginTransaction := fun r =>
  mkOidcLoginTransaction (state_hash r) (browser_binding_hash r) (nonce r) (pkce_verifier_ciphertext r) (return_to r) (expires_at r) (created_at r).
End Oidc.

(** [models.rs]: [NewOidcLoginTransaction]. *)
Module NewOidc.
Record NewOidcLoginTransaction := mkNewOidcLoginTransaction {
  state_hash : string;
  browser_binding_hash : string;
  nonce : string;
  pkce_verifier_ciphertext : string;
  return_to : string;
  expires_at : Z
}.
#[global] Instance eta_NewOidcLoginTransaction : Eta NewOidcLoginTransaction := fun r =>
  mkNewOidcLoginTransaction (state_hash r) (browser_binding_hash r) (nonce r) (pkce_verifier_ciphertext r) (return_to r) (expires_at r).
End NewOidc.

