(* ===== verification/Schema.v ===== *)
(** The database of the portal: one table per [diesel] table of
    [src/src/schema.rs], with the CHECK, UNIQUE, VARCHAR and FOREIGN KEY
    constraints and the ON DELETE actions the migrations declare. *)
From S2P Require Import Prelude Text Models.

Record Db := mkDb {
  users : list Users.User;
  roles : list Roles.Role;
  users_roles : list URole.UserRole;
  sessions : list Sess.Session;
  login_throttle_buckets : list Bucket.LoginThrottleBucket;
  oidc_login_transactions : list Oidc.OidcLoginTransaction;
  external_identities : list Identity.ExternalIdentity;
  maintainers : list Maint.Maintainer;
  maintainer_members : list Member.MaintainerMember;
  packages : list Pkg.Package;
  services : list Svc.Service;
  service_health_checks : list Check.ServiceHealthCheck;
  connectors : list Connectors.Connector;
  connector_configs : list Config.ConnectorConfig;
  connector_runs : list Run.ConnectorRun;
  connector_run_items : list RunItem.ConnectorRunItem;
  connector_run_item_errors : list ItemError.ConnectorRunItemError;
  connector_workers : list Worker.ConnectorWorker;
  maintenance_runs : list Maintenance.MaintenanceRun;
  audit_logs : list Audit.AuditLog;
  work_cards : list Card.WorkCard;
  notifications : list Notif.Notification;
  notification_receipts : list Receipt.NotificationReceipt;
  calendar_events : list Event.CalendarEvent
}.

#[global] Instance eta_Db : Eta Db := fun d =>
  mkDb (users d) (roles d) (users_roles d) (sessions d) (login_throttle_buckets d)
    (oidc_login_transactions d) (external_identities d) (maintainers d) (maintainer_members d)
    (packages d) (services d) (service_health_checks d) (connectors d) (connector_configs d)
    (connector_runs d) (connector_run_items d) (connector_run_item_errors d)
    (connector_workers d) (maintenance_runs d) (audit_logs d) (work_cards d)
    (notifications d) (notification_receipts d) (calendar_events d).

Definition empty_db : Db :=
  mkDb [] [] [] [] [] [] [] [] [] [] [] [] [] [] [] [] [] [] [] [] [] [] [] [].

(** ** Constraint vocabulary *)

(** VARCHAR(n) counts characters. *)
Definition fits (n : Z) (s : string) : bool := Z.of_nat (char_count s) <=? n.

Definition fits_opt (n : Z) (s : option string) : bool :=
  match s with Some s => fits n s | None => true end.

Definition one_of_texts (s : string) (l : list string) : bool := existsb (str_eqb s) l.

(** Constraints in the order PostgreSQL reports them. *)
Fixpoint first_broken (l : list (bool * DatabaseErrorKind)) : option DatabaseErrorKind :=
  match l with
  | [] => None
  | (true, _) :: l' => first_broken l'
  | (false, k) :: _ => Some k
  end.

(** A key is unique when a single row carries it. *)
Definition unique {R} (same : R -> bool) (l : list R) : bool :=
  (length (List.filter same l) <=? 1)%nat.

Definition refers {R} (key : R -> Z) (l : list R) (x : Z) : bool :=
  existsb (fun r => key r =? x) l.

Definition refers_opt {R} (key : R -> Z) (l : list R) (x : option Z) : bool :=
  match x with Some x => refers key l x | None => true end.

Definition too_long := KindUnknown.

(** ** The constraints of the connector tables *)

Definition run_violated (d : Db) (r : Run.ConnectorRun) : option DatabaseErrorKind :=
  first_broken
    [ (fits 64 (Run.source r) && fits 64 (Run.target r) && fits 32 (Run.status r)
       && fits_opt 128 (Run.worker_id r), too_long);
      (one_of_texts (Run.status r)
         ["queued"; "running"; "success"; "partial_success"; "failed"; "cancelled"],
       CheckViolation);
      (one_of_texts (Run.trigger r) ["manual"; "scheduled"; "import"; "retry"], CheckViolation);
      ((0 <=? Run.attempt_count r) && (0 <? Run.max_attempts r)
       && (Run.attempt_count r <=? Run.max_attempts r) && (0 <=? Run.archived_count r),
       CheckViolation);
      (match Run.parent_run_id r with
       | Some p =>
           negb (one_of_texts (Run.status r) ["queued"; "running"]) ||
           unique (fun x => holds (eq_int (Run.parent_run_id x) (Some p))
                            && one_of_texts (Run.status x) ["queued"; "running"])
             (connector_runs d)
       | None => true
       end, UniqueViolation);
      (refers_opt Run.id (connector_runs d) (Run.parent_run_id r), ForeignKeyViolation);
      (unique (fun x => Run.id x =? Run.id r) (connector_runs d), UniqueViolation) ].

Definition scope_check (scope_type : string) (owner_user_id maintainer_id : option Z) : bool :=
  (str_eqb scope_type "global" && holds (is_null owner_user_id) && holds (is_null maintainer_id))
  || (str_eqb scope_type "user" && holds (is_not_null owner_user_id) && holds (is_null maintainer_id))
  || (str_eqb scope_type "maintainer" && holds (is_null owner_user_id) && holds (is_not_null maintainer_id)).

(** [NOT (owner_user_id IS NOT NULL AND maintainer_id IS NOT NULL)]. *)
Definition record_scope_check (owner_user_id maintainer_id : option Z) : bool :=
  negb (holds (is_not_null owner_user_id) && holds (is_not_null maintainer_id)).

Definition connector_violated (d : Db) (r : Connectors.Connector) : option DatabaseErrorKind :=
  first_broken
    [ (fits 64 (Connectors.source r) && fits 64 (Connectors.kind r)
       && fits 128 (Connectors.display_name r) && fits 32 (Connectors.status r)
       && fits 16 (Connectors.scope_type r), too_long);
      (one_of_texts (Connectors.status r) ["active"; "paused"; "error"], CheckViolation);
      (scope_check (Connectors.scope_type r) (Connectors.owner_user_id r)
         (Connectors.maintainer_id r), CheckViolation);
      (unique (fun x => str_eqb (Connectors.source x) (Connectors.source r)) (connectors d),
       UniqueViolation);
      (refers_opt Users.id (users d) (Connectors.owner_user_id r), ForeignKeyViolation);
      (refers_opt Maint.id (maintainers d) (Connectors.maintainer_id r), ForeignKeyViolation);
      (unique (fun x => Connectors.id x =? Connectors.id r) (connectors d), UniqueViolation) ].

Definition targets : list string :=
  ["service_health"; "work_cards"; "notifications"; "calendar_events"].

Definition config_violated (d : Db) (r : Config.ConnectorConfig) : option DatabaseErrorKind :=
  first_broken
    [ (fits 64 (Config.source r) && fits 64 (Config.target r)
       && fits_opt 128 (Config.schedule_cron r), too_long);
      (one_of_texts (Config.target r) targets, CheckViolation);
      (unique (fun x => str_eqb (Config.source x) (Config.source r)) (connector_configs d),
       UniqueViolation);
      (existsb (fun x => str_eqb (Connectors.source x) (Config.source r)) (connectors d),
       ForeignKeyViolation);
      (refers_opt Run.id (connector_runs d) (Config.last_scheduled_run_id r),
       ForeignKeyViolation);
      (unique (fun x => Config.id x =? Config.id r) (connector_configs d), UniqueViolation) ].

Definition run_item_violated (d : Db) (r : RunItem.ConnectorRunItem) : option DatabaseErrorKind :=
  first_broken
    [ (fits 64 (RunItem.source r) && fits 64 (RunItem.target r) && fits 32 (RunItem.status r)
       && fits_opt 128 (RunItem.external_id r), too_long);
      (one_of_texts (RunItem.status r) ["imported"; "failed"], CheckViolation);
      (refers Run.id (connector_runs d) (RunItem.connector_run_id r), ForeignKeyViolation);
      (unique (fun x => RunItem.id x =? RunItem.id r) (connector_run_items d), UniqueViolation) ].

Definition item_error_violated (d : Db) (r : ItemError.ConnectorRunItemError)
    : option DatabaseErrorKind :=
  first_broken
    [ (fits 64 (ItemError.source r) && fits 64 (ItemError.target r)
       && fits_opt 128 (ItemError.external_id r), too_long);
      (refers Run.id (connector_runs d) (ItemError.connector_run_id r), ForeignKeyViolation);
      (unique (fun x => ItemError.id x =? ItemError.id r) (connector_run_item_errors d), UniqueViolation) ].

Definition worker_violated (d : Db) (r : Worker.ConnectorWorker) : option DatabaseErrorKind :=
  first_broken
    [ (fits 128 (Worker.worker_id r) && fits 32 (Worker.status r), too_long);
      (unique (fun x => str_eqb (Worker.worker_id x) (Worker.worker_id r)) (connector_workers d),
       UniqueViolation);
      (refers_opt Run.id (connector_runs d) (Worker.current_run_id r), ForeignKeyViolation);
      (unique (fun x => Worker.id x =? Worker.id r) (connector_workers d), UniqueViolation) ].

Definition maintenance_violated (d : Db) (r : Maintenance.MaintenanceRun)
    : option DatabaseErrorKind :=
  first_broken
    [ (fits 64 (Maintenance.task r) && fits 32 (Maintenance.status r)
       && fits_opt 128 (Maintenance.worker_id r), too_long);
      (unique (fun x => Maintenance.id x =? Maintenance.id r) (maintenance_runs d), UniqueViolation) ].

(** ** The constraints of the record tables *)

(** The partial unique index on [(source, external_id)]. *)
Definition identity_unique {R} (source : R -> string) (external_id : R -> option string)
    (l : list R) (r : R) : bool :=
  match external_id r with
  | Some e => unique (fun x => str_eqb (source x) (source r)
                               && holds (eq_text (external_id x) (Some e))) l
  | None => true
  end.

Definition card_violated (d : Db) (r : Card.WorkCard) : option DatabaseErrorKind :=
  first_broken
    [ (fits 64 (Card.source r) && fits_opt 128 (Card.external_id r) && fits 255 (Card.title r)
       && fits 32 (Card.status r) && fits 32 (Card.priority r) && fits_opt 128 (Card.assignee r)
       && fits_opt 128 (Card.project r) && fits_opt 128 (Card.work_item_type r)
       && fits_opt 512 (Card.assignee_source_id r) && fits_opt 2048 (Card.url r), too_long);
      (one_of_texts (Card.status r) ["todo"; "in_progress"; "blocked"; "done"], CheckViolation);
      (one_of_texts (Card.priority r) ["low"; "medium"; "high"; "urgent"], CheckViolation);
      (record_scope_check (Card.owner_user_id r) (Card.maintainer_id r), CheckViolation);
      (identity_unique Card.source Card.external_id (work_cards d) r, UniqueViolation);
      (refers_opt Connectors.id (connectors d) (Card.connector_id r)
       && refers_opt Users.id (users d) (Card.owner_user_id r)
       && refers_opt Maint.id (maintainers d) (Card.maintainer_id r)
       && refers_opt Run.id (connector_runs d) (Card.last_seen_run_id r)
       && refers_opt Users.id (users d) (Card.assignee_user_id r), ForeignKeyViolation);
      (unique (fun x => Card.id x =? Card.id r) (work_cards d), UniqueViolation) ].

Definition notification_violated (d : Db) (r : Notif.Notification) : option DatabaseErrorKind :=
  first_broken
    [ (fits 64 (Notif.source r) && fits_opt 128 (Notif.external_id r) && fits 255 (Notif.title r)
       && fits 32 (Notif.severity r) && fits_opt 2048 (Notif.url r), too_long);
      (one_of_texts (Notif.severity r) ["info"; "warning"; "critical"], CheckViolation);
      (record_scope_check (Notif.owner_user_id r) (Notif.maintainer_id r), CheckViolation);
      (identity_unique Notif.source Notif.external_id (notifications d) r, UniqueViolation);
      (refers_opt Connectors.id (connectors d) (Notif.connector_id r)
       && refers_opt Users.id (users d) (Notif.owner_user_id r)
       && refers_opt Maint.id (maintainers d) (Notif.maintainer_id r)
       && refers_opt Run.id (connector_runs d) (Notif.last_seen_run_id r), ForeignKeyViolation);
      (unique (fun x => Notif.id x =? Notif.id r) (notifications d), UniqueViolation) ].

Definition event_violated (d : Db) (r : Event.CalendarEvent) : option DatabaseErrorKind :=
  first_broken
    [ (fits 64 (Event.source r) && fits 128 (Event.external_id r) && fits 256 (Event.title r)
       && fits_opt 256 (Event.organizer r) && fits_opt 256 (Event.location r)
       && fits_opt 128 (Event.time_zone r) && fits_opt 2048 (Event.web_url r)
       && fits_opt 2048 (Event.join_url r), too_long);
      (Event.starts_at r <=? Event.ends_at r, CheckViolation);
      (record_scope_check (Event.owner_user_id r) (Event.maintainer_id r), CheckViolation);
      (identity_unique Event.source (fun e => Some (Event.external_id e)) (calendar_events d) r,
       UniqueViolation);
      (refers_opt Connectors.id (connectors d) (Event.connector_id r)
       && refers_opt Users.id (users d) (Event.owner_user_id r)
       && refers_opt Maint.id (maintainers d) (Event.maintainer_id r)
       && refers_opt Run.id (connector_runs d) (Event.last_seen_run_id r), ForeignKeyViolation);
      (unique (fun x => Event.id x =? Event.id r) (calendar_events d), UniqueViolation) ].

Definition receipt_violated (d : Db) (r : Receipt.NotificationReceipt)
    : option DatabaseErrorKind :=
  first_broken
    [ (unique (fun x => (Receipt.notification_id x =? Receipt.notification_id r)
                        && (Receipt.user_id x =? Receipt.user_id r)) (notification_receipts d),
       UniqueViolation);
      (refers Notif.id (notifications d) (Receipt.notification_id r)
       && refers Users.id (users d) (Receipt.user_id r), ForeignKeyViolation);
      (unique (fun x => Receipt.id x =? Receipt.id r) (notification_receipts d), UniqueViolation) ].

Definition health_statuses : list string := ["healthy"; "degraded"; "down"; "unknown"].

Definition service_violated (d : Db) (r : Svc.Service) : option DatabaseErrorKind :=
  first_broken
    [ (fits 64 (Svc.source r) && fits_opt 128 (Svc.external_id r) && fits 64 (Svc.slug r)
       && fits 128 (Svc.name r) && fits 32 (Svc.lifecycle_status r)
       && fits 32 (Svc.health_status r) && fits_opt 2048 (Svc.repository_url r)
       && fits_opt 2048 (Svc.dashboard_url r) && fits_opt 2048 (Svc.runbook_url r), too_long);
      (one_of_texts (Svc.lifecycle_status r) ["active"; "deprecated"; "archived"],
       CheckViolation);
      (one_of_texts (Svc.health_status r) health_statuses, CheckViolation);
      (identity_unique Svc.source Svc.external_id (services d) r, UniqueViolation);
      (refers Maint.id (maintainers d) (Svc.maintainer_id r), ForeignKeyViolation);
      (unique (fun x => Svc.id x =? Svc.id r) (services d), UniqueViolation) ].

Definition check_violated (d : Db) (r : Check.ServiceHealthCheck) : option DatabaseErrorKind :=
  first_broken
    [ (fits 64 (Check.source r) && fits_opt 128 (Check.external_id r), too_long);
      (one_of_texts (Check.health_status r) health_statuses, CheckViolation);
      (match Check.previous_health_status r with
       | Some s => one_of_texts s health_statuses
       | None => true end, CheckViolation);
      (refers Svc.id (services d) (Check.service_id r)
       && refers_opt Run.id (connector_runs d) (Check.connector_run_id r), ForeignKeyViolation);
      (unique (fun x => Check.id x =? Check.id r) (service_health_checks d), UniqueViolation) ].

Definition package_violated (d : Db) (r : Pkg.Package) : option DatabaseErrorKind :=
  first_broken
    [ (fits 64 (Pkg.slug r) && fits 128 (Pkg.name r) && fits 64 (Pkg.version r)
       && fits 32 (Pkg.status r) && fits_opt 2048 (Pkg.repository_url r)
       && fits_opt 2048 (Pkg.documentation_url r), too_long);
      (one_of_texts (Pkg.status r) ["active"; "deprecated"; "archived"], CheckViolation);
      (refers Maint.id (maintainers d) (Pkg.maintainer_id r), ForeignKeyViolation);
      (unique (fun x => Pkg.id x =? Pkg.id r) (packages d), UniqueViolation) ].

(** ** The constraints of the identity tables *)

Definition user_violated {U : Unicode} (d : Db) (r : Users.User) : option DatabaseErrorKind :=
  first_broken
    [ (fits 64 (Users.username r) && fits 128 (Users.password r), too_long);
      (str_eqb (Users.username r) (trim (Users.username r))
       && negb (is_empty (Users.username r)), CheckViolation);
      (unique (fun x => str_eqb (to_lowercase (Users.username x))
                                (to_lowercase (Users.username r))) (users d),
       UniqueViolation);
      (unique (fun x => Users.id x =? Users.id r) (users d), UniqueViolation) ].

Definition role_violated (d : Db) (r : Roles.Role) : option DatabaseErrorKind :=
  first_broken
    [ (fits 64 (Roles.code r) && fits 128 (Roles.name r), too_long);
      (unique (fun x => str_eqb (Roles.code x) (Roles.code r)) (roles d), UniqueViolation);
      (unique (fun x => Roles.id x =? Roles.id r) (roles d), UniqueViolation) ].

Definition user_role_violated (d : Db) (r : URole.UserRole) : option DatabaseErrorKind :=
  first_broken
    [ (refers Users.id (users d) (URole.user_id r) && refers Roles.id (roles d) (URole.role_id r),
       ForeignKeyViolation);
      (unique (fun x => URole.id x =? URole.id r) (users_roles d), UniqueViolation) ].

Definition session_violated (d : Db) (r : Sess.Session) : option DatabaseErrorKind :=
  first_broken
    [ (fits 64 (Sess.token_hash r) && fits 32 (Sess.auth_method r)
       && fits_opt 64 (Sess.ip_address r) && fits_opt 512 (Sess.user_agent r), too_long);
      (one_of_texts (Sess.auth_method r) ["password"; "entra"], CheckViolation);
      (unique (fun x => str_eqb (Sess.token_hash x) (Sess.token_hash r)) (sessions d),
       UniqueViolation);
      (refers Users.id (users d) (Sess.user_id r), ForeignKeyViolation);
      (unique (fun x => Sess.id x =? Sess.id r) (sessions d), UniqueViolation) ].

Definition bucket_violated (d : Db) (r : Bucket.LoginThrottleBucket) : option DatabaseErrorKind :=
  first_broken
    [ (fits 64 (Bucket.bucket_hash r), too_long);
      (0 <=? Bucket.failure_count r, CheckViolation);
      (unique (fun x => str_eqb (Bucket.bucket_hash x) (Bucket.bucket_hash r))
         (login_throttle_buckets d), UniqueViolation) ].

Definition oidc_violated (d : Db) (r : Oidc.OidcLoginTransaction) : option DatabaseErrorKind :=
  first_broken
    [ (fits 64 (Oidc.state_hash r) && fits 64 (Oidc.browser_binding_hash r)
       && fits 128 (Oidc.nonce r) && fits 512 (Oidc.return_to r), too_long);
      (unique (fun x => str_eqb (Oidc.state_hash x) (Oidc.state_hash r))
         (oidc_login_transactions d), UniqueViolation) ].

Definition identity_violated (d : Db) (r : Identity.ExternalIdentity)
    : option DatabaseErrorKind :=
  first_broken
    [ (fits 32 (Identity.provider r) && fits 255 (Identity.issuer r)
       && fits_opt 255 (Identity.subject r) && fits 36 (Identity.tenant_id r)
       && fits 36 (Identity.object_id r) && fits_opt 320 (Identity.preferred_username r)
       && fits_opt 256 (Identity.display_name r) && fits_opt 320 (Identity.email r), too_long);
      (str_eqb (Identity.provider r) "entra", CheckViolation);
      (unique (fun x => str_eqb (Identity.provider x) (Identity.provider r)
                        && str_eqb (Identity.tenant_id x) (Identity.tenant_id r)
                        && str_eqb (Identity.object_id x) (Identity.object_id r))
         (external_identities d), UniqueViolation);
      (match Identity.subject r with
       | Some s => unique (fun x => str_eqb (Identity.provider x) (Identity.provider r)
                                    && str_eqb (Identity.issuer x) (Identity.issuer r)
                                    && holds (eq_text (Identity.subject x) (Some s)))
                     (external_identities d)
       | None => true end, UniqueViolation);
      (refers Users.id (users d) (Identity.user_id r), ForeignKeyViolation);
      (unique (fun x => Identity.id x =? Identity.id r) (external_identities d), UniqueViolation) ].

Definition member_violated (d : Db) (r : Member.MaintainerMember) : option DatabaseErrorKind :=
  first_broken
    [ (fits 32 (Member.role r), too_long);
      (one_of_texts (Member.role r) ["owner"; "maintainer"; "viewer"], CheckViolation);
      (unique (fun x => (Member.maintainer_id x =? Member.maintainer_id r)
                        && (Member.user_id x =? Member.user_id r)) (maintainer_members d),
       UniqueViolation);
      (refers Maint.id (maintainers d) (Member.maintainer_id r)
       && refers Users.id (users d) (Member.user_id r), ForeignKeyViolation);
      (unique (fun x => Member.id x =? Member.id r) (maintainer_members d), UniqueViolation) ].

Definition audit_violated (d : Db) (r : Audit.AuditLog) : option DatabaseErrorKind :=
  first_broken
    [ (fits 64 (Audit.action r) && fits 64 (Audit.resource_type r)
       && fits_opt 128 (Audit.resource_id r), too_long);
      (refers_opt Users.id (users d) (Audit.actor_user_id r), ForeignKeyViolation);
      (unique (fun x => Audit.id x =? Audit.id r) (audit_logs d), UniqueViolation) ].

Definition maintainer_violated (d : Db) (r : Maint.Maintainer) : option DatabaseErrorKind :=
  first_broken [ (unique (fun x => Maint.id x =? Maint.id r) (maintainers d), UniqueViolation) ].

(** ** Referential actions *)

Definition gone_id (gone : list Z) (x : Z) : bool := existsb (Z.eqb x) gone.

(** ON DELETE SET NULL. *)
Definition null_if (gone : list Z) (x : option Z) : option Z :=
  match x with Some i => if gone_id gone i then None else Some i | None => None end.

(** ON DELETE CASCADE of a nullable reference. *)
Definition kept (gone : list Z) (x : option Z) : bool :=
  match x with Some i => negb (gone_id gone i) | None => true end.

Definition delete_connectors_action (gone : list Connectors.Connector) (d : Db) : Db :=
  let ids := map Connectors.id gone in
  d <| connector_configs :=
         List.filter (fun r => negb (existsb (fun g => str_eqb (Connectors.source g)
                                                          (Config.source r)) gone))
           (connector_configs d) |>
    <| work_cards :=
         map (fun r => r <| Card.connector_id := null_if ids (Card.connector_id r) |>)
           (work_cards d) |>
    <| notifications :=
         map (fun r => r <| Notif.connector_id := null_if ids (Notif.connector_id r) |>)
           (notifications d) |>
    <| calendar_events :=
         map (fun r => r <| Event.connector_id := null_if ids (Event.connector_id r) |>)
           (calendar_events d) |>.

Definition delete_runs_action (gone : list Run.ConnectorRun) (d : Db) : Db :=
  let ids := map Run.id gone in
  d <| connector_run_items :=
         List.filter (fun r => negb (gone_id ids (RunItem.connector_run_id r)))
           (connector_run_items d) |>
    <| connector_run_item_errors :=
         List.filter (fun r => negb (gone_id ids (ItemError.connector_run_id r)))
           (connector_run_item_errors d) |>
    <| connector_runs :=
         map (fun r => r <| Run.parent_run_id := null_if ids (Run.parent_run_id r) |>)
           (connector_runs d) |>
    <| connector_configs :=
         map (fun r => r <| Config.last_scheduled_run_id :=
                              null_if ids (Config.last_scheduled_run_id r) |>)
           (connector_configs d) |>
    <| connector_workers :=
         map (fun r => r <| Worker.current_run_id := null_if ids (Worker.current_run_id r) |>)
           (connector_workers d) |>
    <| service_health_checks :=
         map (fun r => r <| Check.connector_run_id := null_if ids (Check.connector_run_id r) |>)
           (service_health_checks d) |>
    <| work_cards :=
         map (fun r => r <| Card.last_seen_run_id := null_if ids (Card.last_seen_run_id r) |>)
           (work_cards d) |>
    <| notifications :=
         map (fun r => r <| Notif.last_seen_run_id := null_if ids (Notif.last_seen_run_id r) |>)
           (notifications d) |>
    <| calendar_events :=
         map (fun r => r <| Event.last_seen_run_id := null_if ids (Event.last_seen_run_id r) |>)
           (calendar_events d) |>.

Definition delete_services_action (gone : list Svc.Service) (d : Db) : Db :=
  let ids := map Svc.id gone in
  d <| service_health_checks :=
         List.filter (fun r => negb (gone_id ids (Check.service_id r)))
           (service_health_checks d) |>.

Definition delete_notifications_action (gone : list Z) (d : Db) : Db :=
  d <| notification_receipts :=
         List.filter (fun r => negb (gone_id gone (Receipt.notification_id r)))
           (notification_receipts d) |>.

(** The records and connectors an owner (a user or a maintainer) takes along. *)
Definition delete_owned (owner_of_connector : Connectors.Connector -> option Z)
    (owner_of_card : Card.WorkCard -> option Z) (owner_of_notif : Notif.Notification -> option Z)
    (owner_of_event : Event.CalendarEvent -> option Z) (ids : list Z) (d : Db) : Db :=
  let lost_connectors := List.filter (fun r => negb (kept ids (owner_of_connector r)))
                           (connectors d) in
  let lost_notifs := List.filter (fun r => negb (kept ids (owner_of_notif r)))
                       (notifications d) in
  let d1 := d <| connectors := List.filter (fun r => kept ids (owner_of_connector r))
                                 (connectors d) |>
              <| work_cards := List.filter (fun r => kept ids (owner_of_card r)) (work_cards d) |>
              <| notifications := List.filter (fun r => kept ids (owner_of_notif r))
                                    (notifications d) |>
              <| calendar_events := List.filter (fun r => kept ids (owner_of_event r))
                                      (calendar_events d) |> in
  delete_connectors_action lost_connectors
    (delete_notifications_action (map Notif.id lost_notifs) d1).

Definition delete_maintainers_action (gone : list Maint.Maintainer) (d : Db)
    : DatabaseErrorKind + Db :=
  let ids := map Maint.id gone in
  if existsb (fun r => gone_id ids (Svc.maintainer_id r)) (services d)
     || existsb (fun r => gone_id ids (Pkg.maintainer_id r)) (packages d)
  then inl ForeignKeyViolation
  else
    let d1 := delete_owned Connectors.maintainer_id Card.maintainer_id Notif.maintainer_id
                Event.maintainer_id ids d in
    inr (d1 <| maintainer_members :=
                 List.filter (fun r => negb (gone_id ids (Member.maintainer_id r)))
                   (maintainer_members d1) |>).

Definition delete_users_action (gone : list Users.User) (d : Db) : DatabaseErrorKind + Db :=
  let ids := map Users.id gone in
  if existsb (fun r => gone_id ids (URole.user_id r)) (users_roles d)
  then inl ForeignKeyViolation
  else
    let d1 := delete_owned Connectors.owner_user_id Card.owner_user_id Notif.owner_user_id
                Event.owner_user_id ids d in
    inr (d1 <| sessions := List.filter (fun r => negb (gone_id ids (Sess.user_id r)))
                             (sessions d1) |>
            <| external_identities :=
                 List.filter (fun r => negb (gone_id ids (Identity.user_id r)))
                   (external_identities d1) |>
            <| maintainer_members :=
                 List.filter (fun r => negb (gone_id ids (Member.user_id r)))
                   (maintainer_members d1) |>
            <| notification_receipts :=
                 List.filter (fun r => negb (gone_id ids (Receipt.user_id r)))
                   (notification_receipts d1) |>
            <| audit_logs :=
                 map (fun r => r <| Audit.actor_user_id := null_if ids (Audit.actor_user_id r) |>)
                   (audit_logs d1) |>
            <| work_cards :=
                 map (fun r => r <| Card.assignee_user_id :=
                                      null_if ids (Card.assignee_user_id r) |>)
                   (work_cards d1) |>).

(** ** The tables *)


#[global] Program Instance users_table {U : Unicode} : Table Db Users.User := {|
  rows := users;
  set_rows := fun l d => d <| users := l |>;
  violated := user_violated;
  on_delete := delete_users_action
|}.
Next Obligation. reflexivity. Qed.
Next Obligation. by intros ? []. Qed.

#[global] Program Instance roles_table : Table Db Roles.Role := {|
  rows := roles;
  set_rows := fun l d => d <| roles := l |>;
  violated := role_violated;
  on_delete := (fun _ d => inr d)
|}.
Next Obligation. reflexivity. Qed.
Next Obligation. by intros []. Qed.

#[global] Program Instance users_roles_table : Table Db URole.UserRole := {|
  rows := users_roles;
  set_rows := fun l d => d <| users_roles := l |>;
  violated := user_role_violated;
  on_delete := (fun _ d => inr d)
|}.
Next Obligation. reflexivity. Qed.
Next Obligation. by intros []. Qed.

#[global] Program Instance sessions_table : Table Db Sess.Session := {|
  rows := sessions;
  set_rows := fun l d => d <| sessions := l |>;
  violated := session_violated;
  on_delete := (fun _ d => inr d)
|}.
Next Obligation. reflexivity. Qed.
Next Obligation. by intros []. Qed.

#[global] Program Instance login_throttle_buckets_table : Table Db Bucket.LoginThrottleBucket := {|
  rows := login_throttle_buckets;
  set_rows := fun l d => d <| login_throttle_buckets := l |>;
  violated := bucket_violated;
  on_delete := (fun _ d => inr d)
|}.
Next Obligation. reflexivity. Qed.
Next Obligation. by intros []. Qed.

#[global] Program Instance oidc_login_transactions_table : Table Db Oidc.OidcLoginTransaction := {|
  rows := oidc_login_transactions;
  set_rows := fun l d => d <| oidc_login_transactions := l |>;
  violated := oidc_violated;
  on_delete := (fun _ d => inr d)
|}.
Next Obligation. reflexivity. Qed.
Next Obligation. by intros []. Qed.

#[global] Program Instance external_identities_table : Table Db Identity.ExternalIdentity := {|
  rows := external_identities;
  set_rows := fun l d => d <| external_identities := l |>;
  violated := identity_violated;
  on_delete := (fun _ d => inr d)
|}.
Next Obligation. reflexivity. Qed.
Next Obligation. by intros []. Qed.

#[global] Program Instance maintainers_table : Table Db Maint.Maintainer := {|
  rows := maintainers;
  set_rows := fun l d => d <| maintainers := l |>;
  violated := maintainer_violated;
  on_delete := delete_maintainers_action
|}.
Next Obligation. reflexivity. Qed.
Next Obligation. by intros []. Qed.

#[global] Program Instance maintainer_members_table : Table Db Member.MaintainerMember := {|
  rows := maintainer_members;
  set_rows := fun l d => d <| maintainer_members := l |>;
  violated := member_violated;
  on_delete := (fun _ d => inr d)
|}.
Next Obligation. reflexivity. Qed.
Next Obligation. by intros []. Qed.

#[global] Program Instance packages_table : Table Db Pkg.Package := {|
  rows := packages;
  set_rows := fun l d => d <| packages := l |>;
  violated := package_violated;
  on_delete := (fun _ d => inr d)
|}.
Next Obligation. reflexivity. Qed.
Next Obligation. by intros []. Qed.

#[global] Program Instance services_table : Table Db Svc.Service := {|
  rows := services;
  set_rows := fun l d => d <| services := l |>;
  violated := service_violated;
  on_delete := (fun gone d => inr (delete_services_action gone d))
|}.
Next Obligation. reflexivity. Qed.
Next Obligation. by intros []. Qed.

#[global] Program Instance service_health_checks_table : Table Db Check.ServiceHealthCheck := {|
  rows := service_health_checks;
  set_rows := fun l d => d <| service_health_checks := l |>;
  violated := check_violated;
  on_delete := (fun _ d => inr d)
|}.
Next Obligation. reflexivity. Qed.
Next Obligation. by intros []. Qed.

#[global] Program Instance connectors_table : Table Db Connectors.Connector := {|
  rows := connectors;
  set_rows := fun l d => d <| connectors := l |>;
  violated := connector_violated;
  on_delete := (fun gone d => inr (delete_connectors_action gone d))
|}.
Next Obligation. reflexivity. Qed.
Next Obligation. by intros []. Qed.

#[global] Program Instance connector_configs_table : Table Db Config.ConnectorConfig := {|
  rows := connector_configs;
  set_rows := fun l d => d <| connector_configs := l |>;
  violated := config_violated;
  on_delete := (fun _ d => inr d)
|}.
Next Obligation. reflexivity. Qed.
Next Obligation. by intros []. Qed.

#[global] Program Instance connector_runs_table : Table Db Run.ConnectorRun := {|
  rows := connector_runs;
  set_rows := fun l d => d <| connector_runs := l |>;
  violated := run_violated;
  on_delete := (fun gone d => inr (delete_runs_action gone d))
|}.
Next Obligation. reflexivity. Qed.
Next Obligation. by intros []. Qed.

#[global] Program Instance connector_run_items_table : Table Db RunItem.ConnectorRunItem := {|
  rows := connector_run_items;
  set_rows := fun l d => d <| connector_run_items := l |>;
  violated := run_item_violated;
  on_delete := (fun _ d => inr d)
|}.
Next Obligation. reflexivity. Qed.
Next Obligation. by intros []. Qed.

#[global] Program Instance connector_run_item_errors_table : Table Db ItemError.ConnectorRunItemError := {|
  rows := connector_run_item_errors;
  set_rows := fun l d => d <| connector_run_item_errors := l |>;
  violated := item_error_violated;
  on_delete := (fun _ d => inr d)
|}.
Next Obligation. reflexivity. Qed.
Next Obligation. by intros []. Qed.

#[global] Program Instance connector_workers_table : Table Db Worker.ConnectorWorker := {|
  rows := connector_workers;
  set_rows := fun l d => d <| connector_workers := l |>;
  violated := worker_violated;
  on_delete := (fun _ d => inr d)
|}.
Next Obligation. reflexivity. Qed.
Next Obligation. by intros []. Qed.

#[global] Program Instance maintenance_runs_table : Table Db Maintenance.MaintenanceRun := {|
  rows := maintenance_runs;
  set_rows := fun l d => d <| maintenance_runs := l |>;
  violated := maintenance_violated;
  on_delete := (fun _ d => inr d)
|}.
Next Obligation. reflexivity. Qed.
Next Obligation. by intros []. Qed.

#[global] Program Instance audit_logs_table : Table Db Audit.AuditLog := {|
  rows := audit_logs;
  set_rows := fun l d => d <| audit_logs := l |>;
  violated := audit_violated;
  on_delete := (fun _ d => inr d)
|}.
Next Obligation. reflexivity. Qed.
Next Obligation. by intros []. Qed.

#[global] Program Instance work_cards_table : Table Db Card.WorkCard := {|
  rows := work_cards;
  set_rows := fun l d => d <| work_cards := l |>;
  violated := card_violated;
  on_delete := (fun _ d => inr d)
|}.
Next Obligation. reflexivity. Qed.
Next Obligation. by intros []. Qed.

#[global] Program Instance notifications_table : Table Db Notif.Notification := {|
  rows := notifications;
  set_rows := fun l d => d <| notifications := l |>;
  violated := notification_violated;
  on_delete := (fun gone d => inr (delete_notifications_action (map Notif.id gone) d))
|}.
Next Obligation. reflexivity. Qed.
Next Obligation. by intros []. Qed.

#[global] Program Instance notification_receipts_table : Table Db Receipt.NotificationReceipt := {|
  rows := notification_receipts;
  set_rows := fun l d => d <| notification_receipts := l |>;
  violated := receipt_violated;
  on_delete := (fun _ d => inr d)
|}.
Next Obligation. reflexivity. Qed.
Next Obligation. by intros []. Qed.

#[global] Program Instance calendar_events_table : Table Db Event.CalendarEvent := {|
  rows := calendar_events;
  set_rows := fun l d => d <| calendar_events := l |>;
  violated := event_violated;
  on_delete := (fun _ d => inr d)
|}.
Next Obligation. reflexivity. Qed.
Next Obligation. by intros []. Qed.

(** ** Reading the constraints *)

Lemma first_broken_none l : first_broken l = None <-> Forall (fun p => p.1 = true) l.
Proof.
  induction l as [|[[] k] l IH]; simpl; [by split; [constructor|]| |].
  - rewrite IH, Forall_cons. naive_solver.
  - rewrite Forall_cons. naive_solver.
Qed.

(** A violated constraint is one of the listed kinds. *)
Lemma first_broken_kind l k :
  first_broken l = Some k -> k ∈ map snd l.
Proof.
  induction l as [|[[] k'] l IH]; simpl; [done| |].
  - intros H. right. by apply IH.
  - intros [= ->]. left.
Qed.

(** A key that is unique after the insertion was not there before. *)
Lemma unique_app_fresh {R} (P : R -> bool) (l : list R) (r : R) :
  unique P (l ++ [r]) = true -> P r = true -> forall x, x ∈ l -> P x = false.
Proof.
  unfold unique. rewrite Nat.leb_le, length_filter_app. simpl. intros H Hr x Hx. rewrite Hr in H.
  simpl in H. apply filter_nil_inv_b with (l := l); [|done].
  destruct (List.filter P l); [done|simpl in H; lia].
Qed.

(** Splits the constraints a changed row is known to meet. *)
Ltac constraints H :=
  apply first_broken_none in H;
  repeat match type of H with
  | Forall _ (_ :: _) => let H' := fresh "Hc" in apply Forall_cons in H as [H' H]; simpl in H'
  end.

Lemma unique_id_fresh {R} (key : R -> Z) (l : list R) (r : R) :
  unique (fun x => key x =? key r) (l ++ [r]) = true -> key r ∉ map key l.
Proof.
  intros H (x & E & Hx)%list_elem_of_fmap.
  assert ((key x =? key r) = false); [|lia].
  eapply unique_app_fresh with (P := fun x => key x =? key r); [exact H|lia|done].
Qed.
