(* ===== verification/Api.v ===== *)
(** API errors and their HTTP responses ([src/src/api.rs]), with the error
    helpers of [rocket_routes/connectors/shared.rs]. *)
From S2P Require Import Prelude Text Models Schema.

(** [validation.rs]: one violated field. *)
Record FieldViolation := mkFieldViolation {
  field : string;
  message : string
}.

Inductive ApiError :=
  | BadRequest
  | Validation (errors : list FieldViolation)
  | Unauthorized
  | RateLimited (retry_after_seconds : Z)
  | AuthenticationCapacityLimited (retry_after_seconds : Z)
  | Forbidden
  | NotFound
  | Database (error : DieselError)
  | DatabaseUnavailable (error : DieselError)
  | ServiceUnavailable
  | Internal.

(** The HTTP status code of a response. *)
Definition status (e : ApiError) : Z :=
  match e with
  | BadRequest | Validation _ => 400
  | Unauthorized => 401
  | RateLimited _ | AuthenticationCapacityLimited _ => 429
  | Forbidden => 403
  | NotFound => 404
  | Database _ | Internal => 500
  | DatabaseUnavailable _ | ServiceUnavailable => 503
  end.

Record ApiErrorBody := mkApiErrorBody {
  body_code : string;
  body_message : string;
  body_details : option (list FieldViolation)
}.

Definition body (e : ApiError) : ApiErrorBody :=
  match e with
  | BadRequest => mkApiErrorBody "bad_request" "Bad request." None
  | Validation errors =>
      mkApiErrorBody "validation_failed" "Request validation failed." (Some errors)
  | Unauthorized => mkApiErrorBody "unauthorized" "Authentication is required." None
  | RateLimited _ =>
      mkApiErrorBody "login_throttled" "Too many sign-in attempts. Try again later." None
  | AuthenticationCapacityLimited _ =>
      mkApiErrorBody "authentication_capacity_limited"
        "Sign-in is temporarily at capacity. Try again later." None
  | Forbidden => mkApiErrorBody "forbidden" "You are not allowed to perform this action." None
  | NotFound => mkApiErrorBody "not_found" "Resource was not found." None
  | Database _ | Internal =>
      mkApiErrorBody "internal_server_error" "An internal server error occurred." None
  | DatabaseUnavailable _ | ServiceUnavailable =>
      mkApiErrorBody "service_unavailable" "The service is temporarily unavailable." None
  end.

(** [impl From<DieselError> for ApiError]. *)
Definition from_diesel (e : DieselError) : ApiError :=
  match e with
  | DNotFound => NotFound
  | DDatabaseError ClosedConnection => DatabaseUnavailable (DDatabaseError ClosedConnection)
  | DDatabaseError UnableToSendCommand => DatabaseUnavailable (DDatabaseError UnableToSendCommand)
  | DBrokenTransactionManager => DatabaseUnavailable DBrokenTransactionManager
  | e => Database e
  end.

Record Response := mkResponse {
  resp_status : Z;
  resp_body : ApiErrorBody;
  resp_retry_after : option string
}.

(** [impl Responder for ApiError]. *)
Definition respond_to (e : ApiError) : Response :=
  let retry_after_seconds :=
    match e with
    | RateLimited s | AuthenticationCapacityLimited s => Some s
    | _ => None
    end in
  mkResponse (status e) (body e)
    ((fun s => int_to_string (Z.max s 1)) <$> retry_after_seconds).

(** Computations of the portal database. *)
Abbreviation Query := (M Db DieselError).
Abbreviation Handler := (M Db ApiError).

(** The [?] operator on a repository call inside a handler. *)
Definition query {A} (m : Query A) : Handler A := map_err from_diesel m.

(** A transaction whose body returns diesel errors, and one of API errors. *)
Definition query_transaction {A} (m : Query A) : Query A := transaction id m.
Definition api_transaction {A} (m : Handler A) : Handler A := transaction from_diesel m.

(** The [Display] text of diesel errors, which diesel owns. *)
Class DieselDisplay := { diesel_to_string : DieselError -> string }.

(** [shared.rs]: the message recorded with a failed run item. *)
Definition api_error_message {T : DieselDisplay} (e : ApiError) : string :=
  match e with
  | BadRequest => "bad request"
  | Validation errors =>
      join ", " (map (fun v => String.append (field v) (String.append " " (message v))) errors)
  | Unauthorized => "authentication is required"
  | RateLimited _ => "too many requests"
  | AuthenticationCapacityLimited _ => "authentication is temporarily at capacity"
  | Forbidden => "permission denied"
  | NotFound => "resource was not found"
  | Database error => diesel_to_string error
  | DatabaseUnavailable error => diesel_to_string error
  | ServiceUnavailable => "service is temporarily unavailable"
  | Internal => "internal server error"
  end.

(** [shared.rs]: [count_as_i32] and [validation_error]. *)
Definition count_as_i32 (count : nat) : Z := Z.min (Z.of_nat count) i32_max.

Definition validation_error (field message : string) : ApiError :=
  Validation [mkFieldViolation field message].

(** ** Properties *)

(** every error answers with its own status, the [Retry-After] header is
    present exactly on 429 responses and then names at least one second, and a
    response carries details only for a failed validation: database errors
    never reach the client. *)
Theorem respond_to_contract (e : ApiError) :
  let r := respond_to e in
  (resp_retry_after r <> None <-> resp_status r = 429) /\
  (forall s, resp_retry_after r = Some s -> exists n, 1 <= n /\ s = int_to_string n) /\
  (forall ds, body_details (resp_body r) = Some ds <-> e = Validation ds) /\
  (forall d, e = Database d \/ e = DatabaseUnavailable d ->
     resp_body r = resp_body (respond_to Internal) \/
     resp_body r = resp_body (respond_to ServiceUnavailable)).
Proof.
  destruct e; simpl; split_and!; try done; try naive_solver.
  all: intros s [= <-]; eexists; split; [|done]; lia.
Qed.

(** a failing database maps to 503 exactly when the connection is broken;
    a missing row maps to 404 and everything else to 500. *)
Theorem from_diesel_status (e : DieselError) :
  (status (from_diesel e) = 503 <->
     e = DDatabaseError ClosedConnection \/ e = DDatabaseError UnableToSendCommand
     \/ e = DBrokenTransactionManager) /\
  (status (from_diesel e) = 404 <-> e = DNotFound) /\
  (status (from_diesel e) = 503 \/ status (from_diesel e) = 404 \/ status (from_diesel e) = 500).
Proof. destruct e as [|[]| |]; simpl; split_and!; naive_solver. Qed.
