(* ===== verification/Validation.v ===== *)
(** Request validation ([src/src/validation.rs]) and the [Validate]
    implementations of the request structs of [src/src/models.rs]. *)
From S2P Require Import Prelude Text Models Schema Api.

(** ** Checks push onto a vector of violations *)

(** [canonical_username]. *)
Definition canonical_username {U : Unicode} (username : string) : string :=
  to_lowercase (trim username).

Definition Check : Type := list FieldViolation -> list FieldViolation.

Definition push_if (bad : bool) (f m : string) : Check := fun errors =>
  if bad then errors ++ [mkFieldViolation f m] else errors.

Definition required (f value : string) : Check :=
  push_if (is_empty (trim value)) f "is required".

Definition max_len (f value : string) (max : Z) : Check :=
  push_if (max <? byte_len value) f "is too long".

Definition max_optional_len (f : string) (value : option string) (max : Z) : Check :=
  match value with Some v => max_len f v max | None => id end.

Definition positive (f : string) (value : Z) : Check :=
  push_if (value <=? 0) f "must be positive".

Definition one_of (f value : string) (allowed : list string) : Check :=
  push_if (negb (one_of_texts value allowed)) f "is not supported".

Definition optional_url (f : string) (value : option string) : Check :=
  match value with
  | Some v => push_if (negb (starts_with v "http://" || starts_with v "https://"))
                f "must be a valid URL"
  | None => id
  end.

Definition email (f value : string) : Check :=
  push_if (negb (contains value "@") || negb (contains value "."))
    f "must be a valid email address".

(** The statements of a [validate] body, run in order on an empty vector. *)
Definition run_checks (l : list Check) : list FieldViolation :=
  foldl (fun errors check => check errors) [] l.

(** The [Validate] trait. *)
Class Validate (T : Type) := validate : T -> list FieldViolation.

Definition validate_request {T} {V : Validate T} (request : T) : Handler T :=
  let errors := validate request in
  match errors with
  | [] => ret request
  | _ => fail (Validation errors)
  end.

(** ** Connectors *)

Definition validate_data_scope (scope_type : string) (owner_user_id maintainer_id : option Z)
    : list Check :=
  let some (o : option Z) := holds (is_not_null o) in
  let none (o : option Z) := holds (is_null o) in
  let valid_shape :=
    if scope_type =s "global" then none owner_user_id && none maintainer_id
    else if scope_type =s "user" then some owner_user_id && none maintainer_id
    else if scope_type =s "maintainer" then none owner_user_id && some maintainer_id
    else true in
  let not_positive (o : option Z) := match o with Some i => i <=? 0 | None => false end in
  [ required "scope_type" scope_type;
    max_len "scope_type" scope_type 16;
    one_of "scope_type" scope_type ["global"; "maintainer"; "user"];
    push_if (negb valid_shape) "scope_type"
      "must match exactly one owner: global has none, user has owner_user_id, maintainer has maintainer_id";
    push_if (not_positive owner_user_id) "owner_user_id" "must be positive";
    push_if (not_positive maintainer_id) "maintainer_id" "must be positive" ].

#[export] Instance validate_new_connector : Validate NewConn.NewConnector := fun r =>
  run_checks
    ([ required "source" (NewConn.source r);
       max_len "source" (NewConn.source r) 64;
       required "kind" (NewConn.kind r);
       max_len "kind" (NewConn.kind r) 64;
       required "display_name" (NewConn.display_name r);
       max_len "display_name" (NewConn.display_name r) 128;
       required "status" (NewConn.status r);
       max_len "status" (NewConn.status r) 32;
       one_of "status" (NewConn.status r) ["active"; "paused"; "error"] ]
     ++ validate_data_scope (NewConn.scope_type r) (NewConn.owner_user_id r)
          (NewConn.maintainer_id r)).

#[export] Instance validate_scope_update : Validate ScopeUpdate.ConnectorScopeUpdate := fun r =>
  run_checks (validate_data_scope (ScopeUpdate.scope_type r) (ScopeUpdate.owner_user_id r)
                (ScopeUpdate.maintainer_id r)).

#[export] Instance validate_connector_update : Validate ConnUpdate.ConnectorUpdate := fun r =>
  run_checks
    [ required "kind" (ConnUpdate.kind r);
      max_len "kind" (ConnUpdate.kind r) 64;
      required "display_name" (ConnUpdate.display_name r);
      max_len "display_name" (ConnUpdate.display_name r) 128;
      required "status" (ConnUpdate.status r);
      max_len "status" (ConnUpdate.status r) 32;
      one_of "status" (ConnUpdate.status r) ["active"; "paused"; "error"] ].

(** [connectors/shared.rs]: [validate_source] and [validate_target]. *)
Definition validate_source (source : string) : Handler string :=
  match run_checks [ required "source" source; max_len "source" source 64 ] with
  | [] => ret source
  | errors => fail (Validation errors)
  end.

Definition validate_target (target : string) : Handler string :=
  match run_checks [ required "target" target; max_len "target" target 64;
                     one_of "target" target targets ] with
  | [] => ret target
  | errors => fail (Validation errors)
  end.

(** ** Catalog *)

#[export] Instance validate_new_maintainer : Validate NewMaint.NewMaintainer := fun r =>
  run_checks
    [ required "display_name" (NewMaint.display_name r);
      max_len "display_name" (NewMaint.display_name r) 255;
      required "email" (NewMaint.email r);
      max_len "email" (NewMaint.email r) 255;
      email "email" (NewMaint.email r) ].

#[export] Instance validate_new_member : Validate NewMember.NewMaintainerMember := fun r =>
  run_checks
    [ positive "maintainer_id" (NewMember.maintainer_id r);
      positive "user_id" (NewMember.user_id r);
      required "role" (NewMember.role r);
      max_len "role" (NewMember.role r) 32;
      one_of "role" (NewMember.role r) ["owner"; "maintainer"; "viewer"] ].

#[export] Instance validate_new_package : Validate NewPkg.NewPackage := fun r =>
  run_checks
    [ positive "maintainer_id" (NewPkg.maintainer_id r);
      required "slug" (NewPkg.slug r);
      max_len "slug" (NewPkg.slug r) 64;
      required "name" (NewPkg.name r);
      max_len "name" (NewPkg.name r) 128;
      required "version" (NewPkg.version r);
      max_len "version" (NewPkg.version r) 64;
      required "status" (NewPkg.status r);
      max_len "status" (NewPkg.status r) 32;
      one_of "status" (NewPkg.status r) ["active"; "deprecated"; "archived"];
      max_optional_len "repository_url" (NewPkg.repository_url r) 2048;
      optional_url "repository_url" (NewPkg.repository_url r);
      max_optional_len "documentation_url" (NewPkg.documentation_url r) 2048;
      optional_url "documentation_url" (NewPkg.documentation_url r) ].

#[export] Instance validate_new_service : Validate NewSvc.NewService := fun r =>
  run_checks
    [ required "source" (NewSvc.source r);
      max_len "source" (NewSvc.source r) 64;
      max_optional_len "external_id" (NewSvc.external_id r) 128;
      positive "maintainer_id" (NewSvc.maintainer_id r);
      required "slug" (NewSvc.slug r);
      max_len "slug" (NewSvc.slug r) 64;
      required "name" (NewSvc.name r);
      max_len "name" (NewSvc.name r) 128;
      required "lifecycle_status" (NewSvc.lifecycle_status r);
      max_len "lifecycle_status" (NewSvc.lifecycle_status r) 32;
      one_of "lifecycle_status" (NewSvc.lifecycle_status r) ["active"; "deprecated"; "archived"];
      required "health_status" (NewSvc.health_status r);
      max_len "health_status" (NewSvc.health_status r) 32;
      one_of "health_status" (NewSvc.health_status r) ["healthy"; "degraded"; "down"; "unknown"];
      max_optional_len "repository_url" (NewSvc.repository_url r) 2048;
      optional_url "repository_url" (NewSvc.repository_url r);
      max_optional_len "dashboard_url" (NewSvc.dashboard_url r) 2048;
      optional_url "dashboard_url" (NewSvc.dashboard_url r);
      max_optional_len "runbook_url" (NewSvc.runbook_url r) 2048;
      optional_url "runbook_url" (NewSvc.runbook_url r) ].

(** ** Imported records *)

#[export] Instance validate_new_event : Validate NewEvent.NewCalendarEvent := fun r =>
  run_checks
    [ required "source" (NewEvent.source r);
      max_len "source" (NewEvent.source r) 64;
      required "external_id" (NewEvent.external_id r);
      max_len "external_id" (NewEvent.external_id r) 128;
      required "title" (NewEvent.title r);
      max_len "title" (NewEvent.title r) 256;
      max_optional_len "organizer" (NewEvent.organizer r) 256;
      max_optional_len "location" (NewEvent.location r) 256;
      max_optional_len "time_zone" (NewEvent.time_zone r) 128;
      max_optional_len "web_url" (NewEvent.web_url r) 2048;
      optional_url "web_url" (NewEvent.web_url r);
      max_optional_len "join_url" (NewEvent.join_url r) 2048;
      optional_url "join_url" (NewEvent.join_url r);
      push_if (NewEvent.ends_at r <? NewEvent.starts_at r) "ends_at"
        "must be greater than or equal to starts_at" ].

#[export] Instance validate_new_card : Validate NewCard.NewWorkCard := fun r =>
  run_checks
    [ required "source" (NewCard.source r);
      max_len "source" (NewCard.source r) 64;
      required "title" (NewCard.title r);
      max_len "title" (NewCard.title r) 255;
      required "status" (NewCard.status r);
      max_len "status" (NewCard.status r) 32;
      one_of "status" (NewCard.status r) ["todo"; "in_progress"; "blocked"; "done"];
      required "priority" (NewCard.priority r);
      max_len "priority" (NewCard.priority r) 32;
      one_of "priority" (NewCard.priority r) ["low"; "medium"; "high"; "urgent"];
      max_optional_len "external_id" (NewCard.external_id r) 128;
      max_optional_len "assignee" (NewCard.assignee r) 128;
      max_optional_len "project" (NewCard.project r) 128;
      max_optional_len "work_item_type" (NewCard.work_item_type r) 128;
      max_optional_len "assignee_source_id" (NewCard.assignee_source_id r) 512;
      push_if (match NewCard.assignee_user_id r with Some i => i <=? 0 | None => false end)
        "assignee_user_id" "must be a positive portal user id";
      push_if (holds (is_not_null (NewCard.assignee_user_id r)) &&
               match NewCard.assignee_source_id r with
               | Some s => is_empty (trim s) | None => true end)
        "assignee_source_id"
        "must identify the explicitly mapped source identity when assignee_user_id is set";
      max_optional_len "url" (NewCard.url r) 2048;
      optional_url "url" (NewCard.url r) ].

#[export] Instance validate_new_notification : Validate NewNotif.NewNotification := fun r =>
  run_checks
    [ required "source" (NewNotif.source r);
      max_len "source" (NewNotif.source r) 64;
      max_optional_len "external_id" (NewNotif.external_id r) 128;
      required "title" (NewNotif.title r);
      max_len "title" (NewNotif.title r) 255;
      required "severity" (NewNotif.severity r);
      max_len "severity" (NewNotif.severity r) 32;
      one_of "severity" (NewNotif.severity r) ["info"; "warning"; "critical"];
      max_optional_len "url" (NewNotif.url r) 2048;
      optional_url "url" (NewNotif.url r) ].

(** ** What an accepted request satisfies *)

(** A check only appends to the violations found before it. *)
Class Pushes (c : Check) := pushes : forall errors, c errors = errors ++ c [].

#[export] Instance push_if_pushes b f m : Pushes (push_if b f m).
Proof. intros errors. unfold push_if. destruct b; [done|]. by rewrite app_nil_r. Qed.

#[export] Instance required_pushes f v : Pushes (required f v).
Proof. apply push_if_pushes. Qed.

#[export] Instance max_len_pushes f v n : Pushes (max_len f v n).
Proof. apply push_if_pushes. Qed.

#[export] Instance max_optional_len_pushes f v n : Pushes (max_optional_len f v n).
Proof. destruct v; [apply push_if_pushes|]. intros e. simpl. by rewrite app_nil_r. Qed.

#[export] Instance positive_pushes f v : Pushes (positive f v).
Proof. apply push_if_pushes. Qed.

#[export] Instance one_of_pushes f v l : Pushes (one_of f v l).
Proof. apply push_if_pushes. Qed.

#[export] Instance optional_url_pushes f v : Pushes (optional_url f v).
Proof. destruct v; [apply push_if_pushes|]. intros e. simpl. by rewrite app_nil_r. Qed.

#[export] Instance email_pushes f v : Pushes (email f v).
Proof. apply push_if_pushes. Qed.

Definition passes (c : Check) : Prop := c [] = [].

Lemma run_checks_nil l : Forall Pushes l -> run_checks l = [] <-> Forall passes l.
Proof.
  intros Hl. enough (forall e, foldl (fun errors check => check errors) e l = []
                               <-> e = [] /\ Forall passes l) as H.
  { unfold run_checks. rewrite H. naive_solver. }
  induction Hl as [|c l Hc Hl IH]; intros e; simpl; [naive_solver|].
  rewrite IH, (pushes (Pushes:=Hc) e). rewrite Forall_cons. unfold passes at 2.
  split; [intros [[-> ->]%app_nil ?]|intros [-> [-> ?]]]; done.
Qed.

Lemma passes_push_if b f m : passes (push_if b f m) <-> b = false.
Proof. unfold passes, push_if. by destruct b. Qed.

Lemma passes_required f v : passes (required f v) <-> trim v <> "".
Proof. unfold required, is_empty. by rewrite passes_push_if, str_eqb_neq. Qed.

Lemma passes_max_len f v n : passes (max_len f v n) <-> byte_len v <= n.
Proof. unfold max_len. rewrite passes_push_if. lia. Qed.

Lemma passes_max_optional_len f v n :
  passes (max_optional_len f v n) <-> forall s, v = Some s -> byte_len s <= n.
Proof. destruct v; simpl; [rewrite passes_max_len|]; naive_solver. Qed.

Lemma passes_one_of f v l : passes (one_of f v l) <-> one_of_texts v l = true.
Proof. unfold one_of. by rewrite passes_push_if, negb_false_iff. Qed.

Lemma passes_positive f v : passes (positive f v) <-> 0 < v.
Proof. unfold positive. rewrite passes_push_if. lia. Qed.

(** [VARCHAR(n)] counts characters, [max_len] counts bytes. *)
Lemma char_count_le s : (char_count s <= String.length s)%nat.
Proof.
  unfold char_count. induction s as [|a s IH]; simpl; [lia|].
  destruct (chars s) as [|[|b g] gs]; [simpl in *; lia..|].
  destruct (continuation b); simpl in *; lia.
Qed.

Lemma byte_len_fits n s : byte_len s <= n -> fits n s = true.
Proof. unfold byte_len, fits. pose proof (char_count_le s). lia. Qed.

Lemma byte_len_fits_opt n v : (forall s, v = Some s -> byte_len s <= n) -> fits_opt n v = true.
Proof. destruct v; simpl; [|done]. intros H. by apply byte_len_fits, H. Qed.

Lemma one_of_texts_elem v l : one_of_texts v l = true <-> v ∈ l.
Proof.
  unfold one_of_texts. rewrite existsb_exists, list_elem_of_In. setoid_rewrite str_eqb_eq.
  naive_solver.
Qed.

(** Turns an accepted request into the facts its checks establish. *)
Ltac accepted H :=
  rewrite run_checks_nil in H by (repeat (constructor; [apply _|]); constructor);
  repeat match goal with H : Forall passes (_ :: _) |- _ => apply Forall_cons in H as [? H] end;
  repeat match goal with
  | H : passes (required _ _) |- _ => apply passes_required in H
  | H : passes (max_len _ _ _) |- _ => apply passes_max_len in H
  | H : passes (max_optional_len _ _ _) |- _ => rewrite passes_max_optional_len in H
  | H : passes (one_of _ _ _) |- _ => apply passes_one_of in H
  | H : passes (positive _ _) |- _ => apply passes_positive in H
  | H : passes (push_if _ _ _) |- _ => apply passes_push_if in H
  end.

(** Rewrites the VARCHAR conditions an accepted request meets. *)
Ltac fitting :=
  repeat match goal with
  | H : byte_len ?s <= ?n |- context [fits ?n ?s] => rewrite (byte_len_fits n s H)
  | H : forall s, ?v = Some s -> byte_len s <= ?n |- context [fits_opt ?n ?v] =>
      rewrite (byte_len_fits_opt n v H)
  end.

(** the scope rules the API enforces on a connector are exactly the CHECK
    constraint of the [connectors] table, plus the positivity of the owner: an
    accepted scope never breaks [connectors_scope_check], and a scope the
    constraint allows is refused only for a non-positive id. *)
Theorem data_scope_matches_constraint (scope_type : string) (owner maintainer : option Z) :
  run_checks (validate_data_scope scope_type owner maintainer) = [] <->
  scope_check scope_type owner maintainer = true /\
  (forall i, owner = Some i -> 0 < i) /\ (forall i, maintainer = Some i -> 0 < i).
Proof.
  rewrite run_checks_nil by (repeat (constructor; [apply _|]); constructor).
  unfold validate_data_scope. rewrite !Forall_cons, passes_required, passes_max_len, passes_one_of,
    !passes_push_if, one_of_texts_elem.
  unfold scope_check. split.
  - intros (_ & _ & Hin & Hs & Ho & Hm & _). set_unfold in Hin.
    destruct owner, maintainer; destruct_or! Hin; subst; try done; try discriminate Hs;
      (split; [reflexivity|]); split; intros ? [=]; subst; lia.
  - intros (Hc & Ho & Hm). assert (scope_type = "global" \/ scope_type = "user"
      \/ scope_type = "maintainer") as Hin.
    { destruct (str_eqb scope_type "global") eqn:E1; [left; by apply str_eqb_eq|].
      destruct (str_eqb scope_type "user") eqn:E2; [right; left; by apply str_eqb_eq|].
      destruct (str_eqb scope_type "maintainer") eqn:E3; [right; right; by apply str_eqb_eq|].
      done. }
    destruct Hin as [->|[->| ->]], owner as [o|], maintainer as [m|]; try discriminate Hc;
      (split_and!; [done|vm_compute; discriminate|set_solver|reflexivity| | |constructor]);
      try reflexivity; try (specialize (Ho _ eq_refl)); try (specialize (Hm _ eq_refl)); lia.
Qed.
