(* ===== verification/Schedule.v ===== *)
(** Connector schedules ([models.rs]: the [schedule_cron] language) and the
    bounded retry backoff ([repositories.rs]). *)
From S2P Require Import Prelude Text.
From Stdlib Require Import Ascii.

Open Scope Z_scope.
Open Scope portal_scope.

(** ** Schedules *)

Definition parse_duration_seconds (value : string) : option Z :=
  let parsed :=
    match strip_suffix_char "s"%char value with
    | Some number => Some (number, 1)
    | None =>
        match strip_suffix_char "m"%char value with
        | Some number => Some (number, 60)
        | None =>
            match strip_suffix_char "h"%char value with
            | Some number => Some (number, 60 * 60)
            | None => None
            end
        end
    end in
  match parsed with
  | None => None
  | Some (number, multiplier) =>
      match parse_i64 number with
      | Some seconds => if 0 <? seconds then i64_checked_mul seconds multiplier else None
      | None => None
      end
  end.

Definition schedule_interval_seconds (schedule : string) : option Z :=
  let schedule := to_ascii_lowercase (trim schedule) in
  if schedule =s "@hourly" then Some (60 * 60)
  else if schedule =s "@daily" then Some (24 * 60 * 60)
  else
    match (match str_strip_prefix "@every " schedule with
           | Some rest => parse_duration_seconds rest
           | None => None end) with
    | Some s => Some s
    | None => parse_duration_seconds schedule
    end.

Definition MIN_CONNECTOR_SCHEDULE_INTERVAL_SECONDS : Z := 60.

Definition effective_schedule_interval_seconds (schedule : string) : option Z :=
  (fun s => Z.max s MIN_CONNECTOR_SCHEDULE_INTERVAL_SECONDS) <$> schedule_interval_seconds schedule.

(** ** Backoff *)

Definition bounded_retry_backoff_seconds (attempt_count base_seconds max_seconds : Z) : Z :=
  let base_seconds := Z.max base_seconds 1 in
  let max_seconds := Z.max max_seconds base_seconds in
  let exponent := clamp 0 30 (i32_saturating_sub attempt_count 1) in
  Z.min (i64_saturating_mul base_seconds (Z.shiftl 1 exponent)) max_seconds.

(** ** Properties *)

Lemma parse_duration_seconds_bounds value s :
  parse_duration_seconds value = Some s -> 1 <= s <= i64_max.
Proof.
  unfold parse_duration_seconds, i64_checked_mul.
  intros H. repeat case_match; simplify_eq; lia.
Qed.

Lemma schedule_interval_bounds schedule s :
  schedule_interval_seconds schedule = Some s -> 1 <= s <= i64_max.
Proof.
  unfold schedule_interval_seconds. intros H. unfold i64_max.
  repeat case_match; simplify_eq; try lia;
    repeat match goal with H : parse_duration_seconds _ = _ |- _ =>
      apply parse_duration_seconds_bounds in H; unfold i64_max in H end; lia.
Qed.

(** The uncapped delay [base * 2^(attempt - 1)], the exponent limited to 30. *)
Definition ideal_backoff (attempt base : Z) : Z := base * 2 ^ (Z.min 30 (Z.max 0 (attempt - 1))).

Lemma backoff_ideal attempt base max :
  i32_min <= attempt <= i32_max -> 1 <= base <= i64_max -> base <= max <= i64_max ->
  bounded_retry_backoff_seconds attempt base max = Z.min (ideal_backoff attempt base) max.
Proof.
  intros Ha Hb Hm. unfold bounded_retry_backoff_seconds, ideal_backoff, i64_saturating_mul.
  rewrite (Z.max_l base 1), (Z.max_l max base) by lia.
  assert (clamp 0 30 (i32_saturating_sub attempt 1) = Z.min 30 (Z.max 0 (attempt - 1))) as ->.
  { unfold clamp, i32_saturating_sub, clamp, i32_min, i32_max in *. lia. }
  rewrite Z.shiftl_1_l. set (e := Z.min 30 _).
  assert (0 < 2 ^ e) by (apply Z.pow_pos_nonneg; lia).
  assert (0 < base * 2 ^ e) by nia. unfold clamp, i64_min, i64_max in *. lia.
Qed.

(** the retry delay of an expired run is exactly
    [min (base * 2^(attempt-1)) max] over unbounded integers: the saturating
    32- and 64-bit arithmetic never wraps, the delay is at least the base, at
    most the maximum, and never shrinks as attempts accumulate. *)
Theorem backoff_exponential_bounded (attempt base max : Z) :
  i32_min <= attempt < i32_max -> 1 <= base <= i64_max -> base <= max <= i64_max ->
  let delay := bounded_retry_backoff_seconds attempt base max in
  delay = Z.min (ideal_backoff attempt base) max /\
  base <= delay <= max /\
  delay <= bounded_retry_backoff_seconds (attempt + 1) base max.
Proof.
  intros Ha Hb Hm. cbv zeta. rewrite !backoff_ideal by lia.
  assert (forall e e', 0 <= e <= e' -> 0 < 2 ^ e <= 2 ^ e') as Hpow.
  { intros. split; [apply Z.pow_pos_nonneg; lia|apply Z.pow_le_mono_r; lia]. }
  assert (2 ^ 0 = 1) as H0 by done. unfold ideal_backoff.
  pose proof (Hpow 0 (Z.min 30 (Z.max 0 (attempt - 1))) ltac:(lia)).
  pose proof (Hpow (Z.min 30 (Z.max 0 (attempt - 1)))
                (Z.min 30 (Z.max 0 (attempt + 1 - 1))) ltac:(lia)).
  split; [done|]. split; [nia|]. apply Z.min_le_compat_r. nia.
Qed.

Lemma backoff_exponential_bounded_witness :
  let delay := bounded_retry_backoff_seconds 3 5 300 in
  delay = Z.min (ideal_backoff 3 5) 300 /\ 5 <= delay <= 300 /\
  delay <= bounded_retry_backoff_seconds (3 + 1) 5 300.
Proof. apply (backoff_exponential_bounded 3 5 300); unfold i32_min, i32_max, i64_max; lia. Defined.

(** a schedule that parses runs at most once a minute after clamping and
    never overflows: the effective interval lies in [60 .. i64::MAX]. *)
Theorem effective_interval_bounds (schedule : string) (s : Z) :
  effective_schedule_interval_seconds schedule = Some s ->
  MIN_CONNECTOR_SCHEDULE_INTERVAL_SECONDS <= s <= i64_max.
Proof.
  unfold effective_schedule_interval_seconds, MIN_CONNECTOR_SCHEDULE_INTERVAL_SECONDS.
  destruct (schedule_interval_seconds schedule) as [i|] eqn:E; simpl; [|done].
  apply schedule_interval_bounds in E. unfold i64_max in *. intros [= <-]. lia.
Qed.

Lemma effective_interval_bounds_witness :
  MIN_CONNECTOR_SCHEDULE_INTERVAL_SECONDS <= 300 <= i64_max.
Proof. apply (effective_interval_bounds "@every 5M"). vm_compute. reflexivity. Defined.

Lemma digits_lower_ascii s :
  all_chars (fun a => bool_decide (is_Some (digit a))) s = true -> all_chars lower_ascii s = true.
Proof.
  induction s as [|a s IH]; [done|]. simpl. intros [Ha%bool_decide_eq_true Hs]%andb_prop.
  rewrite (IH Hs). destruct Ha as [x Ha]. apply digit_code in Ha. unfold lower_ascii.
  rewrite (proj2 (Nat.ltb_lt _ 128)) by lia. by rewrite (proj2 (Nat.leb_gt 65 _)) by lia.
Qed.

Lemma parse_duration_app (p : string) (unit : ascii) (mult : Z) :
  (unit, mult) ∈ [("s", 1); ("m", 60); ("h", 3600)]%char ->
  parse_duration_seconds (String.append p (String unit "")) =
    match parse_i64 p with
    | Some n => if 0 <? n then i64_checked_mul n mult else None
    | None => None
    end.
Proof.
  unfold parse_duration_seconds. intros Hu. set_unfold in Hu.
  destruct_or! Hu; simplify_eq; by rewrite ?strip_suffix_ne, strip_suffix_app by done.
Qed.

(** schedules round trip: printing a positive number of seconds, minutes
    or hours as [@every <n><unit>] and parsing it back gives that interval,
    or nothing when the product leaves the [i64] range. *)
Theorem schedule_round_trip (n : Z) (unit : ascii) (mult : Z) :
  0 < n <= i64_max ->
  (unit, mult) ∈ [("s", 1); ("m", 60); ("h", 3600)]%char ->
  schedule_interval_seconds
    (String.append "@every " (String.append (int_to_string n) (String unit "")))
  = i64_checked_mul n mult.
Proof.
  intros Hn Hu. destruct (int_to_string_pos n ltac:(lia)) as [Hne Hd].
  assert (all_chars lower_ascii (int_to_string n) = true) as Hlow.
  { apply digits_lower_ascii. destruct (int_to_string n); [done|]. by eapply digits_all_digits. }
  set (p := int_to_string n) in *.
  assert (lower_ascii unit = true /\ is_whitespace (String unit "") = false) as [Hul Huw].
  { set_unfold in Hu. destruct_or! Hu; simplify_eq; by vm_compute. }
  assert (all_chars lower_ascii (String.append "@every " (String.append p (String unit ""))) = true)
    as Hall.
  { rewrite !all_chars_app, Hlow. simpl. by rewrite Hul. }
  assert (String.append "@every " (String.append p (String unit ""))
     = String "@" (String.append (String.append "every " p) (String unit ""))) as Happ by done.
  unfold schedule_interval_seconds. rewrite Happ, trim_id by (by rewrite <- ?Happ).
  rewrite <- Happ, to_ascii_lowercase_id by done.
  rewrite !(proj2 (str_eqb_neq _ _)) by done.
  rewrite str_strip_prefix_app.
  change (String.append "@every " (String.append p (String unit "")))
    with (String.append (String.append "@every " p) (String unit "")).
  rewrite !(parse_duration_app _ unit mult) by done.
  unfold p at 1. rewrite parse_i64_print by lia. rewrite (proj2 (Z.ltb_lt 0 n)) by lia.
  by destruct (i64_checked_mul n mult).
Qed.

Lemma schedule_round_trip_witness :
  schedule_interval_seconds
    (String.append "@every " (String.append (int_to_string 15) (String "m" "")))
  = i64_checked_mul 15 60.
Proof.
  apply (schedule_round_trip 15 "m"%char 60); [unfold i64_max; lia|].
  apply list_elem_of_further, list_elem_of_here.
Defined.
