(* ===== verification/Runs.v ===== *)
(** Connector runs: the queue with leases of [ConnectorRunRepository]
    ([src/src/repositories.rs]) and its state machine. *)
From S2P Require Import Prelude Logic Text Models Schema Api Schedule.
From stdpp Require Import relations.

Open Scope Z_scope.
Open Scope portal_scope.

(** [now + Duration::seconds(s)]; [None] where chrono panics. *)
Definition after_seconds (now s : Z) : option Z :=
  match duration_seconds s with
  | Some d => datetime_add now d
  | None => None
  end.

(** The row an INSERT of a [NewConnectorRun] creates. *)
Definition run_of_new (r : NewRun.NewConnectorRun) (_ id : Z) : Run.ConnectorRun :=
  Run.mkConnectorRun id (NewRun.source r) (NewRun.target r) (NewRun.status r)
    (NewRun.success_count r) (NewRun.failure_count r) (NewRun.duration_ms r)
    (NewRun.error_message r) (NewRun.started_at r) (NewRun.finished_at r) (NewRun.trigger r)
    (NewRun.payload r) (NewRun.claimed_at r) (NewRun.worker_id r) (NewRun.attempt_count r)
    (NewRun.max_attempts r) (NewRun.next_attempt_at r) (NewRun.lease_expires_at r)
    (NewRun.heartbeat_at r) (NewRun.cancel_requested_at r) (NewRun.cancelled_at r)
    (NewRun.parent_run_id r) (NewRun.snapshot_complete r) (NewRun.archived_count r).

Record ConnectorRunRecoveryStats := mkStats {
  requeued : nat;
  failed : nat;
  cancelled : nat
}.

#[global] Instance eta_Stats : Eta ConnectorRunRecoveryStats := fun s =>
  mkStats (requeued s) (failed s) (cancelled s).

Module ConnectorRunRepository.

Definition by_id (id : Z) (r : Run.ConnectorRun) : bool := Run.id r =? id.

Definition find_run (id : Z) : Query Run.ConnectorRun :=
  first_row (exec (sql_select (by_id id))).

Definition opt_text_filter (f : option string) (v : string) : bool :=
  match f with Some s => v =s s | None => true end.

Definition find_multiple_runs (n : Z) (source target : option string)
    : Query (list Run.ConnectorRun) :=
  l <- exec (sql_select (fun r =>
         opt_text_filter source (Run.source r) && opt_text_filter target (Run.target r))) ;;
  ret (limit n (order_by (lex_leb [desc Run.started_at]) l)).

(** [status.eq_any(["queued", "running"])] *)
Definition active (r : Run.ConnectorRun) : bool :=
  one_of_texts (Run.status r) ["queued"; "running"].

Definition same_slot (source target : string) (r : Run.ConnectorRun) : bool :=
  (Run.source r =s source) && (Run.target r =s target).

Definition pending (source target : string) (r : Run.ConnectorRun) : bool :=
  same_slot source target r && active r.

(** The FOR UPDATE lock on the connector row: it must exist. *)
Definition lock_connector (source : string) : Query Connectors.Connector :=
  first_row (exec (sql_select (fun k => Connectors.source k =s source))).

Definition create_run (new_run : NewRun.NewConnectorRun) : Query Run.ConnectorRun :=
  exec (sql_insert (run_of_new new_run)).

Definition create_if_no_pending (new_run : NewRun.NewConnectorRun)
    : Query (option Run.ConnectorRun) :=
  let source := NewRun.source new_run in
  let target := NewRun.target new_run in
  query_transaction (
    lock_connector source ;;;
    count <- exec (sql_count (pending source target)) ;;
    if 0 <? count then ret None
    else
      r <- exec (sql_insert (run_of_new new_run)) ;;
      ret (Some r)).

Definition create_retry (parent_run_id : Z) (new_run : NewRun.NewConnectorRun)
    : Query (option Run.ConnectorRun) :=
  let source := NewRun.source new_run in
  let target := NewRun.target new_run in
  query_transaction (
    lock_connector source ;;;
    first_row (exec (sql_select (by_id parent_run_id))) ;;;
    count <- exec (sql_count (pending source target)) ;;
    if 0 <? count then ret None
    else
      r <- exec (sql_insert (run_of_new new_run)) ;;
      ret (Some r)).

Definition has_pending (source target : string) : Query bool :=
  count <- exec (sql_count (pending source target)) ;;
  ret (0 <? count).

Definition claimable (now : Z) (r : Run.ConnectorRun) : bool :=
  (Run.status r =s "queued") && (Run.next_attempt_at r <=? now)
  && holds (is_null (Run.cancel_requested_at r)) && (Run.attempt_count r <? Run.max_attempts r).

Definition claim_order : Run.ConnectorRun -> Run.ConnectorRun -> bool :=
  lex_leb [asc Run.next_attempt_at; asc Run.started_at; asc Run.id].

Definition claimed (worker_id : string) (now attempt_count lease : Z) (r : Run.ConnectorRun)
    : Run.ConnectorRun :=
  r <| Run.status := "running" |> <| Run.claimed_at := Some now |>
    <| Run.worker_id := Some worker_id |> <| Run.attempt_count := attempt_count |>
    <| Run.lease_expires_at := Some lease |> <| Run.heartbeat_at := Some now |>
    <| Run.finished_at := None |> <| Run.cancelled_at := None |>.

Definition claim_next_queued (worker_id : string) (lease_seconds : Z)
    : Query (option Run.ConnectorRun) :=
  query_transaction (
    now <- utc_now ;;
    queued <- optional (first_row (
                l <- exec (sql_select (claimable now)) ;; ret (order_by claim_order l))) ;;
    match queued with
    | None => ret None
    | Some queued =>
        lease <- or_panic (after_seconds now lease_seconds) ;;
        r <- first_row (exec (sql_update (by_id (Run.id queued))
               (fun _ => claimed worker_id now (Run.attempt_count queued + 1) lease))) ;;
        ret (Some r)
    end).

(** The run [id] is running under [worker_id]'s unexpired lease, uncancelled. *)
Definition leased_to (id : Z) (worker_id : string) (now : Z) (r : Run.ConnectorRun) : bool :=
  by_id id r && (Run.status r =s "running")
  && holds (eq_text (Run.worker_id r) (Some worker_id))
  && holds (is_null (Run.cancel_requested_at r))
  && holds (gt_ts (Run.lease_expires_at r) (Some now)).

Definition renew_lease (id : Z) (worker_id : string) (lease_seconds : Z) : Query bool :=
  now <- utc_now ;;
  lease <- or_panic (after_seconds now lease_seconds) ;;
  updated <- affected (exec (sql_update (leased_to id worker_id now) (fun _ r =>
    r <| Run.heartbeat_at := Some now |> <| Run.lease_expires_at := Some lease |>))) ;;
  ret (updated =? 1).

(** The run [id] is running without a worker, uncancelled. *)
Definition unleased (id : Z) (r : Run.ConnectorRun) : bool :=
  by_id id r && (Run.status r =s "running") && holds (is_null (Run.worker_id r))
  && holds (is_null (Run.cancel_requested_at r)).

Definition execution_is_active (id : Z) (worker_id : option string) : Query bool :=
  match worker_id with
  | Some worker_id =>
      now <- utc_now ;;
      n <- exec (sql_count (leased_to id worker_id now)) ;;
      ret (n =? 1)
  | None =>
      n <- exec (sql_count (unleased id)) ;;
      ret (n =? 1)
  end.

Definition cancellation_requested (id : Z) : Query bool :=
  n <- exec (sql_count (fun r => by_id id r && holds (is_not_null (Run.cancel_requested_at r)))) ;;
  ret (n =? 1).

Definition finalized (state : RunUpdate.ConnectorRunStateUpdate) (now : Z) (r : Run.ConnectorRun)
    : Run.ConnectorRun :=
  r <| Run.status := RunUpdate.status state |>
    <| Run.success_count := RunUpdate.success_count state |>
    <| Run.failure_count := RunUpdate.failure_count state |>
    <| Run.duration_ms := RunUpdate.duration_ms state |>
    <| Run.error_message := RunUpdate.error_message state |>
    <| Run.finished_at := RunUpdate.finished_at state |>
    <| Run.snapshot_complete := RunUpdate.snapshot_complete state |>
    <| Run.archived_count := RunUpdate.archived_count state |>
    <| Run.lease_expires_at := None |>
    <| Run.heartbeat_at := Some now |>.

Definition finalize_if_active (id : Z) (worker_id : option string)
    (state : RunUpdate.ConnectorRunStateUpdate) : Query (option Run.ConnectorRun) :=
  now <- utc_now ;;
  match worker_id with
  | Some worker_id =>
      optional (first_row (exec (sql_update (leased_to id worker_id now)
                                   (fun _ => finalized state now))))
  | None =>
      optional (first_row (exec (sql_update (unleased id) (fun _ => finalized state now))))
  end.

Definition request_cancel (id : Z) : Query (option Run.ConnectorRun) :=
  query_transaction (
    run <- first_row (exec (sql_select (by_id id))) ;;
    now <- utc_now ;;
    if Run.status run =s "queued" then
      r <- first_row (exec (sql_update (by_id id) (fun _ r =>
             r <| Run.status := "cancelled" |> <| Run.cancel_requested_at := Some now |>
               <| Run.cancelled_at := Some now |> <| Run.finished_at := Some now |>
               <| Run.lease_expires_at := None |>))) ;;
      ret (Some r)
    else if Run.status run =s "running" then
      r <- first_row (exec (sql_update (by_id id) (fun _ r =>
             r <| Run.cancel_requested_at := Some now |>))) ;;
      ret (Some r)
    else ret None).

Definition mark_cancelled_if_requested (id : Z) (worker_id : option string)
    : Query (option Run.ConnectorRun) :=
  now <- utc_now ;;
  let changes (_ : Z) (r : Run.ConnectorRun) :=
    r <| Run.status := "cancelled" |> <| Run.cancelled_at := Some now |>
      <| Run.finished_at := Some now |> <| Run.lease_expires_at := None |>
      <| Run.heartbeat_at := Some now |>
      <| Run.error_message := Some "cancelled by operator" |> in
  let requested (r : Run.ConnectorRun) :=
    by_id id r && (Run.status r =s "running")
    && match worker_id with
       | Some w => holds (eq_text (Run.worker_id r) (Some w))
       | None => holds (is_null (Run.worker_id r)) end
    && holds (is_not_null (Run.cancel_requested_at r)) in
  optional (first_row (exec (sql_update requested changes))).

Definition expired (now : Z) (r : Run.ConnectorRun) : bool :=
  (Run.status r =s "running") && holds (le_ts (Run.lease_expires_at r) (Some now)).

Definition expired_cancelled (now : Z) (r : Run.ConnectorRun) : Run.ConnectorRun :=
  r <| Run.status := "cancelled" |> <| Run.cancelled_at := Some now |>
    <| Run.finished_at := Some now |> <| Run.lease_expires_at := None |>
    <| Run.error_message := Some "cancelled after worker lease expired" |>.

Definition expired_failed (now attempt_count : Z) (r : Run.ConnectorRun) : Run.ConnectorRun :=
  r <| Run.status := "failed" |> <| Run.finished_at := Some now |>
    <| Run.lease_expires_at := None |>
    <| Run.error_message := Some (concat_str ["worker lease expired after ";
         int_to_string attempt_count; " attempt(s); retry limit reached"]) |>.

Definition expired_requeued (attempt_count backoff_seconds next : Z) (r : Run.ConnectorRun)
    : Run.ConnectorRun :=
  r <| Run.status := "queued" |> <| Run.next_attempt_at := next |>
    <| Run.claimed_at := None |> <| Run.worker_id := None |>
    <| Run.lease_expires_at := None |> <| Run.heartbeat_at := None |>
    <| Run.error_message := Some (concat_str ["worker lease expired on attempt ";
         int_to_string attempt_count; "; retry scheduled in ";
         int_to_string backoff_seconds; " second(s)"]) |>.

Definition recover_one (now retry_base_seconds retry_max_seconds : Z)
    (stats : ConnectorRunRecoveryStats) (run : Run.ConnectorRun)
    : Query ConnectorRunRecoveryStats :=
  match Run.cancel_requested_at run with
  | Some _ =>
      exec (sql_update (by_id (Run.id run)) (fun _ => expired_cancelled now)) ;;;
      ret (stats <| cancelled := S (cancelled stats) |>)
  | None =>
      if Run.max_attempts run <=? Run.attempt_count run then
        exec (sql_update (by_id (Run.id run))
                (fun _ => expired_failed now (Run.attempt_count run))) ;;;
        exec (sql_update (fun k => Connectors.source k =s Run.source run) (fun _ k =>
                k <| Connectors.status := "error" |> <| Connectors.last_run_at := Some now |>
                  <| Connectors.updated_at := now |>)) ;;;
        ret (stats <| failed := S (failed stats) |>)
      else
        let backoff_seconds := bounded_retry_backoff_seconds (Run.attempt_count run)
                                 retry_base_seconds retry_max_seconds in
        next <- or_panic (after_seconds now backoff_seconds) ;;
        exec (sql_update (by_id (Run.id run))
                (fun _ => expired_requeued (Run.attempt_count run) backoff_seconds next)) ;;;
        ret (stats <| requeued := S (requeued stats) |>)
  end.

Definition recover_expired_leases (retry_base_seconds retry_max_seconds n : Z)
    : Query ConnectorRunRecoveryStats :=
  query_transaction (
    now <- utc_now ;;
    l <- exec (sql_select (expired now)) ;;
    let expired_runs :=
      limit n (order_by (lex_leb [asc_null Run.lease_expires_at; asc Run.id]) l) in
    for_each expired_runs (mkStats 0 0 0)
      (recover_one now retry_base_seconds retry_max_seconds)).

Definition update_state (id : Z) (state : RunUpdate.ConnectorRunStateUpdate)
    : Query Run.ConnectorRun :=
  now <- utc_now ;;
  first_row (exec (sql_update (by_id id) (fun _ => finalized state now))).

Definition delete_finished_older_than (finished_before : Z) : Query Z :=
  affected (exec (sql_delete (fun r =>
    holds (is_not_null (Run.finished_at r))
    && holds (lt_ts (Run.finished_at r) (Some finished_before))))).

End ConnectorRunRepository.
