(* ===== verification/RunLifecycle.v ===== *)
(** The abstract life cycle of connector runs and the refinement of
    [ConnectorRunRepository] to it: every repository operation, by any worker,
    at any time and with any injected failure, moves each run along an edge of
    the life cycle. The invariants of the queue follow by induction on the
    interleaving of operations. *)
From S2P Require Import Prelude Logic Text Models Schema Api Schedule Runs.
From stdpp Require Import relations.
Import ConnectorRunRepository.

Open Scope Z_scope.
Open Scope portal_scope.

(** ** The life cycle of one run *)

Definition terminal (r : Run.ConnectorRun) : bool :=
  one_of_texts (Run.status r) ["success"; "partial_success"; "failed"; "cancelled"].

(** The updates [finish_connector_run_for_owner] applies. *)
Definition final_update (u : RunUpdate.ConnectorRunStateUpdate) : Prop :=
  RunUpdate.status u ∈ ["success"; "partial_success"; "failed"] /\
  is_Some (RunUpdate.finished_at u).

(** The owner of a run: the worker whose lease has not expired at [now], or
    nobody when the run executes inside an HTTP request. *)
Definition owned_by (w : option string) (now : Z) (r : Run.ConnectorRun) : Prop :=
  match w with
  | Some w => Run.worker_id r = Some w /\ exists e, Run.lease_expires_at r = Some e /\ now < e
  | None => Run.worker_id r = None
  end.

Definition lease_expired (now : Z) (r : Run.ConnectorRun) : Prop :=
  exists e, Run.lease_expires_at r = Some e /\ e <= now.

Inductive lifecycle : Run.ConnectorRun -> Run.ConnectorRun -> Prop :=
  | lc_claim r w now lease :
      Run.status r = "queued" -> Run.next_attempt_at r <= now ->
      Run.cancel_requested_at r = None -> Run.attempt_count r < Run.max_attempts r ->
      lifecycle r (claimed w now (Run.attempt_count r + 1) lease r)
  | lc_renew r w now lease :
      Run.status r = "running" -> owned_by (Some w) now r -> Run.cancel_requested_at r = None ->
      lifecycle r (r <| Run.heartbeat_at := Some now |> <| Run.lease_expires_at := Some lease |>)
  | lc_finalize r w now u :
      Run.status r = "running" -> owned_by w now r -> Run.cancel_requested_at r = None ->
      final_update u -> lifecycle r (finalized u now r)
  | lc_cancel_queued r now :
      Run.status r = "queued" ->
      lifecycle r (r <| Run.status := "cancelled" |> <| Run.cancel_requested_at := Some now |>
                     <| Run.cancelled_at := Some now |> <| Run.finished_at := Some now |>
                     <| Run.lease_expires_at := None |>)
  | lc_request_cancel r now :
      Run.status r = "running" -> lifecycle r (r <| Run.cancel_requested_at := Some now |>)
  | lc_settle_cancel r now :
      Run.status r = "running" -> is_Some (Run.cancel_requested_at r) ->
      lifecycle r (r <| Run.status := "cancelled" |> <| Run.cancelled_at := Some now |>
                     <| Run.finished_at := Some now |> <| Run.lease_expires_at := None |>
                     <| Run.heartbeat_at := Some now |>
                     <| Run.error_message := Some "cancelled by operator" |>)
  | lc_expire_cancel r now :
      Run.status r = "running" -> lease_expired now r -> is_Some (Run.cancel_requested_at r) ->
      lifecycle r (expired_cancelled now r)
  | lc_expire_fail r now :
      Run.status r = "running" -> lease_expired now r -> Run.cancel_requested_at r = None ->
      Run.max_attempts r <= Run.attempt_count r ->
      lifecycle r (expired_failed now (Run.attempt_count r) r)
  | lc_expire_requeue r now backoff next :
      Run.status r = "running" -> lease_expired now r -> Run.cancel_requested_at r = None ->
      Run.attempt_count r < Run.max_attempts r ->
      lifecycle r (expired_requeued (Run.attempt_count r) backoff next r).

(** A run as [create_queued_run] or [create_running_run] inserts it. *)
Definition new_run (r : Run.ConnectorRun) : Prop :=
  Run.finished_at r = None /\ Run.cancel_requested_at r = None /\ Run.cancelled_at r = None /\
  Run.worker_id r = None /\ Run.lease_expires_at r = None /\
  ((Run.status r = "queued" /\ Run.attempt_count r = 0 /\ 0 < Run.max_attempts r
    /\ Run.claimed_at r = None)
   \/ (Run.status r = "running" /\ Run.attempt_count r = 1 /\ Run.max_attempts r = 1
       /\ is_Some (Run.claimed_at r))).

(** ** The table *)

Definition run_ids (l : list Run.ConnectorRun) : list Z := map Run.id l.

Inductive table_step : list Run.ConnectorRun -> list Run.ConnectorRun -> Prop :=
  | ts_update l (P : Run.ConnectorRun -> bool) f :
      (forall r, r ∈ l -> P r = true -> lifecycle r (f r)) ->
      table_step l (map (fun r => if P r then f r else r) l)
  | ts_insert l r :
      new_run r -> Run.id r ∉ run_ids l ->
      (forall x, x ∈ l -> pending (Run.source r) (Run.target r) x = false) ->
      table_step l (l ++ [r])
  | ts_delete l (P : Run.ConnectorRun -> bool) (g : option Z -> option Z) :
      (forall r, r ∈ l -> P r = true -> is_Some (Run.finished_at r)) ->
      table_step l (map (fun r => r <| Run.parent_run_id := g (Run.parent_run_id r) |>)
                      (List.filter (fun r => negb (P r)) l)).

(** ** The operations as atomic steps of a shared database *)

(** Any server or worker process may execute any operation next, on its own connection
    (its clock, its injected failures) to the shared content; a statement of another
    repository leaves the run table alone. The plain [create_run] and [update_state] of
    the repository are called by the seeding of the demonstration only, whose transaction
    is a step of [RunSystem.v]. *)
Inductive run_step : Db -> Db -> Prop :=
  | rs_create c n :
      aborted c = false -> new_run (run_of_new n 0 0) ->
      run_step (db c) (db (snd (create_if_no_pending n c)))
  | rs_retry c p n :
      aborted c = false -> new_run (run_of_new n 0 0) ->
      run_step (db c) (db (snd (create_retry p n c)))
  | rs_claim c w s :
      aborted c = false -> run_step (db c) (db (snd (claim_next_queued w s c)))
  | rs_renew c id w s :
      aborted c = false -> run_step (db c) (db (snd (renew_lease id w s c)))
  | rs_finalize c id w u :
      aborted c = false -> final_update u ->
      run_step (db c) (db (snd (finalize_if_active id w u c)))
  | rs_request_cancel c id :
      aborted c = false -> run_step (db c) (db (snd (request_cancel id c)))
  | rs_mark_cancelled c id w :
      aborted c = false -> run_step (db c) (db (snd (mark_cancelled_if_requested id w c)))
  | rs_recover c b m n :
      aborted c = false -> run_step (db c) (db (snd (recover_expired_leases b m n c)))
  | rs_delete c t :
      aborted c = false -> run_step (db c) (db (snd (delete_finished_older_than t c)))
  | rs_other d d' :
      connector_runs d' = connector_runs d -> run_step d d'.

(** A step that keeps the set of rows. *)
Definition table_update (l l' : list Run.ConnectorRun) : Prop :=
  table_step l l' /\ run_ids l' = run_ids l.

(** [refines d d']: the run table takes one step, or any number of updates. *)
Definition refines (d d' : Db) : Prop :=
  NoDup (run_ids (connector_runs d)) ->
  table_step (connector_runs d) (connector_runs d') \/
  rtc table_update (connector_runs d) (connector_runs d').

Lemma refines_refl d : refines d d.
Proof. intros _. right. apply rtc_refl. Qed.

Lemma table_update_steps l l' : rtc table_update l l' -> rtc table_step l l'.
Proof. apply rtc_subrel. by intros ?? []. Qed.

Lemma refines_steps d d' :
  refines d d' -> NoDup (run_ids (connector_runs d)) ->
  rtc table_step (connector_runs d) (connector_runs d').
Proof. intros H Hn. destruct (H Hn); [by apply rtc_once|by apply table_update_steps]. Qed.

#[local] Hint Resolve refines_refl : core.

(** ** Reading the conditions of the statements *)

Lemma leased_to_spec id w now r :
  leased_to id w now r = true ->
  Run.id r = id /\ Run.status r = "running" /\ owned_by (Some w) now r /\
  Run.cancel_requested_at r = None.
Proof.
  unfold leased_to, by_id. rewrite !andb_true_iff. intros [[[[Hid Hst] Hw] Hc] Hl].
  apply Z.eqb_eq in Hid. apply str_eqb_eq in Hst.
  destruct (Run.worker_id r) eqn:Ew; [|done]. simpl in Hw.
  destruct (str_eqb s w) eqn:E; [|done]. apply str_eqb_eq in E as ->.
  destruct (Run.cancel_requested_at r); [done|].
  destruct (Run.lease_expires_at r) as [e|] eqn:El; [|done]. simpl in Hl.
  destruct (e >? now) eqn:E; [|done]. simpl. split_and!; try done. exists e. split; [done|lia].
Qed.

Lemma unleased_spec id r :
  unleased id r = true ->
  Run.id r = id /\ Run.status r = "running" /\ Run.worker_id r = None /\
  Run.cancel_requested_at r = None.
Proof.
  unfold unleased, by_id. rewrite !andb_true_iff. intros [[[Hid Hst] Hw] Hc].
  apply Z.eqb_eq in Hid. apply str_eqb_eq in Hst.
  by destruct (Run.worker_id r), (Run.cancel_requested_at r).
Qed.

Lemma claimable_spec now r :
  claimable now r = true ->
  Run.status r = "queued" /\ Run.next_attempt_at r <= now /\ Run.cancel_requested_at r = None /\
  Run.attempt_count r < Run.max_attempts r.
Proof.
  unfold claimable. rewrite !andb_true_iff. intros [[[Hst Hn] Hc] Ha].
  apply str_eqb_eq in Hst. destruct (Run.cancel_requested_at r); [done|]. split_and!; [done|lia|done|lia].
Qed.

Lemma expired_spec now r :
  expired now r = true -> Run.status r = "running" /\ lease_expired now r.
Proof.
  unfold expired. rewrite andb_true_iff. intros [Hst%str_eqb_eq Hl]. split; [done|].
  destruct (Run.lease_expires_at r) as [e|] eqn:E; [|done]. simpl in Hl.
  exists e. destruct (e <=? now) eqn:E'; [|done]. split; [done|lia].
Qed.

(** A statement on one key updates the row that was read. *)
Lemma by_id_unique l x r :
  NoDup (run_ids l) -> x ∈ l -> r ∈ l -> by_id (Run.id x) r = true -> r = x.
Proof. intros Hn Hx Hr H%Z.eqb_eq. by eapply NoDup_map_inj. Qed.

Lemma runs_updated l d : connector_runs (set_rows l d) = l.
Proof. reflexivity. Qed.

Lemma insert_run_step (l : list Run.ConnectorRun) d r :
  connector_runs d = l -> violated (set_rows (l ++ [r]) d) r = None ->
  new_run r -> (forall x, x ∈ l -> pending (Run.source r) (Run.target r) x = false) ->
  table_step l (l ++ [r]).
Proof.
  intros Hd Hv Hn Hp. apply ts_insert; [done| |done].
  change (run_violated (set_rows (l ++ [r]) d) r = None) in Hv.
  unfold run_violated in Hv. rewrite runs_updated in Hv. constraints Hv.
  intros (x & Hx & Hin)%list_elem_of_fmap.
  assert ((Run.id x =? Run.id r) = false) as E; [|lia].
  eapply unique_app_fresh with (P := fun x => Run.id x =? Run.id r); [done|lia|done].
Qed.

(** An update of the row that was read. *)
Lemma update_run_step l x f :
  NoDup (run_ids l) -> x ∈ l -> lifecycle x (f x) ->
  table_step l (map (fun r => if by_id (Run.id x) r then f r else r) l).
Proof.
  intros Hn Hx Hl. apply ts_update. intros r Hr Hb. by rewrite (by_id_unique l x r).
Qed.

(** ** Each operation refines the life cycle *)

Ltac same_db := intros; subst; auto.

(** No pending run of the slot is left when the count is zero. *)
Lemma no_pending (P : Run.ConnectorRun -> bool) l :
  (0 <? Z.of_nat (length (List.filter P l))) = false -> forall x, x ∈ l -> P x = false.
Proof.
  intros E x Hx. apply filter_nil_inv_b with (l := l); [|done].
  by destruct (List.filter P l).
Qed.

Lemma insert_if_free_refines n d0 :
  new_run (run_of_new n 0 0) ->
  hoare (fun d => d = d0)
    (count <- exec (sql_count (pending (NewRun.source n) (NewRun.target n))) ;;
     if 0 <? count then ret None
     else r <- exec (sql_insert (run_of_new n)) ;; ret (Some r))
    (fun _ d => refines d0 d) (fun _ _ _ => True).
Proof.
  intros Hn. eapply hoare_bind with (R := fun k d => d = d0 /\ k = Z.of_nat (length
    (List.filter (pending (NewRun.source n) (NewRun.target n)) (connector_runs d0)))).
  { apply hoare_count; same_db. }
  intros k. apply hoare_at. intros d [-> ->].
  case_match eqn:E; [apply hoare_ret; same_db|].
  apply hoare_pure_after, hoare_insert; [|same_db].
  intros now id d' -> Hv Hnd. rewrite runs_updated.
  left. eapply insert_run_step; [done|exact Hv|exact Hn|]. by apply no_pending.
Qed.

Lemma lock_connector_same source d0 X :
  (forall e ab, X e ab d0) ->
  hoare (fun d => d = d0) (lock_connector source) (fun _ d => d = d0) X.
Proof. intros HX. apply hoare_first_row, hoare_select; [|auto].
  by destruct (List.filter _ _). Qed.

Lemma create_if_no_pending_refines n :
  new_run (run_of_new n 0 0) -> evolves refines (create_if_no_pending n).
Proof.
  intros Hn. apply hoare_evolves. intros d0. apply hoare_transaction; [|same_db].
  eapply hoare_bind; [by apply (lock_connector_same _ d0)|]. intros ?. by apply insert_if_free_refines.
Qed.

Lemma create_retry_refines p n :
  new_run (run_of_new n 0 0) -> evolves refines (create_retry p n).
Proof.
  intros Hn. apply hoare_evolves. intros d0. apply hoare_transaction; [|same_db].
  eapply hoare_bind; [by apply (lock_connector_same _ d0)|]. intros ?.
  eapply hoare_bind with (R := fun _ d => d = d0).
  { apply hoare_first_row, hoare_select; [|done]. by destruct (List.filter _ _). }
  intros ?. by apply insert_if_free_refines.
Qed.

(** The head of a sorted selection is a selected row. *)
Lemma first_selected {R} {T : Table Db R} (P : R -> bool) leb d0 X :
  (forall e ab, X e ab d0) ->
  hoare (fun d => d = d0)
    (first_row (l <- exec (sql_select P) ;; ret (order_by leb l)))
    (fun r d => d = d0 /\ r ∈ rows d0 /\ P r = true /\
                head (order_by leb (List.filter P (rows d0))) = Some r)
    (fun e ab d => match e with
                   | Some DNotFound => ab = false /\ d = d0 /\ List.filter P (rows d0) = []
                   | _ => X e ab d end).
Proof.
  intros HX. apply hoare_first_row, hoare_pure_after, hoare_select; [|done].
  destruct (order_by leb _) as [|r l] eqn:E.
  - split_and!; [done|done|]. apply Permutation_nil. by rewrite <- E, order_by_perm.
  - assert (r ∈ List.filter P (rows d0)) as Hr.
    { rewrite <- (elem_of_order_by leb), E. left. }
    by apply elem_of_filter_b in Hr as [??].
Qed.

Lemma claim_refines w s : evolves refines (claim_next_queued w s).
Proof.
  apply hoare_evolves. intros d0. apply hoare_transaction; [|same_db].
  apply hoare_now. intros now.
  eapply hoare_bind with (R := fun o d => d = d0 /\
     (forall q, o = Some q -> q ∈ connector_runs d0 /\ claimable now q = true)).
  { apply hoare_optional. eapply hoare_conseq; [by apply (first_selected _ _ d0 (fun _ _ _ => True))|done| |].
    - intros r d (-> & Hr & HP & _). split; [done|]. by intros q [= <-].
    - intros [[]|] ab d; naive_solver. }
  intros [q|]; apply hoare_at; intros d [-> Hq]; [|apply hoare_ret; same_db].
  destruct (Hq q eq_refl) as [Hin (Hst & Hn & Hc & Ha)%claimable_spec].
  apply hoare_or_panic; [|done]. intros lease _.
  apply hoare_pure_after, hoare_first_row, hoare_update; [|done].
  intros sn d' -> _. enough (refines d0 (set_rows (map (λ r, if by_id (Run.id q) r
    then claimed w now (Run.attempt_count q + 1) lease r else r) (connector_runs d0)) d0)).
  { by case_match. }
  intros Hnd. rewrite runs_updated. left. apply update_run_step; [done..|].
  by apply lc_claim.
Qed.

(** A guarded update whose condition implies the edge. *)
Lemma update_where_refines (P : Run.ConnectorRun -> bool) f d0 :
  (forall r, P r = true -> lifecycle r (f r)) ->
  refines d0 (set_rows (map (fun r => if P r then f r else r) (connector_runs d0)) d0).
Proof. intros H _. rewrite runs_updated. left. apply ts_update. auto. Qed.

Lemma optional_update_refines (P : Run.ConnectorRun -> bool) f d0 :
  (forall r, P r = true -> lifecycle r (f r)) ->
  hoare (fun d => d = d0) (optional (first_row (exec (sql_update P (fun _ => f)))))
    (fun _ d => refines d0 d) (fun _ _ d => refines d0 d).
Proof.
  intros H. apply hoare_optional, hoare_first_row, hoare_update; [|same_db].
  intros _ d' -> _. pose proof (update_where_refines P f d0 H). by destruct (map _ (List.filter _ _)).
Qed.

Lemma renew_refines id w s : evolves refines (renew_lease id w s).
Proof.
  apply hoare_evolves. intros d0. apply hoare_now. intros now.
  apply hoare_or_panic; [|same_db]. intros lease _.
  apply hoare_pure_after, hoare_affected, hoare_update; [|same_db].
  intros _ d' -> _. apply update_where_refines.
  intros r (_ & ? & ? & ?)%leased_to_spec. by eapply lc_renew.
Qed.

Lemma finalize_refines id w u : final_update u -> evolves refines (finalize_if_active id w u).
Proof.
  intros Hu. apply hoare_evolves. intros d0. apply hoare_now. intros now.
  destruct w as [w|]; apply optional_update_refines.
  - intros r (_ & ? & ? & ?)%leased_to_spec. by apply (lc_finalize r (Some w)).
  - intros r (_ & ? & ? & ?)%unleased_spec. by apply (lc_finalize r None).
Qed.

Lemma mark_cancelled_refines id w : evolves refines (mark_cancelled_if_requested id w).
Proof.
  apply hoare_evolves. intros d0. apply hoare_now. intros now.
  apply optional_update_refines. intros r. rewrite !andb_true_iff. intros [[[_ Hst%str_eqb_eq] _] Hc].
  apply lc_settle_cancel; [done|]. by destruct (Run.cancel_requested_at r).
Qed.

Lemma update_by_id_refines f d0 x :
  x ∈ connector_runs d0 -> lifecycle x (f x) ->
  refines d0 (set_rows (map (fun r => if by_id (Run.id x) r then f r else r)
                          (connector_runs d0)) d0).
Proof. intros Hx Hl Hn. rewrite runs_updated. left. by apply update_run_step. Qed.

Lemma request_cancel_refines id : evolves refines (request_cancel id).
Proof.
  apply hoare_evolves. intros d0. apply hoare_transaction; [|same_db].
  eapply hoare_bind with (R := fun r d => d = d0 /\ r ∈ connector_runs d0 /\ Run.id r = id).
  { apply hoare_first_row, hoare_select; [|done].
    destruct (List.filter _ _) as [|r l] eqn:E; [done|].
    assert (r ∈ List.filter (by_id id) (connector_runs d0)) as Hr by (simpl in E; rewrite E; left).
    apply elem_of_filter_b in Hr as [? ?%Z.eqb_eq]. done. }
  intros x. apply hoare_at. intros d (-> & Hx & <-). apply hoare_now. intros now.
  case_match eqn:Eq; [|case_match eqn:Er]; [| |apply hoare_ret; same_db];
    apply hoare_pure_after, hoare_first_row, hoare_update; try done; intros _ d' -> _.
  - apply str_eqb_eq in Eq.
    pose proof (update_by_id_refines (fun r => r <| Run.status := "cancelled" |>
      <| Run.cancel_requested_at := Some now |> <| Run.cancelled_at := Some now |>
      <| Run.finished_at := Some now |> <| Run.lease_expires_at := None |>)
      d0 x Hx (lc_cancel_queued x now Eq)). by case_match.
  - apply str_eqb_eq in Er.
    pose proof (update_by_id_refines (fun r => r <| Run.cancel_requested_at := Some now |>)
      d0 x Hx (lc_request_cancel x now Er)). by case_match.
Qed.

Lemma delete_finished_refines t : evolves refines (delete_finished_older_than t).
Proof.
  apply hoare_evolves. intros d0. apply hoare_affected, hoare_delete; [|same_db].
  intros d' [= <-] _. left.
  apply (ts_delete _ _ (null_if (map Run.id (List.filter _ (connector_runs d0))))).
  intros r _ [H _]%andb_prop. by destruct (Run.finished_at r).
Qed.

(** ** Recovery of expired leases *)

(** What recovering one run does to the table: the run takes its edge, the
    other rows stay, and the run no longer counts as expired. *)
Definition recovered_one (now : Z) (x : Run.ConnectorRun) (d d' : Db) : Prop :=
  table_step (connector_runs d) (connector_runs d') /\
  run_ids (connector_runs d') = run_ids (connector_runs d) /\
  (forall y, y ∈ connector_runs d -> Run.id y <> Run.id x -> y ∈ connector_runs d') /\
  (forall y, y ∈ connector_runs d' -> expired now y = true ->
     y ∈ connector_runs d /\ Run.id y <> Run.id x).

Lemma recovered_by_update now x f d d' :
  NoDup (run_ids (connector_runs d)) -> x ∈ connector_runs d -> lifecycle x (f x) ->
  (forall r, Run.id (f r) = Run.id r) -> (forall r, expired now (f r) = false) ->
  connector_runs d' = map (fun r => if by_id (Run.id x) r then f r else r) (connector_runs d) ->
  recovered_one now x d d'.
Proof.
  intros Hn Hx Hl Hid Hex Hd. unfold recovered_one. rewrite Hd. split_and!.
  - by apply update_run_step.
  - by apply map_key_update.
  - intros y Hy Hne. apply elem_of_update. right. split; [done|]. unfold by_id. lia.
  - intros y [(r & _ & _ & ->)|[Hy Hb]]%elem_of_update He; [by rewrite Hex in He|].
    split; [done|]. unfold by_id in Hb. lia.
Qed.

Definition stats_total (s : ConnectorRunRecoveryStats) : nat :=
  (requeued s + failed s + cancelled s)%nat.

Lemma recover_one_spec now b m s x d :
  NoDup (run_ids (connector_runs d)) -> x ∈ connector_runs d -> expired now x = true ->
  hoare (fun d' => d' = d) (recover_one now b m s x)
    (fun s' d' => recovered_one now x d d' /\ stats_total s' = S (stats_total s))
    (fun _ _ _ => True).
Proof.
  intros Hn Hx [Hst Hl]%expired_spec. unfold recover_one, stats_total.
  destruct (Run.cancel_requested_at x) eqn:Ec; [|case_match eqn:Ea].
  - apply hoare_pure_after, hoare_update; [|done]. intros _ d' -> _. split; [|simpl; lia].
    apply (recovered_by_update now x (expired_cancelled now)); try done.
    apply lc_expire_cancel; [done..|]. rewrite Ec. eauto.
  - eapply hoare_bind with (R := fun _ d' => recovered_one now x d d').
    { apply hoare_update; [|done]. intros _ d' -> _.
      apply (recovered_by_update now x (expired_failed now (Run.attempt_count x))); try done.
      apply lc_expire_fail; [done..|lia]. }
    intros ?. apply hoare_at. intros d1 H1.
    eapply hoare_bind with (R := fun _ d' => recovered_one now x d d').
    { apply hoare_update; [|done]. by intros _ d' -> _. }
    intros ?. apply hoare_ret. intros d' ?. split; [done|simpl; lia].
  - apply hoare_or_panic; [|done]. intros next _.
    apply hoare_pure_after, hoare_update; [|done]. intros _ d' -> _. split; [|simpl; lia].
    eapply (recovered_by_update now x (expired_requeued (Run.attempt_count x) _ next)); try done.
    apply (lc_expire_requeue x now); [done..|lia].
Qed.

(** What recovering a list of expired rows does. *)
Record recovered (now : Z) (l : list Run.ConnectorRun) (d d' : Db) : Prop := {
  rec_steps : rtc table_update (connector_runs d) (connector_runs d');
  rec_cleared : forall y, y ∈ connector_runs d' -> expired now y = true ->
    y ∈ connector_runs d /\ Run.id y ∉ run_ids l;
  rec_others : forall y, y ∈ connector_runs d -> Run.id y ∉ run_ids l -> y ∈ connector_runs d'
}.

Lemma recover_list_spec now b m l s d :
  NoDup (run_ids (connector_runs d)) -> NoDup (run_ids l) ->
  (forall x, x ∈ l -> x ∈ connector_runs d /\ expired now x = true) ->
  hoare (fun d' => d' = d) (for_each l s (recover_one now b m))
    (fun s' d' => recovered now l d d' /\ stats_total s' = (stats_total s + length l)%nat)
    (fun _ _ _ => True).
Proof.
  revert s d. induction l as [|x l IH]; intros s d Hn Hl Hx; simpl.
  { apply hoare_ret. intros d' ->. split; [|lia]. split; [apply rtc_refl|..]; [|done].
    intros. split; [done|]. apply not_elem_of_nil. }
  apply NoDup_cons in Hl as [Hxl Hl]. destruct (Hx x ltac:(left)) as [Hxd Hxe].
  eapply hoare_bind; [by apply recover_one_spec|].
  intros s'. apply hoare_at. intros d1 [(Hstep & Hids & Hkeep & Hexp) Hs'].
  eapply hoare_conseq; [apply (IH s' d1)| | |]; [by rewrite Hids|done| |done| |done].
  - intros y Hy. destruct (Hx y ltac:(by right)) as [Hyd Hye]. split; [|done].
    apply Hkeep; [done|]. intros E. contradict Hxl. rewrite <- E. apply list_elem_of_fmap. eauto.
  - intros s2 d2 [[Hr He Ho] Ht]. split; [|lia]. split; [by eapply rtc_l; [split|]|..].
    + intros y Hy Hye. destruct (He y Hy Hye) as [Hy1 Hnl], (Hexp y Hy1 Hye) as [Hy0 Hne].
      split; [done|]. by apply not_elem_of_cons.
    + intros y Hy [Hne Hnl]%not_elem_of_cons. apply Ho; [|done]. by apply Hkeep.
Qed.

Lemma evolves_refines {E A} (m : M Db E A) :
  (forall d0, NoDup (run_ids (connector_runs d0)) ->
     hoare (fun d => d = d0) m (fun _ d => refines d0 d) (fun _ _ d => refines d0 d)) ->
  evolves refines m.
Proof.
  intros H c Hab Hn. specialize (H (db c) Hn c Hab eq_refl).
  destruct (m c) as [[a|e|] c']; [destruct H as [_ H]|..]; by apply H.
Qed.

Definition oldest_expired (now n : Z) (l : list Run.ConnectorRun) : list Run.ConnectorRun :=
  limit n (order_by (lex_leb [asc_null Run.lease_expires_at; asc Run.id])
             (List.filter (expired now) l)).

Lemma oldest_expired_spec now n l :
  NoDup (run_ids l) ->
  NoDup (run_ids (oldest_expired now n l)) /\
  (forall x, x ∈ oldest_expired now n l -> x ∈ l /\ expired now x = true).
Proof.
  intros Hn. unfold oldest_expired, limit. split.
  - unfold run_ids. rewrite <- firstn_map. eapply sublist_NoDup; [|apply sublist_take].
    rewrite order_by_perm. by apply NoDup_map_filter_b.
  - intros x Hx. apply elem_of_filter_b, (elem_of_order_by (lex_leb [asc_null Run.lease_expires_at; asc Run.id])).
    eapply elem_of_sublist; [exact Hx|]. apply sublist_take.
Qed.

Lemma recover_body_spec now b m n d0 :
  NoDup (run_ids (connector_runs d0)) ->
  hoare (fun d => d = d0)
    (l <- exec (sql_select (expired now)) ;;
     for_each (limit n (order_by (lex_leb [asc_null Run.lease_expires_at; asc Run.id]) l))
       (mkStats 0 0 0) (recover_one now b m))
    (fun s d' => recovered now (oldest_expired now n (connector_runs d0)) d0 d' /\
                 stats_total s = length (oldest_expired now n (connector_runs d0)))
    (fun _ _ _ => True).
Proof.
  intros Hn. eapply hoare_bind with (R := fun l d => d = d0 /\ l = List.filter (expired now) (connector_runs d0)).
  { by apply hoare_select. }
  intros l. apply hoare_at. intros d [-> ->].
  destruct (oldest_expired_spec now n _ Hn) as [H1 H2]. by apply recover_list_spec.
Qed.

Lemma recover_refines b m n : evolves refines (recover_expired_leases b m n).
Proof.
  apply evolves_refines. intros d0 Hn. apply hoare_transaction; [|same_db].
  apply hoare_now. intros now. eapply hoare_conseq; [by apply recover_body_spec|done| |done].
  intros ? d [[H _ _] _] _. by right.
Qed.

Lemma run_step_refines d d' : run_step d d' -> refines d d'.
Proof.
  destruct 1 as [| | | | | | | | |? ? E].
  - by apply create_if_no_pending_refines.
  - by apply create_retry_refines.
  - by apply claim_refines.
  - by apply renew_refines.
  - by apply finalize_refines.
  - by apply request_cancel_refines.
  - by apply mark_cancelled_refines.
  - by apply recover_refines.
  - by apply delete_finished_refines.
  - intros _. right. rewrite E. apply rtc_refl.
Qed.

(** ** The invariant of the queue *)

(** What each status says about the other columns. *)
Inductive wf_run (r : Run.ConnectorRun) : Prop :=
  | wf_queued :
      Run.status r = "queued" -> 0 <= Run.attempt_count r < Run.max_attempts r ->
      Run.worker_id r = None -> Run.lease_expires_at r = None -> Run.claimed_at r = None ->
      Run.finished_at r = None -> Run.cancelled_at r = None -> Run.cancel_requested_at r = None ->
      wf_run r
  | wf_leased :
      Run.status r = "running" -> 0 < Run.attempt_count r <= Run.max_attempts r ->
      is_Some (Run.worker_id r) -> is_Some (Run.lease_expires_at r) -> is_Some (Run.claimed_at r) ->
      Run.finished_at r = None -> Run.cancelled_at r = None -> wf_run r
  | wf_unleased :
      Run.status r = "running" -> Run.attempt_count r = 1 -> Run.max_attempts r = 1 ->
      Run.worker_id r = None -> Run.lease_expires_at r = None -> is_Some (Run.claimed_at r) ->
      Run.finished_at r = None -> Run.cancelled_at r = None -> wf_run r
  | wf_finished :
      Run.status r ∈ ["success"; "partial_success"; "failed"] ->
      0 < Run.attempt_count r <= Run.max_attempts r ->
      Run.lease_expires_at r = None -> is_Some (Run.finished_at r) -> Run.cancelled_at r = None ->
      Run.cancel_requested_at r = None -> wf_run r
  | wf_cancelled :
      Run.status r = "cancelled" -> 0 <= Run.attempt_count r <= Run.max_attempts r ->
      Run.lease_expires_at r = None -> is_Some (Run.finished_at r) -> is_Some (Run.cancelled_at r) ->
      is_Some (Run.cancel_requested_at r) -> wf_run r.

(** The queue: keys are unique, each row is well formed, and a (source, target)
    slot has at most one active run. *)
Record wf_queue (l : list Run.ConnectorRun) : Prop := {
  wf_ids : NoDup (run_ids l);
  wf_rows : forall r, r ∈ l -> wf_run r;
  wf_slots : forall x y, x ∈ l -> y ∈ l -> active x = true ->
    pending (Run.source x) (Run.target x) y = true -> x = y
}.

Lemma active_status r : active r = true <-> Run.status r = "queued" \/ Run.status r = "running".
Proof.
  unfold active, one_of_texts. simpl. rewrite orb_false_r, orb_true_iff, !str_eqb_eq. done.
Qed.

Lemma lifecycle_keeps r r' :
  lifecycle r r' ->
  Run.id r' = Run.id r /\ Run.source r' = Run.source r /\ Run.target r' = Run.target r /\
  Run.max_attempts r' = Run.max_attempts r /\ active r = true.
Proof. rewrite active_status. by destruct 1; simpl; split_and!; auto. Qed.

Lemma lifecycle_wf r r' : lifecycle r r' -> wf_run r -> wf_run r'.
Proof.
  intros Hl Hw. destruct Hl as [? ? ? ? Hq|? ? ? ? Hq|? ? ? u Hq Ho Hc [Hu Hf]|? ? Hq|? ? Hq|? ? Hq|
    ? ? Hq|? ? Hq|? ? ? ? Hq];
  destruct Hw as [E|E|E|E|E]; try (rewrite Hq in E; congruence || (exfalso; set_solver)).
  - apply wf_leased; simpl; eauto; lia.
  - apply wf_leased; simpl; eauto.
  - apply wf_finished; simpl; eauto.
  - apply wf_finished; simpl; eauto; lia.
  - apply wf_cancelled; simpl; eauto; lia.
  - by apply wf_leased.
  - by apply wf_unleased.
  - apply wf_cancelled; simpl; eauto; lia.
  - apply wf_cancelled; simpl; eauto; lia.
  - apply wf_cancelled; simpl; eauto; lia.
  - apply wf_cancelled; simpl; eauto; lia.
  - apply wf_finished; simpl; eauto; set_solver.
  - apply wf_finished; simpl; eauto; [set_solver|lia].
  - apply wf_queued; simpl; eauto; lia.
  - lia.
Qed.

Lemma new_run_wf r : new_run r -> wf_run r.
Proof.
  intros (? & ? & ? & ? & ? & [(? & ? & ? & ?)|(? & ? & ? & ?)]).
  - apply wf_queued; auto; lia.
  - by apply wf_unleased.
Qed.

Lemma new_run_active r : new_run r -> active r = true.
Proof. rewrite active_status. intros (_ & _ & _ & _ & _ & [(? & _)|(? & _)]); auto. Qed.

Lemma pending_iff s t r :
  pending s t r = true <-> Run.source r = s /\ Run.target r = t /\ active r = true.
Proof. unfold pending, same_slot. rewrite !andb_true_iff, !str_eqb_eq. tauto. Qed.

(** Rows of the new table that are active come from active rows. *)
Lemma update_wf l (P : Run.ConnectorRun -> bool) f :
  (forall r, r ∈ l -> P r = true -> lifecycle r (f r)) -> wf_queue l ->
  wf_queue (map (fun r => if P r then f r else r) l).
Proof.
  intros Hf [Hid Hrow Hslot].
  assert (Hkeep : forall r, r ∈ l -> let r' := if P r then f r else r in
     Run.id r' = Run.id r /\ Run.source r' = Run.source r /\ Run.target r' = Run.target r /\
     (active r' = true -> active r = true)).
  { intros r Hr. simpl. destruct (P r) eqn:E; [|done].
    destruct (lifecycle_keeps _ _ (Hf r Hr E)) as (? & ? & ? & _ & ?). done. }
  split.
  - assert (run_ids (map (fun r => if P r then f r else r) l) = run_ids l) as ->; [|done].
    unfold run_ids. rewrite map_map. apply map_ext_in. intros r Hr%list_elem_of_In. by apply Hkeep.
  - intros r (x & -> & Hx)%list_elem_of_fmap. destruct (P x) eqn:E; [|by apply Hrow].
    eapply lifecycle_wf; [by apply Hf|by apply Hrow].
  - intros x' y' (x & -> & Hx)%list_elem_of_fmap (y & -> & Hy)%list_elem_of_fmap Ha
      (Hs & Ht & Hay)%pending_iff.
    destruct (Hkeep x Hx) as (_ & Sx & Tx & Ax), (Hkeep y Hy) as (_ & Sy & Ty & Ay).
    f_equal. by rewrite (Hslot x y Hx Hy (Ax Ha)); [|apply pending_iff; rewrite <- Sx, <- Tx, <- Sy, <- Ty; auto].
Qed.

Lemma insert_wf l r :
  new_run r -> Run.id r ∉ run_ids l ->
  (forall x, x ∈ l -> pending (Run.source r) (Run.target r) x = false) -> wf_queue l ->
  wf_queue (l ++ [r]).
Proof.
  intros Hn Hid Hfree [Hids Hrow Hslot]. split.
  - unfold run_ids. rewrite map_app. apply NoDup_app. split_and!; [done| |by apply NoDup_singleton].
    intros x Hx Hr%list_elem_of_singleton. by subst.
  - intros x [Hx|Hx%list_elem_of_singleton]%elem_of_app; [by apply Hrow|subst; by apply new_run_wf].
  - intros x y [Hx|Hx%list_elem_of_singleton]%elem_of_app [Hy|Hy%list_elem_of_singleton]%elem_of_app Ha Hp;
      subst; [by apply Hslot| | |done].
    + exfalso. apply pending_iff in Hp as (Hs & Ht & _). specialize (Hfree x Hx).
      assert (pending (Run.source r) (Run.target r) x = true); [by apply pending_iff|congruence].
    + by rewrite Hfree in Hp.
Qed.

Lemma wf_run_parent g r : wf_run r -> wf_run (r <| Run.parent_run_id := g |>).
Proof.
  destruct 1; [by apply wf_queued|by apply wf_leased|by apply wf_unleased
    |by apply wf_finished|by apply wf_cancelled].
Qed.

Lemma delete_wf l (P : Run.ConnectorRun -> bool) g :
  wf_queue l ->
  wf_queue (map (fun r => r <| Run.parent_run_id := g (Run.parent_run_id r) |>)
              (List.filter (fun r => negb (P r)) l)).
Proof.
  intros [Hids Hrow Hslot]. split.
  - unfold run_ids. rewrite map_map. by apply (NoDup_map_filter_b Run.id).
  - intros r (x & -> & [Hx _]%elem_of_filter_b)%list_elem_of_fmap. by apply wf_run_parent, Hrow.
  - intros x' y' (x & -> & [Hx _]%elem_of_filter_b)%list_elem_of_fmap
      (y & -> & [Hy _]%elem_of_filter_b)%list_elem_of_fmap Ha Hp.
    assert (x = y) as ->; [by apply Hslot|done].
Qed.

Lemma table_step_wf l l' : table_step l l' -> wf_queue l -> wf_queue l'.
Proof. destruct 1; intros Hw; [by apply update_wf|by apply insert_wf|by apply delete_wf]. Qed.

(** Ids stay unique, whatever the rows say. *)
Lemma table_step_keyed l l' : table_step l l' -> NoDup (run_ids l) -> NoDup (run_ids l').
Proof.
  destruct 1 as [l P f Hf|l r _ Hid _|l P g _]; intros Hn.
  - assert (run_ids (map (fun r => if P r then f r else r) l) = run_ids l) as ->; [|done].
    unfold run_ids. rewrite map_map. apply map_ext_in. intros r Hr%list_elem_of_In.
    destruct (P r) eqn:E; [|done]. by destruct (lifecycle_keeps _ _ (Hf r Hr E)).
  - unfold run_ids. rewrite map_app. apply NoDup_app. split_and!; [done| |by apply NoDup_singleton].
    intros x Hx Hr%list_elem_of_singleton. by subst.
  - unfold run_ids. rewrite map_map. by apply (NoDup_map_filter_b Run.id).
Qed.

Lemma table_steps_keyed l l' : rtc table_step l l' -> NoDup (run_ids l) -> NoDup (run_ids l').
Proof. induction 1; [done|]. eauto using table_step_keyed. Qed.

Lemma table_steps_wf l l' : rtc table_step l l' -> wf_queue l -> wf_queue l'.
Proof. induction 1; [done|]. eauto using table_step_wf. Qed.

Lemma wf_queue_nil : wf_queue [].
Proof. split; [by apply NoDup_nil_2|intros ? H|intros ? ? H]; by apply not_elem_of_nil in H. Qed.
