(* ===== verification/RunSafety.v ===== *)
(** The guarantees of the connector-run queue: the invariant over every
    interleaving of its operations, how many status changes a run has left,
    the exact effect of claiming, finalizing, cancelling and recovering runs,
    and the runs that no recovery reaches. *)
From S2P Require Import Prelude Logic Text Models Schema Api Schedule Runs RunLifecycle.
From stdpp Require Import relations.
Import ConnectorRunRepository.

Open Scope Z_scope.
Open Scope portal_scope.

(** How many status changes a run can still take. *)
Definition remaining (r : Run.ConnectorRun) : Z :=
  if Run.status r =s "queued" then 2 * (Run.max_attempts r - Run.attempt_count r)
  else if Run.status r =s "running" then 2 * (Run.max_attempts r - Run.attempt_count r) + 1
  else 0.

(** A concrete queue for the examples: one queued and one leased run. *)
Definition sample_run (id : Z) (source status : string) (worker : option string)
    (lease : option Z) (attempt : Z) : Run.ConnectorRun :=
  Run.mkConnectorRun id source "work_cards" status 0 0 0 None 100 None "manual" None
    (if worker then Some 100 else None) worker attempt 3 100 lease None None None None None 0.

Definition sample_connector (source : string) : Connectors.Connector :=
  Connectors.mkConnector 1 source "custom" source "active" None None 0 0 "global" None None.

Definition sample_new_run : NewRun.NewConnectorRun :=
  NewRun.mkNewConnectorRun "azure" "work_cards" "queued" 0 0 0 None 100 None "manual"
    None None None 0 3 100 None None None None None None 0.

Definition sample_db : Db :=
  empty_db <| connector_runs := [sample_run 1 "azure" "queued" None None 0;
                                 sample_run 2 "erp" "running" (Some "w1") (Some 500) 1] |>.

(** ** Lemmas *)

Lemma run_steps_refine d d' :
  rtc run_step d d' -> wf_queue (connector_runs d) ->
  rtc table_step (connector_runs d) (connector_runs d').
Proof.
  induction 1 as [|d d1 d2 Hs _ IH]; intros Hw; [apply rtc_refl|].
  pose proof (refines_steps _ _ (run_step_refines _ _ Hs) (wf_ids _ Hw)) as Hr.
  etrans; [exact Hr|]. by apply IH, (table_steps_wf _ _ Hr).
Qed.

Lemma run_steps_wf d d' :
  rtc run_step d d' -> wf_queue (connector_runs d) -> wf_queue (connector_runs d').
Proof. intros H Hw. by eapply table_steps_wf; [apply run_steps_refine|]. Qed.

(** Equality up to the link to a deleted parent. *)
Definition same_run (r r' : Run.ConnectorRun) : Prop :=
  exists p, r' = r <| Run.parent_run_id := p |>.

Lemma same_run_trans x y z : same_run x y -> same_run y z -> same_run x z.
Proof. intros [p ->] [q ->]. by exists q. Qed.

Lemma same_run_keeps x y : same_run x y -> Run.id y = Run.id x /\ active y = active x.
Proof. by intros [p ->]. Qed.

(** Splits on what well-formedness says for a known status. *)
Ltac wf_cases Hw Hq :=
  destruct Hw as [E|E|E|E|E]; try (rewrite Hq in E; congruence || (exfalso; set_solver)).

Lemma remaining_edge r r' :
  lifecycle r r' -> wf_run r ->
  0 <= remaining r' /\ remaining r' <= remaining r /\
  (Run.status r' <> Run.status r -> remaining r' < remaining r).
Proof.
  intros Hl Hw. destruct Hl as [? ? ? ? Hq|? ? ? ? Hq|? ? ? u Hq Ho Hc [Hu Hf]|? ? Hq|? ? Hq|? ? Hq|
    ? ? Hq|? ? Hq|? ? ? ? Hq]; unfold remaining; simpl; rewrite ?Hq; simpl;
    wf_cases Hw Hq; split_and!; intros; try done; try lia;
    set_unfold; destruct_or!; rewrite ?Hu; simpl; lia.
Qed.

Lemma remaining_nonneg r : wf_run r -> 0 <= remaining r <= 2 * Run.max_attempts r.
Proof.
  unfold remaining. destruct 1 as [E ?|E ?|E ?|E ?|E ?]; try (rewrite E; simpl; lia).
  assert (Run.status r =s "queued" = false /\ Run.status r =s "running" = false) as [-> ->]; [|lia].
  set_unfold. by destruct_or!; split; apply str_eqb_neq; congruence.
Qed.

Lemma sample_wf : wf_queue (connector_runs sample_db).
Proof.
  split.
  - by apply (bool_decide_unpack _).
  - intros r [->|[->|[]%elem_of_nil]%elem_of_cons]%elem_of_cons; [apply wf_queued|apply wf_leased];
      simpl; try done; lia.
  - intros x y [->|[->|[]%elem_of_nil]%elem_of_cons]%elem_of_cons
      [->|[->|[]%elem_of_nil]%elem_of_cons]%elem_of_cons; done.
Qed.

(** ** The queue over every interleaving *)

(** C2: from an empty run table, after any interleaving of operations by any
    number of processes with any failures, the queue is well formed: run ids
    are unique, each status agrees with the worker, lease, attempt and
    timestamp columns, and at most one run per (source, target) is queued or
    running. *)
Theorem queue_invariant d0 d :
  connector_runs d0 = [] -> rtc run_step d0 d -> wf_queue (connector_runs d).
Proof. intros H0 Hs. eapply run_steps_wf; [exact Hs|]. rewrite H0. apply wf_queue_nil. Qed.

Lemma queue_invariant_witness : exists d, connector_runs d <> [] /\ wf_queue (connector_runs d).
Proof.
  set (d0 := empty_db <| connectors := [sample_connector "azure"] |>).
  exists (db (snd (create_if_no_pending sample_new_run (calm d0 200 [] 3)))).
  split; [vm_compute; discriminate|].
  apply (queue_invariant d0); [reflexivity|].
  apply rtc_once, (rs_create (calm d0 200 [] 3)); [reflexivity|].
  split_and!; try reflexivity. left. split_and!; reflexivity.
Defined.

(** ** Claiming *)

Lemma claim_order_total x y : claim_order x y = true \/ claim_order y x = true.
Proof.
  unfold claim_order. simpl. unfold asc.
  rewrite (Z.compare_antisym (Run.next_attempt_at x)), (Z.compare_antisym (Run.started_at x)),
    (Z.compare_antisym (Run.id x)).
  destruct (_ ?= _); simpl; auto. destruct (_ ?= _); simpl; auto. destruct (_ ?= _); simpl; auto.
Qed.

Lemma claim_order_spec x y :
  claim_order x y = true <->
  Run.next_attempt_at x < Run.next_attempt_at y \/
  (Run.next_attempt_at x = Run.next_attempt_at y /\
   (Run.started_at x < Run.started_at y \/
    (Run.started_at x = Run.started_at y /\ Run.id x <= Run.id y))).
Proof.
  unfold claim_order. simpl. unfold asc.
  destruct (Z.compare_spec (Run.next_attempt_at x) (Run.next_attempt_at y));
  destruct (Z.compare_spec (Run.started_at x) (Run.started_at y));
  destruct (Z.compare_spec (Run.id x) (Run.id y)); split; intros; try done; lia.
Qed.

Lemma claim_order_trans x y z :
  claim_order x y = true -> claim_order y z = true -> claim_order x z = true.
Proof. rewrite !claim_order_spec. lia. Qed.

Lemma head_oldest l q :
  head (order_by claim_order l) = Some q -> forall x, x ∈ l -> claim_order q x = true.
Proof.
  intros Hq x Hx. pose proof (order_by_sorted claim_order claim_order_total claim_order_trans l) as Hs.
  rewrite <- (elem_of_order_by claim_order) in Hx.
  destruct (order_by claim_order l) as [|y l']; [done|]. injection Hq as <-.
  apply elem_of_cons in Hx as [->|Hx]; [by destruct (claim_order_total y y)|].
  inversion Hs as [|? ? ? Hall]; subst. rewrite Forall_forall in Hall. by apply Hall.
Qed.

(** A keyed update of a table whose keys are unique rewrites one row. *)
Lemma map_by_id l q f :
  NoDup (run_ids l) -> q ∈ l ->
  map (fun r => if by_id (Run.id q) r then f r else r) l =
  map (fun r => if by_id (Run.id q) r then f q else r) l.
Proof.
  intros Hn Hq. apply map_ext_in. intros r Hr%list_elem_of_In.
  destruct (by_id _ r) eqn:E; [|done]. by rewrite (by_id_unique l q r).
Qed.

(** The oldest claimable run at [now], if any, and its table after the claim. *)
Definition claims (now : Z) (w : string) (lease_seconds : Z) (l l' : list Run.ConnectorRun)
    (r : Run.ConnectorRun) : Prop :=
  exists q lease, q ∈ l /\ claimable now q = true /\
    (forall x, x ∈ l -> claimable now x = true -> claim_order q x = true) /\
    after_seconds now lease_seconds = Some lease /\
    r = claimed w now (Run.attempt_count q + 1) lease q /\
    l' = map (fun x => if by_id (Run.id q) x then r else x) l.

Lemma claim_body_spec now w s d0 :
  NoDup (run_ids (connector_runs d0)) ->
  hoare (fun d => d = d0)
    (queued <- optional (first_row (
                l <- exec (sql_select (claimable now)) ;; ret (order_by claim_order l))) ;;
     match queued with
     | None => ret None
     | Some queued =>
         lease <- or_panic (after_seconds now s) ;;
         r <- first_row (exec (sql_update (by_id (Run.id queued))
                (fun _ => claimed w now (Run.attempt_count queued + 1) lease))) ;;
         ret (Some r)
     end)
    (fun o d => match o with
                | None => d = d0 /\ forall x, x ∈ connector_runs d0 -> claimable now x = false
                | Some r => claims now w s (connector_runs d0) (connector_runs d) r
                end) (fun _ _ _ => True).
Proof.
  intros Hn. eapply hoare_bind with (R := fun o d => d = d0 /\
    match o with
    | Some q => q ∈ connector_runs d0 /\ claimable now q = true /\
                head (order_by claim_order (List.filter (claimable now) (connector_runs d0))) = Some q
    | None => List.filter (claimable now) (connector_runs d0) = []
    end).
  { apply hoare_optional. eapply hoare_conseq; [by apply (first_selected _ _ d0 (fun _ _ _ => True))|done| |].
    - by intros r d (-> & ? & ? & ?).
    - intros [[]|] ab d; naive_solver. }
  intros [q|]; apply hoare_at; intros d [-> Hq].
  2: { apply hoare_ret. intros d ->. split; [done|]. intros x. by apply filter_nil_inv_b. }
  destruct Hq as (Hin & Hc & Hh). apply hoare_or_panic; [|done]. intros lease Hl.
  apply hoare_pure_after, hoare_first_row, hoare_update; [|done]. intros sn d' -> _.
  change (@rows Db Run.ConnectorRun _ d0) with (connector_runs d0).
  unfold by_id at 1. rewrite (filter_key Run.id _ q) by done. simpl.
  exists q, lease. split_and!; try done.
  - intros x Hx Hcx. apply (head_oldest _ _ Hh), elem_of_filter_b. done.
  - by rewrite map_by_id.
Qed.

Lemma claim_effect c w s :
  aborted c = false -> NoDup (run_ids (connector_runs (db c))) ->
  match claim_next_queued w s c with
  | (Ok (Some r), c') =>
      claims (reading c) w s (connector_runs (db c)) (connector_runs (db c')) r
  | (Ok None, c') =>
      db c' = db c /\ forall x, x ∈ connector_runs (db c) -> claimable (reading c) x = false
  | (_, c') => db c' = db c
  end.
Proof.
  intros Ha Hn.
  unfold claim_next_queued, query_transaction. match goal with
  |- context [transaction ?f (bind utc_now ?k) c] =>
    pose proof (transaction_at_reading f k c _ Ha (claim_body_spec (reading c) w s (db c) Hn)) as H
  end.
  by destruct (transaction _ _ c) as [[[r|]|e|] c'].
Qed.

(** C16: [claim_next_queued] either claims the claimable run with the smallest
    (next_attempt_at, started_at, id), one attempt later and leased to the
    caller, and changes no other run; or reports [None] when no run is
    claimable; or fails and changes nothing. *)
Theorem claim_takes_oldest c w s :
  aborted c = false -> NoDup (run_ids (connector_runs (db c))) ->
  match claim_next_queued w s c with
  | (Ok (Some r), c') =>
      claims (reading c) w s (connector_runs (db c)) (connector_runs (db c')) r
  | (Ok None, c') =>
      db c' = db c /\ forall x, x ∈ connector_runs (db c) -> claimable (reading c) x = false
  | (_, c') => db c' = db c
  end.
Proof. apply claim_effect. Qed.

Lemma claim_takes_oldest_witness :
  exists r c', claim_next_queued "w2" 60 (calm sample_db 200 [] 3) = (Ok (Some r), c') /\
    claims 200 "w2" 60 (connector_runs sample_db) (connector_runs (db c')) r.
Proof.
  pose proof (claim_takes_oldest (calm sample_db 200 [] 3) "w2" 60 eq_refl (wf_ids _ sample_wf)) as H.
  destruct (claim_next_queued "w2" 60 (calm sample_db 200 [] 3)) as [o c'] eqn:E.
  vm_compute in E. destruct o as [[r|]|e|]; try discriminate E.
  exists r, c'. split; [reflexivity|exact H].
Defined.

(** ** Fencing *)

(** The caller holds the run: it is running, under the caller's live lease (or
    under no worker), and its cancellation has not been requested. *)
Definition holds_run (id : Z) (w : option string) (now : Z) (r : Run.ConnectorRun) : Prop :=
  Run.id r = id /\ Run.status r = "running" /\ owned_by w now r /\ Run.cancel_requested_at r = None.

Definition holder_guard (id : Z) (w : option string) (now : Z) : Run.ConnectorRun -> bool :=
  match w with Some w => leased_to id w now | None => unleased id end.

Lemma holder_guard_spec id w now r : holder_guard id w now r = true <-> holds_run id w now r.
Proof.
  unfold holds_run. destruct w as [w|]; simpl; split.
  - intros (? & ? & ? & ?)%leased_to_spec. done.
  - intros (<- & Hs & [Hw (e & He & Hl)] & Hc). unfold leased_to, by_id.
    rewrite Hs, Hw, He, Hc, Z.eqb_refl. simpl. rewrite !str_eqb_refl. simpl.
    by destruct (Z.gtb_spec e now); [|lia].
  - intros (? & ? & ? & ?)%unleased_spec. done.
  - intros (<- & Hs & Hw & Hc). unfold unleased, by_id. by rewrite Hs, Hw, Hc, Z.eqb_refl.
Qed.

(** Under unique ids the guard picks the row by its id. *)
Lemma map_guarded id w now l x f :
  NoDup (run_ids l) -> x ∈ l -> holds_run id w now x ->
  map (fun y => if holder_guard id w now y then f y else y) l =
  map (fun y => if by_id id y then f x else y) l.
Proof.
  intros Hn Hx Hh. apply map_ext_in. intros y Hy%list_elem_of_In.
  destruct Hh as (Hid & Hh). destruct (by_id id y) eqn:E.
  - rewrite <- Hid in E. rewrite (by_id_unique l x y) by done.
    assert (holder_guard id w now x = true) as -> by by apply holder_guard_spec. done.
  - destruct (holder_guard id w now y) eqn:G; [|done]. apply holder_guard_spec in G as (Hy' & _).
    unfold by_id in E. lia.
Qed.

Lemma finalize_effect c id w u :
  aborted c = false -> NoDup (run_ids (connector_runs (db c))) ->
  match finalize_if_active id w u c with
  | (Ok (Some r), c') =>
      exists x, x ∈ connector_runs (db c) /\ holds_run id w (reading c) x /\
        r = finalized u (reading c) x /\
        connector_runs (db c') = map (fun y => if by_id id y then r else y) (connector_runs (db c))
  | (Ok None, c') =>
      db c' = db c /\ forall x, x ∈ connector_runs (db c) -> ~ holds_run id w (reading c) x
  | (_, c') => db c' = db c
  end.
Proof.
  intros Ha Hn.
  pose proof (run_at_reading (fun now => optional (first_row (exec (sql_update
     (holder_guard id w now) (fun _ => finalized u now))))) c _ _ Ha
     (optional_update_effect (holder_guard id w (reading c)) (finalized u (reading c)) (db c))) as H.
  assert (finalize_if_active id w u = bind utc_now (fun now => optional (first_row (exec (sql_update
     (holder_guard id w now) (fun _ => finalized u now)))))) as -> by by destruct w.
  destruct (bind _ _ c) as [[[r|]|e|] c']; [| |done..].
  - destruct H as (x & Hx & HP%holder_guard_spec & -> & ->). exists x. split_and!; try done.
    by apply map_guarded.
  - destruct H as [-> Hf]. split; [done|]. intros x Hx Hh%holder_guard_spec.
    by rewrite Hf in Hh.
Qed.

(** C5: a result is recorded only by the holder of the run: [finalize_if_active]
    writes the final state to exactly the run [id] when the caller holds it at
    that moment; a worker whose lease expired, was taken over, or whose run was
    cancelled gets [None] and changes nothing. *)
Theorem finalize_is_fenced c id w u :
  aborted c = false -> NoDup (run_ids (connector_runs (db c))) ->
  match finalize_if_active id w u c with
  | (Ok (Some r), c') =>
      exists x, x ∈ connector_runs (db c) /\ holds_run id w (reading c) x /\
        r = finalized u (reading c) x /\
        connector_runs (db c') = map (fun y => if by_id id y then r else y) (connector_runs (db c))
  | (Ok None, c') =>
      db c' = db c /\ forall x, x ∈ connector_runs (db c) -> ~ holds_run id w (reading c) x
  | (_, c') => db c' = db c
  end.
Proof. apply finalize_effect. Qed.

Definition sample_final : RunUpdate.ConnectorRunStateUpdate :=
  RunUpdate.mkConnectorRunStateUpdate "success" 4 0 12 None (Some 210) None 0.

Lemma finalize_is_fenced_witness :
  (exists r, fst (finalize_if_active 2 (Some "w1") sample_final (calm sample_db 200 [] 3)) = Ok (Some r)) /\
  (forall x, x ∈ connector_runs sample_db -> ~ holds_run 2 (Some "w1") 600 x).
Proof.
  split; [eexists; vm_compute; reflexivity|].
  pose proof (finalize_is_fenced (calm sample_db 600 [] 3) 2 (Some "w1") sample_final eq_refl
    (wf_ids _ sample_wf)) as H.
  destruct (finalize_if_active 2 (Some "w1") sample_final (calm sample_db 600 [] 3)) as [o c'] eqn:E.
  vm_compute in E. destruct o as [[r|]|e|]; try discriminate E. exact (proj2 H).
Defined.

(** ** Recovery *)

Lemma recover_effect b m n c :
  aborted c = false -> NoDup (run_ids (connector_runs (db c))) ->
  match recover_expired_leases b m n c with
  | (Ok s, c') =>
      recovered (reading c) (oldest_expired (reading c) n (connector_runs (db c))) (db c) (db c') /\
      stats_total s = length (oldest_expired (reading c) n (connector_runs (db c)))
  | (_, c') => db c' = db c
  end.
Proof.
  intros Ha Hn. unfold recover_expired_leases, query_transaction. match goal with
  |- context [transaction ?f (bind utc_now ?k) c] =>
    pose proof (transaction_at_reading f k c _ Ha (recover_body_spec (reading c) b m n (db c) Hn)) as H
  end.
  by destruct (transaction _ _ c) as [[s|e|] c'].
Qed.

Lemma oldest_expired_all now n l :
  Z.of_nat (length (List.filter (expired now) l)) <= n ->
  forall y, y ∈ l -> expired now y = true -> Run.id y ∈ run_ids (oldest_expired now n l).
Proof.
  intros Hn y Hy He. apply list_elem_of_fmap. exists y. split; [done|].
  unfold oldest_expired, limit. rewrite take_ge; [|rewrite length_order_by; lia].
  by apply elem_of_order_by, elem_of_filter_b.
Qed.

(** What recovery makes of a run whose lease has expired: a requested cancellation is
    settled, a run without attempts left fails, any other is queued again after its
    backoff; [None] when the time of the next attempt is out of range. *)
Definition settled (now b m : Z) (r : Run.ConnectorRun) : option Run.ConnectorRun :=
  match Run.cancel_requested_at r with
  | Some _ => Some (expired_cancelled now r)
  | None =>
      if Run.max_attempts r <=? Run.attempt_count r
      then Some (expired_failed now (Run.attempt_count r) r)
      else
        let backoff := bounded_retry_backoff_seconds (Run.attempt_count r) b m in
        (fun next => expired_requeued (Run.attempt_count r) backoff next r) <$> after_seconds now backoff
  end.

Definition to_cancel (r : Run.ConnectorRun) : bool := bool_decide (Run.cancel_requested_at r <> None).
Definition exhausted (r : Run.ConnectorRun) : bool :=
  negb (to_cancel r) && (Run.max_attempts r <=? Run.attempt_count r).

(** A connector whose run failed for good is in error. *)
Definition failed_connector (now : Z) (sources : list string) (k : Connectors.Connector) : Connectors.Connector :=
  if existsb (str_eqb (Connectors.source k)) sources
  then k <| Connectors.status := "error" |> <| Connectors.last_run_at := Some now |>
         <| Connectors.updated_at := now |>
  else k.

Definition settled_in (now b m : Z) (l : list Run.ConnectorRun) (r : Run.ConnectorRun) : Run.ConnectorRun :=
  if existsb (by_id (Run.id r)) l then default r (settled now b m r) else r.

(** The content after the runs [l] are settled. *)
Definition settles (now b m : Z) (l : list Run.ConnectorRun) (d : Db) : Db :=
  d <| connector_runs := map (settled_in now b m l) (connector_runs d) |>
    <| connectors := map (failed_connector now (map Run.source (List.filter exhausted l))) (connectors d) |>.

Lemma settled_id now b m r r' : settled now b m r = Some r' -> Run.id r' = Run.id r.
Proof.
  unfold settled. destruct (Run.cancel_requested_at r); [by intros [= <-]|].
  destruct (_ <=? _); [by intros [= <-]|]. destruct (after_seconds _ _); by intros [= <-].
Qed.

Lemma settles_nil now b m d : settles now b m [] d = d.
Proof.
  unfold settles. assert (H : forall l, map (settled_in now b m []) l = l) by apply map_id.
  assert (K : forall l, map (failed_connector now []) l = l) by apply map_id.
  simpl. rewrite H, K. by destruct d.
Qed.

(** One run, then the others. *)
Lemma settle_rows now b m x l R :
  NoDup (run_ids R) -> x ∈ R -> Run.id x ∉ run_ids l -> is_Some (settled now b m x) ->
  map (settled_in now b m l) (map (settled_in now b m [x]) R) = map (settled_in now b m (x :: l)) R.
Proof.
  intros Hn Hx Hl [x' Hs]. rewrite map_map. apply map_ext_in. intros r Hr%list_elem_of_In.
  unfold settled_in at 2 3. cbn [existsb]. rewrite orb_false_r.
  destruct (by_id (Run.id r) x) eqn:E; cbn [orb]; [|done].
  unfold by_id in E. apply Z.eqb_eq in E. rewrite (NoDup_map_inj Run.id R r x) by done. rewrite Hs. simpl.
  unfold settled_in. rewrite (settled_id _ _ _ _ _ Hs).
  destruct (existsb (by_id (Run.id x)) l) eqn:E2; [|done]. contradict Hl.
  apply existsb_exists in E2 as (y & Hy%list_elem_of_In & Hy2%Z.eqb_eq). apply list_elem_of_fmap. eauto.
Qed.

Lemma settle_connectors now s1 s2 l :
  map (failed_connector now s2) (map (failed_connector now s1) l) = map (failed_connector now (s1 ++ s2)) l.
Proof.
  rewrite map_map. apply map_ext. intros k. unfold failed_connector. rewrite existsb_app.
  destruct (existsb _ s1) eqn:E1; simpl; [|done]. by destruct (existsb _ s2).
Qed.

Lemma settles_cons now b m x l d :
  NoDup (run_ids (connector_runs d)) -> x ∈ connector_runs d -> Run.id x ∉ run_ids l ->
  is_Some (settled now b m x) ->
  settles now b m l (settles now b m [x] d) = settles now b m (x :: l) d.
Proof.
  intros Hn Hx Hl Hs. unfold settles. destruct d. cbn in *.
  rewrite settle_rows, settle_connectors by done.
  by destruct (exhausted x).
Qed.

(** Updating a row by its id settles it. *)
Lemma settle_one now b m x f R :
  NoDup (run_ids R) -> x ∈ R -> settled now b m x = Some (f x) ->
  map (fun r => if by_id (Run.id x) r then f r else r) R = map (settled_in now b m [x]) R.
Proof.
  intros Hn Hx Hs. apply map_ext_in. intros r Hr%list_elem_of_In. unfold settled_in. simpl. rewrite orb_false_r.
  unfold by_id. rewrite (Z.eqb_sym (Run.id x)). destruct (Run.id r =? Run.id x) eqn:E; [|done].
  apply Z.eqb_eq in E. rewrite (NoDup_map_inj Run.id R r x) by done. by rewrite Hs.
Qed.

(** The counters of the report. *)
Definition counted (l : list Run.ConnectorRun) (s s' : ConnectorRunRecoveryStats) : Prop :=
  cancelled s' = (cancelled s + length (List.filter to_cancel l))%nat /\
  failed s' = (failed s + length (List.filter exhausted l))%nat /\
  requeued s' = (requeued s + length (List.filter (fun r => negb (to_cancel r || exhausted r)) l))%nat.

Lemma settle_one_spec now b m s x d :
  NoDup (run_ids (connector_runs d)) -> x ∈ connector_runs d ->
  hoare (fun d' => d' = d) (recover_one now b m s x)
    (fun s' d' => d' = settles now b m [x] d /\ counted [x] s s' /\ is_Some (settled now b m x))
    (fun _ _ _ => True).
Proof.
  intros Hn Hx. unfold recover_one, counted, settles, exhausted, to_cancel.
  assert (Hk : forall l, map (failed_connector now []) l = l) by apply map_id.
  destruct (Run.cancel_requested_at x) eqn:Ec; [|case_match eqn:Ea]; simpl; rewrite Ec; simpl; rewrite ?Ea; simpl.
  - apply hoare_pure_after, hoare_update; [|done]. intros _ d' -> _. cbn. rewrite Hk.
    assert (Hs : settled now b m x = Some (expired_cancelled now x)) by (unfold settled; by rewrite Ec).
    rewrite (settle_one now b m x (expired_cancelled now)) by done.
    split_and!; try lia; [by destruct d|by rewrite Hs].
  - assert (Hs : settled now b m x = Some (expired_failed now (Run.attempt_count x) x))
      by (unfold settled; by rewrite Ec, Ea).
    eapply hoare_bind with (R := fun _ d' => d' = d <| connector_runs := map (settled_in now b m [x]) (connector_runs d) |>).
    { apply hoare_update; [|done]. intros _ d' -> _. cbn.
      by rewrite (settle_one now b m x (expired_failed now (Run.attempt_count x))) by done. }
    intros ?. apply hoare_at. intros d1 ->.
    eapply hoare_bind with (R := fun _ d' => d' = d <| connector_runs := map (settled_in now b m [x]) (connector_runs d) |>
      <| connectors := map (failed_connector now [Run.source x]) (connectors d) |>).
    { apply hoare_update; [|done]. intros _ d' -> _. cbn. f_equal. apply map_ext. intros k.
      unfold failed_connector. simpl. by rewrite orb_false_r. }
    intros ?. apply hoare_ret. intros d' ->. split_and!; try (simpl; lia); [done|by rewrite Hs].
  - apply hoare_or_panic; [|done]. intros next Hnext.
    assert (Hs : settled now b m x = Some (expired_requeued (Run.attempt_count x)
      (bounded_retry_backoff_seconds (Run.attempt_count x) b m) next x)) by (unfold settled; by rewrite Ec, Ea, Hnext).
    apply hoare_pure_after, hoare_update; [|done]. intros _ d' -> _. cbn. rewrite Hk.
    rewrite (settle_one now b m x (expired_requeued (Run.attempt_count x)
      (bounded_retry_backoff_seconds (Run.attempt_count x) b m) next)) by done.
    split_and!; try lia; [by destruct d|by rewrite Hs].
Qed.

Lemma settled_row_kept now b m x y d :
  y ∈ connector_runs d -> Run.id y <> Run.id x -> y ∈ connector_runs (settles now b m [x] d).
Proof.
  intros Hy Hne. apply list_elem_of_fmap. exists y. split; [|done]. unfold settled_in. simpl. rewrite orb_false_r.
  unfold by_id. by destruct (Z.eqb_spec (Run.id x) (Run.id y)).
Qed.

Lemma settle_list_spec now b m l s d :
  NoDup (run_ids (connector_runs d)) -> NoDup (run_ids l) -> (forall x, x ∈ l -> x ∈ connector_runs d) ->
  hoare (fun d' => d' = d) (for_each l s (recover_one now b m))
    (fun s' d' => d' = settles now b m l d /\ counted l s s' /\ forall x, x ∈ l -> is_Some (settled now b m x))
    (fun _ _ _ => True).
Proof.
  revert s d. induction l as [|x l IH]; intros s d Hn Hl Hx; simpl.
  { apply hoare_ret. intros d' ->. rewrite settles_nil. unfold counted. simpl.
    split_and!; try lia; [done|]. by intros x ?%elem_of_nil. }
  apply NoDup_cons in Hl as [Hxl Hl]. assert (Hxd : x ∈ connector_runs d) by (apply Hx; left).
  eapply hoare_bind; [by apply settle_one_spec|]. intros s'. apply hoare_at. intros d1 (-> & Hc & Hsome).
  eapply hoare_conseq; [apply (IH s' (settles now b m [x] d))|done| |done].
  - assert (run_ids (connector_runs (settles now b m [x] d)) = run_ids (connector_runs d)) as ->; [|done].
    cbn. unfold run_ids. rewrite map_map. apply map_ext_in. intros r _. unfold settled_in.
    destruct (existsb _ _); [|done]. destruct (settled now b m r) eqn:E; [|done]. by apply settled_id in E.
  - done.
  - intros y Hy. apply settled_row_kept; [by apply Hx; right|]. intros E. contradict Hxl.
    rewrite <- E. apply list_elem_of_fmap. eauto.
  - intros s2 d2 (-> & Hc2 & Hall). rewrite settles_cons by done. split; [done|]. split.
    + unfold counted in *. simpl in *. destruct (to_cancel x), (exhausted x); simpl in *; lia.
    + intros y [->|Hy]%elem_of_cons; [done|by apply Hall].
Qed.

Lemma recover_exact b m n c :
  aborted c = false -> NoDup (run_ids (connector_runs (db c))) ->
  match recover_expired_leases b m n c with
  | (Ok s, c') =>
      let l := oldest_expired (reading c) n (connector_runs (db c)) in
      db c' = settles (reading c) b m l (db c) /\ counted l (mkStats 0 0 0) s /\
      forall x, x ∈ l -> is_Some (settled (reading c) b m x)
  | (_, c') => db c' = db c
  end.
Proof.
  intros Ha Hn. unfold recover_expired_leases, query_transaction. match goal with
  |- context [transaction ?f (bind utc_now ?k) c] =>
    assert (Hb : hoare (fun d => d = db c) (k (reading c)) (fun s d' =>
      let l := oldest_expired (reading c) n (connector_runs (db c)) in
      d' = settles (reading c) b m l (db c) /\ counted l (mkStats 0 0 0) s /\
      forall x, x ∈ l -> is_Some (settled (reading c) b m x)) (fun _ _ _ => True));
    [|pose proof (transaction_at_reading f k c _ Ha Hb) as H; by destruct (transaction _ _ c) as [[s|e|] c']]
  end.
  eapply hoare_bind with (R := fun l d => d = db c /\ l = List.filter (expired (reading c)) (connector_runs (db c))).
  { by apply hoare_select. }
  intros l. apply hoare_at. intros d [-> ->].
  destruct (oldest_expired_spec (reading c) n _ Hn) as [H1 H2]. apply settle_list_spec; [done..|].
  intros x Hx. by apply H2.
Qed.

(** With a batch that takes all of them, the settled runs are those with an expired lease. *)
Lemma settles_all now b m n l :
  NoDup (run_ids l) -> Z.of_nat (length (List.filter (expired now) l)) <= n ->
  map (settled_in now b m (oldest_expired now n l)) l =
  map (fun r => if expired now r then default r (settled now b m r) else r) l.
Proof.
  intros Hn Hlen. apply map_ext_in. intros r Hr%list_elem_of_In. unfold settled_in.
  assert (existsb (by_id (Run.id r)) (oldest_expired now n l) = expired now r) as ->; [|done].
  apply eq_true_iff_eq. rewrite existsb_exists. split.
  - intros (x & Hx%list_elem_of_In & E%Z.eqb_eq). apply (oldest_expired_spec _ _ _ Hn) in Hx as [Hx He].
    by rewrite <- (NoDup_map_inj Run.id l x r).
  - intros He. pose proof (oldest_expired_all now n l Hlen r Hr He) as (x & E & Hx)%list_elem_of_fmap.
    exists x. rewrite <- list_elem_of_In. split; [done|]. unfold by_id. apply Z.eqb_eq. congruence.
Qed.

Lemma oldest_is_all now n l :
  Z.of_nat (length (List.filter (expired now) l)) <= n -> oldest_expired now n l ≡ₚ List.filter (expired now) l.
Proof.
  intros Hlen. unfold oldest_expired, limit. rewrite take_ge by (rewrite length_order_by; lia). apply order_by_perm.
Qed.

Lemma filter_perm {A} (p : A -> bool) l l' : l ≡ₚ l' -> List.filter p l ≡ₚ List.filter p l'.
Proof.
  induction 1 as [|x l l' _ IH|x y l|l1 l2 l3 _ IH1 _ IH2]; simpl; [done| | |by etrans].
  - destruct (p x); [by constructor|done].
  - destruct (p x), (p y); try done. by constructor.
Qed.

Lemma counted_perm l l' s s' : l ≡ₚ l' -> counted l s s' -> counted l' s s'.
Proof. intros H. unfold counted. by rewrite !(Permutation_length (filter_perm _ _ _ H)). Qed.

Lemma failed_connector_perm now s s' k : s ≡ₚ s' -> failed_connector now s' k = failed_connector now s k.
Proof.
  intros H. unfold failed_connector. assert (existsb (str_eqb (Connectors.source k)) s' = existsb (str_eqb (Connectors.source k)) s)
    as ->; [|done]. apply eq_true_iff_eq. rewrite !existsb_exists. setoid_rewrite <- list_elem_of_In. by setoid_rewrite H.
Qed.

Lemma settled_not_expired now b m r r' : settled now b m r = Some r' -> expired now r' = false.
Proof.
  unfold settled. destruct (Run.cancel_requested_at r); [by intros [= <-]|].
  destruct (_ <=? _); [by intros [= <-]|]. destruct (after_seconds _ _); by intros [= <-].
Qed.

(** C17: when [recover_expired_leases] commits with a batch limit at least the number of
    expired leases, exactly the running runs with an expired lease change, and each as its
    state asks: a requested cancellation is settled, a run without attempts left fails, any
    other is queued again after its backoff; no expired lease is left, every other run is as
    it was, the report counts the runs of each kind, and besides the runs only the
    connectors of failed runs change, which are marked in error. When it does not commit,
    nothing changes. *)
Theorem recovery_clears_expired b m n c :
  aborted c = false -> NoDup (run_ids (connector_runs (db c))) ->
  Z.of_nat (length (List.filter (expired (reading c)) (connector_runs (db c)))) <= n ->
  match recover_expired_leases b m n c with
  | (Ok s, c') =>
      let l := List.filter (expired (reading c)) (connector_runs (db c)) in
      db c' = (db c)
        <| connector_runs := map (fun r => if expired (reading c) r then default r (settled (reading c) b m r) else r)
                               (connector_runs (db c)) |>
        <| connectors := map (failed_connector (reading c) (map Run.source (List.filter exhausted l)))
                           (connectors (db c)) |> /\
      (forall r, r ∈ l -> is_Some (settled (reading c) b m r)) /\
      (forall r, r ∈ connector_runs (db c') -> expired (reading c) r = false) /\
      cancelled s = length (List.filter to_cancel l) /\ failed s = length (List.filter exhausted l) /\
      requeued s = length (List.filter (fun r => negb (to_cancel r || exhausted r)) l)
  | (_, c') => db c' = db c
  end.
Proof.
  intros Ha Hn Hlen. pose proof (recover_exact b m n c Ha Hn) as H.
  destruct (recover_expired_leases b m n c) as [[s|e|] c']; [|done..]. cbv zeta in *.
  destruct H as (Hd & Hc & Hsome). pose proof (oldest_is_all (reading c) n _ Hlen) as Hp.
  assert (Hall : forall r, r ∈ List.filter (expired (reading c)) (connector_runs (db c)) -> is_Some (settled (reading c) b m r))
    by (intros r Hr; apply Hsome; by rewrite Hp).
  apply (counted_perm _ _ _ _ Hp) in Hc as (H1 & H2 & H3).
  split_and!; [|done| |done..]; rewrite Hd; unfold settles; cbn.
  - rewrite settles_all by done. f_equal. apply map_ext. intros k.
    apply failed_connector_perm, Permutation_map, filter_perm. by symmetry.
  - rewrite settles_all by done. intros r (y & -> & Hy)%list_elem_of_fmap.
    destruct (expired (reading c) y) eqn:E; [|done].
    destruct (Hall y) as [y' Hy']; [by apply elem_of_filter_b|]. rewrite Hy'. by apply settled_not_expired in Hy'.
Qed.

Lemma recovery_clears_expired_witness :
  exists s c', recover_expired_leases 30 300 100 (calm sample_db 600 [] 3) = (Ok s, c') /\
    (forall y, y ∈ connector_runs (db c') -> expired 600 y = false) /\ requeued s = 1%nat.
Proof.
  pose proof (recovery_clears_expired 30 300 100 (calm sample_db 600 [] 3) eq_refl
    (wf_ids _ sample_wf) ltac:(vm_compute; discriminate)) as H.
  destruct (recover_expired_leases 30 300 100 (calm sample_db 600 [] 3)) as [o c'] eqn:E.
  vm_compute in E. destruct o as [s|e|]; try discriminate E.
  exists s, c'. split; [reflexivity|]. destruct H as (_ & _ & H & _ & _ & R). exact (conj H R).
Defined.

(** ** Creation *)

Lemma count_pending s t l :
  (0 <? Z.of_nat (length (List.filter (pending s t) l))) = existsb (pending s t) l.
Proof.
  destruct (existsb (pending s t) l) eqn:E.
  - apply existsb_exists in E as (x & Hx%list_elem_of_In & Hp).
    assert (x ∈ List.filter (pending s t) l) as H by by apply elem_of_filter_b.
    destruct (List.filter _ _); [by apply elem_of_nil in H|done].
  - rewrite filter_none_b; [done|]. intros x Hx. destruct (pending s t x) eqn:Hp; [|done].
    rewrite <- E. symmetry. apply existsb_exists. exists x. by rewrite <- list_elem_of_In.
Qed.

(** [create_if_no_pending] decides by the slot: without a connector for the
    source it is [NotFound]; with a queued or running run in the slot it
    creates nothing and answers [None]; otherwise it inserts the requested run,
    unless the row breaks a constraint, which is reported and rolled back. *)
Theorem create_decides_by_slot t n d :
  yields t (fun x => x = d) (create_if_no_pending n) (fun o d' =>
    if existsb (fun k => Connectors.source k =s NewRun.source n) (connectors d) then
      if existsb (pending (NewRun.source n) (NewRun.target n)) (connector_runs d)
      then o = Ok None /\ d' = d
      else exists id, let r := run_of_new n t id in
        let d1 := d <| connector_runs := connector_runs d ++ [r] |> in
        match run_violated d1 r with
        | None => o = Ok (Some r) /\ d' = d1
        | Some k => o = Err (DDatabaseError k) /\ d' = d
        end
    else o = Err DNotFound /\ d' = d).
Proof.
  unfold create_if_no_pending, query_transaction. apply total_transaction.
  destruct (existsb _ (connectors d)) eqn:Ek.
  - eapply total_bind with (R := fun o d' => d' = d /\ exists k, o = Ok k).
    + apply total_first_row, total_select. simpl.
      apply existsb_exists in Ek as (k & Hk%list_elem_of_In & Hs).
      assert (k ∈ List.filter (fun k => Connectors.source k =s NewRun.source n) (connectors d)) as H
        by by apply elem_of_filter_b.
      destruct (List.filter _ _); [by apply elem_of_nil in H|eauto].
    + intros k. apply total_at. intros d0 [-> _].
      eapply total_bind with (R := fun o d' => d' = d /\
        o = Ok (Z.of_nat (length (List.filter (pending (NewRun.source n) (NewRun.target n)) (connector_runs d))))).
      * by apply total_count.
      * intros count. apply total_at. intros d0 [-> [= ->]]. rewrite count_pending.
        destruct (existsb _ (connector_runs d)); [apply total_ret; by intros ? ->|].
        apply total_pure_after, total_insert. intros id. simpl.
        destruct (run_violated _ _) eqn:Ev; exists id; by rewrite Ev.
      * by intros e d0 [_ ?].
      * by intros d0 [_ ?].
    + by intros e d0 [_ [? ?]].
    + by intros d0 [_ [? ?]].
  - eapply total_bind with (R := fun o d' => d' = d /\ o = Err DNotFound).
    + apply total_first_row, total_select. simpl.
      rewrite filter_none_b; [done|]. intros k Hk.
      destruct (Connectors.source k =s _) eqn:E; [|done].
      rewrite <- Ek. symmetry. apply existsb_exists. exists k. by rewrite <- list_elem_of_In.
    + intros k c Hs [_ ?]. done.
    + intros e d0 [-> [= ->]]. done.
    + by intros d0 [_ ?].
Qed.

(** ** Cancellation *)

Definition cancelled_while_queued (now : Z) (r : Run.ConnectorRun) : Run.ConnectorRun :=
  r <| Run.status := "cancelled" |> <| Run.cancel_requested_at := Some now |>
    <| Run.cancelled_at := Some now |> <| Run.finished_at := Some now |>
    <| Run.lease_expires_at := None |>.

Lemma update_row_effect (f : Run.ConnectorRun -> Run.ConnectorRun) d x :
  NoDup (run_ids (connector_runs d)) -> x ∈ connector_runs d ->
  hoare (fun d' => d' = d)
    (first_row (exec (sql_update (by_id (Run.id x)) (fun _ => f))))
    (fun r d' => r = f x /\
       connector_runs d' = map (fun y => if by_id (Run.id x) y then f x else y) (connector_runs d))
    (fun _ _ _ => True).
Proof.
  intros Hn Hx. apply hoare_first_row, hoare_update; [|done]. intros _ d' -> _.
  change (@rows Db Run.ConnectorRun _ d) with (connector_runs d). unfold by_id at 1.
  rewrite (filter_key Run.id _ x) by done. simpl. split; [done|]. by rewrite map_by_id.
Qed.

(** C18: [request_cancel] cancels a queued run on the spot, only records the
    request on a running run, and answers [None] for a finished run; in every
    other case, and whenever the database fails, nothing changes. *)
Theorem request_cancel_by_status c id :
  aborted c = false -> NoDup (run_ids (connector_runs (db c))) ->
  match request_cancel id c with
  | (Ok (Some r'), c') =>
      exists r now, r ∈ connector_runs (db c) /\ Run.id r = id /\
        (Run.status r = "queued" /\ r' = cancelled_while_queued now r \/
         Run.status r = "running" /\ r' = r <| Run.cancel_requested_at := Some now |>) /\
        connector_runs (db c') = map (fun x => if by_id id x then r' else x) (connector_runs (db c))
  | (Ok None, c') =>
      db c' = db c /\ exists r, r ∈ connector_runs (db c) /\ Run.id r = id /\ active r = false
  | (_, c') => db c' = db c
  end.
Proof.
  intros Ha Hn. set (Q := fun o d => match o with
    | Some r' => exists r now, r ∈ connector_runs (db c) /\ Run.id r = id /\
        (Run.status r = "queued" /\ r' = cancelled_while_queued now r \/
         Run.status r = "running" /\ r' = r <| Run.cancel_requested_at := Some now |>) /\
        connector_runs d = map (fun x => if by_id id x then r' else x) (connector_runs (db c))
    | None => d = db c /\ exists r, r ∈ connector_runs (db c) /\ Run.id r = id /\ active r = false
    end).
  assert (H : hoare (fun d => d = db c) (request_cancel id) Q (fun _ _ d => d = db c)).
  2: { specialize (H c Ha eq_refl). by destruct (request_cancel id c) as [[[r|]|e|] c'];
       [destruct H..| |]. }
  apply hoare_transaction; [|done].
  eapply hoare_bind with (R := fun r d => d = db c /\ r ∈ connector_runs (db c) /\ Run.id r = id).
  { apply hoare_first_row, hoare_select; [|done].
    destruct (List.filter _ _) as [|r l] eqn:E; [done|].
    assert (r ∈ List.filter (by_id id) (connector_runs (db c))) as Hr by (simpl in E; rewrite E; left).
    apply elem_of_filter_b in Hr as [? ?%Z.eqb_eq]. done. }
  intros x. apply hoare_at. intros d (-> & Hx & <-). apply hoare_now. intros now.
  case_match eqn:Eq; [|case_match eqn:Er]; cycle 2.
  { apply hoare_ret. intros d ->. split; [done|]. exists x. split_and!; [done..|].
    unfold active, one_of_texts. simpl. by rewrite Eq, Er. }
  all: apply hoare_pure_after; eapply hoare_conseq; [by apply update_row_effect|done| |done];
    intros r d [-> Hd]; exists x, now; split_and!; try done.
  - left. split; [by apply str_eqb_eq|done].
  - right. split; [by apply str_eqb_eq|done].
Qed.

Lemma request_cancel_by_status_witness :
  exists r' c', request_cancel 2 (calm sample_db 200 [] 3) = (Ok (Some r'), c') /\
    exists r now, r ∈ connector_runs sample_db /\ Run.id r = 2 /\
        (Run.status r = "queued" /\ r' = cancelled_while_queued now r \/
         Run.status r = "running" /\ r' = r <| Run.cancel_requested_at := Some now |>) /\
        connector_runs (db c') = map (fun x => if by_id 2 x then r' else x) (connector_runs sample_db).
Proof.
  pose proof (request_cancel_by_status (calm sample_db 200 [] 3) 2 eq_refl (wf_ids _ sample_wf)) as H.
  destruct (request_cancel 2 (calm sample_db 200 [] 3)) as [o c'] eqn:E.
  vm_compute in E. destruct o as [[r|]|e|]; try discriminate E.
  exists r, c'. split; [reflexivity|exact H].
Defined.

(** ** Runs that no recovery reaches *)

(** A run that an HTTP request started ([create_running_run]) and did not finish. *)
Definition orphan (r : Run.ConnectorRun) : Prop :=
  Run.status r = "running" /\ Run.worker_id r = None /\ Run.lease_expires_at r = None.

Lemma keeps_other_rows l x id r' :
  x ∈ l -> Run.id x <> id -> x ∈ map (fun y => if by_id id y then r' else y) l.
Proof.
  intros Hx Hne. apply list_elem_of_fmap. exists x. split; [|done]. unfold by_id.
  by destruct (Z.eqb_spec (Run.id x) id).
Qed.

Lemma orphan_not_claimed c w s r :
  aborted c = false -> NoDup (run_ids (connector_runs (db c))) ->
  r ∈ connector_runs (db c) -> orphan r ->
  r ∈ connector_runs (db (snd (claim_next_queued w s c))).
Proof.
  intros Ha Hn Hr (Hs & _ & _). pose proof (claim_effect c w s Ha Hn) as H.
  destruct (claim_next_queued w s c) as [[[q'|]|e|] c']; simpl; [|by rewrite ?(proj1 H), ?H..].
  destruct H as (q & lease & Hq & Hc & _ & _ & _ & ->). apply keeps_other_rows; [done|].
  intros E. apply claimable_spec in Hc as [Hc _].
  rewrite (NoDup_map_inj Run.id (connector_runs (db c)) r q) in Hs; [congruence|done..].
Qed.

Lemma orphan_not_recovered b m n c r :
  aborted c = false -> NoDup (run_ids (connector_runs (db c))) ->
  r ∈ connector_runs (db c) -> orphan r ->
  r ∈ connector_runs (db (snd (recover_expired_leases b m n c))).
Proof.
  intros Ha Hn Hr (_ & _ & Hl). pose proof (recover_effect b m n c Ha Hn) as H.
  destruct (recover_expired_leases b m n c) as [[s|e|] c']; simpl; [|by rewrite H..].
  destruct H as [[_ _ Ho] _]. apply Ho; [done|]. intros (x & Ex & Hx)%list_elem_of_fmap.
  apply (oldest_expired_spec _ _ _ Hn) in Hx as [Hx (_ & e & He & _)%expired_spec].
  rewrite (NoDup_map_inj Run.id (connector_runs (db c)) x r) in He; [congruence|done..].
Qed.

Lemma orphan_not_finalized id w u c r :
  aborted c = false -> NoDup (run_ids (connector_runs (db c))) ->
  r ∈ connector_runs (db c) -> orphan r ->
  r ∈ connector_runs (db (snd (finalize_if_active id (Some w) u c))).
Proof.
  intros Ha Hn Hr (_ & Hw & _). pose proof (finalize_effect c id (Some w) u Ha Hn) as H.
  destruct (finalize_if_active id (Some w) u c) as [[[q|]|e|] c']; simpl; [|by rewrite ?(proj1 H), ?H..].
  destruct H as (x & Hx & (Hid & _ & [Hwx _] & _) & _ & ->). apply keeps_other_rows; [done|].
  intros E. rewrite (NoDup_map_inj Run.id (connector_runs (db c)) r x) in Hw; [congruence|done..|congruence].
Qed.

Lemma slot_taken c n r x c' :
  aborted c = false -> r ∈ connector_runs (db c) ->
  pending (NewRun.source n) (NewRun.target n) r = true ->
  create_if_no_pending n c <> (Ok (Some x), c').
Proof.
  intros Ha Hr Hp.
  assert (H : hoare (fun d => d = db c) (create_if_no_pending n) (fun o _ => o = None) (fun _ _ _ => True)).
  2: { specialize (H c Ha eq_refl). intros E. rewrite E in H. by destruct H as [_ H]. }
  apply hoare_transaction; [|done].
  eapply hoare_bind; [by apply (lock_connector_same _ (db c))|]. intros ?.
  eapply hoare_bind with (R := fun k _ => (0 <? k) = true).
  { apply hoare_count; [|done]. rewrite (count_pending _ _ (connector_runs (db c))).
    apply existsb_exists. exists r. by rewrite <- list_elem_of_In. }
  intros k. apply hoare_at. intros d0 ->. by apply hoare_ret.
Qed.

(** a run started by an HTTP import carries no worker and no lease; if the
    request ends without finalizing it, no claim, no lease recovery and no
    worker ever ends it, and while it is there no new run can be created for
    its source and target. *)
Theorem orphaned_run_blocks_its_slot c r :
  aborted c = false -> NoDup (run_ids (connector_runs (db c))) ->
  r ∈ connector_runs (db c) -> orphan r ->
  (forall w s, r ∈ connector_runs (db (snd (claim_next_queued w s c)))) /\
  (forall b m n, r ∈ connector_runs (db (snd (recover_expired_leases b m n c)))) /\
  (forall id w u, r ∈ connector_runs (db (snd (finalize_if_active id (Some w) u c)))) /\
  (forall n x c', NewRun.source n = Run.source r -> NewRun.target n = Run.target r ->
     create_if_no_pending n c <> (Ok (Some x), c')).
Proof.
  intros Ha Hn Hr Ho. split_and!.
  - intros. by apply orphan_not_claimed.
  - intros. by apply orphan_not_recovered.
  - intros. by apply orphan_not_finalized.
  - intros n x c' Hs Ht. eapply slot_taken; [done..|]. apply pending_iff.
    split_and!; [done..|]. apply active_status. right. apply Ho.
Qed.

Definition orphaned_db : Db :=
  empty_db <| connectors := [sample_connector "azure"] |>
           <| connector_runs := [sample_run 1 "azure" "running" None None 1] |>.

Lemma orphaned_run_blocks_its_slot_witness :
  fst (create_if_no_pending sample_new_run (calm orphaned_db 9000000 [] 5)) =
    Ok None /\
  sample_run 1 "azure" "running" None None 1 ∈
    connector_runs (db (snd (recover_expired_leases 30 300 100 (calm orphaned_db 9000000 [] 5)))).
Proof.
  split; [vm_compute; reflexivity|].
  apply (orphaned_run_blocks_its_slot (calm orphaned_db 9000000 [] 5)
    (sample_run 1 "azure" "running" None None 1)); try reflexivity.
  - apply NoDup_singleton.
  - left.
  - split_and!; reflexivity.
Defined.
