(* ===== verification/Access.v ===== *)
(** Who may see and change what: [RecordAccessScope] and the visibility filter
    every repository query repeats ([src/src/repositories.rs]), the memberships
    of [MaintainerMemberRepository], and the role checks of [src/src/auth.rs]. *)
From S2P Require Import Prelude Logic Text Models Schema Api.

Open Scope Z_scope.
Open Scope portal_scope.

(** ** Record scopes *)

Record RecordAccessScope := mkRecordAccessScope {
  user_id : Z;
  is_admin : bool;
  maintainer_ids : list Z
}.

Definition allows (access : RecordAccessScope) (owner_user_id maintainer_id : option Z) : bool :=
  if is_admin access then true
  else
    match owner_user_id, maintainer_id with
    | Some owner_user_id, None => owner_user_id =? user_id access
    | None, Some maintainer_id => existsb (Z.eqb maintainer_id) (maintainer_ids access)
    | None, None => true
    | Some _, Some _ => false
    end.

(** The filter of the [.._for_access] queries:
    [owner_user_id = $1 OR maintainer_id = ANY($2) OR (both NULL)]. *)
Definition visible (access : RecordAccessScope) (owner_user_id maintainer_id : option Z) : bool :=
  if is_admin access then true
  else
    holds (tv_or (tv_or (eq_int owner_user_id (Some (user_id access)))
                        (any_int maintainer_id (maintainer_ids access)))
                 (tv_and (is_null owner_user_id) (is_null maintainer_id))).

(** ** Memberships *)

Module MaintainerMemberRepository.

Definition of_pair (maintainer_id user_id : Z) (m : Member.MaintainerMember) : bool :=
  (Member.maintainer_id m =? maintainer_id) && (Member.user_id m =? user_id).

Definition find_by_user (user_id : Z) : Query (list Member.MaintainerMember) :=
  l <- exec (sql_select (fun m => Member.user_id m =? user_id)) ;;
  ret (order_by (lex_leb [asc Member.maintainer_id]) l).

Definition find_by_maintainer (maintainer_id : Z) : Query (list Member.MaintainerMember) :=
  l <- exec (sql_select (fun m => Member.maintainer_id m =? maintainer_id)) ;;
  ret (order_by (lex_leb [asc Member.user_id]) l).

Definition find_by_maintainer_and_user (maintainer_id user_id : Z)
    : Query Member.MaintainerMember :=
  first_row (exec (sql_select (of_pair maintainer_id user_id))).

Definition upsert (new_member : NewMember.NewMaintainerMember) : Query Member.MaintainerMember :=
  exec (sql_upsert
    (of_pair (NewMember.maintainer_id new_member) (NewMember.user_id new_member))
    (fun now id => Member.mkMaintainerMember id (NewMember.maintainer_id new_member)
                     (NewMember.user_id new_member) (NewMember.role new_member) now)
    (fun _ m => m <| Member.role := NewMember.role new_member |>)).

Definition delete_by_maintainer_and_user (maintainer_id user_id : Z) : Query Z :=
  affected (exec (sql_delete (of_pair maintainer_id user_id))).

End MaintainerMemberRepository.

(** ** The authenticated user *)

Record AuthenticatedUser := mkAuthenticatedUser {
  auth_user : Users.User;
  auth_session : Sess.Session;
  auth_roles : list Roles.Role;
  auth_token : string
}.

Definition has_role (auth : AuthenticatedUser) (role_code : string) : bool :=
  existsb (fun role => Roles.code role =s role_code) (auth_roles auth).

Definition auth_is_admin (auth : AuthenticatedUser) : bool := has_role auth "admin".

Definition require_admin (auth : AuthenticatedUser) : Handler unit :=
  if auth_is_admin auth then ret tt else fail Forbidden.

Definition require_maintainer_member_role (auth : AuthenticatedUser) (maintainer_id : Z)
    (allowed_roles : list string) : Handler unit :=
  if auth_is_admin auth then ret tt
  else
    catch (MaintainerMemberRepository.find_by_maintainer_and_user maintainer_id
             (Users.id (auth_user auth)))
      (fun membership =>
         match membership with
         | inr member =>
             if existsb (fun role => role =s Member.role member) allowed_roles
             then ret tt else fail Forbidden
         | inl DNotFound => fail Forbidden
         | inl error => fail (from_diesel error)
         end).

Definition require_maintainer_write_access (auth : AuthenticatedUser) (maintainer_id : Z)
    : Handler unit :=
  require_maintainer_member_role auth maintainer_id ["owner"; "maintainer"].

Definition require_maintainer_owner_access (auth : AuthenticatedUser) (maintainer_id : Z)
    : Handler unit :=
  require_maintainer_member_role auth maintainer_id ["owner"].

Definition require_user_directory_access (auth : AuthenticatedUser) : Handler unit :=
  if auth_is_admin auth then ret tt
  else
    members <- query (MaintainerMemberRepository.find_by_user (Users.id (auth_user auth))) ;;
    if existsb (fun member => Member.role member =s "owner") members
    then ret tt else fail Forbidden.

Definition can_view_maintainer_members (auth : AuthenticatedUser) (maintainer_id : Z)
    : Handler bool :=
  if auth_is_admin auth then ret true
  else
    catch (MaintainerMemberRepository.find_by_maintainer_and_user maintainer_id
             (Users.id (auth_user auth)))
      (fun r => match r with
                | inr _ => ret true
                | inl DNotFound => ret false
                | inl error => fail (from_diesel error)
                end).

Definition record_access_scope (auth : AuthenticatedUser) : Handler RecordAccessScope :=
  memberships <- query (MaintainerMemberRepository.find_by_user (Users.id (auth_user auth))) ;;
  ret (mkRecordAccessScope (Users.id (auth_user auth)) (auth_is_admin auth)
         (map Member.maintainer_id memberships)).

(** ** Properties *)

(** The scope a user has from the memberships in the database. *)
Definition scope_of (auth : AuthenticatedUser) (d : Db) : RecordAccessScope :=
  mkRecordAccessScope (Users.id (auth_user auth)) (auth_is_admin auth)
    (map Member.maintainer_id
       (order_by (lex_leb [asc Member.maintainer_id])
          (List.filter (fun m => Member.user_id m =? Users.id (auth_user auth))
             (maintainer_members d)))).

Lemma visible_allows access owner maint :
  record_scope_check owner maint = true -> visible access owner maint = allows access owner maint.
Proof.
  unfold visible, allows, record_scope_check. destruct (is_admin access); [done|].
  rewrite !holds_or, holds_and.
  destruct owner as [o|], maint as [m|]; simpl; intros H; try done.
  - destruct (o =? user_id access); done.
  - by destruct (existsb _ _).
Qed.

(** C22: the filter of the SQL queries and the check [RecordAccessScope::allows]
    that handlers run on a single record agree on every record the database can
    hold: a record has an owner, or a maintainer, or neither. *)
Theorem visibility_filter_is_allows access owner maint :
  record_scope_check owner maint = true -> visible access owner maint = allows access owner maint.
Proof. apply visible_allows. Qed.

Lemma visibility_filter_is_allows_witness :
  visible (mkRecordAccessScope 7 false [3; 4]) None (Some 4) = true /\
  visible (mkRecordAccessScope 7 false [3; 4]) (Some 8) None =
  allows (mkRecordAccessScope 7 false [3; 4]) (Some 8) None.
Proof.
  split; [reflexivity|].
  apply (visibility_filter_is_allows (mkRecordAccessScope 7 false [3; 4]) (Some 8) None).
  reflexivity.
Defined.

(** Membership of a user in a maintainer team with a role. *)
Definition member_with (d : Db) (maintainer_id user : Z) (roles : list string) : Prop :=
  exists m, m ∈ maintainer_members d /\ Member.maintainer_id m = maintainer_id /\
    Member.user_id m = user /\ Member.role m ∈ roles.

Lemma of_pair_spec mid uid m :
  MaintainerMemberRepository.of_pair mid uid m = true <->
  Member.maintainer_id m = mid /\ Member.user_id m = uid.
Proof. unfold MaintainerMemberRepository.of_pair. rewrite andb_true_iff, !Z.eqb_eq. done. Qed.

Lemma existsb_role r roles : existsb (fun role => role =s r) roles = true <-> r ∈ roles.
Proof.
  rewrite existsb_exists. split.
  - intros (x & Hx%list_elem_of_In & <-%str_eqb_eq). done.
  - intros Hr. exists r. rewrite <- list_elem_of_In, str_eqb_eq. done.
Qed.

(** a guarded operation on a maintainer team goes through exactly for an
    admin and for the members whose role is allowed; everyone else is refused
    with [Forbidden], and the check changes nothing. *)
Theorem member_role_check_exact t auth mid roles d :
  (forall x y, x ∈ maintainer_members d -> y ∈ maintainer_members d ->
     Member.maintainer_id x = Member.maintainer_id y -> Member.user_id x = Member.user_id y -> x = y) ->
  yields t (fun x => x = d) (require_maintainer_member_role auth mid roles) (fun o d' =>
    d' = d /\ (o = Ok tt \/ o = Err Forbidden) /\
    (o = Ok tt <-> auth_is_admin auth = true \/ member_with d mid (Users.id (auth_user auth)) roles)).
Proof.
  intros Huniq. unfold require_maintainer_member_role. destruct (auth_is_admin auth).
  { apply total_ret. intros ? ->. naive_solver. }
  set (uid := Users.id (auth_user auth)).
  intros c Hs Hc. unfold catch.
  assert (H : yields t (fun x => x = d) (MaintainerMemberRepository.find_by_maintainer_and_user mid uid)
     (fun o d' => d' = d /\ match o with
        | Ok m => m ∈ maintainer_members d /\ Member.maintainer_id m = mid /\ Member.user_id m = uid
        | Err e => e = DNotFound /\ forall m, m ∈ maintainer_members d ->
            ~ (Member.maintainer_id m = mid /\ Member.user_id m = uid)
        | Panic => False end)).
  { apply total_first_row, total_select.
    destruct (List.filter _ _) as [|m l] eqn:E; (split; [done|]).
    - split; [done|]. intros m Hm H%of_pair_spec. by rewrite (filter_nil_inv_b _ _ m E Hm) in H.
    - assert (m ∈ List.filter (MaintainerMemberRepository.of_pair mid uid) (maintainer_members d)) as Hm
        by (simpl in E; rewrite E; left).
      by apply elem_of_filter_b in Hm as [? ?%of_pair_spec]. }
  specialize (H c Hs Hc).
  destruct (MaintainerMemberRepository.find_by_maintainer_and_user mid uid c) as [[m|e|] c'].
  - destruct H as (Hs' & Hd & Hdb & Hm & Hmid & Huid).
    assert (Hiff : member_with d mid uid roles <-> Member.role m ∈ roles).
    { split; [|by exists m]. intros (m' & Hm' & E1 & E2 & Hr).
      by rewrite (Huniq m m') by congruence. }
    destruct (existsb _ roles) eqn:E.
    + apply existsb_role in E. split_and!; try done; naive_solver.
    + assert (Member.role m ∉ roles) as Hno by (rewrite <- existsb_role; congruence).
      split_and!; try done; [apply Hs'|naive_solver..].
  - destruct H as (Hq & Hd & Hdb & -> & Hno). split_and!; try done; [naive_solver|].
    split; [done|]. intros [?|(m & Hm & ? & ? & _)]; [done|]. by destruct (Hno m Hm).
  - by destruct H.
Qed.

Definition team_db : Db :=
  empty_db <| maintainer_members := [Member.mkMaintainerMember 1 3 7 "maintainer" 0;
                                     Member.mkMaintainerMember 2 3 8 "viewer" 0] |>.

Definition plain_user (id : Z) : AuthenticatedUser :=
  mkAuthenticatedUser (Users.mkUser id "user" "" 0) (Sess.mkSession 1 id "" 0 0 "password" 0 None None)
    [] "".

Lemma member_role_check_exact_witness :
  (exists c', require_maintainer_write_access (plain_user 8) 3 (calm team_db 5 [] 9) = (Err Forbidden, c')) /\
  yields 5 (fun x => x = team_db) (require_maintainer_member_role (plain_user 7) 3 ["owner"; "maintainer"])
    (fun o d' => d' = team_db /\ (o = Ok tt \/ o = Err Forbidden) /\
       (o = Ok tt <-> auth_is_admin (plain_user 7) = true \/
                      member_with team_db 3 (Users.id (auth_user (plain_user 7))) ["owner"; "maintainer"])).
Proof.
  split; [eexists; vm_compute; reflexivity|].
  apply (member_role_check_exact 5 (plain_user 7) 3 ["owner"; "maintainer"] team_db).
  intros x y [->|[->|[]%elem_of_nil]%elem_of_cons]%elem_of_cons
    [->|[->|[]%elem_of_nil]%elem_of_cons]%elem_of_cons; simpl; try done; lia.
Defined.
