(* ===== verification/Sessions.v ===== *)
(** Sign-in state: [SessionRepository] and [LoginThrottleRepository] of
    [src/src/repositories.rs]. *)
From S2P Require Import Prelude Logic Text Models Schema Api.

Open Scope Z_scope.
Open Scope portal_scope.

(** SHA-256 in hexadecimal, of the sha2 crate. *)
Class Sha256 := { sha256_hex : string -> string }.

(** [SELECT pg_advisory_xact_lock(..)]: a statement that changes no row. *)
Definition advisory_xact_lock : Query unit := control.

Record CreateSession := mkCreateSession {
  cs_user_id : Z;
  cs_token : string;
  cs_expires_at : Z;
  cs_max_active_sessions : Z;
  cs_auth_method : string;
  cs_ip_address : option string;
  cs_user_agent : option string
}.

Section WithHash.
Context {H : Sha256}.

Definition session_token_hash (token : string) : string := sha256_hex token.

Definition session_order : Sess.Session -> Sess.Session -> bool :=
  lex_leb [asc Sess.created_at; asc Sess.id].

Definition expired_session (user_id now : Z) (s : Sess.Session) : bool :=
  (Sess.user_id s =? user_id) && (Sess.expires_at s <=? now).

Definition active_session (user_id now : Z) (s : Sess.Session) : bool :=
  (Sess.user_id s =? user_id) && (Sess.expires_at s >? now).

Definition session_of (session : CreateSession) (last_seen created id : Z) : Sess.Session :=
  Sess.mkSession id (cs_user_id session) (session_token_hash (cs_token session))
    (cs_expires_at session) created (cs_auth_method session) last_seen
    (cs_ip_address session) (cs_user_agent session).

Definition create_session (session : CreateSession) : Query Sess.Session :=
  if negb ((1 <=? cs_max_active_sessions session) && (cs_max_active_sessions session <=? 100))
  then fail (DQueryBuilderError "max_active_sessions must be between 1 and 100")
  else
    let user_id := cs_user_id session in
    query_transaction (
      advisory_xact_lock ;;;
      now <- utc_now ;;
      exec (sql_delete (expired_session user_id now)) ;;;
      active_count <- exec (sql_count (active_session user_id now)) ;;
      let eviction_count := Z.max (active_count - cs_max_active_sessions session + 1) 0 in
      (if 0 <? eviction_count then
         l <- exec (sql_select (active_session user_id now)) ;;
         let oldest_ids := map Sess.id (limit eviction_count (order_by session_order l)) in
         exec (sql_delete (fun s => existsb (Z.eqb (Sess.id s)) oldest_ids)) ;;;
         ret tt
       else ret tt) ;;;
      exec (sql_insert (session_of session now))).

Definition find_by_token (token : string) : Query Sess.Session :=
  first_row (exec (sql_select (fun s => Sess.token_hash s =s session_token_hash token))).

Definition delete_by_token (token : string) : Query Z :=
  affected (exec (sql_delete (fun s => Sess.token_hash s =s session_token_hash token))).

Definition delete_by_user (user_id : Z) : Query Z :=
  affected (exec (sql_delete (fun s => Sess.user_id s =? user_id))).

Definition delete_expired (now : Z) : Query Z :=
  affected (exec (sql_delete (fun s => Sess.expires_at s <=? now))).

(** ** Sign-in throttling *)

Definition bucket_is (bucket_hash : string) (b : Bucket.LoginThrottleBucket) : bool :=
  Bucket.bucket_hash b =s bucket_hash.

(** [(locked_until - now).num_seconds().max(1)] *)
Definition seconds_left (now locked_until : Z) : Z := Z.max (num_seconds (locked_until - now)) 1.

Definition still_locked (now : Z) (locked_until : option Z) : option Z :=
  match locked_until with
  | Some l => if l >? now then Some l else None
  | None => None
  end.

Definition retry_after_seconds (bucket_hash : string) (now : Z) : Query (option Z) :=
  bucket <- optional (first_row (exec (sql_select (bucket_is bucket_hash)))) ;;
  let locked_until := match bucket with Some b => Bucket.locked_until b | None => None end in
  ret (option_map (seconds_left now) (still_locked now locked_until)).

(** What one more failure does to a bucket. [None] where chrono panics. *)
Definition count_failure (now max_failures window_seconds lockout_seconds : Z)
    (bucket : Bucket.LoginThrottleBucket) : option Bucket.LoginThrottleBucket :=
  match duration_seconds window_seconds with
  | None => None
  | Some window =>
      match datetime_add now (- window) with
      | None => None
      | Some window_floor =>
          let window_expired := Bucket.window_started_at bucket <=? window_floor in
          let failure_count :=
            if window_expired then 1 else i32_saturating_add (Bucket.failure_count bucket) 1 in
          let window_started_at :=
            if window_expired then now else Bucket.window_started_at bucket in
          let with_lock (locked_until : option Z) :=
            bucket <| Bucket.failure_count := failure_count |>
                   <| Bucket.window_started_at := window_started_at |>
                   <| Bucket.locked_until := locked_until |>
                   <| Bucket.updated_at := now |> in
          if max_failures <=? failure_count then
            match duration_seconds lockout_seconds with
            | None => None
            | Some lockout =>
                match datetime_add now lockout with
                | None => None
                | Some l => Some (with_lock (Some l))
                end
            end
          else Some (with_lock (still_locked now (Bucket.locked_until bucket)))
      end
  end.

Definition record_failure (bucket_hash : string)
    (now max_failures window_seconds lockout_seconds : Z) : Query (option Z) :=
  query_transaction (
    exec (sql_insert_or_ignore (bucket_is bucket_hash) (fun _ _ =>
      Bucket.mkLoginThrottleBucket bucket_hash 0 now None now)) ;;;
    bucket <- first_row (exec (sql_select (bucket_is bucket_hash))) ;;
    counted <- or_panic (count_failure now max_failures window_seconds lockout_seconds bucket) ;;
    exec (sql_update (bucket_is bucket_hash) (fun _ b =>
      b <| Bucket.failure_count := Bucket.failure_count counted |>
        <| Bucket.window_started_at := Bucket.window_started_at counted |>
        <| Bucket.locked_until := Bucket.locked_until counted |>
        <| Bucket.updated_at := now |>)) ;;;
    ret (option_map (seconds_left now) (Bucket.locked_until counted))).

Definition clear (bucket_hash : string) : Query Z :=
  affected (exec (sql_delete (bucket_is bucket_hash))).

Definition prune_before (cutoff : Z) : Query Z :=
  affected (exec (sql_delete (fun b =>
    holds (tv_and (Some (Bucket.updated_at b <? cutoff))
             (tv_or (is_null (Bucket.locked_until b))
                    (lt_ts (Bucket.locked_until b) (Some cutoff))))))).

End WithHash.

(** ** Properties of sessions *)

Section SessionProperties.
Context {H : Sha256}.

(** The sessions that stay when [user] signs in at [now]. *)
Definition kept_sessions (user now max : Z) (l : list Sess.Session) : list Sess.Session :=
  let l1 := List.filter (fun s => negb (expired_session user now s)) l in
  let act := List.filter (active_session user now) l1 in
  let k := Z.max (Z.of_nat (length act) - max + 1) 0 in
  if 0 <? k then
    List.filter (fun s => negb (existsb (Z.eqb (Sess.id s))
                                  (map Sess.id (limit k (order_by session_order act))))) l1
  else l1.

Lemma create_session_effect s c :
  aborted c = false -> 1 <= cs_max_active_sessions s <= 100 ->
  match create_session s c with
  | (Ok r, c') => exists n t,
      r = session_of s (reading c) t n /\
      sessions (db c') =
        kept_sessions (cs_user_id s) (reading c) (cs_max_active_sessions s) (sessions (db c)) ++ [r]
  | (_, c') => db c' = db c
  end.
Proof.
  intros Ha Hmax. unfold create_session. replace (negb _) with false by lia.
  unfold query_transaction.
  match goal with |- context [transaction ?f ?b c] =>
    enough (starts (reading c) (fun d => d = db c) b (fun r d' => exists n t,
      r = session_of s (reading c) t n /\ sessions d' =
        kept_sessions (cs_user_id s) (reading c) (cs_max_active_sessions s) (sessions (db c)) ++ [r])) as Hb;
    [pose proof (transaction_starts f b c _ Ha Hb) as Ht; by destruct (transaction f b c) as [[r|e|] c']|]
  end.
  eapply starts_exec with (R := fun _ d => d = db c); [by intros ?????? -> [= _ _ <-]|].
  intros ?. apply starts_now. set (now := reading c). set (u := cs_user_id s).
  set (l1 := List.filter (fun x => negb (expired_session u now x)) (sessions (db c))).
  set (act := List.filter (active_session u now) l1).
  eapply hoare_bind with (R := fun _ d => sessions d = l1).
  { apply hoare_delete; [|done]. by intros d' [= <-]. }
  intros ?. apply hoare_at. intros d1 Hd1.
  eapply hoare_bind with (R := fun k d => d = d1 /\ k = Z.of_nat (length act)).
  { apply hoare_count; [|done]. simpl. by rewrite Hd1. }
  intros count. apply hoare_at. intros d2 [-> ->].
  eapply hoare_bind with (R := fun _ d => sessions d =
     kept_sessions u now (cs_max_active_sessions s) (sessions (db c))).
  - unfold kept_sessions. fold l1. fold act. case_match eqn:Ek; [|apply hoare_ret; by intros ? ->].
    eapply hoare_bind with (R := fun l d => d = d1 /\ l = act).
    { apply hoare_select; [|done]. simpl. by rewrite Hd1. }
    intros l. apply hoare_at. intros d2 [-> ->]. cbv zeta.
    apply hoare_pure_after, hoare_delete; [|done]. intros d' [= <-]. simpl. by rewrite Hd1.
  - intros ?. apply hoare_at. intros d3 Hd3. apply hoare_insert; [|done].
    intros t n d' -> _. exists n, t. split; [done|]. simpl. by rewrite Hd3.
Qed.

Lemma session_order_spec x y :
  session_order x y = true <->
  Sess.created_at x < Sess.created_at y \/
  (Sess.created_at x = Sess.created_at y /\ Sess.id x <= Sess.id y).
Proof.
  unfold session_order. simpl. unfold asc.
  destruct (Z.compare_spec (Sess.created_at x) (Sess.created_at y));
  destruct (Z.compare_spec (Sess.id x) (Sess.id y)); split; intros; try done; lia.
Qed.

Definition evictions (user now max : Z) (l : list Sess.Session) : nat :=
  Z.to_nat (Z.max (Z.of_nat (length (List.filter (active_session user now) l)) - max + 1) 0).

Lemma expired_not_active user now s :
  expired_session user now s = true -> active_session user now s = false.
Proof. unfold expired_session, active_session. lia. Qed.

Lemma active_unexpired user now l :
  List.filter (active_session user now)
    (List.filter (fun s => negb (expired_session user now s)) l) =
  List.filter (active_session user now) l.
Proof.
  rewrite filter_filter_b. apply filter_ext_b. intros x _.
  destruct (expired_session user now x) eqn:E; [|done]. by rewrite expired_not_active.
Qed.

(** The active sessions that stay are all but the oldest ones. *)
Lemma kept_active user now max l :
  NoDup (map Sess.id l) ->
  List.filter (active_session user now) (kept_sessions user now max l) ≡ₚ
  drop (evictions user now max l)
    (order_by session_order (List.filter (active_session user now) l)).
Proof.
  intros Hn. unfold kept_sessions, evictions. rewrite active_unexpired.
  set (act := List.filter (active_session user now) l).
  set (k := Z.max _ 0). destruct (0 <? k) eqn:Ek.
  - rewrite filter_comm_b, active_unexpired. fold act.
    rewrite (filter_perm_b _ act (order_by session_order act)) by by rewrite order_by_perm.
    unfold limit. rewrite filter_not_taken; [done|].
    rewrite order_by_perm. by apply NoDup_map_filter_b.
  - replace (Z.to_nat k) with 0%nat by lia. rewrite active_unexpired. fold act.
    by rewrite order_by_perm.
Qed.

Lemma kept_others user now max l x :
  NoDup (map Sess.id l) -> Sess.user_id x <> user ->
  x ∈ kept_sessions user now max l <-> x ∈ l.
Proof.
  intros Hn Hu. unfold kept_sessions.
  assert (He : forall k, x ∈ List.filter (fun s => negb (expired_session user now s)) k <-> x ∈ k).
  { intros k. rewrite elem_of_filter_b. split; [tauto|]. intros; split; [done|].
    unfold expired_session. lia. }
  case_match; [|apply He]. rewrite elem_of_filter_b, He. split; [tauto|]. intros Hx. split; [done|].
  apply negb_true_iff, not_true_iff_false. rewrite existsb_exists.
  intros (i & Hi%list_elem_of_In & E%Z.eqb_eq).
  apply list_elem_of_fmap in Hi as (y & -> & Hy%elem_of_take).
  apply elem_of_order_by, elem_of_filter_b in Hy as [[Hy _]%elem_of_filter_b Ha].
  rewrite (NoDup_map_inj Sess.id l x y) in Hu by done. unfold active_session in Ha. lia.
Qed.

(** Sessions that are evicted are older than the active ones that stay. *)
Lemma evicted_oldest user now max l x y :
  NoDup (map Sess.id l) -> x ∈ l -> active_session user now x = true ->
  x ∉ kept_sessions user now max l ->
  y ∈ kept_sessions user now max l -> active_session user now y = true ->
  session_order x y = true.
Proof.
  intros Hn Hx Hax Hxk Hy Hay. pose proof (kept_active user now max l Hn) as Hk.
  set (act := List.filter (active_session user now) l) in *.
  set (k := evictions user now max l) in *.
  assert (Hyd : y ∈ drop k (order_by session_order act)).
  { rewrite <- Hk. by apply elem_of_filter_b. }
  assert (Hxt : x ∈ take k (order_by session_order act)).
  { assert (x ∈ order_by session_order act) as Hxo by by apply elem_of_order_by, elem_of_filter_b.
    rewrite <- (take_drop k (order_by session_order act)) in Hxo.
    apply elem_of_app in Hxo as [|Hxo]; [done|]. contradict Hxk.
    rewrite <- Hk in Hxo. by apply elem_of_filter_b in Hxo as [??]. }
  assert (Hs : StronglySorted (fun a b => session_order a b = true)
                 (take k (order_by session_order act) ++ drop k (order_by session_order act))).
  { rewrite take_drop. apply order_by_sorted.
    - intros a b. rewrite !session_order_spec. lia.
    - intros a b e. rewrite !session_order_spec. lia. }
  by apply (StronglySorted_app_1_elem_of _ _ _ x y Hs).
Qed.

Lemma kept_count user now max l :
  NoDup (map Sess.id l) -> 1 <= max ->
  Z.of_nat (length (List.filter (active_session user now) (kept_sessions user now max l))) <= max - 1.
Proof.
  intros Hn Hm. rewrite (kept_active user now max l Hn), length_drop, length_order_by.
  unfold evictions. lia.
Qed.

(** C15: signing in keeps a user's sessions within the limit. When
    [SessionRepository::create] commits, the new session is stored under the
    hash of its token, the user has at most [max_active_sessions] unexpired
    sessions, the ones evicted are the oldest, expired ones are gone, and the
    sessions of every other user are untouched; when it fails, nothing
    changes. *)
Theorem session_capacity s c :
  aborted c = false -> NoDup (map Sess.id (sessions (db c))) ->
  1 <= cs_max_active_sessions s <= 100 ->
  let now := reading c in let u := cs_user_id s in
  match create_session s c with
  | (Ok r, c') =>
      r ∈ sessions (db c') /\ Sess.user_id r = u /\
      Sess.token_hash r = session_token_hash (cs_token s) /\
      Z.of_nat (length (List.filter (active_session u now) (sessions (db c'))))
        <= cs_max_active_sessions s /\
      (forall x, Sess.user_id x <> u -> x ∈ sessions (db c') <-> x ∈ sessions (db c)) /\
      (forall x y, x ∈ sessions (db c) -> active_session u now x = true -> x ∉ sessions (db c') ->
         y ∈ sessions (db c') -> y <> r -> active_session u now y = true ->
         session_order x y = true)
  | (_, c') => db c' = db c
  end.
Proof.
  intros Ha Hn Hm now u. pose proof (create_session_effect s c Ha Hm) as He.
  destruct (create_session s c) as [[r|e|] c']; [|done..].
  destruct He as (n & t & Hr & ->). fold now u. split_and!.
  - apply elem_of_app. right. left.
  - by rewrite Hr.
  - by rewrite Hr.
  - rewrite length_filter_app. pose proof (kept_count u now (cs_max_active_sessions s) _ Hn ltac:(lia)).
    simpl. case_match; simpl; lia.
  - intros x Hx. rewrite elem_of_app, list_elem_of_singleton.
    rewrite (kept_others u now (cs_max_active_sessions s) _ x Hn Hx). split; [|tauto].
    intros [?| ->]; [done|]. by rewrite Hr in Hx.
  - intros x y Hx Hax Hxk [Hy|Hy%list_elem_of_singleton]%elem_of_app Hyr Hay; [|done].
    eapply evicted_oldest; [done..| |done|done]. intros Hk. apply Hxk, elem_of_app. by left.
Qed.
End SessionProperties.

Definition plain_hash : Sha256 := {| sha256_hex := fun s => s |}.

Definition signed_in_db : Db :=
  empty_db <| users := [Users.mkUser 7 "ada" "" 0] |>
    <| sessions := [Sess.mkSession 1 7 "a" 900 10 "password" 10 None None;
                    Sess.mkSession 2 7 "b" 900 20 "password" 20 None None] |>.

Lemma session_capacity_witness :
  exists r c', @create_session plain_hash (mkCreateSession 7 "c" 990 2 "entra" None None)
                 (calm signed_in_db 100 [] 3) = (Ok r, c') /\
    (forall x y, x ∈ sessions signed_in_db -> active_session 7 100 x = true -> x ∉ sessions (db c') ->
       y ∈ sessions (db c') -> y <> r -> active_session 7 100 y = true -> session_order x y = true).
Proof.
  pose proof (@session_capacity plain_hash (mkCreateSession 7 "c" 990 2 "entra" None None)
    (calm signed_in_db 100 [] 3) eq_refl) as H.
  destruct (@create_session plain_hash _ (calm signed_in_db 100 [] 3)) as [o c'] eqn:E.
  vm_compute in E. destruct o as [r|e|]; try discriminate E.
  exists r, c'. split; [reflexivity|].
  assert (NoDup [1; 2]) as Hn by (apply (bool_decide_unpack _); vm_compute; exact I).
  destruct (H Hn ltac:(simpl; lia)) as (_ & _ & _ & _ & _ & H5). exact H5.
Defined.

(** ** Properties of the throttle *)

Section ThrottleProperties.

(** The bucket of a key, as [record_failure] reads it. *)
Definition bucket_now (h : string) (now : Z) (d : Db) : Bucket.LoginThrottleBucket :=
  match List.filter (bucket_is h) (login_throttle_buckets d) with
  | b :: _ => b
  | [] => Bucket.mkLoginThrottleBucket h 0 now None now
  end.

Lemma bucket_is_hash h b : bucket_is h b = true <-> Bucket.bucket_hash b = h.
Proof. apply str_eqb_eq. Qed.

Lemma count_failure_fields now mf w l b b' :
  count_failure now mf w l b = Some b' ->
  Bucket.bucket_hash b' = Bucket.bucket_hash b /\ Bucket.updated_at b' = now.
Proof. unfold count_failure. intros E. repeat case_match; simplify_eq; done. Qed.

Lemma bucket_ensured h now d :
  (length (List.filter (bucket_is h) (login_throttle_buckets d)) <= 1)%nat ->
  hoare (fun d' => d' = d)
    (exec (sql_insert_or_ignore (bucket_is h) (fun _ _ => Bucket.mkLoginThrottleBucket h 0 now None now)))
    (fun _ d' => List.filter (bucket_is h) (login_throttle_buckets d') = [bucket_now h now d] /\
       List.filter (fun b => negb (bucket_is h b)) (login_throttle_buckets d') =
       List.filter (fun b => negb (bucket_is h b)) (login_throttle_buckets d))
    (fun _ _ _ => True).
Proof.
  intros Hlen. apply hoare_exec; [|done]. intros t n d0 n' a d' ->.
  unfold sql_insert_or_ignore, bucket_now. cbn [rows login_throttle_buckets_table].
  destruct (List.filter (bucket_is h) (login_throttle_buckets d)) as [|b [|]] eqn:E; simpl in *; [| |lia].
  - unfold checked. destruct (first_violation _ _); intros [=]; subst.
    simpl. rewrite !List.filter_app, E. simpl. assert (bucket_is h (Bucket.mkLoginThrottleBucket h 0 now None now) = true)
      as -> by by apply bucket_is_hash. simpl. by rewrite app_nil_r.
  - intros [=]; subst. done.
Qed.

(** a failed sign-in is counted exactly once against its bucket: when
    [record_failure] commits, the bucket of the key is the previous one (or a
    fresh one) with one more failure counted by the window rules, no other
    bucket changes, and the answer is the remaining lockout of the stored
    bucket; when it fails, nothing changes. *)
Theorem record_failure_counts h now mf w l c :
  aborted c = false ->
  (length (List.filter (bucket_is h) (login_throttle_buckets (db c))) <= 1)%nat ->
  match record_failure h now mf w l c with
  | (Ok o, c') => exists b',
      count_failure now mf w l (bucket_now h now (db c)) = Some b' /\
      List.filter (bucket_is h) (login_throttle_buckets (db c')) = [b'] /\
      List.filter (fun b => negb (bucket_is h b)) (login_throttle_buckets (db c')) =
      List.filter (fun b => negb (bucket_is h b)) (login_throttle_buckets (db c)) /\
      o = option_map (seconds_left now) (Bucket.locked_until b')
  | (_, c') => db c' = db c
  end.
Proof.
  intros Ha Hlen.
  match goal with |- match ?m c with _ => _ end =>
    enough (Hh : hoare (fun d => d = db c) m (fun o d => exists b',
      count_failure now mf w l (bucket_now h now (db c)) = Some b' /\
      List.filter (bucket_is h) (login_throttle_buckets d) = [b'] /\
      List.filter (fun b => negb (bucket_is h b)) (login_throttle_buckets d) =
      List.filter (fun b => negb (bucket_is h b)) (login_throttle_buckets (db c)) /\
      o = option_map (seconds_left now) (Bucket.locked_until b')) (fun _ _ d => d = db c));
    [specialize (Hh c Ha eq_refl); destruct (m c) as [[o|e|] c']; [by destruct Hh|done..]|] end.
  apply hoare_transaction; [|done].
  eapply hoare_bind; [apply bucket_ensured; done|]. intros ?. apply hoare_at. intros d1 [H1 H2].
  eapply hoare_bind with (R := fun b d => d = d1 /\ b = bucket_now h now (db c)).
  { apply hoare_first_row, hoare_select; [|done]. simpl. by rewrite H1. }
  intros b. apply hoare_at. intros d2 [-> ->]. apply hoare_or_panic; [|done]. intros b' Hb'.
  apply hoare_pure_after, hoare_update; [|done]. intros t d' -> _. exists b'. simpl.
  destruct (count_failure_fields _ _ _ _ _ _ Hb') as [Hh Hu].
  rewrite filter_update_hit, filter_update_miss, H1 by done. split_and!; try done. simpl.
  f_equal. revert Hh Hu. clear. intros. destruct b', (bucket_now h now (db c)). simpl in *. by subst.
Qed.

Lemma record_failure_counts_witness :
  exists o c', record_failure "k" 5000000 5 900 900 (calm empty_db 5000000 [] 1) = (Ok o, c') /\
    exists b', count_failure 5000000 5 900 900 (bucket_now "k" 5000000 empty_db) = Some b' /\
      List.filter (bucket_is "k") (login_throttle_buckets (db c')) = [b'].
Proof.
  pose proof (record_failure_counts "k" 5000000 5 900 900 (calm empty_db 5000000 [] 1) eq_refl
    (le_S _ _ (le_n 0))) as H.
  destruct (record_failure "k" 5000000 5 900 900 (calm empty_db 5000000 [] 1)) as [o c'] eqn:E.
  vm_compute in E. destruct o as [o|e|]; try discriminate E.
  exists o, c'. split; [reflexivity|]. destruct H as (b' & H1 & H2 & _). exists b'. exact (conj H1 H2).
Defined.

(** A series of failed sign-ins at the given times. *)
Fixpoint count_failures (mf w l : Z) (ts : list Z) (b : Bucket.LoginThrottleBucket)
    : option Bucket.LoginThrottleBucket :=
  match ts with
  | [] => Some b
  | t :: ts' =>
      match count_failure t mf w l b with
      | Some b' => count_failures mf w l ts' b'
      | None => None
      end
  end.

Lemma count_failures_snoc mf w l ts t b :
  count_failures mf w l (ts ++ [t]) b =
  match count_failures mf w l ts b with
  | Some b' => count_failure t mf w l b'
  | None => None
  end.
Proof.
  revert b. induction ts as [|x ts IH]; intros b; simpl; [by case_match|].
  by destruct (count_failure x mf w l b).
Qed.

(** Times of a window that starts at [t1], where chrono does not overflow. *)
Definition in_window (t1 w l t : Z) : Prop :=
  t1 <= t < t1 + w /\ datetime_add t (- w) = Some (t - w) /\ datetime_add t l = Some (t + l).

(** the lockout starts at the configured number of failures: after any
    series of failed sign-ins inside one window, the bucket has counted every
    one of them, it is locked until the lockout time after the last one when
    there were at least [max_failures], and it is not locked otherwise. *)
Theorem lockout_after_max_failures h mf w l W L t1 ts :
  duration_seconds w = Some W -> duration_seconds l = Some L -> 0 < mf ->
  Z.of_nat (length ts) <= i32_max -> Forall (in_window t1 W L) ts ->
  exists b,
    count_failures mf w l ts (Bucket.mkLoginThrottleBucket h 0 t1 None t1) = Some b /\
    Bucket.failure_count b = Z.of_nat (length ts) /\ Bucket.window_started_at b = t1 /\
    Bucket.locked_until b =
      (if mf <=? Z.of_nat (length ts)
       then match last ts with Some t => Some (t + L) | None => None end else None).
Proof.
  intros HW HL Hmf. induction ts as [|t ts IH] using rev_ind; intros Hlen Hall.
  { eexists. split; [reflexivity|]. simpl. split_and!; try done.
    by case_match. }
  rewrite length_app in *. simpl in *.
  apply Forall_app in Hall as [Hall [(Ht & Hw & Hl) _]%Forall_cons].
  destruct IH as (b & Hb & Hc & Hs & Hlock); [lia|done|].
  rewrite count_failures_snoc, Hb. unfold count_failure. rewrite HW, HL, Hw, Hl, Hs.
  replace (t1 <=? t - W) with false by lia. rewrite Hc.
  assert (i32_saturating_add (Z.of_nat (length ts)) 1 = Z.of_nat (length ts + 1)) as ->.
  { unfold i32_saturating_add, clamp, i32_min. lia. }
  rewrite last_snoc. destruct (mf <=? Z.of_nat (length ts + 1)) eqn:E.
  - eexists. split; [reflexivity|]. done.
  - eexists. split; [reflexivity|]. simpl. split_and!; try done. rewrite Hlock.
    apply Z.leb_gt in E. destruct (Z.leb_spec mf (Z.of_nat (length ts))); [lia|done].
Qed.

Lemma lockout_after_max_failures_witness :
  exists b, count_failures 3 900 600 [1000000; 2000000; 3000000]
      (Bucket.mkLoginThrottleBucket "k" 0 1000000 None 1000000) = Some b /\
    Bucket.locked_until b = Some (3000000 + 600 * second).
Proof.
  destruct (lockout_after_max_failures "k" 3 900 600 (900 * second) (600 * second) 1000000
    [1000000; 2000000; 3000000]) as (b & H1 & _ & _ & H2).
  - reflexivity.
  - reflexivity.
  - lia.
  - vm_compute. discriminate.
  - repeat constructor; vm_compute; discriminate.
  - exists b. exact (conj H1 H2).
Defined.
End ThrottleProperties.
