(* ===== verification/Accounts.v ===== *)
(** Accounts: [UserRepository], [RoleRepository] and [UserRoleRepository] of
    [src/src/repositories.rs]. *)
From S2P Require Import Prelude Logic Text Models Schema Api Validation.

Open Scope Z_scope.
Open Scope portal_scope.

(** ** Roles *)

Module RoleRepository.

Definition find_by_ids (ids : list Z) : Query (list Roles.Role) :=
  exec (sql_select (fun r => existsb (Z.eqb (Roles.id r)) ids)).

Definition find_by_code (code : string) : Query Roles.Role :=
  first_row (exec (sql_select (fun r => Roles.code r =s code))).

Definition find_by_user (user : Users.User) : Query (list Roles.Role) :=
  user_roles <- exec (sql_select (fun ur => URole.user_id ur =? Users.id user)) ;;
  find_by_ids (map URole.role_id user_roles).

Definition create (new_role : NewRl.NewRole) : Query Roles.Role :=
  exec (sql_insert (fun now id =>
    Roles.mkRole id (NewRl.code new_role) (NewRl.name new_role) now)).

Definition find_or_create_by_code (code : string) : Query Roles.Role :=
  catch (find_by_code code) (fun r =>
    match r with
    | inr role => ret role
    | inl DNotFound =>
        catch (create (NewRl.mkNewRole code code)) (fun r =>
          match r with
          | inr role => ret role
          | inl (DDatabaseError UniqueViolation) => find_by_code code
          | inl error => fail error
          end)
    | inl error => fail error
    end).

End RoleRepository.

Module UserRoleRepository.

Definition user_role_of (user_id role_id now id : Z) : URole.UserRole :=
  URole.mkUserRole id user_id role_id.

Definition assign_if_missing (user_id role_id : Z) : Query (option URole.UserRole) :=
  existing <- optional (first_row (exec (sql_select (fun ur =>
                (URole.user_id ur =? user_id) && (URole.role_id ur =? role_id))))) ;;
  match existing with
  | Some _ => ret None
  | None =>
      r <- exec (sql_insert (user_role_of user_id role_id)) ;;
      ret (Some r)
  end.

End UserRoleRepository.

(** ** Users *)

Module UserRepository.
Section WithUnicode.
Context {U : Unicode}.

Definition find (id : Z) : Query Users.User :=
  first_row (exec (sql_select (fun u => Users.id u =? id))).

(** [lower(users.username) = $1] *)
Definition find_by_username (username : string) : Query Users.User :=
  let username := canonical_username username in
  first_row (exec (sql_select (fun u => to_lowercase (Users.username u) =s username))).

(** Users with their roles, grouped by user. *)
Definition find_with_roles
    : Query (list (Users.User * list (URole.UserRole * Roles.Role))) :=
  all_users <- exec (sql_select (fun _ : Users.User => true)) ;;
  joined <- exec (sql_query (fun d => flat_map (fun ur =>
              map (pair ur) (List.filter (fun r => Roles.id r =? URole.role_id ur) (roles d)))
              (users_roles d))) ;;
  ret (map (fun u => (u, List.filter (fun p => URole.user_id (fst p) =? Users.id u) joined))
         all_users).

Definition role_for_code (role_code : string) : Query Roles.Role :=
  catch (RoleRepository.find_by_code role_code) (fun r =>
    match r with
    | inr role => ret role
    | inl DNotFound =>
        catch (RoleRepository.create (NewRl.mkNewRole role_code role_code)) (fun r =>
          match r with
          | inr role => ret role
          | inl (DDatabaseError UniqueViolation) => RoleRepository.find_by_code role_code
          | inl error => fail error
          end)
    | inl error => fail error
    end).

Definition create (new_user : NewUsr.NewUser) (role_codes : list string) : Query Users.User :=
  let username := canonical_username (NewUsr.username new_user) in
  query_transaction (
    user <- exec (sql_insert (fun now id =>
              Users.mkUser id username (NewUsr.password new_user) now)) ;;
    for_each role_codes tt (fun _ role_code =>
      role <- role_for_code role_code ;;
      exec (sql_insert (UserRoleRepository.user_role_of (Users.id user) (Roles.id role))) ;;;
      ret tt) ;;;
    ret user).

Definition delete (id : Z) : Query Z :=
  query_transaction (
    exec (sql_delete (fun m => Member.user_id m =? id)) ;;;
    exec (sql_delete (fun ur => URole.user_id ur =? id)) ;;;
    affected (exec (sql_delete (fun u => Users.id u =? id)))).

Definition update_password (id : Z) (password_hash : string) : Query Users.User :=
  first_row (exec (sql_update (fun u => Users.id u =? id) (fun _ u =>
    u <| Users.password := password_hash |>))).

End WithUnicode.
End UserRepository.
