(* ===== verification/Authn.v ===== *)
(** Authentication: the request guard of [src/src/auth.rs] and the sign-in and
    sign-out handlers of [src/src/rocket_routes/authorization.rs]. *)
From S2P Require Import Prelude Logic Text Models Schema Api Validation Access Sessions Accounts.
From Stdlib Require Import Ascii.

Open Scope Z_scope.
Open Scope portal_scope.

(** ** Configuration ([src/src/config.rs]) *)

Record EntraConfig := mkEntraConfig {
  tenant_id : string;
  client_id : string;
  client_secret : option string;
  transaction_key : string;
  redirect_uri : string;
  issuer : string;
  authorization_url : string;
  token_url : string;
  jwks_url : string;
  jit_provisioning : bool;
  required_role : option string;
  transaction_ttl_seconds : Z;
  jwks_cache_seconds : Z;
  clock_skew_seconds : Z
}.

Record AppConfig := mkAppConfig {
  environment : string;
  auth_token_ttl_seconds : Z;
  auth_max_active_sessions_per_user : Z;
  auth_cookie_secure : bool;
  auth_login_max_failures : Z;
  auth_login_account_max_failures : Z;
  auth_login_window_seconds : Z;
  auth_login_lockout_seconds : Z;
  auth_password_login_enabled : bool;
  entra : option EntraConfig
}.

(** ** Requests and cookies *)

Inductive Method := Get | Head | Options | Post | Put | Delete | Patch | OtherMethod.

Record Request := mkRequest {
  method : Method;
  headers : list (string * string);
  cookies : list (string * string)
}.

(** Header names are compared without case. *)
Definition header_is (name : string) (h : string * string) : bool :=
  eq_ignore_ascii_case (fst h) name.

Definition contains_header (r : Request) (name : string) : bool :=
  existsb (header_is name) (headers r).

Definition get_one (r : Request) (name : string) : option string :=
  snd <$> head (List.filter (header_is name) (headers r)).

Definition get_cookie (r : Request) (name : string) : option string :=
  snd <$> head (List.filter (fun p => fst p =s name) (cookies r)).

Definition SESSION_COOKIE_NAME : string := "idp_session".
Definition PRODUCTION_SESSION_COOKIE_NAME : string := "__Host-idp_session".
Definition CSRF_HEADER_NAME : string := "X-IDP-CSRF".

Definition session_cookie_name (config : AppConfig) : string :=
  if environment config =s "production" then PRODUCTION_SESSION_COOKIE_NAME
  else SESSION_COOKIE_NAME.

Inductive RequestToken :=
  | Bearer (token : string)
  | CookieToken (token : string).

Definition not_blank (token : string) : bool := negb (is_empty (trim token)).

Definition bearer_token (r : Request) : option string :=
  match get_one r "Authorization" with
  | None => None
  | Some value =>
      match split_once " "%char value with
      | None => None
      | Some (scheme, token) =>
          if eq_ignore_ascii_case scheme "Bearer"
          then if not_blank token then Some token else None
          else None
      end
  end.

Definition request_token (r : Request) (cookie_name : string) : option RequestToken :=
  if contains_header r "Authorization" then Bearer <$> bearer_token r
  else
    match get_cookie r cookie_name with
    | Some token => if not_blank token then Some (CookieToken token) else None
    | None => None
    end.

(** ** The request guard *)

(** [rocket::request::Outcome]. *)
Inductive GuardOutcome (A : Type) :=
  | GSuccess (a : A)
  | GError (status : Z) (error : ApiError)
  | GForward (status : Z).
Arguments GSuccess {A} a.
Arguments GError {A} status error.
Arguments GForward {A} status.

(** How the connection pool answers a checkout. *)
Inductive PoolOutcome :=
  | PoolConnection
  | PoolError (status : Z)
  | PoolForward (status : Z).

Definition safe_method (m : Method) : bool :=
  match m with Get | Head | Options => true | _ => false end.

Section Guard.
Context {H : Sha256} {U : Unicode}.

(** A database error becomes the guard's error; the rest goes on. *)
Definition guarded {A B} (m : Query A) (k : A -> Handler (GuardOutcome B))
    : Handler (GuardOutcome B) :=
  catch m (fun r =>
    match r with
    | inr a => k a
    | inl error => let error := from_diesel error in ret (GError (status error) error)
    end).

(** The user of a live session: its row, then the account, then the roles; a
    session that expired or lost its account is deleted. *)
Definition load_user (token : string) (session : Sess.Session)
    : Handler (GuardOutcome AuthenticatedUser) :=
  catch (UserRepository.find (Sess.user_id session)) (fun r =>
    match r with
    | inl DNotFound => catch (delete_by_token token) (fun _ => ret (GError 401 Unauthorized))
    | inl error => let error := from_diesel error in ret (GError (status error) error)
    | inr user =>
        guarded (RoleRepository.find_by_user user) (fun roles =>
          ret (GSuccess (mkAuthenticatedUser user session roles token)))
    end).

Definition authenticate (token : string) : Handler (GuardOutcome AuthenticatedUser) :=
  catch (find_by_token token) (fun r =>
    match r with
    | inl DNotFound => ret (GError 401 Unauthorized)
    | inl error => let error := from_diesel error in ret (GError (status error) error)
    | inr session =>
        now <- utc_now ;;
        if Sess.expires_at session <=? now then
          catch (delete_by_token token) (fun _ => ret (GError 401 Unauthorized))
        else load_user token session
    end).

Definition from_request (state : option AppConfig) (pool : PoolOutcome) (request : Request)
    : Handler (GuardOutcome AuthenticatedUser) :=
  match state with
  | None => ret (GError 500 Internal)
  | Some config =>
      match request_token request (session_cookie_name config) with
      | None => ret (GError 401 Unauthorized)
      | Some request_token =>
          let '(token, authenticated_with_cookie) :=
            match request_token with
            | Bearer token => (token, false)
            | CookieToken token => (token, true)
            end in
          if authenticated_with_cookie && negb (safe_method (method request))
             && negb (bool_decide (get_one request CSRF_HEADER_NAME = Some "1"))
          then ret (GError 403 Forbidden)
          else
            match pool with
            | PoolError s => if s =? 503 then ret (GError s ServiceUnavailable)
                             else ret (GError s Internal)
            | PoolForward s => ret (GForward s)
            | PoolConnection => authenticate token
            end
      end
  end.

End Guard.

(** ** Sign-in *)

Record Credentials := mkCredentials {
  username : string;
  password : string
}.

#[export] Instance validate_credentials : Validate Credentials := fun self =>
  run_checks
    [ required "username" (username self);
      required "password" (password self);
      max_len "username" (username self) 64;
      max_len "password" (password self) 1024 ].

Record LoginClientContext := mkLoginClientContext {
  ip_address : option string;
  user_agent : option string
}.

(** [LoginClientContext::from_request]: the address rocket sees, and at most 512
    characters of the User-Agent header. *)
Definition login_client_context (client_ip : option string) (request : Request)
    : LoginClientContext :=
  mkLoginClientContext client_ip (take_chars 512 <$> get_one request "User-Agent").

Record Cookie := mkCookie {
  cookie_name : string;
  cookie_value : string;
  cookie_path : string;
  http_only : bool;
  secure : bool;
  same_site : string;
  max_age : option Z
}.

(** What a handler does to the cookie jar. *)
Inductive CookieChange :=
  | AddCookie (cookie : Cookie)
  | RemoveCookie (cookie : Cookie).

Definition session_cookie (token : string) (config : AppConfig) : Cookie :=
  mkCookie (session_cookie_name config) token "/" true (auth_cookie_secure config) "Lax"
    (Some (auth_token_ttl_seconds config)).

Definition session_cookie_removal (name : string) (config : AppConfig) : Cookie :=
  mkCookie name "" "/" true (auth_cookie_secure config) "Lax" None.

Definition clear_legacy_session_cookie (config : AppConfig) : list CookieChange :=
  if environment config =s "production"
  then [RemoveCookie (session_cookie_removal SESSION_COOKIE_NAME config)] else [].

Definition clear_session_cookies (config : AppConfig) : list CookieChange :=
  RemoveCookie (session_cookie_removal (session_cookie_name config) config)
    :: clear_legacy_session_cookie config.

Record LoginThrottleBuckets := mkLoginThrottleBuckets {
  client_bucket : string;
  account_bucket : string
}.

(** Password hashing of the argon2 crate: [verify_password encoded supplied] is
    [None] when the encoded hash does not parse. *)
Class Argon2 := {
  dummy_password_hash : string;
  verify_password : string -> string -> option bool
}.

(** How the request's environment answers: the two pool checkouts, the wait for
    a verification permit, the blocking task, and the token drawn at random. *)
Inductive PermitOutcome := Permitted | PermitTimeout | PermitClosed.

Record LoginEnv := mkLoginEnv {
  first_checkout : bool;
  permit : PermitOutcome;
  verification_joined : bool;
  second_checkout : bool;
  fresh_token : string
}.

Record LoginResponse := mkLoginResponse {
  expires_at : Z;
  auth_method : string
}.

(** [Option::max]: [None] is the least. *)
Definition option_max (a b : option Z) : option Z :=
  match a, b with
  | Some x, Some y => Some (Z.max x y)
  | Some x, None => Some x
  | None, _ => b
  end.

Section Login.
Context {H : Sha256} {U : Unicode} {A2 : Argon2}.

Definition nul : string := String "000"%char EmptyString.

Definition login_throttle_bucket_hash (scope username : string) (client_ip : option string)
    : string :=
  let input := concat_str ["portal-login-throttle:v2"; nul; scope; nul; username] in
  sha256_hex (match client_ip with
              | Some client_ip => concat_str [input; nul; client_ip]
              | None => input
              end).

Definition login_throttle_buckets_of (username : string) (client_ip : option string)
    : LoginThrottleBuckets :=
  let username := to_lowercase (trim username) in
  let client_ip := default "unknown-client" client_ip in
  mkLoginThrottleBuckets
    (login_throttle_bucket_hash "username-client" username (Some client_ip))
    (login_throttle_bucket_hash "account" username None).

Definition establish_session (user_id : Z) (auth_method : string) (client : LoginClientContext)
    (token : string) (config : AppConfig) : Handler (string * Z * list CookieChange) :=
  now <- utc_now ;;
  ttl <- or_panic (duration_seconds (auth_token_ttl_seconds config)) ;;
  expires_at <- or_panic (datetime_add now ttl) ;;
  query (create_session
    (mkCreateSession user_id token expires_at (auth_max_active_sessions_per_user config)
       auth_method (ip_address client) (user_agent client))) ;;;
  ret (token, expires_at,
       clear_legacy_session_cookie config ++ [AddCookie (session_cookie token config)]).

Definition checkout (granted : bool) : Handler unit :=
  if granted then ret tt else fail ServiceUnavailable.

Definition acquire (p : PermitOutcome) : Handler unit :=
  match p with
  | Permitted => ret tt
  | PermitTimeout => fail (AuthenticationCapacityLimited 1)
  | PermitClosed => fail Internal
  end.

(** The first checkout: throttles, then the account. *)
Definition login_lookup (buckets : LoginThrottleBuckets) (username : string) (now : Z)
    : Handler (option Users.User) :=
  cutoff <- or_panic (match duration_days 1 with
                      | Some day => datetime_add now (- day)
                      | None => None
                      end) ;;
  catch (prune_before cutoff) (fun _ => ret tt) ;;;
  client_retry_after <- query (retry_after_seconds (client_bucket buckets) now) ;;
  account_retry_after <- query (retry_after_seconds (account_bucket buckets) now) ;;
  match option_max client_retry_after account_retry_after with
  | Some seconds => fail (RateLimited seconds)
  | None =>
      catch (UserRepository.find_by_username username) (fun r =>
        match r with
        | inr user => ret (Some user)
        | inl DNotFound => ret None
        | inl e => fail (from_diesel e)
        end)
  end.

(** The rejection of a wrong password or an unknown account. *)
Definition login_rejected (buckets : LoginThrottleBuckets) (config : AppConfig) {A}
    : Handler A :=
  now <- utc_now ;;
  client_retry_after <- query (record_failure (client_bucket buckets) now
    (auth_login_max_failures config) (auth_login_window_seconds config)
    (auth_login_lockout_seconds config)) ;;
  account_retry_after <- query (record_failure (account_bucket buckets) now
    (auth_login_account_max_failures config) (auth_login_window_seconds config)
    (auth_login_lockout_seconds config)) ;;
  match option_max client_retry_after account_retry_after with
  | Some seconds => fail (RateLimited seconds)
  | None => fail Unauthorized
  end.

Definition login (env : LoginEnv) (config : AppConfig) (client : LoginClientContext)
    (credentials : Credentials) : Handler (LoginResponse * list CookieChange) :=
  if negb (auth_password_login_enabled config) then fail Forbidden
  else
    credentials <- validate_request credentials ;;
    now <- utc_now ;;
    let username := canonical_username (username credentials) in
    let buckets := login_throttle_buckets_of username (ip_address client) in
    checkout (first_checkout env) ;;;
    user <- login_lookup buckets username now ;;
    let encoded_password :=
      match user with Some user => Users.password user | None => dummy_password_hash end in
    acquire (permit env) ;;;
    (if verification_joined env then ret tt else fail Internal) ;;;
    password_matches <- ok_or Internal (verify_password encoded_password (password credentials)) ;;
    checkout (second_checkout env) ;;;
    match (if password_matches : bool then user else None) with
    | None => login_rejected buckets config
    | Some user =>
        query (clear (client_bucket buckets)) ;;;
        query (clear (account_bucket buckets)) ;;;
        r <- establish_session (Users.id user) "password" client (fresh_token env) config ;;
        let '(_, expires_at, changes) := r in
        ret (mkLoginResponse expires_at "password", changes)
    end.

(** ** Sign-out *)

Definition logout (config : AppConfig) (auth : AuthenticatedUser) : Handler (list CookieChange) :=
  query (delete_by_token (auth_token auth)) ;;;
  ret (clear_session_cookies config).

Definition revoke_all_sessions (config : AppConfig) (auth : AuthenticatedUser)
    : Handler (Z * list CookieChange) :=
  revoked_sessions <- query (delete_by_user (Users.id (auth_user auth))) ;;
  ret (revoked_sessions, clear_session_cookies config).

End Login.

(** ** The signed-in user's view ([GET /me]) *)

Record MeCapabilities := mkMeCapabilities {
  manage_connectors : bool;
  view_audit : bool;
  manage_maintainers : bool;
  view_user_directory : bool
}.

Record MeMaintainerAccess := mkMeMaintainerAccess {
  maintainer_id : Z;
  role : string;
  can_write : bool;
  can_manage_members : bool
}.

Record MeResponse := mkMeResponse {
  me_id : Z;
  me_username : string;
  me_expires_at : Z;
  me_auth_method : string;
  me_roles : list string;
  me_capabilities : MeCapabilities;
  me_maintainer_access : list MeMaintainerAccess
}.

Definition build_me_response (auth : AuthenticatedUser) (memberships : list Member.MaintainerMember)
    : MeResponse :=
  let is_admin := auth_is_admin auth in
  let maintainer_access :=
    order_by (lex_leb [asc maintainer_id])
      (map (fun membership => mkMeMaintainerAccess (Member.maintainer_id membership)
              (Member.role membership)
              (is_admin || (Member.role membership =s "owner")
               || (Member.role membership =s "maintainer"))
              (is_admin || (Member.role membership =s "owner"))) memberships) in
  mkMeResponse (Users.id (auth_user auth)) (Users.username (auth_user auth))
    (Sess.expires_at (auth_session auth)) (Sess.auth_method (auth_session auth))
    (map Roles.code (auth_roles auth))
    (mkMeCapabilities is_admin is_admin is_admin
       (is_admin || existsb (fun m => Member.role m =s "owner") memberships))
    maintainer_access.

Definition me (auth : AuthenticatedUser) : Handler MeResponse :=
  memberships <- query (MaintainerMemberRepository.find_by_user (Users.id (auth_user auth))) ;;
  ret (build_me_response auth memberships).

(** ** Properties *)

Section GuardProperties.
Context {H : Sha256} {U : Unicode}.

(** The roles the database assigns to a user. *)
Definition roles_of (u : Users.User) (d : Db) : list Roles.Role :=
  List.filter (fun r => existsb (Z.eqb (Roles.id r))
    (map URole.role_id (List.filter (fun ur => URole.user_id ur =? Users.id u) (users_roles d))))
    (roles d).

(** How a request may present the token of a session. *)
Definition presents (config : AppConfig) (req : Request) (token : string) : Prop :=
  request_token req (session_cookie_name config) = Some (Bearer token) \/
  (request_token req (session_cookie_name config) = Some (CookieToken token) /\
   (safe_method (method req) = true \/ get_one req CSRF_HEADER_NAME = Some "1")).

Lemma roles_found u c o c' :
  RoleRepository.find_by_user u c = (o, c') ->
  db c' = db c /\ match o with Ok l => l = roles_of u (db c) | _ => True end.
Proof.
  unfold RoleRepository.find_by_user, bind.
  destruct (exec _ c) as [[l|e|] c1] eqn:E1; apply select_cases in E1 as (Hd & _ & Hl);
    [|by intros [= <- <-]..].
  intros E2. apply select_cases in E2 as (Hd2 & _ & H2). rewrite Hd2, Hd. split; [done|].
  destruct o; [|done..]. by rewrite H2, Hl, Hd.
Qed.

Lemma load_user_success token session c a c' :
  load_user token session c = (Ok (GSuccess a), c') ->
  db c' = db c /\ auth_session a = session /\ auth_token a = token /\
  auth_user a ∈ users (db c) /\ Users.id (auth_user a) = Sess.user_id session /\
  auth_roles a = roles_of (auth_user a) (db c).
Proof.
  unfold load_user, catch at 1.
  destruct (UserRepository.find _ c) as [[u|e|] c1] eqn:Eu; [|destruct e|done]; try done.
  - apply find_cases in Eu as (Hd & _ & Hu & Hid). unfold guarded, catch.
    destruct (RoleRepository.find_by_user u c1) as [[l|e|] c2] eqn:Er; [|done..].
    apply roles_found in Er as [Hd2 ->]. intros [= <- <-]. simpl in *.
    rewrite Hd2, Hd. split_and!; try done. lia.
  - unfold catch. by destruct (delete_by_token token c1) as [[]].
Qed.

Lemma authenticate_success token c a c' :
  authenticate token c = (Ok (GSuccess a), c') ->
  db c' = db c /\ auth_token a = token /\ auth_session a ∈ sessions (db c) /\
  Sess.token_hash (auth_session a) = session_token_hash token /\
  reading c < Sess.expires_at (auth_session a) /\
  auth_user a ∈ users (db c) /\ Users.id (auth_user a) = Sess.user_id (auth_session a) /\
  auth_roles a = roles_of (auth_user a) (db c).
Proof.
  unfold authenticate, catch at 1.
  destruct (find_by_token token c) as [[s|e|] c1] eqn:Es; [|by destruct e|done].
  apply find_cases in Es as (Hd & Hr & Hs & Ht%str_eqb_eq). unfold bind, utc_now.
  fold (reading c1). rewrite Hr. destruct (Z.leb_spec (Sess.expires_at s) (reading c)).
  - unfold catch. by destruct (delete_by_token token _) as [[]].
  - intros (Hd2 & -> & -> & Hu & Hid & Hroles)%load_user_success. simpl in *.
    rewrite Hd in *. by split_and!.
Qed.

(** C11: the guard admits a request only for a live session: the request
    presents the token in a bearer header, or in the session cookie of this
    environment together with a safe method or the CSRF header; the session
    with that token's hash is stored and has not expired; the user and the
    roles handed to the handler are the stored ones. Authentication writes
    nothing. *)
Theorem guard_admits_only_live_sessions st pool req c a c' :
  from_request st pool req c = (Ok (GSuccess a), c') ->
  db c' = db c /\
  (exists config, st = Some config /\ presents config req (auth_token a)) /\
  auth_session a ∈ sessions (db c) /\
  Sess.token_hash (auth_session a) = session_token_hash (auth_token a) /\
  reading c < Sess.expires_at (auth_session a) /\
  auth_user a ∈ users (db c) /\ Users.id (auth_user a) = Sess.user_id (auth_session a) /\
  auth_roles a = roles_of (auth_user a) (db c).
Proof.
  unfold from_request. destruct st as [config|]; [|done].
  destruct (request_token req (session_cookie_name config)) as [tok|] eqn:Et; [|done].
  destruct tok as [token|token]; simpl.
  - destruct pool as [|s|s]; [|by case_match|done].
    intros (-> & <- & ? & ? & ? & ? & ? & ?)%authenticate_success. split_and!; try done.
    exists config. split; [done|]. by left.
  - destruct (negb (safe_method (method req)) && _) eqn:Ec; [done|].
    destruct pool as [|s|s]; [|by case_match|done].
    intros (-> & <- & ? & ? & ? & ? & ? & ?)%authenticate_success. split_and!; try done.
    exists config. split; [done|]. right. split; [done|].
    destruct (safe_method (method req)); [by left|right]. simpl in Ec.
    by case_bool_decide.
Qed.

(** a state-changing request that authenticates with the session cookie and
    lacks the header [X-IDP-CSRF: 1] is refused with 403 before any statement
    reaches the database, whatever the state of the server. *)
Theorem csrf_checked_before_database config pool req token c :
  request_token req (session_cookie_name config) = Some (CookieToken token) ->
  safe_method (method req) = false -> get_one req CSRF_HEADER_NAME <> Some "1" ->
  from_request (Some config) pool req c = (Ok (GError 403 Forbidden), c).
Proof.
  intros Ht Hm Hc. unfold from_request. rewrite Ht, Hm. simpl. by rewrite bool_decide_eq_false_2.
Qed.

End GuardProperties.

Section LoginProperties.
Context {H : Sha256} {U : Unicode} {A2 : Argon2}.

(** No lockout of the bucket [h] is running at [now]. *)
Definition not_locked (h : string) (now : Z) (d : Db) : Prop :=
  forall b l, b ∈ login_throttle_buckets d -> Bucket.bucket_hash b = h ->
    Bucket.locked_until b = Some l -> l <= now.

Definition one_bucket_per_key (d : Db) : Prop := NoDup (map Bucket.bucket_hash (login_throttle_buckets d)).

Lemma still_locked_none now b :
  still_locked now (Bucket.locked_until b) = None -> forall l, Bucket.locked_until b = Some l -> l <= now.
Proof. unfold still_locked. intros E l Hl. rewrite Hl in E. case_match; [done|lia]. Qed.

(** Reading a throttle: an answer of [None] means no lockout. *)
Lemma retry_after_spec h now d0 X :
  one_bucket_per_key d0 -> (forall k, X (Some (DDatabaseError k)) d0) ->
  outer (fun d => d = d0) (retry_after_seconds h now)
    (fun o d => d = d0 /\ (o = None -> not_locked h now d0)) X.
Proof.
  intros Hn HX. eapply outer_bind with (R := fun o d => d = d0 /\ match o with
    | Some b => b ∈ login_throttle_buckets d0 /\ Bucket.bucket_hash b = h
    | None => forall b, b ∈ login_throttle_buckets d0 -> Bucket.bucket_hash b <> h end).
  - apply outer_optional, outer_find; simpl; [|intros E|done].
    + intros b Hb Hh%bucket_is_hash. done.
    + split; [done|]. intros b Hb Hh%bucket_is_hash. by rewrite (filter_nil_inv_b _ _ b E Hb) in Hh.
  - intros o. apply outer_ret. intros d [-> Ho]. split; [done|].
    intros E b l Hb Hh. destruct o as [b'|]; [|by destruct (Ho b Hb)].
    destruct Ho as [Hb' Hh']. rewrite (NoDup_map_inj Bucket.bucket_hash _ b b' Hn Hb Hb') by congruence.
    apply still_locked_none. by destruct (still_locked now (Bucket.locked_until b')).
Qed.

(** Pruning drops no running lockout. *)
Lemma prune_keeps_locked cutoff d0 :
  outer (fun d => d = d0) (prune_before cutoff)
    (fun _ d => exists l, d = d0 <| login_throttle_buckets := l |> /\
       sublist l (login_throttle_buckets d0) /\
       (forall b t, b ∈ login_throttle_buckets d0 -> Bucket.locked_until b = Some t -> cutoff <= t ->
          b ∈ l))
    (fun _ d => d = d0).
Proof.
  apply outer_affected, outer_exec; [|by intros ? ? ->].
  intros t n d n' a d' -> (-> & [= <-])%sql_delete_inv. eexists. split; [reflexivity|]. split.
  - simpl. induction (login_throttle_buckets d0) as [|b l IH]; simpl; [constructor|].
    destruct (negb _); by constructor.
  - intros b u Hb Hu Hc. apply elem_of_filter_b. split; [done|]. rewrite Hu.
    unfold lt_ts, is_null. simpl. replace (u <? cutoff) with false by lia.
    by destruct (Bucket.updated_at b <? cutoff).
Qed.

Lemma login_lookup_spec bs name now d0 :
  one_bucket_per_key d0 ->
  outer (fun d => d = d0) (login_lookup bs name now)
    (fun o d => users d = users d0 /\ sessions d = sessions d0 /\
       not_locked (client_bucket bs) now d0 /\ not_locked (account_bucket bs) now d0 /\
       (forall u, o = Some u -> u ∈ users d0 /\ to_lowercase (Users.username u) = canonical_username name))
    (fun _ d => sessions d = sessions d0).
Proof.
  intros Hn. unfold login_lookup. apply outer_or_panic; [|by intros ? ->].
  intros cutoff Hc. assert (Hcut : cutoff <= now).
  { assert (duration_days 1 = Some day) as E by reflexivity. rewrite E in Hc.
    unfold datetime_add in Hc. case_match; simplify_eq. unfold day, second. lia. }
  set (R := fun d => exists l, d = d0 <| login_throttle_buckets := l |> /\
       sublist l (login_throttle_buckets d0) /\
       (forall b t, b ∈ login_throttle_buckets d0 -> Bucket.locked_until b = Some t -> cutoff <= t -> b ∈ l)).
  eapply outer_bind with (R := fun _ => R).
  { eapply outer_catch; [apply prune_keeps_locked| | |by intros ? ->].
    - intros ?. by apply outer_ret.
    - intros ?. apply outer_ret. intros d ->. exists (login_throttle_buckets d0).
      split; [by destruct d0|done]. }
  intros ?. apply outer_at. intros d1 (l & -> & Hsub & Hkeep).
  set (d1 := d0 <| login_throttle_buckets := l |>).
  assert (Hn1 : one_bucket_per_key d1).
  { unfold one_bucket_per_key. simpl. eapply sublist_NoDup; [exact Hn|]. by apply fmap_sublist. }
  assert (Hback : forall h, not_locked h now d1 -> not_locked h now d0).
  { intros h Hl b t Hb Hh Ht. destruct (Z.le_gt_cases cutoff t); [|lia]. by apply (Hl b t); [eapply Hkeep|..]. }
  eapply outer_bind with (R := fun o d => d = d1 /\ (o = None -> not_locked (client_bucket bs) now d1)).
  { by apply outer_map_err, retry_after_spec. }
  intros o1. apply outer_at. intros ? [-> H1].
  eapply outer_bind with (R := fun o d => d = d1 /\ (o = None -> not_locked (account_bucket bs) now d1)).
  { by apply outer_map_err, retry_after_spec. }
  intros o2. apply outer_at. intros ? [-> H2].
  destruct (option_max o1 o2) eqn:Em; [by apply outer_fail; intros ? ->|].
  assert (o1 = None /\ o2 = None) as [-> ->] by by destruct o1, o2.
  eapply outer_catch with (R := fun u d => d = d1 /\ u ∈ users d0 /\
      to_lowercase (Users.username u) = canonical_username name) (X' := fun _ d => d = d1).
  - apply outer_find; [|done|done]. intros u Hu E%str_eqb_eq. done.
  - intros u. apply outer_ret. intros d (-> & Hu & Hname). split_and!; try done; [by apply Hback, H1|by apply Hback, H2|].
    by intros ? [= <-].
  - intros []; [|by apply outer_fail; intros ? ->..].
    apply outer_ret. intros d ->. split_and!; try done; [by apply Hback, H1|by apply Hback, H2].
  - by intros ? ->.
Qed.

(** Statements on the throttle leave the sessions alone. *)
Lemma record_failure_sessions h now mf w l s0 :
  preserves (fun d => sessions d = s0) (record_failure h now mf w l).
Proof.
  unfold record_failure, query_transaction. preserve.
  - apply preserves_exec. intros ? ? d ? ? d' Hd. unfold sql_insert_or_ignore.
    destruct (List.filter _ _); [|by intros [= _ _ <-]]. unfold sql_insert, checked. simpl.
    destruct (bucket_violated _ _); intros [=]; by subst.
  - apply preserves_exec. intros ? ? d ? ? d' Hd (_ & -> & _)%sql_update_inv. done.
Qed.

Lemma login_rejected_spec {A} bs config s0 :
  outer (fun d => sessions d = s0) (login_rejected bs config (A:=A)) (fun _ _ => False)
    (fun _ d => sessions d = s0).
Proof.
  assert (Hf : forall h now mf w l, outer (fun d => sessions d = s0)
    (query (record_failure h now mf w l)) (fun _ d => sessions d = s0) (fun _ d => sessions d = s0)).
  { intros. apply outer_preserves; [|by apply preserves_map_err, record_failure_sessions].
    apply tops_map_err. intros c Ht. by apply transaction_top. }
  apply outer_now. intros now. eapply outer_bind; [apply Hf|]. intros o1.
  eapply outer_bind; [apply Hf|]. intros o2. case_match; by apply outer_fail.
Qed.

Lemma clear_spec h s0 us :
  outer (fun d => sessions d = s0 /\ users d = us) (query (clear h))
    (fun _ d => sessions d = s0 /\ users d = us) (fun _ d => sessions d = s0).
Proof.
  apply outer_map_err, outer_affected, outer_exec; [|by intros ? ? [? _]].
  intros ? ? d ? ? d' Hd (_ & [= <-])%sql_delete_inv. done.
Qed.

Lemma create_session_outer s d0 :
  outer (fun d => d = d0) (create_session s)
    (fun r d => r ∈ sessions d /\ Sess.user_id r = cs_user_id s /\
       Sess.token_hash r = session_token_hash (cs_token s) /\ Sess.expires_at r = cs_expires_at s)
    (fun _ d => d = d0).
Proof.
  intros c Ht <-.
  destruct (decide (1 <= cs_max_active_sessions s <= 100)) as [Hm|Hm].
  - pose proof (create_session_effect s c (proj2 Ht) Hm) as He.
    assert (tops (create_session s)) as Htop.
    { unfold create_session. destruct (negb _); [by intros ? ?|]. intros ? ?. by apply transaction_top. }
    specialize (Htop c Ht). destruct (create_session s c) as [[r|e|] c']; [|done..].
    destruct He as (n & t & -> & ->). split; [done|]. split_and!; try done.
    apply elem_of_app. right. left.
  - unfold create_session. replace (negb _) with true by lia. done.
Qed.

Lemma checkout_decides b : decides (checkout b).
Proof. intros c. destruct b; eauto. Qed.

Lemma acquire_decides p : decides (acquire p).
Proof. intros c. destruct p; eauto. Qed.

Lemma establish_session_spec uid meth client token config d0 :
  outer (fun d => d = d0) (establish_session uid meth client token config)
    (fun r d => let '(_, ex, changes) := r in
       AddCookie (session_cookie token config) ∈ changes /\
       exists s, s ∈ sessions d /\ Sess.user_id s = uid /\
         Sess.token_hash s = session_token_hash token /\ Sess.expires_at s = ex)
    (fun _ d => d = d0).
Proof.
  apply outer_now. intros t. apply outer_or_panic; [|by intros ? ->]. intros ttl _.
  apply outer_or_panic; [|by intros ? ->]. intros ex _.
  eapply outer_bind; [apply outer_map_err, create_session_outer|]. intros s.
  apply outer_ret. intros d Hd. split; [apply elem_of_app; right; left|]. by exists s.
Qed.

(** C8: signing in by password opens a session only for the right password.
    When [login] answers, password sign-in is enabled, the named account exists
    and its stored hash verifies the supplied password, neither the client's
    nor the account's bucket was locked out, and the new session of that user
    is stored under the hash of the token that the cookie carries. In every
    other outcome the stored sessions are unchanged. *)
Theorem login_opens_session_only_for_password env config client cred c :
  top c -> one_bucket_per_key (db c) ->
  let name := canonical_username (username cred) in
  let bs := login_throttle_buckets_of name (ip_address client) in
  match login env config client cred c with
  | (Ok (resp, changes), c') =>
      auth_password_login_enabled config = true /\
      (exists u, u ∈ users (db c) /\
         to_lowercase (Users.username u) = canonical_username name /\
         verify_password (Users.password u) (password cred) = Some true /\
         exists s, s ∈ sessions (db c') /\ Sess.user_id s = Users.id u /\
           Sess.token_hash s = session_token_hash (fresh_token env) /\
           Sess.expires_at s = expires_at resp) /\
      not_locked (client_bucket bs) (reading c) (db c) /\
      not_locked (account_bucket bs) (reading c) (db c) /\
      AddCookie (session_cookie (fresh_token env) config) ∈ changes
  | (_, c') => sessions (db c') = sessions (db c)
  end.
Proof.
  intros Ht Hn name bs. unfold login. destruct (auth_password_login_enabled config); [|done].
  simpl. unfold validate_request, bind at 1. destruct (validate cred); [|done]. simpl.
  match goal with |- match bind utc_now ?k c with _ => _ end =>
    enough (outer (fun d => d = db c) (k (reading c)) (fun r d => let '(resp, changes) := r in
      (exists u, u ∈ users (db c) /\
         to_lowercase (Users.username u) = canonical_username name /\
         verify_password (Users.password u) (password cred) = Some true /\
         exists s, s ∈ sessions d /\ Sess.user_id s = Users.id u /\
           Sess.token_hash s = session_token_hash (fresh_token env) /\
           Sess.expires_at s = expires_at resp) /\
      not_locked (client_bucket bs) (reading c) (db c) /\
      not_locked (account_bucket bs) (reading c) (db c) /\
      AddCookie (session_cookie (fresh_token env) config) ∈ changes)
      (fun _ d => sessions d = sessions (db c))) as Ho;
    [pose proof (outer_at_reading k c _ _ Ht Ho) as Hr;
     destruct (bind utc_now k c) as [[[resp changes]|e|] c']; naive_solver|] end.
  cbv zeta. fold name. fold bs. set (now := reading c).
  apply outer_decides; [apply checkout_decides| |by intros ? ? ->]. intros ?.
  eapply outer_bind; [by apply login_lookup_spec|]. intros user. cbv zeta.
  apply outer_at. intros d1 (Hus & Hse & Hcl & Hac & Hu).
  apply outer_decides; [apply acquire_decides| |by intros ? ? ->]. intros ?.
  apply outer_decides; [intros ?; destruct (verification_joined env); eauto| |by intros ? ? ->]. intros ?.
  apply outer_ok_or; [|by intros ? ->]. intros matches Hv.
  apply outer_decides; [apply checkout_decides| |by intros ? ? ->]. intros ?.
  destruct matches; [destruct user as [u|]|].
  - destruct (Hu u eq_refl) as [Hin Hname].
    eapply outer_bind; [eapply outer_conseq; [apply (clear_spec _ (sessions d1) (users d1))|by intros ? ->|done|]|].
    { intros ? ? ->. congruence. }
    intros ?. eapply outer_bind; [eapply outer_conseq; [apply (clear_spec _ (sessions d1) (users d1))|done|done|]|].
    { intros ? ? ->. congruence. }
    intros ?. apply outer_at. intros d2 [Hs2 Hu2]. eapply outer_bind.
    { eapply outer_conseq; [apply (establish_session_spec (Users.id u) "password" client (fresh_token env) config d2)|done|done|].
      intros ? ? ->. congruence. }
    intros [[tok ex] changes]. apply outer_ret. intros d [Hck (s & Hs)]. split_and!; try done.
    exists u. split_and!; try done. by exists s.
  - eapply outer_conseq; [apply (login_rejected_spec bs config (sessions d1))|by intros ? ->|done|].
    intros ? ? ->. congruence.
  - eapply outer_conseq; [apply (login_rejected_spec bs config (sessions d1))|by intros ? ->|done|].
    intros ? ? ->. congruence.
Qed.
End LoginProperties.

(** ** Concrete runs *)

Definition ascii_unicode : Unicode := {| to_lowercase := to_ascii_lowercase |}.

Definition plain_argon2 : Argon2 :=
  {| dummy_password_hash := "$"; verify_password := fun encoded supplied => Some (encoded =s supplied) |}.

Definition dev_config : AppConfig := mkAppConfig "development" 3600 10 false 5 50 900 900 true None.

Definition live_db : Db :=
  empty_db <| users := [Users.mkUser 7 "ada" "secret" 0] |>
    <| sessions := [Sess.mkSession 1 7 "tok" 900 10 "password" 10 None None] |>.

Lemma guard_admits_only_live_sessions_witness :
  exists a c', @from_request plain_hash ascii_unicode (Some dev_config) PoolConnection
      (mkRequest Get [("Authorization", "Bearer tok")] []) (calm live_db 100 [] 3) =
      (Ok (GSuccess a), c') /\
    100 < Sess.expires_at (auth_session a) /\ auth_user a ∈ users live_db.
Proof.
  destruct (@from_request plain_hash ascii_unicode (Some dev_config) PoolConnection
      (mkRequest Get [("Authorization", "Bearer tok")] []) (calm live_db 100 [] 3)) as [o c'] eqn:E.
  pose proof E as E0. vm_compute in E. destruct o as [[a|s e|s]|e|]; try discriminate E.
  exists a, c'. split; [reflexivity|].
  destruct (@guard_admits_only_live_sessions plain_hash ascii_unicode _ _ _ _ _ _ E0)
    as (_ & _ & _ & _ & H1 & H2 & _). exact (conj H1 H2).
Defined.

Lemma csrf_checked_before_database_witness :
  @from_request plain_hash ascii_unicode (Some dev_config) PoolConnection
    (mkRequest Post [] [("idp_session", "tok")]) (calm live_db 100 [] 3) =
  (Ok (GError 403 Forbidden), calm live_db 100 [] 3).
Proof.
  apply (@csrf_checked_before_database plain_hash ascii_unicode dev_config PoolConnection
    (mkRequest Post [] [("idp_session", "tok")]) "tok").
  - vm_compute. reflexivity.
  - reflexivity.
  - vm_compute. discriminate.
Defined.

Lemma login_opens_session_only_for_password_witness :
  exists resp changes c',
    @login plain_hash ascii_unicode plain_argon2 (mkLoginEnv true Permitted true true "new")
      dev_config (mkLoginClientContext None None) (mkCredentials " Ada" "secret")
      (calm live_db 100 [] 3) = (Ok (resp, changes), c') /\
    AddCookie (session_cookie "new" dev_config) ∈ changes.
Proof.
  pose proof (@login_opens_session_only_for_password plain_hash ascii_unicode plain_argon2
    (mkLoginEnv true Permitted true true "new") dev_config (mkLoginClientContext None None)
    (mkCredentials " Ada" "secret") (calm live_db 100 [] 3) (conj eq_refl eq_refl) (NoDup_nil_2)) as H.
  destruct (@login plain_hash ascii_unicode plain_argon2 (mkLoginEnv true Permitted true true "new")
      dev_config (mkLoginClientContext None None) (mkCredentials " Ada" "secret")
      (calm live_db 100 [] 3)) as [o c'] eqn:E.
  vm_compute in E. destruct o as [[resp changes]|e|]; try discriminate E.
  exists resp, changes, c'. split; [reflexivity|].
  destruct H as (_ & _ & _ & _ & H). exact H.
Defined.
