(* ===== verification/Records.v ===== *)
(** The records connectors synchronise: the write operations of
    [WorkCardRepository], [CalendarEventRepository] and
    [NotificationRepository], and [ServiceRepository] with its health checks
    ([src/src/repositories.rs]). *)
From S2P Require Import Prelude Logic Text Models Schema Api.

Open Scope Z_scope.
Open Scope portal_scope.

(** The condition of [archive_missing_for_connector_run]. *)
Definition missing_from_run (connector_id run_id : Z) (connector archived seen : option Z) : bool :=
  holds (eq_int connector (Some connector_id)) && holds (is_null archived)
  && holds (tv_or (is_null seen) (ne_int seen (Some run_id))).

(** ** Work cards *)

Module WorkCardRepository.

Definition by_id (id : Z) (r : Card.WorkCard) : bool := Card.id r =? id.

(** The row an INSERT creates, and the changes of an UPDATE
    ([treat_none_as_null]). *)
Definition of_new (n : NewCard.NewWorkCard) (now id : Z) : Card.WorkCard :=
  Card.mkWorkCard id (NewCard.source n) (NewCard.external_id n) (NewCard.title n)
    (NewCard.status n) (NewCard.priority n) (NewCard.assignee n) (NewCard.project n)
    (NewCard.work_item_type n) (NewCard.assignee_source_id n) (NewCard.assignee_user_id n)
    (NewCard.due_at n) (NewCard.url n) now now (NewCard.connector_id n)
    (NewCard.owner_user_id n) (NewCard.maintainer_id n) (NewCard.source_updated_at n)
    (NewCard.last_seen_run_id n) (NewCard.archived_at n).

Definition with_new (n : NewCard.NewWorkCard) (now : Z) (r : Card.WorkCard) : Card.WorkCard :=
  (of_new n now (Card.id r)) <| Card.created_at := Card.created_at r |>.

Definition find (id : Z) : Query Card.WorkCard := first_row (exec (sql_select (by_id id))).

Definition find_by_source_external_id (source external_id : string) : Query Card.WorkCard :=
  first_row (exec (sql_select (fun r =>
    (Card.source r =s source) && holds (eq_text (Card.external_id r) (Some external_id))))).

Definition create (n : NewCard.NewWorkCard) : Query Card.WorkCard := exec (sql_insert (of_new n)).

Definition update (id : Z) (n : NewCard.NewWorkCard) : Query Card.WorkCard :=
  first_row (exec (sql_update (by_id id) (with_new n))).

Definition delete (id : Z) : Query Z := affected (exec (sql_delete (by_id id))).

Definition upsert_from_connector (n : NewCard.NewWorkCard) : Query Card.WorkCard :=
  match NewCard.external_id n with
  | Some external_id =>
      catch (find_by_source_external_id (NewCard.source n) external_id) (fun r =>
        match r with
        | inr existing => update (Card.id existing) n
        | inl DNotFound => create n
        | inl error => fail error
        end)
  | None => create n
  end.

Definition archive_missing_for_connector_run (connector_id run_id : Z) : Query Z :=
  now <- utc_now ;;
  affected (exec (sql_update (fun r =>
      missing_from_run connector_id run_id (Card.connector_id r) (Card.archived_at r)
        (Card.last_seen_run_id r))
    (fun _ r => r <| Card.archived_at := Some now |> <| Card.updated_at := now |>))).

End WorkCardRepository.

(** ** Calendar events *)

Module CalendarEventRepository.

Definition by_id (id : Z) (r : Event.CalendarEvent) : bool := Event.id r =? id.

Definition of_new (n : NewEvent.NewCalendarEvent) (now id : Z) : Event.CalendarEvent :=
  Event.mkCalendarEvent id (NewEvent.source n) (NewEvent.external_id n) (NewEvent.title n)
    (NewEvent.body n) (NewEvent.organizer n) (NewEvent.location n) (NewEvent.starts_at n)
    (NewEvent.ends_at n) (NewEvent.time_zone n) (NewEvent.is_all_day n) (NewEvent.is_cancelled n)
    (NewEvent.web_url n) (NewEvent.join_url n) (NewEvent.connector_id n)
    (NewEvent.owner_user_id n) (NewEvent.maintainer_id n) (NewEvent.source_updated_at n)
    (NewEvent.last_seen_run_id n) (NewEvent.archived_at n) now now.

Definition with_new (n : NewEvent.NewCalendarEvent) (now : Z) (r : Event.CalendarEvent)
    : Event.CalendarEvent :=
  (of_new n now (Event.id r)) <| Event.created_at := Event.created_at r |>.

Definition find (id : Z) : Query Event.CalendarEvent := first_row (exec (sql_select (by_id id))).

Definition find_by_source_external_id (source external_id : string)
    : Query Event.CalendarEvent :=
  first_row (exec (sql_select (fun r =>
    (Event.source r =s source) && (Event.external_id r =s external_id)))).

Definition create (n : NewEvent.NewCalendarEvent) : Query Event.CalendarEvent :=
  exec (sql_insert (of_new n)).

Definition update (id : Z) (n : NewEvent.NewCalendarEvent) : Query Event.CalendarEvent :=
  first_row (exec (sql_update (by_id id) (with_new n))).

Definition upsert_from_connector (n : NewEvent.NewCalendarEvent) : Query Event.CalendarEvent :=
  catch (find_by_source_external_id (NewEvent.source n) (NewEvent.external_id n)) (fun r =>
    match r with
    | inr existing => update (Event.id existing) n
    | inl DNotFound => create n
    | inl error => fail error
    end).

Definition archive_missing_for_connector_run (connector_id run_id : Z) : Query Z :=
  now <- utc_now ;;
  affected (exec (sql_update (fun r =>
      missing_from_run connector_id run_id (Event.connector_id r) (Event.archived_at r)
        (Event.last_seen_run_id r))
    (fun _ r => r <| Event.archived_at := Some now |> <| Event.updated_at := now |>))).

End CalendarEventRepository.

(** ** Notifications *)

Module NotificationRepository.

Definition by_id (id : Z) (r : Notif.Notification) : bool := Notif.id r =? id.

Definition of_new (n : NewNotif.NewNotification) (now id : Z) : Notif.Notification :=
  Notif.mkNotification id (NewNotif.source n) (NewNotif.title n) (NewNotif.body n)
    (NewNotif.severity n) (NewNotif.is_read n) (NewNotif.url n) now now (NewNotif.external_id n)
    (NewNotif.connector_id n) (NewNotif.owner_user_id n) (NewNotif.maintainer_id n)
    (NewNotif.source_updated_at n) (NewNotif.last_seen_run_id n) (NewNotif.archived_at n).

Definition with_new (n : NewNotif.NewNotification) (now : Z) (r : Notif.Notification)
    : Notif.Notification :=
  (of_new n now (Notif.id r)) <| Notif.created_at := Notif.created_at r |>.

Definition find (id : Z) : Query Notif.Notification := first_row (exec (sql_select (by_id id))).

Definition find_by_source_external_id (source external_id : string) : Query Notif.Notification :=
  first_row (exec (sql_select (fun r =>
    (Notif.source r =s source) && holds (eq_text (Notif.external_id r) (Some external_id))))).

Definition create (n : NewNotif.NewNotification) : Query Notif.Notification :=
  exec (sql_insert (of_new n)).

Definition update (id : Z) (n : NewNotif.NewNotification) : Query Notif.Notification :=
  first_row (exec (sql_update (by_id id) (with_new n))).

Definition delete (id : Z) : Query Z := affected (exec (sql_delete (by_id id))).

Definition upsert_from_connector (n : NewNotif.NewNotification) : Query Notif.Notification :=
  match NewNotif.external_id n with
  | Some external_id =>
      catch (find_by_source_external_id (NewNotif.source n) external_id) (fun r =>
        match r with
        | inr existing => update (Notif.id existing) n
        | inl DNotFound => create n
        | inl error => fail error
        end)
  | None => create n
  end.

Definition archive_missing_for_connector_run (connector_id run_id : Z) : Query Z :=
  now <- utc_now ;;
  affected (exec (sql_update (fun r =>
      missing_from_run connector_id run_id (Notif.connector_id r) (Notif.archived_at r)
        (Notif.last_seen_run_id r))
    (fun _ r => r <| Notif.archived_at := Some now |> <| Notif.updated_at := now |>))).

End NotificationRepository.

(** ** Services and their health checks *)

Module ServiceHealthCheckRepository.

Definition of_new (n : NewCheck.NewServiceHealthCheck) (now id : Z) : Check.ServiceHealthCheck :=
  Check.mkServiceHealthCheck id (NewCheck.service_id n) (NewCheck.connector_run_id n)
    (NewCheck.source n) (NewCheck.external_id n) (NewCheck.health_status n)
    (NewCheck.previous_health_status n) (NewCheck.checked_at n) (NewCheck.response_time_ms n)
    (NewCheck.message n) (NewCheck.raw_payload n) now.

Definition create (n : NewCheck.NewServiceHealthCheck) : Query Check.ServiceHealthCheck :=
  exec (sql_insert (of_new n)).

(** The inner join with the services, whose keys are unique. *)
Definition joined (keep : Svc.Service -> Check.ServiceHealthCheck -> bool) (d : Db)
    : list Check.ServiceHealthCheck :=
  List.filter (fun c => existsb (fun s => (Svc.id s =? Check.service_id c) && keep s c) (services d))
    (service_health_checks d).

Definition newest_first : Check.ServiceHealthCheck -> Check.ServiceHealthCheck -> bool :=
  lex_leb [desc Check.checked_at].

Definition find_recent_scoped (n since : Z) (maintainer_id : option Z) (source : option string)
    : Query (list Check.ServiceHealthCheck) :=
  l <- exec (sql_query (joined (fun s c =>
         (since <=? Check.checked_at c)
         && match maintainer_id with Some m => Svc.maintainer_id s =? m | None => true end
         && match source with Some x => Check.source c =s x | None => true end))) ;;
  ret (limit n (order_by newest_first l)).

Definition find_by_run (connector_run_id : Z) : Query (list Check.ServiceHealthCheck) :=
  l <- exec (sql_select (fun c =>
         holds (eq_int (Check.connector_run_id c) (Some connector_run_id)))) ;;
  ret (order_by newest_first l).

Definition find_recent_for_maintainers (n since : Z) (maintainer_ids : list Z)
    : Query (list Check.ServiceHealthCheck) :=
  match maintainer_ids with
  | [] => ret []
  | _ =>
      l <- exec (sql_query (joined (fun s c =>
             (since <=? Check.checked_at c)
             && existsb (Z.eqb (Svc.maintainer_id s)) maintainer_ids))) ;;
      ret (limit n (order_by newest_first l))
  end.

Definition delete_older_than (checked_before : Z) : Query Z :=
  affected (exec (sql_delete (fun c => Check.checked_at c <? checked_before))).

End ServiceHealthCheckRepository.

Module ServiceRepository.

Definition by_id (id : Z) (r : Svc.Service) : bool := Svc.id r =? id.

Definition of_new (n : NewSvc.NewService) (now id : Z) : Svc.Service :=
  Svc.mkService id (NewSvc.maintainer_id n) (NewSvc.slug n) (NewSvc.name n)
    (NewSvc.lifecycle_status n) (NewSvc.health_status n) (NewSvc.description n)
    (NewSvc.repository_url n) (NewSvc.dashboard_url n) (NewSvc.runbook_url n)
    (NewSvc.last_checked_at n) now now (NewSvc.source n) (NewSvc.external_id n).

Definition with_new (n : NewSvc.NewService) (now : Z) (r : Svc.Service) : Svc.Service :=
  (of_new n now (Svc.id r)) <| Svc.created_at := Svc.created_at r |>.

Definition newest_first : Svc.Service -> Svc.Service -> bool := lex_leb [desc Svc.updated_at].

Definition find (id : Z) : Query Svc.Service := first_row (exec (sql_select (by_id id))).

Definition find_multiple (n : Z) : Query (list Svc.Service) :=
  l <- exec (sql_select (fun _ => true)) ;; ret (limit n (order_by newest_first l)).

Definition find_for_maintainers (n : Z) (maintainer_ids : list Z) : Query (list Svc.Service) :=
  match maintainer_ids with
  | [] => ret []
  | _ =>
      l <- exec (sql_select (fun s => existsb (Z.eqb (Svc.maintainer_id s)) maintainer_ids)) ;;
      ret (limit n (order_by newest_first l))
  end.

Definition find_health_snapshot_scoped (n : Z) (maintainer_id : option Z) (source : option string)
    : Query (list Svc.Service) :=
  l <- exec (sql_select (fun s =>
         match maintainer_id with Some m => Svc.maintainer_id s =? m | None => true end
         && match source with Some x => Svc.source s =s x | None => true end)) ;;
  ret (limit n (order_by newest_first l)).

Definition create (n : NewSvc.NewService) : Query Svc.Service := exec (sql_insert (of_new n)).

Definition update (id : Z) (n : NewSvc.NewService) : Query Svc.Service :=
  first_row (exec (sql_update (by_id id) (with_new n))).

Definition delete (id : Z) : Query Z := affected (exec (sql_delete (by_id id))).

Definition upsert_from_connector_with_health_check (n : NewSvc.NewService)
    (connector_run_id : Z) (raw_payload : option string) : Query Svc.Service :=
  query_transaction (
    existing <- match NewSvc.external_id n with
                | Some external_id =>
                    optional (first_row (exec (sql_select (fun s =>
                      (Svc.source s =s NewSvc.source n)
                      && holds (eq_text (Svc.external_id s) (Some external_id))))))
                | None => ret None
                end ;;
    let previous_health_status := Svc.health_status <$> existing in
    service <- match existing with
               | Some existing => update (Svc.id existing) n
               | None => create n
               end ;;
    checked_at <- match Svc.last_checked_at service with
                  | Some t => ret t
                  | None => utc_now
                  end ;;
    ServiceHealthCheckRepository.create
      (NewCheck.mkNewServiceHealthCheck (Svc.id service) (Some connector_run_id)
         (Svc.source service) (Svc.external_id service) (Svc.health_status service)
         previous_health_status checked_at None None raw_payload) ;;;
    ret service).

End ServiceRepository.
