(* ===== verification/Sync.v ===== *)
(** What the connector runtime relies on from a table of synchronised records,
    as an interface, its three implementations (work cards, calendar events,
    notifications), and the reconciliation theorem proved once against the
    interface. *)
From S2P Require Import Prelude Logic Text Models Schema Api Records.

Open Scope Z_scope.
Open Scope portal_scope.

(** ** The interface *)

Class Synced (R N : Type) {T : Table Db R} := {
  s_id : R -> Z;
  s_source : R -> string;
  s_external : R -> option string;
  s_connector : R -> option Z;
  s_seen : R -> option Z;
  s_archived : R -> option Z;
  n_source : N -> string;
  n_external : N -> option string;
  n_connector : N -> option Z;
  n_seen : N -> option Z;
  n_archived : N -> option Z;
  s_of_new : N -> Z -> Z -> R;
  s_with_new : N -> Z -> R -> R;
  s_archive : Z -> R -> R;
  of_new_fields : forall n now id, let r := s_of_new n now id in
    s_id r = id /\ s_source r = n_source n /\ s_external r = n_external n /\
    s_connector r = n_connector n /\ s_seen r = n_seen n /\ s_archived r = n_archived n;
  with_new_fields : forall n now x, let r := s_with_new n now x in
    s_id r = s_id x /\ s_source r = n_source n /\ s_external r = n_external n /\
    s_connector r = n_connector n /\ s_seen r = n_seen n /\ s_archived r = n_archived n;
  archive_fields : forall now x, let r := s_archive now x in
    s_id r = s_id x /\ s_source r = s_source x /\ s_external r = s_external x /\
    s_connector r = s_connector x /\ s_seen r = s_seen x /\ s_archived r = Some now;
  insert_fresh : forall d l r, violated (set_rows (l ++ [r]) d) r = None ->
    s_id r ∉ map s_id l
}.

Section Operations.
Context {R N : Type} {T : Table Db R} {S : Synced R N}.

(** The row carries the external identity [(source, external_id)]. *)
Definition has_key (source external_id : string) (r : R) : bool :=
  (s_source r =s source) && holds (eq_text (s_external r) (Some external_id)).

Definition sync_create (n : N) : Query R := exec (sql_insert (s_of_new n)).

Definition sync_update (id : Z) (n : N) : Query R :=
  first_row (exec (sql_update (fun r => s_id r =? id) (s_with_new n))).

Definition sync_upsert (n : N) : Query R :=
  match n_external n with
  | Some external_id =>
      catch (first_row (exec (sql_select (has_key (n_source n) external_id)))) (fun r =>
        match r with
        | inr existing => sync_update (s_id existing) n
        | inl DNotFound => sync_create n
        | inl error => fail error
        end)
  | None => sync_create n
  end.

Definition sync_archive_missing (connector_id run_id : Z) : Query Z :=
  now <- utc_now ;;
  affected (exec (sql_update (fun r =>
      missing_from_run connector_id run_id (s_connector r) (s_archived r) (s_seen r))
    (fun _ => s_archive now))).

(** A complete snapshot: every item, then the reconciliation. *)
Definition sync_snapshot (connector_id run_id : Z) (ns : list N) : Query Z :=
  for_each ns tt (fun _ n => sync_upsert n ;;; ret tt) ;;;
  sync_archive_missing connector_id run_id.

End Operations.

(** ** The implementations *)

#[export] Program Instance cards_synced : Synced Card.WorkCard NewCard.NewWorkCard := {|
  s_id := Card.id; s_source := Card.source; s_external := Card.external_id;
  s_connector := Card.connector_id; s_seen := Card.last_seen_run_id; s_archived := Card.archived_at;
  n_source := NewCard.source; n_external := NewCard.external_id;
  n_connector := NewCard.connector_id; n_seen := NewCard.last_seen_run_id;
  n_archived := NewCard.archived_at;
  s_of_new := WorkCardRepository.of_new; s_with_new := WorkCardRepository.with_new;
  s_archive := fun now r => r <| Card.archived_at := Some now |> <| Card.updated_at := now |>
|}.
Next Obligation. done. Qed.
Next Obligation. done. Qed.
Next Obligation. done. Qed.
Next Obligation.
  intros d l r H. change (card_violated (d <| work_cards := l ++ [r] |>) r = None) in H.
  unfold card_violated in H. constraints H. by apply unique_id_fresh.
Qed.

#[export] Program Instance events_synced : Synced Event.CalendarEvent NewEvent.NewCalendarEvent := {|
  s_id := Event.id; s_source := Event.source; s_external := fun r => Some (Event.external_id r);
  s_connector := Event.connector_id; s_seen := Event.last_seen_run_id;
  s_archived := Event.archived_at;
  n_source := NewEvent.source; n_external := fun n => Some (NewEvent.external_id n);
  n_connector := NewEvent.connector_id; n_seen := NewEvent.last_seen_run_id;
  n_archived := NewEvent.archived_at;
  s_of_new := CalendarEventRepository.of_new; s_with_new := CalendarEventRepository.with_new;
  s_archive := fun now r => r <| Event.archived_at := Some now |> <| Event.updated_at := now |>
|}.
Next Obligation. done. Qed.
Next Obligation. done. Qed.
Next Obligation. done. Qed.
Next Obligation.
  intros d l r H. change (event_violated (d <| calendar_events := l ++ [r] |>) r = None) in H.
  unfold event_violated in H. constraints H. by apply unique_id_fresh.
Qed.

#[export] Program Instance notifications_synced
    : Synced Notif.Notification NewNotif.NewNotification := {|
  s_id := Notif.id; s_source := Notif.source; s_external := Notif.external_id;
  s_connector := Notif.connector_id; s_seen := Notif.last_seen_run_id;
  s_archived := Notif.archived_at;
  n_source := NewNotif.source; n_external := NewNotif.external_id;
  n_connector := NewNotif.connector_id; n_seen := NewNotif.last_seen_run_id;
  n_archived := NewNotif.archived_at;
  s_of_new := NotificationRepository.of_new; s_with_new := NotificationRepository.with_new;
  s_archive := fun now r => r <| Notif.archived_at := Some now |> <| Notif.updated_at := now |>
|}.
Next Obligation. done. Qed.
Next Obligation. done. Qed.
Next Obligation. done. Qed.
Next Obligation.
  intros d l r H. change (notification_violated (d <| notifications := l ++ [r] |>) r = None) in H.
  unfold notification_violated in H. constraints H. by apply unique_id_fresh.
Qed.

(** The repositories are the generic operations at their tables. *)
Lemma card_upsert_is_sync : WorkCardRepository.upsert_from_connector = sync_upsert.
Proof. reflexivity. Qed.

Lemma event_upsert_is_sync :
  forall n c, CalendarEventRepository.upsert_from_connector n c = sync_upsert n c.
Proof.
  intros n c. unfold CalendarEventRepository.upsert_from_connector, sync_upsert, catch. simpl.
  unfold CalendarEventRepository.find_by_source_external_id.
  rewrite (find_ext _ (has_key (NewEvent.source n) (NewEvent.external_id n)) c); [done|].
  intros r. unfold has_key. simpl. by destruct (str_eqb (Event.external_id r) _).
Qed.

Lemma notification_upsert_is_sync : NotificationRepository.upsert_from_connector = sync_upsert.
Proof. reflexivity. Qed.

(** ** What an upsert does *)

Section Properties.
Context {R N : Type} {T : Table Db R} {S : Synced R N}.

(** Ids are unique, and so are external identities. *)
Record identified (l : list R) : Prop := {
  unique_ids : NoDup (map s_id l);
  unique_keys : forall x y e, x ∈ l -> y ∈ l -> s_source x = s_source y ->
    s_external x = Some e -> s_external y = Some e -> x = y
}.

(** [r] holds the values of [n]. *)
Definition stored (n : N) (r : R) : Prop :=
  s_source r = n_source n /\ s_external r = n_external n /\
  s_connector r = n_connector n /\ s_seen r = n_seen n /\ s_archived r = n_archived n.

(** The tables before and after: [r] is the row of the item, the rest stays. *)
Record upserted (e : string) (n : N) (r : R) (l l' : list R) : Prop := {
  up_identified : identified l';
  up_stored : r ∈ l' /\ stored n r;
  up_rest : forall x, x ∈ l' -> x = r \/ (x ∈ l /\ has_key (n_source n) e x = false);
  up_kept : forall x, x ∈ l -> has_key (n_source n) e x = false -> x ∈ l'
}.

Lemma has_key_iff src e (r : R) :
  has_key src e r = true <-> s_source r = src /\ s_external r = Some e.
Proof.
  unfold has_key. rewrite andb_true_iff, str_eqb_eq. split.
  - intros [-> H]. split; [done|]. destruct (s_external r) as [x|]; [|done]. simpl in H.
    destruct (str_eqb x e) eqn:E; [|done]. apply str_eqb_eq in E as ->. done.
  - intros [-> ->]. simpl. by rewrite str_eqb_refl.
Qed.

Lemma stored_key n (r : R) e :
  stored n r -> n_external n = Some e -> has_key (n_source n) e r = true.
Proof. intros (Hs & He & _) E. apply has_key_iff. by rewrite He. Qed.

Lemma create_upserted e n now id l d :
  identified l -> n_external n = Some e -> (forall x, x ∈ l -> has_key (n_source n) e x = false) ->
  violated (set_rows (l ++ [s_of_new n now id]) d) (s_of_new n now id) = None ->
  upserted e n (s_of_new n now id) l (l ++ [s_of_new n now id]).
Proof.
  intros [Hid Hkey] He Hfree Hv. set (r := s_of_new n now id) in *.
  destruct (of_new_fields n now id) as (_ & Hst). fold r in Hst.
  assert (Hr : has_key (n_source n) e r = true) by by apply (stored_key n r e).
  split.
  - split.
    + rewrite map_app. apply NoDup_app. split_and!; [done| |apply NoDup_singleton].
      intros x Hx Hx'%list_elem_of_singleton. subst. by apply (insert_fresh d l r).
    + intros x y e' [Hx|Hx%list_elem_of_singleton]%elem_of_app
        [Hy|Hy%list_elem_of_singleton]%elem_of_app Hs Hxe Hye; subst; [by eapply Hkey| | |done].
      * exfalso. apply has_key_iff in Hr as [Hr1 Hr2]. specialize (Hfree x Hx).
        by rewrite (proj2 (has_key_iff _ _ x)) in Hfree; [|split; congruence].
      * exfalso. apply has_key_iff in Hr as [Hr1 Hr2]. specialize (Hfree y Hy).
        by rewrite (proj2 (has_key_iff _ _ y)) in Hfree; [|split; congruence].
  - split; [apply elem_of_app; right; left|done].
  - intros x [Hx|Hx%list_elem_of_singleton]%elem_of_app; [right; auto|by left].
  - intros x Hx _. apply elem_of_app. by left.
Qed.

Lemma update_upserted e n now x l :
  identified l -> n_external n = Some e -> x ∈ l -> has_key (n_source n) e x = true ->
  upserted e n (s_with_new n now x) l
    (map (fun r => if s_id r =? s_id x then s_with_new n now r else r) l).
Proof.
  intros [Hid Hkey] He Hx Hk. set (r := s_with_new n now x).
  destruct (with_new_fields n now x) as (Hrid & Hst). fold r in Hrid, Hst.
  assert (Hone : forall y, y ∈ l -> (s_id y =? s_id x) = true -> y = x).
  { intros y Hy E%Z.eqb_eq. by apply (NoDup_map_inj s_id l). }
  assert (Hin : forall y, y ∈ map (fun r => if s_id r =? s_id x then s_with_new n now r else r) l ->
     y = r \/ (y ∈ l /\ has_key (n_source n) e y = false)).
  { intros y [(z & Hz & E & ->)|[Hy E]]%(elem_of_update (fun r => s_id r =? s_id x) (s_with_new n now)).
    - left. by rewrite (Hone z Hz E).
    - right. split; [done|]. apply not_true_iff_false. intros [Hs Hext]%has_key_iff.
      apply has_key_iff in Hk as [Hs' Hext']. rewrite (Hkey y x e) in E; [|done..|congruence|done|done].
      lia. }
  split; [split|..].
  - rewrite (map_key_update s_id (fun r => s_id r =? s_id x)); [done|].
    intros y. apply with_new_fields.
  - intros y z e' Hy Hz Hs Hye Hze. pose proof (stored_key n r e Hst He) as [Hr1 Hr2]%has_key_iff.
    destruct (Hin y Hy) as [->|[Hyl Hyk]], (Hin z Hz) as [->|[Hzl Hzk]]; [done|..|by apply (Hkey y z e')].
    + rewrite (proj2 (has_key_iff _ _ z)) in Hzk; [done|]. split; congruence.
    + rewrite (proj2 (has_key_iff _ _ y)) in Hyk; [done|]. split; congruence.
  - split; [|done]. apply (elem_of_update (fun r => s_id r =? s_id x) (s_with_new n now)).
    left. exists x. split_and!; [done|lia|done].
  - exact Hin.
  - intros y Hy Hyk. apply (elem_of_update (fun r => s_id r =? s_id x) (s_with_new n now)).
    right. split; [done|]. apply not_true_iff_false. intros E. rewrite (Hone y Hy E) in Hyk. congruence.
Qed.

Lemma sync_upsert_effect e n d0 :
  identified (rows d0) -> n_external n = Some e ->
  hoare (fun d => d = d0) (sync_upsert n)
    (fun r d => upserted e n r (rows d0) (rows d)) (fun _ _ d => d = d0).
Proof.
  intros Hi He. unfold sync_upsert. rewrite He.
  eapply hoare_catch with (R := fun x d => d = d0 /\ x ∈ rows d0 /\ has_key (n_source n) e x = true)
    (X' := fun o ab d => d = d0 /\ (o = Some DNotFound -> ab = false /\
             forall x, x ∈ rows d0 -> has_key (n_source n) e x = false)); [| | | |by intros ?? []].
  - apply hoare_first_row, hoare_select; [|done].
    destruct (List.filter _ (rows d0)) as [|x l] eqn:E.
    + split; [done|]. intros _. split_and!; try done. intros x. by apply filter_nil_inv_b.
    + assert (x ∈ List.filter (has_key (n_source n) e) (rows d0)) as Hx by (rewrite E; left).
      by apply elem_of_filter_b in Hx as [??].
  - intros x. apply hoare_at. intros d (-> & Hx & Hk).
    apply hoare_first_row, hoare_update; [|done]. intros now d' -> _.
    rewrite (filter_key s_id) by (done || apply Hi). simpl. rewrite rows_set_rows.
    by apply update_upserted.
  - intros []; [|apply hoare_fail; by intros ? []..]. apply hoare_at. intros d [-> [_ Hfree]%(fun H => H eq_refl)].
    apply hoare_insert; [|done]. intros now id d' -> Hv. rewrite rows_set_rows.
    by eapply create_upserted.
  - intros [] c Hab [Hd HX]; [by destruct (HX eq_refl)|done..].
Qed.

(** ** Reconciliation *)

Section Snapshot.
Context (connector_id run_id : Z).

(** Items as the runtime builds them. *)
Definition snapshot_item (n : N) : Prop :=
  is_Some (n_external n) /\ n_connector n = Some connector_id /\ n_seen n = Some run_id /\
  n_archived n = None.

Definition same_key (n : N) (r : R) : Prop := s_source r = n_source n /\ s_external r = n_external n.

(** After the items [ns]: each has its live row, and only they carry the run. *)
Record imported (ns : list N) (l : list R) : Prop := {
  im_identified : identified l;
  im_live : forall n, n ∈ ns -> exists r, r ∈ l /\ same_key n r /\
    s_connector r = Some connector_id /\ s_seen r = Some run_id /\ s_archived r = None;
  im_seen : forall r, r ∈ l -> s_seen r = Some run_id -> exists n, n ∈ ns /\ same_key n r
}.

Lemma imported_one e ns n r l l' :
  imported ns l -> snapshot_item n -> n_external n = Some e -> upserted e n r l l' ->
  imported (ns ++ [n]) l'.
Proof.
  intros [_ Hlive Hseen] (_ & Hc & Hs & Ha) He [Hid [Hr Hst] Hrest Hkept].
  assert (Hlr : same_key n r /\ s_connector r = Some connector_id /\ s_seen r = Some run_id /\
                s_archived r = None).
  { destruct Hst as (H1 & H2 & H3 & H4 & H5). unfold same_key. split_and!; congruence. }
  split; [done|..].
  - intros m [Hm|Hm%list_elem_of_singleton]%elem_of_app; [|subst; by exists r].
    destruct (Hlive m Hm) as (x & Hx & Hmx & Hlx).
    destruct (has_key (n_source n) e x) eqn:E; [|exists x; by split; [apply Hkept|]].
    exists r. split_and!; try tauto. apply has_key_iff in E as [E1 E2].
    destruct Hmx as [M1 M2], Hlr as [[L1 L2] _]. split; congruence.
  - intros x Hx Hsx. destruct (Hrest x Hx) as [->|[Hxl _]].
    + exists n. split; [apply elem_of_app; right; left|tauto].
    + destruct (Hseen x Hxl Hsx) as (m & Hm & Hk). exists m. split; [apply elem_of_app; by left|done].
Qed.

Lemma imported_all todo done d0 :
  imported done (rows d0) -> Forall snapshot_item todo ->
  hoare (fun d => d = d0) (for_each todo tt (fun _ n => sync_upsert n ;;; ret tt))
    (fun _ d => imported (done ++ todo) (rows d)) (fun _ _ _ => True).
Proof.
  revert done d0. induction todo as [|n todo IH]; intros done d0 Hi Hall; simpl.
  - apply hoare_ret. intros d ->. by rewrite app_nil_r.
  - apply Forall_cons in Hall as [Hn Hall]. pose proof Hn as [[e He] _].
    eapply hoare_bind with (R := fun _ d => imported (done ++ [n]) (rows d)).
    + apply hoare_pure_after. eapply hoare_conseq; [apply (sync_upsert_effect e n d0); [apply Hi|done]|done| |done].
      intros r d Hu. exact (imported_one e done n r _ _ Hi Hn He Hu).
    + intros ?. apply hoare_at. intros d1 H1. replace (done ++ n :: todo) with ((done ++ [n]) ++ todo)
        by by rewrite <- app_assoc. destruct a. by apply (IH (done ++ [n]) d1).
Qed.

Lemma missing_iff (r : R) :
  missing_from_run connector_id run_id (s_connector r) (s_archived r) (s_seen r) = true <->
  s_connector r = Some connector_id /\ s_archived r = None /\ s_seen r <> Some run_id.
Proof.
  unfold missing_from_run. rewrite !andb_true_iff, holds_or.
  destruct (s_connector r) as [k|], (s_archived r), (s_seen r) as [s|]; simpl; split;
    try (destruct (Z.eqb_spec k connector_id)); try (destruct (Z.eqb_spec s run_id));
    simpl; naive_solver.
Qed.

Lemma archive_effect d0 ns :
  imported ns (rows d0) ->
  hoare (fun d => d = d0) (sync_archive_missing connector_id run_id)
    (fun count d =>
       imported ns (rows d) /\
       (forall r, r ∈ rows d -> s_connector r = Some connector_id -> s_archived r = None ->
          exists n, n ∈ ns /\ same_key n r) /\
       (forall r, r ∈ rows d0 -> s_connector r <> Some connector_id -> r ∈ rows d) /\
       count = Z.of_nat (length (List.filter (fun r => missing_from_run connector_id run_id
                 (s_connector r) (s_archived r) (s_seen r)) (rows d0))))
    (fun _ _ _ => True).
Proof.
  intros [[Hid Hkey] Hlive Hseen]. apply hoare_now. intros now.
  apply hoare_affected, hoare_update; [|done]. intros _ d' -> _. rewrite rows_set_rows, length_map.
  set (P := fun r => missing_from_run connector_id run_id (s_connector r) (s_archived r) (s_seen r)).
  assert (Hfrom : forall r, r ∈ map (fun r => if P r then s_archive now r else r) (rows d0) ->
     exists x, x ∈ rows d0 /\ s_id r = s_id x /\ s_source r = s_source x /\
       s_external r = s_external x /\ s_connector r = s_connector x /\ s_seen r = s_seen x /\
       ((P x = true /\ r = s_archive now x) \/ (P x = false /\ r = x))).
  { intros r [(x & Hx & HP & ->)|[Hr HP]]%elem_of_update.
    - exists x. destruct (archive_fields now x) as (? & ? & ? & ? & ? & _). split_and!; try done. by left.
    - exists r. split_and!; try done. by right. }
  split_and!; [split; [split|..]|..].
  - rewrite (map_key_update s_id P); [done|]. intros y. apply archive_fields.
  - intros y z e Hy Hz Hs Hye Hze.
    destruct (Hfrom y Hy) as (y0 & Hy0 & _ & Ys & Ye & _ & _ & Hyc),
      (Hfrom z Hz) as (z0 & Hz0 & _ & Zs & Ze & _ & _ & Hzc).
    assert (y0 = z0) as -> by (apply (Hkey y0 z0 e); congruence).
    destruct Hyc as [[? ->]|[? ->]], Hzc as [[? ->]|[? ->]]; congruence.
  - intros n Hn. destruct (Hlive n Hn) as (r & Hr & Hk & Hc & Hs & Ha). exists r. split_and!; try done.
    apply elem_of_update. right. split; [done|]. apply not_true_iff_false. unfold P. rewrite missing_iff. tauto.
  - intros r Hr Hs. destruct (Hfrom r Hr) as (x & Hx & _ & Xs & Xe & _ & Xseen & _).
    destruct (Hseen x Hx) as (n & Hn & Hk); [congruence|]. exists n. split; [done|].
    destruct Hk. split; congruence.
  - intros r Hr Hc Ha. destruct (Hfrom r Hr) as (x & Hx & _ & Xs & Xe & Xc & Xseen & [[HP E]|[HP E]]).
    + subst. destruct (archive_fields now x) as (_ & _ & _ & _ & _ & Har). congruence.
    + subst. apply Hseen; [done|]. destruct (decide (s_seen x = Some run_id)) as [|Hne]; [done|].
      assert (P x = true) by by apply missing_iff. congruence.
  - intros r Hr Hc. apply elem_of_update. right. split; [done|]. apply not_true_iff_false.
    unfold P. rewrite missing_iff. tauto.
  - done.
Qed.

Lemma snapshot_effect ns d0 :
  identified (rows d0) -> (forall r, r ∈ rows d0 -> s_seen r <> Some run_id) ->
  Forall snapshot_item ns ->
  hoare (fun d => d = d0) (sync_snapshot connector_id run_id ns)
    (fun _ d =>
       (forall n, n ∈ ns -> exists r, r ∈ rows d /\ same_key n r /\
          s_connector r = Some connector_id /\ s_seen r = Some run_id /\ s_archived r = None) /\
       (forall r, r ∈ rows d -> s_connector r = Some connector_id -> s_archived r = None ->
          exists n, n ∈ ns /\ same_key n r))
    (fun _ _ _ => True).
Proof.
  intros Hi Hfresh Hall.
  assert (H0 : imported [] (rows d0)).
  { split; [done|by intros n ?%elem_of_nil|]. intros r Hr Hs. by destruct (Hfresh r Hr). }
  eapply hoare_bind; [by apply (imported_all ns [] d0)|]. intros ?.
  apply hoare_at. intros d1 H1. eapply hoare_conseq; [by apply archive_effect|done| |done].
  intros k d ([_ Hlive _] & Hdead & _). done.
Qed.
End Snapshot.
End Properties.
