(* ===== verification/Connections.v ===== *)
(** Connectors, their configurations and workers: [ConnectorRepository],
    [ConnectorConfigRepository], [ConnectorWorkerRepository], the run item
    repositories and [MaintenanceRunRepository] of [src/src/repositories.rs]. *)
From S2P Require Import Prelude Logic Text Models Schema Api Access Runs Records.

Open Scope Z_scope.
Open Scope portal_scope.

(** The collation of the database orders texts. *)
Class Collation := { collate : string -> string -> comparison }.

Definition asc_text {C : Collation} {R} (f : R -> string) (x y : R) : comparison :=
  collate (f x) (f y).

(** ** Connectors *)

Module ConnectorRepository.

Definition from_source (source : string) (k : Connectors.Connector) : bool :=
  Connectors.source k =s source.

Definition of_new (n : NewConn.NewConnector) (now id : Z) : Connectors.Connector :=
  Connectors.mkConnector id (NewConn.source n) (NewConn.kind n) (NewConn.display_name n)
    (NewConn.status n) None None now now (NewConn.scope_type n) (NewConn.owner_user_id n)
    (NewConn.maintainer_id n).

Definition find_multiple_for_access {C : Collation} (n : Z) (access : RecordAccessScope)
    : Query (list Connectors.Connector) :=
  l <- exec (sql_select (fun k =>
         visible access (Connectors.owner_user_id k) (Connectors.maintainer_id k))) ;;
  ret (limit n (order_by (lex_leb [desc Connectors.updated_at; asc_text Connectors.display_name]) l)).

Definition find_by_source (source : string) : Query Connectors.Connector :=
  first_row (exec (sql_select (from_source source))).

Definition create (n : NewConn.NewConnector) : Query Connectors.Connector :=
  exec (sql_insert (of_new n)).

Definition find_or_create_default (source kind : string) : Query Connectors.Connector :=
  exec (sql_insert_or_ignore (from_source source)
    (of_new (NewConn.mkNewConnector source kind source "active" "global" None None))) ;;;
  find_by_source source.

Definition update_scope (source scope_type : string) (owner_user_id maintainer_id : option Z)
    : Query Connectors.Connector :=
  query_transaction (
    connector <- first_row (exec (sql_select (from_source source))) ;;
    connector <- first_row (exec (sql_update
                   (fun k => Connectors.id k =? Connectors.id connector) (fun now k =>
                     k <| Connectors.scope_type := scope_type |>
                       <| Connectors.owner_user_id := owner_user_id |>
                       <| Connectors.maintainer_id := maintainer_id |>
                       <| Connectors.updated_at := now |>))) ;;
    exec (sql_update (fun r => holds (eq_int (Card.connector_id r) (Some (Connectors.id connector))))
      (fun now r => r <| Card.owner_user_id := owner_user_id |>
                      <| Card.maintainer_id := maintainer_id |> <| Card.updated_at := now |>)) ;;;
    exec (sql_update (fun r => holds (eq_int (Notif.connector_id r) (Some (Connectors.id connector))))
      (fun now r => r <| Notif.owner_user_id := owner_user_id |>
                      <| Notif.maintainer_id := maintainer_id |> <| Notif.updated_at := now |>)) ;;;
    exec (sql_update (fun r => holds (eq_int (Event.connector_id r) (Some (Connectors.id connector))))
      (fun now r => r <| Event.owner_user_id := owner_user_id |>
                      <| Event.maintainer_id := maintainer_id |> <| Event.updated_at := now |>)) ;;;
    ret connector).

Definition update_by_source (source : string) (u : ConnUpdate.ConnectorUpdate)
    : Query Connectors.Connector :=
  first_row (exec (sql_update (from_source source) (fun now k =>
    k <| Connectors.kind := ConnUpdate.kind u |>
      <| Connectors.display_name := ConnUpdate.display_name u |>
      <| Connectors.status := ConnUpdate.status u |> <| Connectors.updated_at := now |>))).

Definition delete_by_source (source : string) : Query Z :=
  affected (exec (sql_delete (from_source source))).

Definition touch_run_state (source fallback_kind run_status : string) (finished_at : Z)
    : Query Connectors.Connector :=
  let connector_status := if run_status =s "failed" then "error" else "active" in
  let success_at := if run_status =s "success" then Some finished_at else None in
  catch (find_by_source source) (fun r =>
    match r with
    | inr _ =>
        match success_at with
        | Some _ =>
            first_row (exec (sql_update (from_source source) (fun now k =>
              k <| Connectors.status := connector_status |>
                <| Connectors.last_run_at := Some finished_at |>
                <| Connectors.last_success_at := success_at |>
                <| Connectors.updated_at := now |>)))
        | None =>
            first_row (exec (sql_update (from_source source) (fun now k =>
              k <| Connectors.status := connector_status |>
                <| Connectors.last_run_at := Some finished_at |>
                <| Connectors.updated_at := now |>)))
        end
    | inl DNotFound =>
        exec (sql_insert (fun now id =>
          Connectors.mkConnector id source fallback_kind source connector_status
            (Some finished_at) success_at now now "global" None None))
    | inl error => fail error
    end).

End ConnectorRepository.

(** ** Configurations *)

Module ConnectorConfigRepository.

Definition from_source (source : string) (k : Config.ConnectorConfig) : bool :=
  Config.source k =s source.

Definition find_by_source (source : string) : Query Config.ConnectorConfig :=
  first_row (exec (sql_select (from_source source))).

(** Due: enabled, scheduled, and its next run is not in the future. *)
Definition due (now : Z) (k : Config.ConnectorConfig) : bool :=
  Config.enabled k && holds (is_not_null (Config.schedule_cron k))
  && holds (tv_or (is_null (Config.next_run_at k)) (le_ts (Config.next_run_at k) (Some now))).

Definition find_due_for_schedule (now n : Z) : Query (list Config.ConnectorConfig) :=
  l <- exec (sql_select (due now)) ;;
  ret (limit n (order_by (lex_leb [asc_null Config.next_run_at]) l)).

Definition upsert_by_source (source : string) (u : ConfigUpdate.ConnectorConfigUpdate)
    : Query Config.ConnectorConfig :=
  next_run_at <- match ConfigUpdate.schedule_cron u with
                 | Some _ => now <- utc_now ;; ret (Some now)
                 | None => ret None
                 end ;;
  exec (sql_upsert (from_source source)
    (fun now id => Config.mkConnectorConfig id source (ConfigUpdate.target u)
       (ConfigUpdate.enabled u) (ConfigUpdate.schedule_cron u) (ConfigUpdate.config u)
       (ConfigUpdate.sample_payload u) now now None next_run_at None)
    (fun now k =>
       k <| Config.target := ConfigUpdate.target u |>
         <| Config.enabled := ConfigUpdate.enabled u |>
         <| Config.schedule_cron := ConfigUpdate.schedule_cron u |>
         <| Config.config := ConfigUpdate.config u |>
         <| Config.sample_payload := ConfigUpdate.sample_payload u |>
         <| Config.next_run_at := next_run_at |> <| Config.updated_at := now |>)).

Definition update_config (source config : string) : Query Config.ConnectorConfig :=
  first_row (exec (sql_update (from_source source) (fun now k =>
    k <| Config.config := config |> <| Config.updated_at := now |>))).

Definition mark_scheduled (source : string) (scheduled_at interval_seconds : Z)
    (run_id : option Z) : Query Config.ConnectorConfig :=
  next_run_at <- or_panic (after_seconds scheduled_at interval_seconds) ;;
  first_row (exec (sql_update (from_source source) (fun now k =>
    k <| Config.last_scheduled_at := Some scheduled_at |>
      <| Config.next_run_at := Some next_run_at |>
      <| Config.last_scheduled_run_id := run_id |> <| Config.updated_at := now |>))).

End ConnectorConfigRepository.

(** ** Workers *)

Module ConnectorWorkerRepository.

Definition upsert_heartbeat (h : Heartbeat.ConnectorWorkerHeartbeat)
    : Query Worker.ConnectorWorker :=
  now <- utc_now ;;
  exec (sql_upsert (fun w => Worker.worker_id w =s Heartbeat.worker_id h)
    (fun _ id => Worker.mkConnectorWorker id (Heartbeat.worker_id h) (Heartbeat.status h)
       (Heartbeat.scheduler_enabled h) (Heartbeat.retention_enabled h)
       (Heartbeat.current_run_id h) (Heartbeat.last_error h) (Heartbeat.started_at h) now now)
    (fun _ w =>
       w <| Worker.status := Heartbeat.status h |>
         <| Worker.scheduler_enabled := Heartbeat.scheduler_enabled h |>
         <| Worker.retention_enabled := Heartbeat.retention_enabled h |>
         <| Worker.current_run_id := Heartbeat.current_run_id h |>
         <| Worker.last_error := Heartbeat.last_error h |>
         <| Worker.last_seen_at := now |> <| Worker.updated_at := now |>)).

Definition find_recent (n : Z) : Query (list Worker.ConnectorWorker) :=
  l <- exec (sql_select (fun _ => true)) ;;
  ret (limit n (order_by (lex_leb [desc Worker.last_seen_at]) l)).

End ConnectorWorkerRepository.

(** ** Runs as a user may see them *)

Definition runs_for_access (access : RecordAccessScope)
    (keep : Run.ConnectorRun -> Connectors.Connector -> bool) (d : Db) : list Run.ConnectorRun :=
  List.filter (fun r => existsb (fun k => (Connectors.source k =s Run.source r) && keep r k
      && visible access (Connectors.owner_user_id k) (Connectors.maintainer_id k)) (connectors d))
    (connector_runs d).

Definition find_multiple_for_access (n : Z) (source target : option string)
    (access : RecordAccessScope) : Query (list Run.ConnectorRun) :=
  l <- exec (sql_query (runs_for_access access (fun r _ =>
         ConnectorRunRepository.opt_text_filter source (Run.source r)
         && ConnectorRunRepository.opt_text_filter target (Run.target r)))) ;;
  ret (limit n (order_by (lex_leb [desc Run.started_at]) l)).

Definition find_failed_for_access (n : Z) (maintainer_id : option Z) (source : option string)
    (access : RecordAccessScope) : Query (list Run.ConnectorRun) :=
  l <- exec (sql_query (runs_for_access access (fun r k =>
         one_of_texts (Run.status r) ["failed"; "partial_success"]
         && match maintainer_id with
            | Some m => holds (eq_int (Connectors.maintainer_id k) (Some m)) | None => true end
         && ConnectorRunRepository.opt_text_filter source (Run.source r)))) ;;
  ret (limit n (order_by (lex_leb [desc Run.started_at]) l)).

(** ** Items and errors of a run *)

Definition item_error_of (n : NewItemError.NewConnectorRunItemError) (now id : Z)
    : ItemError.ConnectorRunItemError :=
  ItemError.mkConnectorRunItemError id (NewItemError.connector_run_id n) (NewItemError.source n)
    (NewItemError.target n) (NewItemError.external_id n) (NewItemError.message n)
    (NewItemError.raw_item n) now.

Definition find_errors_by_run (connector_run_id : Z) : Query (list ItemError.ConnectorRunItemError) :=
  l <- exec (sql_select (fun e => ItemError.connector_run_id e =? connector_run_id)) ;;
  ret (order_by (lex_leb [asc ItemError.id]) l).

Definition create_many_errors (new_errors : list NewItemError.NewConnectorRunItemError)
    : Query (list ItemError.ConnectorRunItemError) :=
  match new_errors with
  | [] => ret []
  | _ => exec (sql_insert_many (map item_error_of new_errors))
  end.

Definition item_of (n : NewItem.NewConnectorRunItem) (now id : Z) : RunItem.ConnectorRunItem :=
  RunItem.mkConnectorRunItem id (NewItem.connector_run_id n) (NewItem.source n)
    (NewItem.target n) (NewItem.record_id n) (NewItem.external_id n) (NewItem.status n)
    (NewItem.snapshot n) now.

Definition find_items_by_run (connector_run_id : Z) : Query (list RunItem.ConnectorRunItem) :=
  l <- exec (sql_select (fun e => RunItem.connector_run_id e =? connector_run_id)) ;;
  ret (order_by (lex_leb [asc RunItem.id]) l).

Definition create_many_items (new_items : list NewItem.NewConnectorRunItem)
    : Query (list RunItem.ConnectorRunItem) :=
  match new_items with
  | [] => ret []
  | _ => exec (sql_insert_many (map item_of new_items))
  end.

(** ** Maintenance runs *)

Module MaintenanceRunRepository.

Definition of_new (n : NewMaintenance.NewMaintenanceRun) (now id : Z)
    : Maintenance.MaintenanceRun :=
  Maintenance.mkMaintenanceRun id (NewMaintenance.task n) (NewMaintenance.status n)
    (NewMaintenance.worker_id n) (NewMaintenance.started_at n) (NewMaintenance.finished_at n)
    (NewMaintenance.duration_ms n) (NewMaintenance.health_checks_deleted n)
    (NewMaintenance.connector_runs_deleted n) (NewMaintenance.audit_logs_deleted n)
    (NewMaintenance.error_message n) now.

Definition create (n : NewMaintenance.NewMaintenanceRun) : Query Maintenance.MaintenanceRun :=
  exec (sql_insert (of_new n)).

Definition find_recent (n : Z) (task : option string) : Query (list Maintenance.MaintenanceRun) :=
  l <- exec (sql_select (fun m =>
         match task with Some t => Maintenance.task m =s t | None => true end)) ;;
  ret (limit n (order_by (lex_leb [desc Maintenance.created_at]) l)).

Definition find_latest_success (task : string) : Query (option Maintenance.MaintenanceRun) :=
  optional (first_row (
    l <- exec (sql_select (fun m =>
           (Maintenance.task m =s task) && (Maintenance.status m =s "success"))) ;;
    ret (order_by (lex_leb [desc Maintenance.created_at]) l))).

End MaintenanceRunRepository.
