(* ===== verification/ConnectionSafety.v ===== *)
(** The guarantees of the connector repositories: a change of a connector's
    scope moves every record it imported, and what [mark_scheduled] does with
    the intervals the schedule syntax accepts. *)
From S2P Require Import Prelude Logic Text Models Schema Api Validation Schedule Access Runs.
From S2P Require Import RunSafety Records Connections.

Open Scope Z_scope.
Open Scope portal_scope.

Section Moved.
Context {R : Type} {T : Table Db R}.
Context (connector : R -> option Z) (owner maintainer : R -> option Z).

(** Every record of connector [k] has the scope, and the others stay. *)
Definition moved (k : Z) (o m : option Z) (d d' : Db) : Prop :=
  (forall r, r ∈ rows d' -> connector r = Some k -> owner r = o /\ maintainer r = m) /\
  (forall r, connector r <> Some k -> r ∈ rows d' <-> r ∈ rows d).

Lemma moved_by_update k o m (f : Z -> R -> R) c a c' :
  (forall now r, connector (f now r) = connector r /\ owner (f now r) = o /\ maintainer (f now r) = m) ->
  exec (sql_update (fun r => holds (eq_int (connector r) (Some k))) f) c = (Ok a, c') ->
  moved k o m (db c) (db c') /\ exists l, db c' = set_rows l (db c).
Proof.
  intros Hf (now & n & n' & (_ & Hd & _)%sql_update_inv)%exec_returns. rewrite Hd.
  split; [|by eexists]. unfold moved. rewrite rows_set_rows.
  assert (forall r, holds (eq_int (connector r) (Some k)) = true <-> connector r = Some k) as Hk.
  { intros r. destruct (connector r) as [x|]; simpl; [|done]. unfold holds. simpl.
    destruct (Z.eqb_spec x k); naive_solver. }
  assert (forall r, (if holds (eq_int (connector r) (Some k)) then f now r else r) =
    if bool_decide (connector r = Some k) then f now r else r) as Hif.
  { intros r. destruct (holds _) eqn:E; [apply Hk in E; by rewrite bool_decide_true|].
    rewrite bool_decide_false; [done|]. intros H%Hk. congruence. }
  split; intros r; rewrite list_elem_of_fmap; setoid_rewrite Hif.
  - intros (x & -> & Hx). case_bool_decide; [intros _; apply Hf|done].
  - intros Hn. split.
    + intros (x & -> & Hx). case_bool_decide as Hc; [|done].
      destruct (Hf now x) as [Hfc _]. by rewrite Hfc in Hn.
    + intros Hx. exists r. split; [|done]. by rewrite bool_decide_false.
Qed.
End Moved.

(** C20: changing the scope of a connector moves everything it imported in one
    transaction: afterwards the connector has the new owner and maintainer, and
    so does every work card, notification and calendar event of it, while the
    records of other connectors stay; on any failure nothing changes. *)
Theorem scope_update_moves_records source scope o m c :
  match ConnectorRepository.update_scope source scope o m c with
  | (Ok k, c') =>
      Connectors.owner_user_id k = o /\ Connectors.maintainer_id k = m /\
      k ∈ connectors (db c') /\
      (exists k0, k0 ∈ connectors (db c) /\ Connectors.source k0 = source /\
         Connectors.id k = Connectors.id k0) /\
      moved Card.connector_id Card.owner_user_id Card.maintainer_id (Connectors.id k) o m (db c) (db c') /\
      moved Notif.connector_id Notif.owner_user_id Notif.maintainer_id (Connectors.id k) o m (db c) (db c') /\
      moved Event.connector_id Event.owner_user_id Event.maintainer_id (Connectors.id k) o m (db c) (db c')
  | (_, c') => db c' = db c
  end.
Proof.
  unfold ConnectorRepository.update_scope, query_transaction.
  match goal with |- context [transaction _ ?b c] => set (body := b) end.
  pose proof (transaction_atomic id body c) as Hat.
  destruct (transaction id body c) as [[k|e|] c'] eqn:E; [|by apply Hat..].
  apply transaction_returns in E as (i & c1 & Hi & _ & Hb & Hdb).
  apply bind_returns in Hb as (k0 & c2 & (Hd2 & _ & Hk0 & Hs%str_eqb_eq)%find_cases & Hb).
  apply bind_returns in Hb as (k1 & c3 & Hu & Hb).
  apply bind_returns in Hb as (a1 & c4 & H1 & Hb).
  apply bind_returns in Hb as (a2 & c5 & H2 & Hb).
  apply bind_returns in Hb as (a3 & c6 & H3 & [= -> ->]).
  rewrite (Hdb (exec_ok_not_aborted _ _ _ _ H3)).
  apply update_returns in Hu as (now & x & Hx & Hid%Z.eqb_eq & Hk & Hd3).
  assert (Connectors.id k = Connectors.id x /\ Connectors.owner_user_id k = o /\
    Connectors.maintainer_id k = m) as (Hkid & Ho & Hm) by by rewrite Hk.
  apply (moved_by_update Card.connector_id Card.owner_user_id Card.maintainer_id _ o m)
    in H1 as [M1 [l1 E1]]; [|done].
  apply (moved_by_update Notif.connector_id Notif.owner_user_id Notif.maintainer_id _ o m)
    in H2 as [M2 [l2 E2]]; [|done].
  apply (moved_by_update Event.connector_id Event.owner_user_id Event.maintainer_id _ o m)
    in H3 as [M3 [l3 E3]]; [|done].
  rewrite E1 in M2. rewrite E2, E1 in M3. rewrite Hd3 in M1, M2, M3. rewrite Hd2, Hi in M1, M2, M3, Hx, Hd3.
  split_and!; try done.
  - rewrite E3, E2, E1, Hd3. simpl. apply list_elem_of_fmap. exists x. split; [|done].
    by rewrite Hid, Z.eqb_refl.
  - exists k0. rewrite Hi in Hk0. split_and!; [done..|congruence].
  - destruct M1 as [Ma Mb]. rewrite E3, E2. split; [exact Ma|exact Mb].
  - destruct M2 as [Ma Mb]. rewrite E3. split; [exact Ma|exact Mb].
Qed.

(** ** Scheduling *)

(** scheduling a connector defers it by its interval: the configuration of
    the source then says when and by which run it was scheduled, it is due at
    no earlier moment than [scheduled_at + interval], and configurations of
    other sources stay. *)
Theorem mark_scheduled_defers source t s run c k c' :
  ConnectorConfigRepository.mark_scheduled source t s run c = (Ok k, c') ->
  exists next, after_seconds t s = Some next /\
  k ∈ connector_configs (db c') /\ Config.source k = source /\
  Config.last_scheduled_at k = Some t /\ Config.last_scheduled_run_id k = run /\
  (forall now, ConnectorConfigRepository.due now k = true -> next <= now) /\
  (forall x, x ∈ connector_configs (db c) -> Config.source x <> source ->
     x ∈ connector_configs (db c')).
Proof.
  unfold ConnectorConfigRepository.mark_scheduled.
  intros (next & c1 & Hn & Hu)%bind_returns.
  destruct (after_seconds t s) as [next'|]; [|done]. injection Hn as <- <-. exists next'.
  apply update_returns in Hu as (now & x & Hx & Hs & Hk & Hd). split; [done|].
  assert (Config.source k = source) as Hks by (rewrite Hk; by apply str_eqb_eq in Hs).
  rewrite Hd. simpl. split_and!; try done; try by rewrite Hk.
  - apply list_elem_of_fmap. exists x. by rewrite Hs.
  - intros n. unfold ConnectorConfigRepository.due. rewrite Hk. simpl.
    destruct (Config.enabled x), (Config.schedule_cron x); simpl; try done.
    unfold holds, le_ts, tv_cmp. simpl. destruct (Z.leb_spec next' n); [lia|done].
  - intros y Hy Hne. apply list_elem_of_fmap. exists y.
    assert (ConnectorConfigRepository.from_source source y = false) as -> by by apply str_eqb_neq.
    done.
Qed.

Definition sample_config : Config.ConnectorConfig :=
  Config.mkConnectorConfig 1 "azure" "work_cards" true (Some "@hourly") "{}" "{}" 0 0 None None None.

Lemma mark_scheduled_defers_witness :
  exists k c', ConnectorConfigRepository.mark_scheduled "azure" 1000000 3600 None
      (calm (empty_db <| connectors := [sample_connector "azure"] |>
                      <| connector_configs := [sample_config] |>) 1000000 [] 3) = (Ok k, c') /\
    forall now, ConnectorConfigRepository.due now k = true -> 3601000000 <= now.
Proof.
  destruct (ConnectorConfigRepository.mark_scheduled "azure" 1000000 3600 None
      (calm (empty_db <| connectors := [sample_connector "azure"] |>
                      <| connector_configs := [sample_config] |>) 1000000 [] 3)) as [o c'] eqn:E.
  pose proof E as E'. vm_compute in E'. destruct o as [k|e|]; try discriminate E'. clear E'.
  exists k, c'. split; [reflexivity|].
  destruct (mark_scheduled_defers "azure" 1000000 3600 None _ k c' E)
    as (next & Hn & _ & _ & _ & _ & H & _).
  vm_compute in Hn. injection Hn as <-. exact H.
Defined.

(** the schedule syntax accepts intervals the scheduler cannot add to a
    date: [@every 9223372036854775807s] is a valid schedule, and recording that
    its connector was scheduled panics, whatever the connection. *)
Theorem accepted_schedule_panics source t run c :
  effective_schedule_interval_seconds "@every 9223372036854775807s" = Some i64_max /\
  ConnectorConfigRepository.mark_scheduled source t i64_max run c = (Panic, c).
Proof. split; vm_compute; reflexivity. Qed.
