(* ===== verification/Runtime.v ===== *)
(** Executing connector runs: [src/src/rocket_routes/connectors/runtime.rs] with
    the request types of [types.rs]. *)
From S2P Require Import Prelude Logic Text Models Schema Api Validation Schedule Runs Records.
From S2P Require Import Connections.

Open Scope Z_scope.
Open Scope portal_scope.

(** ** Import requests ([types.rs]) *)

Module WorkCardImport.
Record WorkCardImportItem := mkWorkCardImportItem {
  external_id : string;
  title : string;
  status : string;
  priority : string;
  assignee : option string;
  project : option string;
  work_item_type : option string;
  assignee_source_id : option string;
  assignee_user_id : option Z;
  due_at : option Z;
  source_updated_at : option Z;
  url : option string
}.
Record WorkCardImportRequest := mkWorkCardImportRequest {
  items : list WorkCardImportItem;
  snapshot_complete : option bool
}.
End WorkCardImport.

Module NotificationImport.
Record NotificationImportItem := mkNotificationImportItem {
  external_id : string;
  title : string;
  body : option string;
  severity : string;
  is_read : bool;
  url : option string
}.
Record NotificationImportRequest := mkNotificationImportRequest {
  items : list NotificationImportItem;
  snapshot_complete : option bool
}.
End NotificationImport.

Module CalendarEventImport.
Record CalendarEventImportItem := mkCalendarEventImportItem {
  external_id : string;
  title : string;
  body : option string;
  organizer : option string;
  location : option string;
  starts_at : option Z;
  ends_at : option Z;
  time_zone : option string;
  is_all_day : bool;
  is_cancelled : bool;
  web_url : option string;
  join_url : option string
}.
Record CalendarEventImportRequest := mkCalendarEventImportRequest {
  items : list CalendarEventImportItem;
  snapshot_complete : option bool
}.
End CalendarEventImport.

Module ServiceHealthImport.
Record ServiceHealthImportItem := mkServiceHealthImportItem {
  external_id : string;
  maintainer_id : Z;
  slug : string;
  name : string;
  lifecycle_status : string;
  health_status : string;
  description : option string;
  repository_url : option string;
  dashboard_url : option string;
  runbook_url : option string;
  last_checked_at : option Z
}.
Record ServiceHealthImportRequest := mkServiceHealthImportRequest {
  items : list ServiceHealthImportItem
}.
End ServiceHealthImport.

Record ConnectorImportError := mkConnectorImportError {
  e_external_id : option string;
  e_message : string;
  e_raw_item : option string
}.

Record ConnectorRunItemDraft := mkConnectorRunItemDraft {
  i_external_id : option string;
  i_record_id : option Z;
  i_status : string;
  i_snapshot : option string
}.

(** The imported records, which the source collects as JSON values. *)
Inductive Imported :=
  | ImportedCard (r : Card.WorkCard)
  | ImportedNotification (r : Notif.Notification)
  | ImportedEvent (r : Event.CalendarEvent)
  | ImportedService (r : Svc.Service).

Record ConnectorExecution := mkConnectorExecution {
  x_data : list Imported;
  x_items : list ConnectorRunItemDraft;
  x_errors : list ConnectorImportError;
  x_snapshot_complete : option bool;
  x_archived_count : Z
}.

#[export] Instance eta_ConnectorExecution : Eta ConnectorExecution := fun x =>
  mkConnectorExecution (x_data x) (x_items x) (x_errors x) (x_snapshot_complete x)
    (x_archived_count x).

Record ConnectorRunExecutionResponse := mkConnectorRunExecutionResponse {
  rs_source : string;
  rs_target : string;
  rs_imported : nat;
  rs_failed : nat;
  rs_run : Run.ConnectorRun;
  rs_data : list Imported;
  rs_items : list RunItem.ConnectorRunItem;
  rs_errors : list ConnectorImportError;
  rs_item_errors : list ItemError.ConnectorRunItemError
}.

(** ** Helpers *)

Definition connector_error (external_id : option string) (message : string)
    (raw_item : option string) : ConnectorImportError :=
  mkConnectorImportError external_id message raw_item.

Definition imported_run_item (external_id : option string) (record_id : option Z)
    (snapshot : option string) : ConnectorRunItemDraft :=
  mkConnectorRunItemDraft external_id record_id "imported" snapshot.

Definition should_reconcile (snapshot_complete : option bool) (failure_count : nat) : bool :=
  bool_decide (snapshot_complete = Some true) && (failure_count =? 0)%nat.

Definition connector_run_error_message (errors : list ConnectorImportError) : option string :=
  match errors with
  | [] => None
  | _ =>
      let message := join "; " (map (fun error =>
        concat_str [default "payload" (e_external_id error); ": "; e_message error]) errors) in
      Some (take_chars 4096 message)
  end.

Definition default_connector_kind (source target : string) : string :=
  let source := to_ascii_lowercase source in
  if contains source "azure" || contains source "devops" then "azure_devops"
  else if contains source "outlook" then "outlook"
  else if contains source "erp" then "erp"
  else if contains source "monitor" || (target =s "service_health") then "monitoring"
  else "custom".

(** ** Creating runs *)

Section Env.
Variable env_max_attempts : option string.

(** [CONNECTOR_RUN_MAX_ATTEMPTS] *)
Definition configured_connector_run_max_attempts : Z :=
  match env_max_attempts with
  | Some value =>
      match parse_i32 value with
      | Some value => if 0 <? value then value else 3
      | None => 3
      end
  | None => 3
  end.

Definition active_run_exists {A} (o : option A) : Handler A :=
  ok_or (validation_error "status" "an active run already exists for source and target") o.

Definition create_queued_run_with_parent (source target trigger : string)
    (payload : option string) (parent_run_id : option Z) : Handler Run.ConnectorRun :=
  started_at <- utc_now ;;
  let new_run :=
    NewRun.mkNewConnectorRun source target "queued" 0 0 0 None started_at None trigger payload
      None None 0 configured_connector_run_max_attempts started_at None None None None
      parent_run_id None 0 in
  match parent_run_id with
  | Some parent_run_id =>
      r <- query (ConnectorRunRepository.create_retry parent_run_id new_run) ;;
      active_run_exists r
  | None =>
      r <- query (ConnectorRunRepository.create_if_no_pending new_run) ;;
      active_run_exists r
  end.

Definition create_queued_run (source target trigger : string) (payload : option string)
    : Handler Run.ConnectorRun :=
  create_queued_run_with_parent source target trigger payload None.

Definition create_queued_retry_run (source target : string) (payload : option string)
    (parent_run_id : Z) : Handler Run.ConnectorRun :=
  create_queued_run_with_parent source target "retry" payload (Some parent_run_id).

End Env.

Definition create_running_run (source target trigger : string) (payload : option string)
    : Handler Run.ConnectorRun :=
  query (ConnectorRepository.find_or_create_default source (default_connector_kind source target)) ;;;
  started_at <- utc_now ;;
  let new_run :=
    NewRun.mkNewConnectorRun source target "running" 0 0 0 None started_at None trigger payload
      (Some started_at) None 1 1 started_at None (Some started_at) None None None None 0 in
  r <- query (ConnectorRunRepository.create_if_no_pending new_run) ;;
  active_run_exists r.

(** ** Finishing runs *)

Definition new_item_error (run : Run.ConnectorRun) (source target : string)
    (error : ConnectorImportError) : NewItemError.NewConnectorRunItemError :=
  NewItemError.mkNewConnectorRunItemError (Run.id run) source target (e_external_id error)
    (e_message error) (e_raw_item error).

Definition new_item (run : Run.ConnectorRun) (source target : string)
    (item : ConnectorRunItemDraft) : NewItem.NewConnectorRunItem :=
  NewItem.mkNewConnectorRunItem (Run.id run) source target (i_record_id item)
    (i_external_id item) (i_status item) (i_snapshot item).

Definition failed_item (run : Run.ConnectorRun) (source target : string)
    (error : ConnectorImportError) : NewItem.NewConnectorRunItem :=
  NewItem.mkNewConnectorRunItem (Run.id run) source target None (e_external_id error) "failed"
    (e_raw_item error).

Definition run_status (imported failed : nat) : string :=
  match imported, failed with
  | _, O => "success"
  | O, _ => "failed"
  | _, _ => "partial_success"
  end.

Definition finish_connector_run_for_owner (source target : string) (run : Run.ConnectorRun)
    (execution : ConnectorExecution) (worker_id : option string)
    : Handler ConnectorRunExecutionResponse :=
  finished_at <- utc_now ;;
  let started_at := default (Run.started_at run) (Run.claimed_at run) in
  let duration_ms := Z.max (num_milliseconds (finished_at - started_at)) 0 in
  let imported := length (x_data execution) in
  let failed := length (x_errors execution) in
  let status := run_status imported failed in
  let error_message := connector_run_error_message (x_errors execution) in
  run <- query (ConnectorRunRepository.finalize_if_active (Run.id run) worker_id
           (RunUpdate.mkConnectorRunStateUpdate status (count_as_i32 imported)
              (count_as_i32 failed) duration_ms error_message (Some finished_at)
              (x_snapshot_complete execution)
              (count_as_i32 (Z.to_nat (x_archived_count execution))))) ;;
  run <- ok_or ServiceUnavailable run ;;
  item_errors <- query (create_many_errors
                   (map (new_item_error run source target) (x_errors execution))) ;;
  items <- query (create_many_items
             (map (new_item run source target) (x_items execution)
              ++ map (failed_item run source target) (x_errors execution))) ;;
  query (ConnectorRepository.touch_run_state source (default_connector_kind source target)
           (Run.status run) finished_at) ;;;
  ret (mkConnectorRunExecutionResponse source target imported failed run (x_data execution)
         items (x_errors execution) item_errors).

Definition finish_connector_run (source target : string) (run : Run.ConnectorRun)
    (execution : ConnectorExecution) : Handler ConnectorRunExecutionResponse :=
  finish_connector_run_for_owner source target run execution None.

Definition cancelled_response_or_ownership_error (run_id : Z) (worker_id : option string)
    : Handler ConnectorRunExecutionResponse :=
  marked <- query (ConnectorRunRepository.mark_cancelled_if_requested run_id worker_id) ;;
  found <- query (ConnectorRunRepository.find_run run_id) ;;
  let run := default found marked in
  if negb (Run.status run =s "cancelled") then fail ServiceUnavailable
  else ret (mkConnectorRunExecutionResponse (Run.source run) (Run.target run) 0 0 run [] [] [] []).

Definition settle_cancelled_connector_run (run_id : Z) : Handler ConnectorRunExecutionResponse :=
  cancelled_response_or_ownership_error run_id None.

(** ** Importing items *)

(** The sanitized JSON snapshot of an item, at most 8192 characters
    ([raw_item_json]), which serde and [crypto.rs] produce. *)
Class RawItems := {
  raw_card : WorkCardImport.WorkCardImportItem -> option string;
  raw_notification : NotificationImport.NotificationImportItem -> option string;
  raw_event : CalendarEventImport.CalendarEventImportItem -> option string;
  raw_service : ServiceHealthImport.ServiceHealthImportItem -> option string
}.

Section Importing.
Context {DD : DieselDisplay} {RI : RawItems}.

Definition no_items (snapshot_complete : option bool) : ConnectorExecution :=
  mkConnectorExecution [] [] [] snapshot_complete 0.

Definition push_error (x : ConnectorExecution) (error : ConnectorImportError)
    : ConnectorExecution :=
  x <| x_errors := x_errors x ++ [error] |>.

Definition push_imported (x : ConnectorExecution) (item : ConnectorRunItemDraft) (r : Imported)
    : ConnectorExecution :=
  x <| x_items := x_items x ++ [item] |> <| x_data := x_data x ++ [r] |>.

(** The [match validate_request(..) { Ok(v) => match upsert(v).await { .. } .. }]
    every import loop has: the validated record is stored, and a rejected or
    failed item becomes an error of the run. *)
Definition store_item {N R} {V : Validate N} (upsert : N -> Query R)
    (as_item : R -> option string * Z) (as_imported : R -> Imported)
    (x : ConnectorExecution) (external_id : string) (raw_item : option string) (n : N)
    : Handler ConnectorExecution :=
  catch (validate_request n) (fun v =>
    match v with
    | inr v =>
        catch (upsert v) (fun r =>
          match r with
          | inr r =>
              let '(ext, id) := as_item r in
              ret (push_imported x (imported_run_item ext (Some id) raw_item) (as_imported r))
          | inl error =>
              ret (push_error x (connector_error (Some external_id) (diesel_to_string error) raw_item))
          end)
    | inl error =>
        ret (push_error x (connector_error (Some external_id) (api_error_message error) raw_item))
    end).

(** The reconciliation that ends an import. *)
Definition reconcile (archive_missing : Query Z) (x : ConnectorExecution)
    : Handler ConnectorExecution :=
  archived_count <- (if should_reconcile (x_snapshot_complete x) (length (x_errors x))
                     then query archive_missing else ret 0) ;;
  ret (x <| x_archived_count := archived_count |>).

Definition card_of_item (source : string) (connector : Connectors.Connector) (run_id : Z)
    (item : WorkCardImport.WorkCardImportItem) : NewCard.NewWorkCard :=
  NewCard.mkNewWorkCard source (Some (WorkCardImport.external_id item))
    (WorkCardImport.title item) (WorkCardImport.status item) (WorkCardImport.priority item)
    (WorkCardImport.assignee item) (WorkCardImport.project item)
    (WorkCardImport.work_item_type item) (WorkCardImport.assignee_source_id item)
    (WorkCardImport.assignee_user_id item) (WorkCardImport.due_at item) (WorkCardImport.url item)
    (Some (Connectors.id connector)) (Connectors.owner_user_id connector)
    (Connectors.maintainer_id connector) (WorkCardImport.source_updated_at item) (Some run_id) None.

Definition execute_work_card_items (source : string) (run_id : Z)
    (items : list WorkCardImport.WorkCardImportItem) (snapshot_complete : option bool)
    : Handler ConnectorExecution :=
  connector <- query (ConnectorRepository.find_by_source source) ;;
  x <- for_each items (no_items snapshot_complete) (fun x item =>
         store_item WorkCardRepository.upsert_from_connector
           (fun r => (Card.external_id r, Card.id r)) ImportedCard
           x (WorkCardImport.external_id item) (raw_card item)
           (card_of_item source connector run_id item)) ;;
  reconcile (WorkCardRepository.archive_missing_for_connector_run (Connectors.id connector) run_id) x.

Definition notification_of_item (source : string) (connector : Connectors.Connector) (run_id : Z)
    (item : NotificationImport.NotificationImportItem) : NewNotif.NewNotification :=
  NewNotif.mkNewNotification source (Some (NotificationImport.external_id item))
    (NotificationImport.title item) (NotificationImport.body item)
    (NotificationImport.severity item) (NotificationImport.is_read item)
    (NotificationImport.url item) (Some (Connectors.id connector))
    (Connectors.owner_user_id connector) (Connectors.maintainer_id connector) None (Some run_id)
    None.

Definition execute_notification_items (source : string) (run_id : Z)
    (items : list NotificationImport.NotificationImportItem) (snapshot_complete : option bool)
    : Handler ConnectorExecution :=
  connector <- query (ConnectorRepository.find_by_source source) ;;
  x <- for_each items (no_items snapshot_complete) (fun x item =>
         store_item NotificationRepository.upsert_from_connector
           (fun r => (Notif.external_id r, Notif.id r)) ImportedNotification
           x (NotificationImport.external_id item) (raw_notification item)
           (notification_of_item source connector run_id item)) ;;
  reconcile (NotificationRepository.archive_missing_for_connector_run (Connectors.id connector) run_id) x.

Definition event_of_item (source : string) (connector : Connectors.Connector) (run_id : Z)
    (item : CalendarEventImport.CalendarEventImportItem) (starts_at ends_at : Z)
    : NewEvent.NewCalendarEvent :=
  NewEvent.mkNewCalendarEvent source (CalendarEventImport.external_id item)
    (CalendarEventImport.title item) (CalendarEventImport.body item)
    (CalendarEventImport.organizer item) (CalendarEventImport.location item) starts_at ends_at
    (CalendarEventImport.time_zone item) (CalendarEventImport.is_all_day item)
    (CalendarEventImport.is_cancelled item) (CalendarEventImport.web_url item)
    (CalendarEventImport.join_url item) (Some (Connectors.id connector))
    (Connectors.owner_user_id connector) (Connectors.maintainer_id connector) None (Some run_id)
    None.

Definition execute_calendar_event_items (source : string) (run_id : Z)
    (items : list CalendarEventImport.CalendarEventImportItem) (snapshot_complete : option bool)
    : Handler ConnectorExecution :=
  connector <- query (ConnectorRepository.find_by_source source) ;;
  x <- for_each items (no_items snapshot_complete) (fun x item =>
         match CalendarEventImport.starts_at item, CalendarEventImport.ends_at item with
         | Some starts_at, Some ends_at =>
             store_item CalendarEventRepository.upsert_from_connector
               (fun r => (Some (Event.external_id r), Event.id r)) ImportedEvent
               x (CalendarEventImport.external_id item) (raw_event item)
               (event_of_item source connector run_id item starts_at ends_at)
         | _, _ =>
             ret (push_error x (connector_error (Some (CalendarEventImport.external_id item))
                    "starts_at and ends_at are required" (raw_event item)))
         end) ;;
  reconcile (CalendarEventRepository.archive_missing_for_connector_run (Connectors.id connector) run_id) x.

Definition service_of_item (source : string) (item : ServiceHealthImport.ServiceHealthImportItem)
    : NewSvc.NewService :=
  NewSvc.mkNewService source (Some (ServiceHealthImport.external_id item))
    (ServiceHealthImport.maintainer_id item) (ServiceHealthImport.slug item)
    (ServiceHealthImport.name item) (ServiceHealthImport.lifecycle_status item)
    (ServiceHealthImport.health_status item) (ServiceHealthImport.description item)
    (ServiceHealthImport.repository_url item) (ServiceHealthImport.dashboard_url item)
    (ServiceHealthImport.runbook_url item) (ServiceHealthImport.last_checked_at item).

Definition execute_service_health_items (source : string) (run_id : Z)
    (items : list ServiceHealthImport.ServiceHealthImportItem) : Handler ConnectorExecution :=
  for_each items (no_items None) (fun x item =>
    store_item (fun n => ServiceRepository.upsert_from_connector_with_health_check n run_id
                           (raw_service item))
      (fun r => (Svc.external_id r, Svc.id r)) ImportedService
      x (ServiceHealthImport.external_id item) (raw_service item) (service_of_item source item)).

(** ** Payloads *)

Definition failed_execution (message : string) : ConnectorExecution :=
  push_error (no_items None) (connector_error None message None).

Definition payload_error (error : string) : ConnectorExecution :=
  failed_execution (concat_str ["payload could not be decoded: "; error]).

(** serde_json: a payload is decoded to the request of its target, or refused
    with a message. *)
Class Payloads := {
  Value : Type;
  decode_events : Value -> string + CalendarEventImport.CalendarEventImportRequest;
  decode_cards : Value -> string + WorkCardImport.WorkCardImportRequest;
  decode_notifications : Value -> string + NotificationImport.NotificationImportRequest;
  decode_services : Value -> string + ServiceHealthImport.ServiceHealthImportRequest
}.

Context {PL : Payloads}.

Definition execute_payload_for_target (source target : string) (run_id : Z) (payload : Value)
    : Handler ConnectorExecution :=
  if target =s "calendar_events" then
    match decode_events payload with
    | inr r => execute_calendar_event_items source run_id (CalendarEventImport.items r)
                 (CalendarEventImport.snapshot_complete r)
    | inl error => ret (payload_error error)
    end
  else if target =s "work_cards" then
    match decode_cards payload with
    | inr r => execute_work_card_items source run_id (WorkCardImport.items r)
                 (WorkCardImport.snapshot_complete r)
    | inl error => ret (payload_error error)
    end
  else if target =s "notifications" then
    match decode_notifications payload with
    | inr r => execute_notification_items source run_id (NotificationImport.items r)
                 (NotificationImport.snapshot_complete r)
    | inl error => ret (payload_error error)
    end
  else if target =s "service_health" then
    match decode_services payload with
    | inr r => execute_service_health_items source run_id (ServiceHealthImport.items r)
    | inl error => ret (payload_error error)
    end
  else ret (failed_execution "target is not supported").

(** ** Executing a claimed run *)

(** What the adapter of a target returns ([connector_adapters.rs]): a fetched
    payload and a refreshed configuration. *)
Record AdapterResult := mkAdapterResult {
  ar_payload : option Value;
  ar_updated_config : option string
}.

(** What the runtime asks of the secrets and the adapters. Each method is the answer
    of one call; [portal_adapters] of Dispatch.v implements it with the code. *)
Class Adapters := {
  parse_json_payload : string -> Value;
  decrypt_connector_config : string -> string + string;
  encrypt_connector_config : string -> string + string;
  fetch_connector_payload : string -> string -> outcome string AdapterResult;
  normalize_legacy_connector_payload_timestamps : string -> Value -> Value
}.

Context {AD : Adapters}.

Definition load_payload_for_claimed_run (run : Run.ConnectorRun) : Handler Value :=
  connector <- query (ConnectorRepository.find_by_source (Run.source run)) ;;
  config <- query (ConnectorConfigRepository.find_by_source (Run.source run)) ;;
  if Connectors.status connector =s "paused" then fail (validation_error "status" "is paused")
  else if negb (Config.enabled config) then fail (validation_error "enabled" "must be true")
  else
    match Run.payload run with
    | Some payload => ret (parse_json_payload payload)
    | None =>
        match decrypt_connector_config (Config.config config) with
        | inl error => fail (validation_error "config" error)
        | inr config_json =>
            match fetch_connector_payload (Run.target run) config_json with
            | Err error => fail (validation_error "config" error)
            | Panic => panic
            | Ok adapter_result =>
                match ar_updated_config adapter_result with
                | Some updated_config =>
                    match encrypt_connector_config updated_config with
                    | inl error => fail (validation_error "config" error)
                    | inr encrypted =>
                        query (ConnectorConfigRepository.update_config (Run.source run) encrypted) ;;;
                        ret tt
                    end
                | None => ret tt
                end ;;;
                let payload := default (parse_json_payload (Config.sample_payload config))
                                 (ar_payload adapter_result) in
                ret (normalize_legacy_connector_payload_timestamps (Run.target run) payload)
            end
        end
    end.

Definition assert_active (run_id : Z) (worker_id : option string) : Handler unit :=
  active <- query (ConnectorRunRepository.execution_is_active run_id worker_id) ;;
  if active then ret tt else fail ServiceUnavailable.

Definition run_transaction (run : Run.ConnectorRun) (worker_id : option string)
    (prepared : ConnectorExecution + Value) : Handler ConnectorRunExecutionResponse :=
  api_transaction (
    assert_active (Run.id run) worker_id ;;;
    execution <- match prepared with
                 | inr payload => execute_payload_for_target (Run.source run) (Run.target run)
                                    (Run.id run) payload
                 | inl execution => ret execution
                 end ;;
    assert_active (Run.id run) worker_id ;;;
    finish_connector_run_for_owner (Run.source run) (Run.target run) run execution worker_id).

Definition execute_connector_run (run : Run.ConnectorRun) (worker_id : option string)
    : Handler ConnectorRunExecutionResponse :=
  active <- query (ConnectorRunRepository.execution_is_active (Run.id run) worker_id) ;;
  if negb active then cancelled_response_or_ownership_error (Run.id run) worker_id
  else
    prepared <- catch (load_payload_for_claimed_run run) (fun r =>
      match r with
      | inr payload => ret (inr payload)
      | inl error => ret (inl (failed_execution (api_error_message error)))
      end) ;;
    active <- query (ConnectorRunRepository.execution_is_active (Run.id run) worker_id) ;;
    if negb active then cancelled_response_or_ownership_error (Run.id run) worker_id
    else
      catch (run_transaction run worker_id prepared) (fun r =>
        match r with
        | inr response => ret response
        | inl error =>
            requested <- query (ConnectorRunRepository.cancellation_requested (Run.id run)) ;;
            if requested : bool
            then cancelled_response_or_ownership_error (Run.id run) worker_id
            else fail error
        end).

Definition execute_claimed_connector_run (run : Run.ConnectorRun)
    : Handler ConnectorRunExecutionResponse := execute_connector_run run None.

Definition execute_leased_connector_run (run : Run.ConnectorRun) (worker_id : string)
    : Handler ConnectorRunExecutionResponse := execute_connector_run run (Some worker_id).

End Importing.
