(* ===== verification/RuntimeSafety.v ===== *)
(** The guarantees of the connector runtime: complete snapshots reconcile,
    incomplete ones archive nothing, results commit only for the holder of the
    run, and what a failing item does to a run. *)
From S2P Require Import Prelude Logic Text Models Schema Api Validation Schedule Runs RunLifecycle.
From S2P Require Import RunSafety Records Sync Connections Runtime.

Open Scope Z_scope.
Open Scope portal_scope.

(** ** Import loops *)

Section Loop.
Context {DD : DieselDisplay} {RI : RawItems}.
Context {Item N R : Type} {T : Table Db R} {S : Synced R N} {V : Validate N}.
Context (upsert : N -> Query R) (as_item : R -> option string * Z) (as_imported : R -> Imported).
Context (ext : Item -> string) (raw : Item -> option string) (as_new : Item -> option N)
  (reject : string).

(** The body of the loops: an item that cannot become a record is an error. *)
Definition import_item (x : ConnectorExecution) (item : Item) : Handler ConnectorExecution :=
  match as_new item with
  | Some n => store_item upsert as_item as_imported x (ext item) (raw item) n
  | None => ret (push_error x (connector_error (Some (ext item)) reject (raw item)))
  end.

Lemma store_item_cases x e rw n c x' c' :
  store_item upsert as_item as_imported x e rw n c = (Ok x', c') ->
  x_snapshot_complete x' = x_snapshot_complete x /\
  ((exists r, validate n = [] /\ upsert n c = (Ok r, c') /\ x_errors x' = x_errors x) \/
   (exists err, x_errors x' = x_errors x ++ [err] /\
      (c' = c \/ exists e', upsert n c = (Err e', c')))).
Proof.
  unfold store_item, validate_request, catch at 1. destruct (validate n); simpl.
  - unfold catch. destruct (upsert n c) as [[r|e'|] c1] eqn:E; [|..|done].
    + destruct (as_item r). intros [= <- <-]. split; [done|]. left. eauto.
    + intros [= <- <-]. split; [done|]. right. eauto.
  - intros [= <- <-]. split; [done|]. right. eauto.
Qed.

Lemma import_item_cases x item c x' c' :
  import_item x item c = (Ok x', c') ->
  x_snapshot_complete x' = x_snapshot_complete x /\
  ((exists n r, as_new item = Some n /\ upsert n c = (Ok r, c') /\ x_errors x' = x_errors x) \/
   (exists err, x_errors x' = x_errors x ++ [err] /\
      (c' = c \/ exists n e', as_new item = Some n /\ upsert n c = (Err e', c')))).
Proof.
  unfold import_item. destruct (as_new item) as [n|].
  - intros [Hs [(r & _ & Hu & He)|(err & He & Hc)]]%store_item_cases; (split; [done|]).
    + left. eauto.
    + right. exists err. split; [done|]. destruct Hc as [|[e' ?]]; [by left|right; eauto].
  - intros [= <- <-]. split; [done|]. right. eauto.
Qed.

Lemma import_errors_grow items x c x' c' :
  for_each items x import_item c = (Ok x', c') ->
  x_snapshot_complete x' = x_snapshot_complete x /\ exists l, x_errors x' = x_errors x ++ l.
Proof.
  revert x c. induction items as [|item items IH]; simpl; intros x c.
  - intros [= <- <-]. split; [done|]. exists []. by rewrite app_nil_r.
  - unfold bind. destruct (import_item x item c) as [[x1|e|] c1] eqn:E; [|done..].
    intros [Hs [l Hl]]%IH. apply import_item_cases in E as [Hs1 Hc]. split; [congruence|].
    destruct Hc as [(n & r & _ & _ & He)|(err & He & _)]; rewrite Hl, He; [by exists l|].
    exists (err :: l). by rewrite <- app_assoc.
Qed.

(** A loop that reports no error stored every item, in order. *)
Lemma import_without_errors items x c x' c' :
  for_each items x import_item c = (Ok x', c') -> x_errors x' = [] ->
  exists ns, mapM as_new items = Some ns /\
    for_each ns tt (fun _ n => upsert n ;;; ret tt) c = (Ok tt, c').
Proof.
  revert x c. induction items as [|item items IH]; simpl; intros x c.
  - intros [= <- <-] _. by exists [].
  - unfold bind at 1. destruct (import_item x item c) as [[x1|e|] c1] eqn:E; [|done..].
    intros Hrest Hnone. destruct (IH _ _ Hrest Hnone) as (ns & Hns & Hloop).
    apply import_errors_grow in Hrest as [_ [l Hl]]. rewrite Hnone in Hl.
    symmetry in Hl. apply app_nil in Hl as [Hx1 _].
    apply import_item_cases in E as [_ [(n & r & Hn & Hu & _)|(err & He & _)]].
    + exists (n :: ns). rewrite Hn. simpl. rewrite Hns. split; [done|].
      simpl. unfold bind at 1 2. rewrite Hu. done.
    + rewrite He in Hx1. by destruct (x_errors x).
Qed.

(** ** Reconciliation through the loop *)

Lemma reconcile_complete k run x c x' c' :
  reconcile (sync_archive_missing k run) x c = (Ok x', c') -> x_errors x' = [] ->
  x_snapshot_complete x = Some true -> exists n, sync_archive_missing k run c = (Ok n, c') /\ x_errors x = [].
Proof.
  unfold reconcile, bind at 1. intros H Hnone Hcomp.
  destruct (should_reconcile (x_snapshot_complete x) (length (x_errors x))) eqn:Es.
  - unfold query, map_err, catch in H.
    destruct (sync_archive_missing k run c) as [[n|e|] c1]; [|done..].
    injection H as <- <-. by exists n.
  - injection H as <- <-. simpl in Hnone. rewrite Hnone, Hcomp in Es. done.
Qed.

(** A complete snapshot that imports without errors leaves exactly its items as
    the live records of the connector. *)
Lemma complete_snapshot k run items c x c' :
  aborted c = false -> (forall n c, upsert n c = sync_upsert n c) -> identified (rows (db c)) ->
  (forall r, r ∈ rows (db c) -> s_seen r <> Some run) ->
  (forall item n, as_new item = Some n -> snapshot_item k run n) ->
  (x0 <- for_each items (no_items (Some true)) import_item ;;
   reconcile (sync_archive_missing k run) x0) c = (Ok x, c') ->
  x_errors x = [] ->
  exists ns, mapM as_new items = Some ns /\
    (forall n, n ∈ ns -> exists r, r ∈ rows (db c') /\ same_key n r /\
       s_connector r = Some k /\ s_archived r = None) /\
    (forall r, r ∈ rows (db c') -> s_connector r = Some k -> s_archived r = None ->
       exists n, n ∈ ns /\ same_key n r).
Proof.
  intros Ha Hup Hid Hfresh Hitem Hrun Hnone. unfold bind in Hrun.
  destruct (for_each items _ import_item c) as [[x1|e|] c1] eqn:E1; [|done..].
  destruct (import_errors_grow _ _ _ _ _ E1) as [Hs1 _].
  destruct (reconcile_complete _ _ _ _ _ _ Hrun Hnone Hs1) as (n & Harch & Hx1).
  destruct (import_without_errors _ _ _ _ _ E1 Hx1) as (ns & Hns & Hloop).
  exists ns. split; [done|].
  assert (Hall : Forall (snapshot_item k run) ns).
  { apply mapM_Some in Hns. clear -Hns Hitem. induction Hns; constructor; eauto. }
  pose proof (snapshot_effect k run ns (db c) Hid Hfresh Hall c Ha eq_refl) as H.
  rewrite (for_each_ext _ _ (fun _ n => sync_upsert n ;;; ret tt)) in Hloop
    by (intros; unfold bind; by rewrite Hup).
  unfold sync_snapshot, bind at 1 in H. rewrite Hloop, Harch in H.
  destruct H as [_ [H1 H2]]. split; [|done].
  intros m Hm. destruct (H1 m Hm) as (r & ? & ? & ? & _ & ?). eauto.
Qed.

(** ** Incomplete snapshots *)



End Loop.

(** ** Complete snapshots *)

Lemma connector_found source c k c' :
  query (ConnectorRepository.find_by_source source) c = (Ok k, c') ->
  db c' = db c /\ aborted c' = false /\ k ∈ connectors (db c) /\ Connectors.source k = source.
Proof.
  unfold query, map_err, catch.
  destruct (ConnectorRepository.find_by_source source c) as [[k'|e|] c1] eqn:E; [|done..].
  intros [= <- <-]. pose proof E as (Hd & _ & Hk & Hs%str_eqb_eq)%find_cases. split_and!; try done.
  revert E. unfold ConnectorRepository.find_by_source, first_row, bind.
  destruct (exec _ c) as [[l|e|] c2] eqn:E2; [|done..]. apply exec_ok_not_aborted in E2.
  destruct l; intros [=]; by subst.
Qed.

Lemma mapM_total {A B} (f : A -> B) (l : list A) ns :
  mapM (fun x => Some (f x)) l = Some ns -> ns = map f l.
Proof.
  revert ns. induction l as [|x l IH]; simpl; intros ns.
  - by intros [= <-].
  - destruct (mapM _ l) as [ms|]; [|done]. intros [= <-]. by rewrite (IH ms).
Qed.

Section Snapshots.
Context {DD : DieselDisplay} {RI : RawItems}.

(** C6: a work-card import that declares its snapshot complete and reports no
    error makes the connector's live cards exactly the snapshot: every item has
    a live card of the connector, and every live card of the connector is one
    of the items; cards missing from the snapshot are archived. *)
Theorem complete_card_snapshot_reconciles source run items c x c' :
  aborted c = false -> identified (work_cards (db c)) ->
  (forall r, r ∈ work_cards (db c) -> Card.last_seen_run_id r <> Some run) ->
  execute_work_card_items source run items (Some true) c = (Ok x, c') -> x_errors x = [] ->
  exists k, k ∈ connectors (db c) /\ Connectors.source k = source /\
    (forall item, item ∈ items -> exists r, r ∈ work_cards (db c') /\
       Card.source r = source /\ Card.external_id r = Some (WorkCardImport.external_id item) /\
       Card.connector_id r = Some (Connectors.id k) /\ Card.archived_at r = None) /\
    (forall r, r ∈ work_cards (db c') -> Card.connector_id r = Some (Connectors.id k) ->
       Card.archived_at r = None -> exists item, item ∈ items /\
       Card.external_id r = Some (WorkCardImport.external_id item)).
Proof.
  intros Ha Hid Hfresh. unfold execute_work_card_items, bind at 1.
  destruct (query _ c) as [[k|e|] c1] eqn:Ek; [|done..]. intros Hrun Hnone.
  apply connector_found in Ek as (Hd & Ha1 & Hk & Hs). exists k. split; [done|]. split; [done|].
  rewrite <- Hd in Hid, Hfresh.
  destruct (complete_snapshot (R:=Card.WorkCard) WorkCardRepository.upsert_from_connector
    (fun r => (Card.external_id r, Card.id r)) ImportedCard WorkCardImport.external_id raw_card
    (fun item => Some (card_of_item source k run item)) "" (Connectors.id k) run items c1 x c'
    Ha1 ltac:(done) Hid Hfresh) as (ns & Hns & H1 & H2); [|exact Hrun|done|].
  { intros item n [= <-]. split_and!; [by eexists|done..]. }
  apply mapM_total in Hns as ->. split.
  - intros item Hi. destruct (H1 (card_of_item source k run item)) as (r & Hr & [K1 K2] & Hc & Har).
    { apply list_elem_of_fmap. eauto. } exists r. done.
  - intros r Hr Hc Har. destruct (H2 r Hr Hc Har) as (n & Hn & [_ K2]).
    apply list_elem_of_fmap in Hn as (item & -> & Hi). exists item. done.
Qed.

(** the same for notification imports. *)
Theorem complete_notification_snapshot_reconciles source run items c x c' :
  aborted c = false -> identified (notifications (db c)) ->
  (forall r, r ∈ notifications (db c) -> Notif.last_seen_run_id r <> Some run) ->
  execute_notification_items source run items (Some true) c = (Ok x, c') -> x_errors x = [] ->
  exists k, k ∈ connectors (db c) /\ Connectors.source k = source /\
    (forall item, item ∈ items -> exists r, r ∈ notifications (db c') /\
       Notif.source r = source /\ Notif.external_id r = Some (NotificationImport.external_id item) /\
       Notif.connector_id r = Some (Connectors.id k) /\ Notif.archived_at r = None) /\
    (forall r, r ∈ notifications (db c') -> Notif.connector_id r = Some (Connectors.id k) ->
       Notif.archived_at r = None -> exists item, item ∈ items /\
       Notif.external_id r = Some (NotificationImport.external_id item)).
Proof.
  intros Ha Hid Hfresh. unfold execute_notification_items, bind at 1.
  destruct (query _ c) as [[k|e|] c1] eqn:Ek; [|done..]. intros Hrun Hnone.
  apply connector_found in Ek as (Hd & Ha1 & Hk & Hs). exists k. split; [done|]. split; [done|].
  rewrite <- Hd in Hid, Hfresh.
  destruct (complete_snapshot (R:=Notif.Notification) NotificationRepository.upsert_from_connector
    (fun r => (Notif.external_id r, Notif.id r)) ImportedNotification NotificationImport.external_id
    raw_notification (fun item => Some (notification_of_item source k run item)) ""
    (Connectors.id k) run items c1 x c' Ha1 ltac:(done) Hid Hfresh)
    as (ns & Hns & H1 & H2); [|exact Hrun|done|].
  { intros item n [= <-]. split_and!; [by eexists|done..]. }
  apply mapM_total in Hns as ->. split.
  - intros item Hi. destruct (H1 (notification_of_item source k run item)) as (r & Hr & [K1 K2] & Hc & Har).
    { apply list_elem_of_fmap. eauto. } exists r. done.
  - intros r Hr Hc Har. destruct (H2 r Hr Hc Har) as (n & Hn & [_ K2]).
    apply list_elem_of_fmap in Hn as (item & -> & Hi). exists item. done.
Qed.

Definition event_of (source : string) (k : Connectors.Connector) (run : Z)
    (item : CalendarEventImport.CalendarEventImportItem) : option NewEvent.NewCalendarEvent :=
  match CalendarEventImport.starts_at item, CalendarEventImport.ends_at item with
  | Some s, Some e => Some (event_of_item source k run item s e)
  | _, _ => None
  end.

Lemma event_of_fields source k run item n :
  event_of source k run item = Some n ->
  snapshot_item (Connectors.id k) run n /\ NewEvent.source n = source /\
  NewEvent.external_id n = CalendarEventImport.external_id item.
Proof.
  unfold event_of. repeat case_match; try done. intros [= <-].
  split_and!; [by eexists|done..].
Qed.

(** the same for calendar imports, where an item without a start or an end
    is an error of the run. *)
Theorem complete_event_snapshot_reconciles source run items c x c' :
  aborted c = false -> identified (calendar_events (db c)) ->
  (forall r, r ∈ calendar_events (db c) -> Event.last_seen_run_id r <> Some run) ->
  execute_calendar_event_items source run items (Some true) c = (Ok x, c') -> x_errors x = [] ->
  exists k, k ∈ connectors (db c) /\ Connectors.source k = source /\
    (forall item, item ∈ items -> exists r, r ∈ calendar_events (db c') /\
       Event.source r = source /\ Event.external_id r = CalendarEventImport.external_id item /\
       Event.connector_id r = Some (Connectors.id k) /\ Event.archived_at r = None) /\
    (forall r, r ∈ calendar_events (db c') -> Event.connector_id r = Some (Connectors.id k) ->
       Event.archived_at r = None -> exists item, item ∈ items /\
       Event.external_id r = CalendarEventImport.external_id item).
Proof.
  intros Ha Hid Hfresh. unfold execute_calendar_event_items, bind at 1.
  destruct (query _ c) as [[k|e|] c1] eqn:Ek; [|done..]. intros Hrun Hnone.
  apply connector_found in Ek as (Hd & Ha1 & Hk & Hs). exists k. split; [done|]. split; [done|].
  rewrite <- Hd in Hid, Hfresh.
  destruct (complete_snapshot (R:=Event.CalendarEvent) CalendarEventRepository.upsert_from_connector
    (fun r => (Some (Event.external_id r), Event.id r)) ImportedEvent CalendarEventImport.external_id
    raw_event (event_of source k run) "starts_at and ends_at are required"
    (Connectors.id k) run items c1 x c' Ha1 event_upsert_is_sync Hid Hfresh)
    as (ns & Hns & H1 & H2).
  - intros item n Hn. by apply event_of_fields in Hn as [? _].
  - rewrite <- Hrun. unfold bind at 1. unfold bind at 1.
    rewrite (for_each_ext items (import_item _ _ _ _ _ _ _) (fun x item =>
         match CalendarEventImport.starts_at item, CalendarEventImport.ends_at item with
         | Some starts_at, Some ends_at =>
             store_item CalendarEventRepository.upsert_from_connector
               (fun r => (Some (Event.external_id r), Event.id r)) ImportedEvent
               x (CalendarEventImport.external_id item) (raw_event item)
               (event_of_item source k run item starts_at ends_at)
         | _, _ =>
             ret (push_error x (connector_error (Some (CalendarEventImport.external_id item))
                    "starts_at and ends_at are required" (raw_event item)))
         end)); [done|].
    intros y item c2. unfold import_item, event_of. by destruct (CalendarEventImport.starts_at item), (CalendarEventImport.ends_at item).
  - done.
  - apply mapM_Some in Hns. split.
    + intros item Hi. apply list_elem_of_lookup in Hi as [i Hi].
      destruct (Forall2_lookup_l _ _ _ _ _ Hns Hi) as (n & Hn & Hf).
      apply event_of_fields in Hf as (_ & Hsrc & Hext).
      destruct (H1 n) as (r & Hr & [K1 K2] & Hc & Har); [by eapply list_elem_of_lookup_2|].
      exists r. simpl in *. split_and!; congruence.
    + intros r Hr Hc Har. destruct (H2 r Hr Hc Har) as (n & Hn & [_ K2]).
      apply list_elem_of_lookup in Hn as [i Hn].
      destruct (Forall2_lookup_r _ _ _ _ _ Hns Hn) as (item & Hi & Hf).
      apply event_of_fields in Hf as (_ & _ & Hext). exists item.
      split; [by eapply list_elem_of_lookup_2|]. simpl in K2. congruence.
Qed.

End Snapshots.

(** ** Results commit only for the holder *)

Section Holder.
Context {DD : DieselDisplay} {RI : RawItems} {PL : Payloads}.

Lemma payload_keeps_runs l source target run p :
  preserves (fun d => connector_runs d = l) (execute_payload_for_target source target run p).
Proof.
  unfold execute_payload_for_target, execute_calendar_event_items, execute_work_card_items,
    execute_notification_items, execute_service_health_items, reconcile, query,
    ConnectorRepository.find_by_source.
  preserve; unfold store_item, validate_request; preserve;
    unfold WorkCardRepository.upsert_from_connector, NotificationRepository.upsert_from_connector,
      CalendarEventRepository.create; preserve_writes.
Qed.

Lemma errors_keep_runs l es :
  preserves (fun d => connector_runs d = l) (query (create_many_errors es)).
Proof. unfold query, create_many_errors. destruct es; preserve_writes. Qed.

Lemma items_keep_runs l its :
  preserves (fun d => connector_runs d = l) (query (create_many_items its)).
Proof. unfold query, create_many_items. destruct its; preserve_writes. Qed.

Lemma touch_keeps_runs l source k st t :
  preserves (fun d => connector_runs d = l)
    (query (ConnectorRepository.touch_run_state source k st t)).
Proof.
  unfold query, ConnectorRepository.touch_run_state, ConnectorRepository.find_by_source.
  preserve_writes.
Qed.

Lemma touch_not_aborted source k st t c r c' :
  query (ConnectorRepository.touch_run_state source k st t) c = (Ok r, c') -> aborted c' = false.
Proof.
  unfold query, map_err, catch at 1, ConnectorRepository.touch_run_state, catch at 1.
  destruct (ConnectorRepository.find_by_source source c) as [[x|[| | |]|] c1]; try done.
  - destruct (st =s "success"); unfold first_row, bind;
      match goal with |- context [exec ?s ?c2] => destruct (exec s c2) as [[l|e|] c3] eqn:E end;
      try done; apply exec_ok_not_aborted in E; destruct l; intros [=]; by subst.
  - match goal with |- context [exec ?s ?c2] => destruct (exec s c2) as [[l|e|] c3] eqn:E end;
      try done. apply exec_ok_not_aborted in E. intros [=]; by subst.
Qed.

Lemma assert_active_ok id w c u c' :
  assert_active id w c = (Ok u, c') -> db c' = db c /\ aborted c' = false.
Proof.
  intros H. split.
  - assert (preserves (fun d => d = db c) (assert_active id w)) as Hp
      by (unfold assert_active, ConnectorRunRepository.execution_is_active, query; destruct w; preserve).
    specialize (Hp c eq_refl). by rewrite H in Hp.
  - revert H. unfold assert_active, ConnectorRunRepository.execution_is_active, query, map_err, catch, bind, utc_now.
    destruct w as [w|]; simpl;
      match goal with |- context [exec ?s ?c1] => destruct (exec s c1) as [[n|e|] c2] eqn:E end;
      try done; apply exec_ok_not_aborted in E; destruct (n =? 1); intros [=]; by subst.
Qed.

Lemma finish_records_for_holder source target run x w c resp c' :
  aborted c = false -> NoDup (run_ids (connector_runs (db c))) ->
  finish_connector_run_for_owner source target run x w c = (Ok resp, c') ->
  aborted c' = false /\ exists r now, r ∈ connector_runs (db c) /\ holds_run (Run.id run) w now r /\
    Run.heartbeat_at (rs_run resp) = Some now /\
    Run.status (rs_run resp) = run_status (rs_imported resp) (rs_failed resp) /\
    connector_runs (db c') =
      map (fun y => if ConnectorRunRepository.by_id (Run.id run) y then rs_run resp else y) (connector_runs (db c)).
Proof.
  unfold finish_connector_run_for_owner. intros Ha Hn.
  unfold bind at 1, utc_now. cbv zeta.
  match goal with |- context [query (ConnectorRunRepository.finalize_if_active ?i ?ww ?u)] => set (st := u) end.
  match goal with |- context [bind _ _ ?c1 = _] => set (c0 := c1) end.
  unfold bind at 1. pose proof (finalize_effect c0 (Run.id run) w st Ha Hn) as Hf.
  unfold query at 1, map_err, catch at 1.
  destruct (ConnectorRunRepository.finalize_if_active (Run.id run) w st c0) as [[[r|]|e|] c1]; [|done..].
  destruct Hf as (y & Hy & Hh & Hr & Hl). intros Hrest. simpl in Hrest.
  apply bind_returns in Hrest as (r' & c2 & [= <- <-] & Hrest).
  apply bind_returns in Hrest as (es & c3 & He & Hrest).
  apply bind_returns in Hrest as (its & c4 & Hi & Hrest).
  apply bind_returns in Hrest as (k & c5 & Hk & [= <- <-]). simpl.
  split; [by eapply touch_not_aborted|].
  apply (preserves_same connector_runs) in Hk; [|apply touch_keeps_runs].
  apply (preserves_same connector_runs) in Hi; [|apply items_keep_runs].
  apply (preserves_same connector_runs) in He; [|apply errors_keep_runs].
  exists y, (reading c0). rewrite Hr. split_and!; try done. by rewrite <- Hr, Hk, Hi, He.
Qed.

(** C3: the records a run imports and its result are committed together and
    only for the holder of the run: when the transaction returns, the caller
    held the run at the moment recorded in it, and exactly that run has the
    final status that its imported and failed items determine; in every other
    case (a lost lease, a cancellation, a database failure) the whole content
    of the database is what it was before. *)
Theorem results_commit_only_for_holder run w prepared c :
  NoDup (run_ids (connector_runs (db c))) ->
  match run_transaction run w prepared c with
  | (Ok resp, c') =>
      exists r now, r ∈ connector_runs (db c) /\ holds_run (Run.id run) w now r /\
        Run.heartbeat_at (rs_run resp) = Some now /\
        Run.status (rs_run resp) = run_status (rs_imported resp) (rs_failed resp) /\
        connector_runs (db c') =
          map (fun y => if ConnectorRunRepository.by_id (Run.id run) y then rs_run resp else y)
            (connector_runs (db c))
  | (_, c') => db c' = db c
  end.
Proof.
  intros Hn. unfold run_transaction, api_transaction.
  match goal with |- context [transaction _ ?b c] => set (body := b) end.
  pose proof (transaction_atomic from_diesel body c) as Hat.
  destruct (transaction from_diesel body c) as [[resp|e|] c'] eqn:E; [|by apply Hat..].
  apply transaction_returns in E as (i & c1 & Hi & _ & Hb & Hdb).
  apply bind_returns in Hb as (u1 & c2 & [Hd1 _]%assert_active_ok & Hb).
  apply bind_returns in Hb as (x & c3 & Hx & Hb).
  apply bind_returns in Hb as (u2 & c4 & [Hd2 Ha]%assert_active_ok & Hb).
  assert (connector_runs (db c4) = connector_runs (db c)) as Hl.
  { apply (preserves_same connector_runs) in Hx; [congruence|].
    destruct prepared; [preserve|apply payload_keeps_runs]. }
  rewrite <- Hl in Hn |- *.
  destruct (finish_records_for_holder _ _ _ _ _ _ _ _ Ha Hn Hb) as [Ha1 H]. by rewrite (Hdb Ha1).
Qed.
End Holder.

(** ** Items that fail in the database *)

Section FailingItem.
Context {DD : DieselDisplay} {RI : RawItems} {PL : Payloads}.

(** The assignee of a card is not a user. *)
Definition dangling (d : Db) (assignee : option Z) : Prop :=
  refers_opt Users.id (users d) assignee = false.

Lemma dangling_violated d r : dangling d (Card.assignee_user_id r) -> card_violated d r <> None.
Proof.
  intros Hu H. constraints H. rewrite !andb_true_iff in *. unfold dangling in Hu.
  intuition congruence.
Qed.

Lemma first_row_aborted {R} (m : Query (list R)) c :
  aborted (snd (m c)) = true -> aborted (snd (first_row m c)) = true.
Proof. unfold first_row, bind. by destruct (m c) as [[[|r l]|e|] c']. Qed.

Lemma dangling_create_aborts n c :
  tx_depth c <> 0%nat -> dangling (db c) (NewCard.assignee_user_id n) ->
  aborted (snd (WorkCardRepository.create n c)) = true.
Proof.
  intros Hd Hu. apply exec_failure_aborts; [done|].
  intros a c' (now & i & i' & (-> & _ & Hc & Hv)%sql_insert_inv)%exec_returns.
  revert Hv. apply dangling_violated. by rewrite Hc.
Qed.

Lemma dangling_update_aborts n x c :
  tx_depth c <> 0%nat -> dangling (db c) (NewCard.assignee_user_id n) -> x ∈ work_cards (db c) ->
  aborted (snd (WorkCardRepository.update (Card.id x) n c)) = true.
Proof.
  intros Hd Hu Hx. apply first_row_aborted, exec_failure_aborts; [done|].
  intros a c' (now & i & i' & (-> & Hc & Hv)%sql_update_inv)%exec_returns.
  assert (x ∈ List.filter (WorkCardRepository.by_id (Card.id x)) (rows (db c))) as Hf.
  { apply elem_of_filter_b. split; [done|]. apply Z.eqb_refl. }
  destruct (List.filter _ _) as [|y l]; [by apply not_elem_of_nil in Hf|]. simpl in Hv.
  destruct (card_violated _ _) eqn:E; [done|]. revert E. apply dangling_violated. by rewrite Hc.
Qed.

Lemma dangling_upsert_aborts n c :
  tx_depth c <> 0%nat -> dangling (db c) (NewCard.assignee_user_id n) ->
  aborted (snd (WorkCardRepository.upsert_from_connector n c)) = true.
Proof.
  intros Hd Hu. unfold WorkCardRepository.upsert_from_connector.
  destruct (NewCard.external_id n) as [e|]; [|by apply dangling_create_aborts].
  unfold catch, WorkCardRepository.find_by_source_external_id.
  match goal with |- context [first_row (exec ?s) c] =>
    pose proof (sticky_first_row _ (sticky_exec s) c Hd) as [Hd1 _];
    pose proof (exec_failure_aborts s c Hd) as Hf;
    destruct (first_row (exec s) c) as [[x|er|] c1] eqn:E end.
  - apply find_cases in E as (Hdb & _ & Hx & _).
    apply dangling_update_aborts; [done|unfold dangling; by rewrite Hdb|by rewrite Hdb].
  - destruct er; [|revert E; unfold first_row, bind;
      destruct (exec _ c) as [[[|y l]|e'|] c2]; intros [=]; subst; by apply Hf..].
    apply find_cases in E as (Hdb & _ & _).
    apply dangling_create_aborts; [done|unfold dangling; by rewrite Hdb].
  - revert E; unfold first_row, bind;
      destruct (exec _ c) as [[[|y l]|e'|] c2]; intros [=]; subst; by apply Hf.
Qed.

Lemma assert_sticky id w : sticky (assert_active id w).
Proof. unfold assert_active, ConnectorRunRepository.execution_is_active, query. destruct w; stick. Qed.

Lemma cards_sticky source run items sc : sticky (execute_work_card_items source run items sc).
Proof.
  unfold execute_work_card_items, reconcile, store_item, validate_request, query,
    ConnectorRepository.find_by_source, WorkCardRepository.upsert_from_connector,
    WorkCardRepository.find_by_source_external_id, WorkCardRepository.create,
    WorkCardRepository.update, WorkCardRepository.archive_missing_for_connector_run.
  stick.
Qed.

Lemma cards_abort source run items sc item c x c' :
  tx_depth c <> 0%nat -> item ∈ items ->
  dangling (db c) (WorkCardImport.assignee_user_id item) ->
  (forall k, k ∈ connectors (db c) -> validate (card_of_item source k run item) = []) ->
  execute_work_card_items source run items sc c = (Ok x, c') -> aborted c' = true.
Proof.
  intros Hd Hin Hu Hv (k & c1 & Hk & (x1 & c2 & Hl & Hr)%bind_returns)%bind_returns.
  pose proof (sticky_map_err from_diesel _ (sticky_first_row _ (sticky_exec
    (sql_select (ConnectorRepository.from_source source)))) c Hd) as [Hd1 _].
  change (map_err _ _ c) with (query (ConnectorRepository.find_by_source source) c) in Hd1.
  rewrite Hk in Hd1. simpl in Hd1.
  apply connector_found in Hk as (Hdb & _ & Hkin & _).
  assert (aborted c2 = true) as Ha.
  { eapply (for_each_aborts (fun d => users d = users (db c))); [..|exact Hl]; simpl.
    - intros s y. unfold store_item, validate_request, WorkCardRepository.upsert_from_connector,
        WorkCardRepository.find_by_source_external_id, WorkCardRepository.create,
        WorkCardRepository.update. stick.
    - intros s y. unfold store_item, validate_request.
      preserve; unfold WorkCardRepository.upsert_from_connector; preserve_writes.
    - intros s c3 Hd3 Hu3. unfold store_item, validate_request, catch at 1. rewrite Hv by done.
      simpl. pose proof (dangling_upsert_aborts (card_of_item source k run item) c3 Hd3) as Hab.
      unfold catch. destruct (WorkCardRepository.upsert_from_connector _ c3) as [[r|e|] c4];
        apply Hab; unfold dangling; by rewrite Hu3.
    - exact Hin.
    - done.
    - by rewrite Hdb. }
  unfold reconcile in Hr. apply bind_returns in Hr as (n & c3 & Hn & [= _ <-]).
  destruct (should_reconcile _ _); [|by injection Hn as _ <-].
  exfalso. revert Hn. unfold query, map_err, catch,
    WorkCardRepository.archive_missing_for_connector_run, affected, bind, utc_now.
  match goal with |- context [exec ?s ?c4] => destruct (exec_aborted s c4 Ha) as (ek & c5 & -> & _) end.
  done.
Qed.

(** one work item whose assignee is not a user of the portal discards its
    whole run: the database failure is recorded as an error of the item, but it
    has aborted the transaction that surrounds the run, so the run never
    returns a result and nothing is committed, neither the other items nor the
    [partial_success] the loop was building. *)
Theorem dangling_assignee_discards_run run w p req item c :
  Run.target run = "work_cards" -> decode_cards p = inr req -> item ∈ WorkCardImport.items req ->
  dangling (db c) (WorkCardImport.assignee_user_id item) ->
  (forall k, k ∈ connectors (db c) ->
     validate (card_of_item (Run.source run) k (Run.id run) item) = []) ->
  (forall resp c', run_transaction run w (inr p) c <> (Ok resp, c')) /\
  db (snd (run_transaction run w (inr p) c)) = db c.
Proof.
  intros Ht Hdec Hin Hu Hv.
  assert (forall resp c', run_transaction run w (inr p) c <> (Ok resp, c')) as Hno;
    [|split; [exact Hno|by apply transaction_atomic]].
  intros resp c' (i & c1 & Hi & Hd & Hb & _)%transaction_returns.
  apply bind_returns in Hb as (u1 & c2 & Ha1 & Hb).
  apply bind_returns in Hb as (x & c3 & Hx & Hb).
  apply bind_returns in Hb as (u2 & c4 & Ha2 & _).
  pose proof (assert_sticky (Run.id run) w i Hd) as [Hd2 _]. rewrite Ha1 in Hd2.
  apply assert_active_ok in Ha1 as [Hdb1 _].
  unfold execute_payload_for_target in Hx. rewrite Ht, Hdec in Hx. simpl in Hx.
  pose proof (cards_sticky (Run.source run) (Run.id run) (WorkCardImport.items req)
    (WorkCardImport.snapshot_complete req) c2 Hd2) as [Hd3 _]. rewrite Hx in Hd3.
  apply cards_abort with (item := item) in Hx; [|done..|by rewrite Hdb1, Hi|by rewrite Hdb1, Hi].
  pose proof (assert_sticky (Run.id run) w c3 Hd3) as [_ Hs]. rewrite Ha2 in Hs.
  apply assert_active_ok in Ha2 as [_ Hf]. simpl in Hs. rewrite (Hs Hx) in Hf. done.
Qed.
End FailingItem.

(** ** Witnesses *)

Definition plain_display : DieselDisplay := {| diesel_to_string _ := "db" |}.
Definition no_raw : RawItems :=
  {| raw_card _ := None; raw_notification _ := None; raw_event _ := None; raw_service _ := None |}.

Definition sample_card_item (e : string) : WorkCardImport.WorkCardImportItem :=
  WorkCardImport.mkWorkCardImportItem e "Fix" "todo" "high" None None None None None None None None.

Definition sample_card (id : Z) (e : string) : Card.WorkCard :=
  Card.mkWorkCard id "azure" (Some e) "Old" "todo" "high" None None None None None None None 0 0
    (Some 1) None None None None None.

Definition sample_note (id : Z) (e : string) : Notif.Notification :=
  Notif.mkNotification id "azure" "Old" None "info" false None 0 0 (Some e) (Some 1) None None None
    None None.

Definition sample_event (id : Z) (e : string) : Event.CalendarEvent :=
  Event.mkCalendarEvent id "azure" e "Old" None None None 10 20 None false false None None (Some 1)
    None None None None None 0 0.

(** A connector with two records of each kind, in its run 5. *)
Definition import_db : Db :=
  empty_db <| connectors := [sample_connector "azure"] |>
    <| connector_runs := [sample_run 5 "azure" "running" (Some "w1") (Some 500) 1] |>
    <| work_cards := [sample_card 1 "a"; sample_card 2 "b"] |>
    <| notifications := [sample_note 1 "a"; sample_note 2 "b"] |>
    <| calendar_events := [sample_event 1 "a"; sample_event 2 "b"] |>.

Ltac identify :=
  constructor;
  [ apply (bool_decide_unpack _); vm_compute; exact I
  | intros x y e; rewrite !list_elem_of_In; simpl; intros [<-|[<-|[]]] [<-|[<-|[]]] _;
    simpl; congruence ].

Lemma import_identified :
  identified (work_cards import_db) /\ identified (notifications import_db) /\
  identified (calendar_events import_db).
Proof. split_and!; identify. Qed.

Lemma complete_card_snapshot_reconciles_witness :
  exists x c', execute_work_card_items (DD:=plain_display) (RI:=no_raw) "azure" 5
      [sample_card_item "b"; sample_card_item "c"] (Some true) (calm import_db 200 [] 3) = (Ok x, c') /\
    x_archived_count x = 1 /\
    forall r, r ∈ work_cards (db c') -> Card.connector_id r = Some 1 -> Card.archived_at r = None ->
      Card.external_id r = Some "b" \/ Card.external_id r = Some "c".
Proof.
  destruct (execute_work_card_items (DD:=plain_display) (RI:=no_raw) "azure" 5
      [sample_card_item "b"; sample_card_item "c"] (Some true) (calm import_db 200 [] 3))
    as [o c'] eqn:E.
  pose proof E as E'. vm_compute in E'. destruct o as [x|e|]; try discriminate E'.
  exists x, c'. split; [reflexivity|].
  assert (Hx : x_errors x = [] /\ x_archived_count x = 1) by (injection E' as <- _; split; reflexivity).
  split; [apply Hx|].
  destruct (complete_card_snapshot_reconciles (DD:=plain_display) (RI:=no_raw) "azure" 5
    [sample_card_item "b"; sample_card_item "c"] (calm import_db 200 [] 3) x c' eq_refl
    (proj1 import_identified)) as (k & Hk & _ & _ & H).
  - intros r. simpl. rewrite list_elem_of_In. simpl. intros [<-|[<-|[]]]; discriminate.
  - exact E.
  - apply Hx.
  - simpl in Hk. apply list_elem_of_singleton in Hk as ->. intros r Hr Hc Har.
    destruct (H r Hr Hc Har) as (item & Hi & ->).
    apply list_elem_of_In in Hi as [<-|[<-|[]]]; [left|right]; reflexivity.
Defined.

Definition sample_note_item (e : string) : NotificationImport.NotificationImportItem :=
  NotificationImport.mkNotificationImportItem e "New" None "warning" false None.

Lemma complete_notification_snapshot_reconciles_witness :
  exists x c', execute_notification_items (DD:=plain_display) (RI:=no_raw) "azure" 5
      [sample_note_item "b"; sample_note_item "c"] (Some true) (calm import_db 200 [] 3) = (Ok x, c') /\
    forall r, r ∈ notifications (db c') -> Notif.connector_id r = Some 1 ->
      Notif.archived_at r = None -> Notif.external_id r = Some "b" \/ Notif.external_id r = Some "c".
Proof.
  destruct (execute_notification_items (DD:=plain_display) (RI:=no_raw) "azure" 5
      [sample_note_item "b"; sample_note_item "c"] (Some true) (calm import_db 200 [] 3))
    as [o c'] eqn:E.
  pose proof E as E'. vm_compute in E'. destruct o as [x|e|]; try discriminate E'.
  exists x, c'. split; [reflexivity|].
  destruct (complete_notification_snapshot_reconciles (DD:=plain_display) (RI:=no_raw) "azure" 5
    [sample_note_item "b"; sample_note_item "c"] (calm import_db 200 [] 3) x c' eq_refl
    (proj1 (proj2 import_identified))) as (k & Hk & _ & _ & H).
  - intros r. simpl. rewrite list_elem_of_In. simpl. intros [<-|[<-|[]]]; discriminate.
  - exact E.
  - injection E' as <- _. reflexivity.
  - simpl in Hk. apply list_elem_of_singleton in Hk as ->. intros r Hr Hc Har.
    destruct (H r Hr Hc Har) as (item & Hi & ->).
    apply list_elem_of_In in Hi as [<-|[<-|[]]]; [left|right]; reflexivity.
Defined.

Definition sample_event_item (e : string) : CalendarEventImport.CalendarEventImportItem :=
  CalendarEventImport.mkCalendarEventImportItem e "New" None None None (Some 30) (Some 40) None
    false false None None.

Lemma complete_event_snapshot_reconciles_witness :
  exists x c', execute_calendar_event_items (DD:=plain_display) (RI:=no_raw) "azure" 5
      [sample_event_item "b"; sample_event_item "c"] (Some true) (calm import_db 200 [] 3) = (Ok x, c') /\
    forall r, r ∈ calendar_events (db c') -> Event.connector_id r = Some 1 ->
      Event.archived_at r = None -> Event.external_id r = "b" \/ Event.external_id r = "c".
Proof.
  destruct (execute_calendar_event_items (DD:=plain_display) (RI:=no_raw) "azure" 5
      [sample_event_item "b"; sample_event_item "c"] (Some true) (calm import_db 200 [] 3))
    as [o c'] eqn:E.
  pose proof E as E'. vm_compute in E'. destruct o as [x|e|]; try discriminate E'.
  exists x, c'. split; [reflexivity|].
  destruct (complete_event_snapshot_reconciles (DD:=plain_display) (RI:=no_raw) "azure" 5
    [sample_event_item "b"; sample_event_item "c"] (calm import_db 200 [] 3) x c' eq_refl
    (proj2 (proj2 import_identified))) as (k & Hk & _ & _ & H).
  - intros r. simpl. rewrite list_elem_of_In. simpl. intros [<-|[<-|[]]]; discriminate.
  - exact E.
  - injection E' as <- _. reflexivity.
  - simpl in Hk. apply list_elem_of_singleton in Hk as ->. intros r Hr Hc Har.
    destruct (H r Hr Hc Har) as (item & Hi & ->).
    apply list_elem_of_In in Hi as [<-|[<-|[]]]; [left|right]; reflexivity.
Defined.



(** Payloads that carry work cards. *)
Definition card_payloads : Payloads := {|
  Value := list WorkCardImport.WorkCardImportItem;
  decode_events _ := inl "not events";
  decode_cards l := inr (WorkCardImport.mkWorkCardImportRequest l (Some true));
  decode_notifications _ := inl "not notifications";
  decode_services _ := inl "not services"
|}.

Definition held_run : Run.ConnectorRun := sample_run 5 "azure" "running" (Some "w1") (Some 500) 1.

Definition run_cards (items : list WorkCardImport.WorkCardImportItem)
    : Handler ConnectorRunExecutionResponse :=
  run_transaction (DD:=plain_display) (RI:=no_raw) (PL:=card_payloads) held_run (Some "w1")
    (inr items).

Lemma results_commit_only_for_holder_witness :
  exists resp c', run_cards [sample_card_item "b"] (calm import_db 200 [] 3) = (Ok resp, c') /\
    exists r now, r ∈ connector_runs import_db /\ holds_run 5 (Some "w1") now r /\
      Run.status (rs_run resp) = run_status (rs_imported resp) (rs_failed resp).
Proof.
  pose proof (results_commit_only_for_holder (DD:=plain_display) (RI:=no_raw) (PL:=card_payloads)
    held_run (Some "w1") (inr [sample_card_item "b"]) (calm import_db 200 [] 3)) as H.
  specialize (H ltac:(apply (bool_decide_unpack _); vm_compute; exact I)).
  unfold run_cards. destruct (run_transaction _ _ _ _) as [o c'] eqn:E.
  vm_compute in E. destruct o as [resp|e|]; try discriminate E. exists resp, c'.
  split; [reflexivity|]. destruct H as (r & now & Hr & Hh & _ & Hs & _). exists r, now. auto.
Defined.

Definition dangling_item : WorkCardImport.WorkCardImportItem :=
  WorkCardImport.mkWorkCardImportItem "c" "Fix" "todo" "high" None None None (Some "aad:1") (Some 77)
    None None None.

Lemma dangling_assignee_discards_run_witness :
  db (snd (run_cards [sample_card_item "b"; dangling_item] (calm import_db 200 [] 3))) = import_db.
Proof.
  apply (dangling_assignee_discards_run (DD:=plain_display) (RI:=no_raw) (PL:=card_payloads)
    held_run (Some "w1") [sample_card_item "b"; dangling_item]
    (WorkCardImport.mkWorkCardImportRequest [sample_card_item "b"; dangling_item] (Some true))
    dangling_item (calm import_db 200 [] 3)); try reflexivity.
  right. left.
Defined.
