(* ===== verification/AuditLogs.v ===== *)
(** The audit trail: [AuditLogRepository] of [src/src/repositories.rs] and the
    handlers of [src/src/rocket_routes/audit_logs.rs]. *)
From S2P Require Import Prelude Logic Text Models Schema Api Validation Access.

Open Scope Z_scope.
Open Scope portal_scope.

(** ** Metadata *)

(** The values [serde_json::json!] builds for the audit trail. *)
Inductive Json :=
  | JNull
  | JBool (b : bool)
  | JInt (n : Z)
  | JStr (s : string)
  | JTime (t : Z)
  | JArr (l : list Json)
  | JObj (l : list (string * Json)).

Definition json_str (o : option string) : Json := match o with Some s => JStr s | None => JNull end.
Definition json_int (o : option Z) : Json := match o with Some n => JInt n | None => JNull end.
Definition json_time (o : option Z) : Json := match o with Some t => JTime t | None => JNull end.

(** [serde_json::to_string(..).ok()], and the date parsers of chrono: the days
    since the epoch of a [%Y-%m-%d] date, and the instant of an RFC 3339 text. *)
Class SerdeJson := { json_to_string : Json -> option string }.
Class DateText := {
  parse_naive_date : string -> option Z;
  parse_rfc3339 : string -> option Z
}.

(** ** The repository *)

Record AuditLogFilters := mkAuditLogFilters {
  f_resource_type : option string;
  f_resource_id : option string;
  f_actor_user_id : option Z;
  f_action : option string;
  f_created_from : option Z;
  f_created_to : option Z
}.

Module AuditLogRepository.

(** [if let Some(v) = filter { query = query.filter(..) }] *)
Definition opt_filter {A} (o : option A) (keep : A -> bool) : bool :=
  match o with Some a => keep a | None => true end.

Definition matches (f : AuditLogFilters) (r : Audit.AuditLog) : bool :=
  opt_filter (f_resource_type f) (fun v => Audit.resource_type r =s v)
  && opt_filter (f_resource_id f) (fun v => holds (eq_text (Audit.resource_id r) (Some v)))
  && opt_filter (f_actor_user_id f) (fun v => holds (eq_int (Audit.actor_user_id r) (Some v)))
  && opt_filter (f_action f) (fun v => Audit.action r =s v)
  && opt_filter (f_created_from f) (fun v => v <=? Audit.created_at r)
  && opt_filter (f_created_to f) (fun v => Audit.created_at r <=? v).

Definition find_multiple (n : Z) (filters : AuditLogFilters) : Query (list Audit.AuditLog) :=
  l <- exec (sql_select (matches filters)) ;;
  ret (limit n (order_by (lex_leb [desc Audit.created_at]) l)).

Definition create (n : NewAudit.NewAuditLog) : Query Audit.AuditLog :=
  exec (sql_insert (fun now id =>
    Audit.mkAuditLog id (NewAudit.actor_user_id n) (NewAudit.action n) (NewAudit.resource_type n)
      (NewAudit.resource_id n) (NewAudit.metadata n) now)).

Definition delete_older_than (created_before : Z) : Query Z :=
  affected (exec (sql_delete (fun r => Audit.created_at r <? created_before))).

End AuditLogRepository.

(** ** Recording *)

Section Recording.
Context {SJ : SerdeJson}.

Definition record_audit_log (auth : AuthenticatedUser) (action resource_type resource_id : string)
    (metadata : Json) : Handler unit :=
  query (AuditLogRepository.create
    (NewAudit.mkNewAuditLog (Some (Users.id (auth_user auth))) action resource_type
       (Some resource_id) (json_to_string metadata))) ;;;
  ret tt.

Definition record_system_audit_log (action resource_type resource_id : string) (metadata : Json)
    : Handler unit :=
  query (AuditLogRepository.create
    (NewAudit.mkNewAuditLog None action resource_type (Some resource_id)
       (json_to_string metadata))) ;;;
  ret tt.
End Recording.

(** ** Reading *)

Record AuditLogQuery := mkAuditLogQuery {
  q_resource_type : option string;
  q_resource_id : option string;
  q_actor_user_id : option Z;
  q_action : option string;
  q_created_from : option string;
  q_created_to : option string
}.

#[export] Instance validate_audit_query : Validate AuditLogQuery := fun q =>
  run_checks
    [ max_optional_len "resource_type" (q_resource_type q) 64;
      max_optional_len "resource_id" (q_resource_id q) 128;
      max_optional_len "action" (q_action q) 64;
      max_optional_len "created_from" (q_created_from q) 64;
      max_optional_len "created_to" (q_created_to q) 64 ].

Section Reading.
Context {DT : DateText}.

Definition parse_date_bound (field : string) (value : option string) (end_of_day : bool)
    : Handler (option Z) :=
  match trim <$> value with
  | None => ret None
  | Some value =>
      if is_empty value then ret None
      else
        match parse_naive_date value with
        | Some d => ret (Some (if end_of_day then d * day + (day - 1) else d * day))
        | None =>
            match parse_rfc3339 value with
            | Some t => ret (Some t)
            | None => fail (validation_error field
                        "must be YYYY-MM-DD (UTC) or RFC3339 with an explicit offset")
            end
        end
  end.

Definition get_audit_logs (auth : AuthenticatedUser) (q : AuditLogQuery)
    : Handler (list Audit.AuditLog) :=
  require_admin auth ;;;
  q <- validate_request q ;;
  created_from <- parse_date_bound "created_from" (q_created_from q) false ;;
  created_to <- parse_date_bound "created_to" (q_created_to q) true ;;
  match created_from, created_to with
  | Some a, Some b => if b <? a then fail (validation_error "created_to" "must be after created_from")
                      else ret tt
  | _, _ => ret tt
  end ;;;
  query (AuditLogRepository.find_multiple 100
    (mkAuditLogFilters (q_resource_type q) (q_resource_id q) (q_actor_user_id q) (q_action q)
       created_from created_to)).
End Reading.
