(* ===== verification/Inbox.v ===== *)
(** Notifications as a user sees them: [NotificationReceiptRepository], the
    inbox and actionable queries of [NotificationRepository]
    ([src/src/repositories.rs]), [NotificationView] ([src/src/models.rs]) and the
    handlers of [src/src/rocket_routes/notifications.rs]. *)
From S2P Require Import Prelude Logic Text Models Schema Api Validation Access Records AuditLogs.
From Stdlib Require Import Ascii.

Open Scope Z_scope.
Open Scope portal_scope.

(** ** Receipts *)

Module NotificationReceiptRepository.

Definition of_user (notification_id user_id : Z) (r : Receipt.NotificationReceipt) : bool :=
  (Receipt.notification_id r =? notification_id) && (Receipt.user_id r =? user_id).

Definition find (notification_id user_id : Z) : Query (option Receipt.NotificationReceipt) :=
  optional (first_row (exec (sql_select (of_user notification_id user_id)))).

Definition find_for_user_and_notifications (user_id : Z) (notification_ids : list Z)
    : Query (list Receipt.NotificationReceipt) :=
  match notification_ids with
  | [] => ret []
  | _ => exec (sql_select (fun r => (Receipt.user_id r =? user_id)
                  && existsb (Z.eqb (Receipt.notification_id r)) notification_ids))
  end.

(** The five actions insert the receipt of the pair or update it. *)
Definition put (notification_id user_id : Z)
    (new : option Z * option Z * option Z)
    (change : Receipt.NotificationReceipt -> Receipt.NotificationReceipt)
    : Query Receipt.NotificationReceipt :=
  let '(read_at, dismissed_at, snoozed_until) := new in
  exec (sql_upsert (of_user notification_id user_id)
    (fun now id => Receipt.mkNotificationReceipt id notification_id user_id read_at dismissed_at
                     snoozed_until now now)
    (fun _ r => change r)).

Definition mark_read (notification_id user_id : Z) : Query Receipt.NotificationReceipt :=
  now <- utc_now ;;
  put notification_id user_id (Some now, None, None) (fun r =>
    r <| Receipt.read_at := Some now |> <| Receipt.updated_at := now |>).

Definition mark_unread (notification_id user_id : Z) : Query Receipt.NotificationReceipt :=
  now <- utc_now ;;
  put notification_id user_id (None, None, None) (fun r =>
    r <| Receipt.read_at := None |> <| Receipt.updated_at := now |>).

Definition dismiss (notification_id user_id : Z) : Query Receipt.NotificationReceipt :=
  now <- utc_now ;;
  put notification_id user_id (None, Some now, None) (fun r =>
    r <| Receipt.dismissed_at := Some now |> <| Receipt.snoozed_until := None |>
      <| Receipt.updated_at := now |>).

Definition snooze (notification_id user_id snoozed_until : Z)
    : Query Receipt.NotificationReceipt :=
  now <- utc_now ;;
  put notification_id user_id (None, None, Some snoozed_until) (fun r =>
    r <| Receipt.dismissed_at := None |> <| Receipt.snoozed_until := Some snoozed_until |>
      <| Receipt.updated_at := now |>).

Definition restore (notification_id user_id : Z) : Query Receipt.NotificationReceipt :=
  now <- utc_now ;;
  put notification_id user_id (None, None, None) (fun r =>
    r <| Receipt.dismissed_at := None |> <| Receipt.snoozed_until := None |>
      <| Receipt.updated_at := now |>).

End NotificationReceiptRepository.

(** ** Views *)

Definition from_record (n : Notif.Notification) (receipt : option Receipt.NotificationReceipt)
    : View.NotificationView :=
  let '(read_at, dismissed_at, snoozed_until) :=
    match receipt with
    | Some r => (Receipt.read_at r, Receipt.dismissed_at r, Receipt.snoozed_until r)
    | None => (None, None, None)
    end in
  let source_is_read := Notif.is_read n in
  View.mkNotificationView (Notif.id n) (Notif.source n) (Notif.title n) (Notif.body n)
    (Notif.severity n) (source_is_read || match read_at with Some _ => true | None => false end)
    source_is_read (Notif.url n) (Notif.created_at n) (Notif.updated_at n) (Notif.external_id n)
    (Notif.connector_id n) (Notif.owner_user_id n) (Notif.maintainer_id n)
    (Notif.source_updated_at n) (Notif.last_seen_run_id n) (Notif.archived_at n)
    read_at dismissed_at snoozed_until.

(** ** Text search *)

(** [str::replace] of one ASCII character. *)
Fixpoint replace_char (c : ascii) (by_text s : string) : string :=
  match s with
  | EmptyString => EmptyString
  | String a s' =>
      if Ascii.eqb a c then String.append by_text (replace_char c by_text s')
      else String a (replace_char c by_text s')
  end.

Definition backslash : ascii := "092"%char.

Definition escape_like (s : string) : string :=
  replace_char "_" (String backslash "_")
    (replace_char "%" (String backslash "%")
      (replace_char backslash (String backslash (String backslash "")) s)).

(** [format!("%{}%", ..)] *)
Definition like_pattern (search : string) : string :=
  String.append "%" (String.append (escape_like search) "%").

(** [text LIKE pattern] over characters; the patterns above never end with the
    escape character, which PostgreSQL refuses. *)
Fixpoint like (pattern text : list string) {struct pattern} : bool :=
  match pattern with
  | [] => match text with [] => true | _ :: _ => false end
  | p :: pattern' =>
      if p =s "%" then
        (fix any (text : list string) : bool :=
           like pattern' text || match text with [] => false | _ :: text' => any text' end) text
      else if p =s "_" then match text with [] => false | _ :: text' => like pattern' text' end
      else if p =s String backslash "" then
        match pattern' with
        | [] => false
        | c :: pattern'' =>
            match text with [] => false | t :: text' => (t =s c) && like pattern'' text' end
        end
      else match text with [] => false | t :: text' => (t =s p) && like pattern' text' end
  end.

(** The case folding of the database locale, character by character. *)
Class CaseFolding := { fold_case : string -> string }.

Section Search.
Context {CF : CaseFolding}.

Definition folded (s : string) : list string := map fold_case (chars s).

Definition ilike (text pattern : string) : bool := like (folded pattern) (folded text).

(** [ILIKE] on a nullable column. *)
Definition ilike_null (text : option string) (pattern : string) : tv :=
  match text with Some t => Some (ilike t pattern) | None => None end.

(** ** The inbox *)

Record InboxFilters := mkInboxFilters {
  i_state : string;
  i_search : option string;
  i_source : option string;
  i_severity : option string
}.

(** The LEFT JOIN of the notifications with the receipts of a user. *)
Definition with_receipt (user_id : Z) (d : Db)
    : list (Notif.Notification * option Receipt.NotificationReceipt) :=
  flat_map (fun n =>
    match List.filter (NotificationReceiptRepository.of_user (Notif.id n) user_id)
            (notification_receipts d) with
    | [] => [(n, None)]
    | l => map (fun r => (n, Some r)) l
    end) (notifications d).

Definition r_read_at (r : option Receipt.NotificationReceipt) : option Z := r ≫= Receipt.read_at.
Definition r_dismissed_at (r : option Receipt.NotificationReceipt) : option Z :=
  r ≫= Receipt.dismissed_at.
Definition r_snoozed_until (r : option Receipt.NotificationReceipt) : option Z :=
  r ≫= Receipt.snoozed_until.

(** Neither dismissed nor snoozed. *)
Definition awake (now : Z) (r : option Receipt.NotificationReceipt) : bool :=
  holds (is_null (r_dismissed_at r))
  && holds (tv_or (is_null (r_snoozed_until r)) (le_ts (r_snoozed_until r) (Some now))).

(** The [match filters.state] of [inbox_for_access], with the archive filter. *)
Definition in_state (now : Z) (state : string)
    (row : Notif.Notification * option Receipt.NotificationReceipt) : bool :=
  let '(n, r) := row in
  (if state =s "archived" then holds (is_not_null (Notif.archived_at n))
   else holds (is_null (Notif.archived_at n)))
  && (if (state =s "unread") || (state =s "read") then
        awake now r
        && (if state =s "unread" then negb (Notif.is_read n) && holds (is_null (r_read_at r))
            else Notif.is_read n || holds (is_not_null (r_read_at r)))
      else if state =s "snoozed" then
        holds (is_null (r_dismissed_at r)) && holds (gt_ts (r_snoozed_until r) (Some now))
      else if state =s "dismissed" then holds (is_not_null (r_dismissed_at r))
      else true).

Definition inbox_filter (now : Z) (access : RecordAccessScope) (filters : InboxFilters)
    (row : Notif.Notification * option Receipt.NotificationReceipt) : bool :=
  let n := fst row in
  visible access (Notif.owner_user_id n) (Notif.maintainer_id n)
  && in_state now (i_state filters) row
  && match i_source filters with Some s => Notif.source n =s s | None => true end
  && match i_severity filters with Some s => Notif.severity n =s s | None => true end
  && match i_search filters with
     | Some s => holds (tv_or (Some (ilike (Notif.title n) (like_pattern s)))
                              (ilike_null (Notif.body n) (like_pattern s)))
     | None => true
     end.

Definition inbox_rows (now : Z) (access : RecordAccessScope) (filters : InboxFilters) (d : Db)
    : list (Notif.Notification * option Receipt.NotificationReceipt) :=
  List.filter (inbox_filter now access filters) (with_receipt (user_id access) d).

Definition newest_first : Notif.Notification * option Receipt.NotificationReceipt ->
    Notif.Notification * option Receipt.NotificationReceipt -> bool :=
  lex_leb [desc (fun row => Notif.updated_at (fst row)); desc (fun row => Notif.id (fst row))].

Definition inbox_for_access (access : RecordAccessScope) (filters : InboxFilters)
    (page page_size : Z) : Query (list View.NotificationView * Z) :=
  now <- utc_now ;;
  total <- exec (sql_query (fun d => Z.of_nat (length (inbox_rows now access filters d)))) ;;
  l <- exec (sql_query (inbox_rows now access filters)) ;;
  let records := limit page_size (offset ((page - 1) * page_size) (order_by newest_first l)) in
  ret (map (fun row => from_record (fst row) (snd row)) records, total).
End Search.

(** ** Actionable notifications *)

Definition actionable (now : Z) (maintainer_id : option Z) (source : option string)
    (access : RecordAccessScope)
    (row : Notif.Notification * option Receipt.NotificationReceipt) : bool :=
  let '(n, r) := row in
  negb (Notif.is_read n) && holds (is_null (Notif.archived_at n)) && holds (is_null (r_read_at r))
  && awake now r
  && match maintainer_id with
     | Some m => holds (eq_int (Notif.maintainer_id n) (Some m)) | None => true end
  && match source with Some s => Notif.source n =s s | None => true end
  && visible access (Notif.owner_user_id n) (Notif.maintainer_id n).

(** [receipts_by_notification.remove(id)]: the receipt collected last for an id,
    taken out of the map. *)
Definition take_receipt (id : Z) (receipts : list Receipt.NotificationReceipt)
    : option Receipt.NotificationReceipt * list Receipt.NotificationReceipt :=
  (List.last (map Some (List.filter (fun r => Receipt.notification_id r =? id) receipts)) None,
   List.filter (fun r => negb (Receipt.notification_id r =? id)) receipts).

Fixpoint views_with (notifications : list Notif.Notification)
    (receipts_by_notification : list Receipt.NotificationReceipt) : list View.NotificationView :=
  match notifications with
  | [] => []
  | n :: l =>
      let '(receipt, rest) := take_receipt (Notif.id n) receipts_by_notification in
      from_record n receipt :: views_with l rest
  end.

Definition with_receipts (user_id : Z) (notifications : list Notif.Notification)
    : Query (list View.NotificationView) :=
  receipts <- NotificationReceiptRepository.find_for_user_and_notifications user_id
                (map Notif.id notifications) ;;
  ret (views_with notifications receipts).

Definition find_actionable_for_access (n : Z) (maintainer_id : option Z) (source : option string)
    (access : RecordAccessScope) : Query (list View.NotificationView) :=
  now <- utc_now ;;
  l <- exec (sql_query (fun d => map fst (List.filter (actionable now maintainer_id source access)
                                            (with_receipt (user_id access) d)))) ;;
  with_receipts (user_id access) (limit n (order_by (lex_leb [desc Notif.updated_at]) l)).

Definition count_actionable_for_access (maintainer_id : option Z) (source : option string)
    (access : RecordAccessScope) : Query Z :=
  now <- utc_now ;;
  exec (sql_query (fun d => Z.of_nat (length (List.filter
    (actionable now maintainer_id source access) (with_receipt (user_id access) d))))).

Definition view_for_user (n : Notif.Notification) (user_id : Z) : Query View.NotificationView :=
  receipt <- NotificationReceiptRepository.find (Notif.id n) user_id ;;
  ret (from_record n receipt).

(** ** Handlers *)

Record InboxQuery := mkInboxQuery {
  iq_state : option string;
  iq_search : option string;
  iq_source : option string;
  iq_severity : option string;
  iq_page : option Z;
  iq_page_size : option Z
}.

Definition one_of_choices (f : string) (value : option string) (choices : list string) : Check :=
  push_if (match value with Some v => negb (one_of_texts v choices) | None => false end) f
    (String.append "must be one of " (join ", " choices)).

Definition out_of (lo hi : Z) (value : option Z) : bool :=
  match value with Some v => negb ((lo <=? v) && (v <=? hi)) | None => false end.

#[export] Instance validate_inbox_query : Validate InboxQuery := fun q =>
  run_checks
    [ one_of_choices "state" (iq_state q)
        ["unread"; "read"; "snoozed"; "dismissed"; "all"; "archived"];
      one_of_choices "severity" (iq_severity q) ["info"; "warning"; "critical"];
      max_optional_len "search" (iq_search q) 200;
      max_optional_len "source" (iq_source q) 64;
      push_if (out_of 1 1000000 (iq_page q)) "page" "must be from 1 to 1000000";
      push_if (out_of 1 100 (iq_page_size q)) "page_size" "must be from 1 to 100" ].

Record InboxResponse := mkInboxResponse {
  ir_items : list View.NotificationView;
  ir_total : Z;
  ir_page : Z;
  ir_page_size : Z
}.

(** [value.map(trim).filter(not empty)] *)
Definition clean (value : option string) : option string :=
  match trim <$> value with
  | Some v => if is_empty v then None else Some v
  | None => None
  end.

Definition get_inbox {CF : CaseFolding} (auth : AuthenticatedUser) (q : InboxQuery)
    : Handler InboxResponse :=
  q <- validate_request q ;;
  access <- record_access_scope auth ;;
  let page := default 1 (iq_page q) in
  let page_size := default 25 (iq_page_size q) in
  let filters := mkInboxFilters (default "unread" (iq_state q)) (clean (iq_search q))
                   (clean (iq_source q)) (iq_severity q) in
  r <- query (inbox_for_access access filters page page_size) ;;
  ret (mkInboxResponse (fst r) (snd r) page page_size).

Definition get_notifications (auth : AuthenticatedUser) : Handler (list View.NotificationView) :=
  access <- record_access_scope auth ;;
  query (find_actionable_for_access 100 None None access).

Definition find_accessible_notification (auth : AuthenticatedUser) (id : Z)
    : Handler Notif.Notification :=
  notification <- query (NotificationRepository.find id) ;;
  access <- record_access_scope auth ;;
  if negb (allows access (Notif.owner_user_id notification) (Notif.maintainer_id notification))
  then fail NotFound
  else ret notification.

Definition view_notification (auth : AuthenticatedUser) (id : Z)
    : Handler View.NotificationView :=
  notification <- find_accessible_notification auth id ;;
  query (view_for_user notification (Users.id (auth_user auth))).

Section Handlers.
Context {SJ : SerdeJson}.

Definition record_receipt_audit (auth : AuthenticatedUser) (action : string) (notification_id : Z)
    (receipt : Receipt.NotificationReceipt) : Handler unit :=
  record_audit_log auth action "notification" (int_to_string notification_id)
    (JObj [("user_id", JInt (Users.id (auth_user auth)));
           ("read_at", json_time (Receipt.read_at receipt));
           ("dismissed_at", json_time (Receipt.dismissed_at receipt));
           ("snoozed_until", json_time (Receipt.snoozed_until receipt))]).

(** The shape of the receipt handlers. *)
Definition receipt_action (auth : AuthenticatedUser) (action : string) (id : Z)
    (run : Query Receipt.NotificationReceipt) : Handler View.NotificationView :=
  notification <- find_accessible_notification auth id ;;
  receipt <- query run ;;
  record_receipt_audit auth action id receipt ;;;
  ret (from_record notification (Some receipt)).

Definition mark_notification_read (auth : AuthenticatedUser) (id : Z) :=
  receipt_action auth "mark_read" id
    (NotificationReceiptRepository.mark_read id (Users.id (auth_user auth))).

Definition mark_notification_unread (auth : AuthenticatedUser) (id : Z) :=
  receipt_action auth "mark_unread" id
    (NotificationReceiptRepository.mark_unread id (Users.id (auth_user auth))).

Definition dismiss_notification (auth : AuthenticatedUser) (id : Z) :=
  receipt_action auth "dismiss" id
    (NotificationReceiptRepository.dismiss id (Users.id (auth_user auth))).

Definition restore_notification (auth : AuthenticatedUser) (id : Z) :=
  receipt_action auth "restore" id
    (NotificationReceiptRepository.restore id (Users.id (auth_user auth))).

(** The validation of a snooze request reads the clock. *)
Definition validate_snooze (snoozed_until : Z) : Handler Z :=
  now <- utc_now ;;
  if snoozed_until <=? now then fail (validation_error "snoozed_until" "must be in the future")
  else ret snoozed_until.

Definition snooze_notification (auth : AuthenticatedUser) (id snoozed_until : Z)
    : Handler View.NotificationView :=
  notification <- find_accessible_notification auth id ;;
  snoozed_until <- validate_snooze snoozed_until ;;
  receipt <- query (NotificationReceiptRepository.snooze id (Users.id (auth_user auth)) snoozed_until) ;;
  record_receipt_audit auth "snooze" id receipt ;;;
  ret (from_record notification (Some receipt)).

Definition notification_metadata (n : Notif.Notification) : Json :=
  JObj [("source", JStr (Notif.source n)); ("severity", JStr (Notif.severity n));
        ("is_read", JBool (Notif.is_read n))].

Definition create_notification (auth : AuthenticatedUser) (n : NewNotif.NewNotification)
    : Handler Notif.Notification :=
  require_admin auth ;;;
  n <- validate_request n ;;
  notification <- query (NotificationRepository.create n) ;;
  record_audit_log auth "create" "notification" (int_to_string (Notif.id notification))
    (notification_metadata notification) ;;;
  ret notification.

(** What an update keeps of the stored row: its connector, scope and archive. *)
Definition keep_origin (existing : Notif.Notification) (n : NewNotif.NewNotification)
    : NewNotif.NewNotification :=
  n <| NewNotif.connector_id := Notif.connector_id existing |>
    <| NewNotif.owner_user_id := Notif.owner_user_id existing |>
    <| NewNotif.maintainer_id := Notif.maintainer_id existing |>
    <| NewNotif.source_updated_at := Notif.source_updated_at existing |>
    <| NewNotif.last_seen_run_id := Notif.last_seen_run_id existing |>
    <| NewNotif.archived_at := Notif.archived_at existing |>.

Definition update_notification (auth : AuthenticatedUser) (id : Z) (n : NewNotif.NewNotification)
    : Handler Notif.Notification :=
  require_admin auth ;;;
  n <- validate_request n ;;
  existing <- query (NotificationRepository.find id) ;;
  notification <- query (NotificationRepository.update id (keep_origin existing n)) ;;
  record_audit_log auth "update" "notification" (int_to_string (Notif.id notification))
    (notification_metadata notification) ;;;
  ret notification.

Definition delete_notification (auth : AuthenticatedUser) (id : Z) : Handler unit :=
  require_admin auth ;;;
  notification <- query (NotificationRepository.find id) ;;
  query (NotificationRepository.delete id) ;;;
  record_audit_log auth "delete" "notification" (int_to_string id)
    (JObj [("source", JStr (Notif.source notification));
           ("severity", JStr (Notif.severity notification))]).
End Handlers.
