(* ===== verification/InboxSafety.v ===== *)
(** The guarantees of the inbox: a search is for literal text, the states
    partition the visible notifications, pages cover the inbox, and the receipt
    actions move a notification between the states. *)
From S2P Require Import Prelude Logic Text Models Schema Api Validation Access Records AuditLogs Inbox.
From Stdlib Require Import Ascii.

Open Scope Z_scope.
Open Scope portal_scope.

(** ** Characters *)

(** A character of a Rust string: a lead byte and its continuation bytes, and
    no continuation after an ASCII byte. *)
Definition utf8_char (c : string) : Prop :=
  exists a r, c = String a r /\ continuation a = false /\ continuations r = true /\
    ((Ascii.nat_of_ascii a < 128)%nat -> r = "").

Definition utf8 (s : string) : Prop := Forall utf8_char (chars s).

Lemma chars_of_concat l : Forall utf8_char l -> chars (concat_str l) = l.
Proof.
  induction 1 as [|c l (a & r & -> & Ha & Hr & _) Hl IH]; [done|].
  change (chars (String a (String.append r (concat_str l))) = String a r :: l).
  rewrite chars_char; [by rewrite IH|done|]. destruct Hl as [|c' l' (b & r' & -> & Hb & _)]; [by left|].
  right. by eexists _, _.
Qed.

(** ** Escaping *)

Definition special (c : string) : bool :=
  (c =s "%") || (c =s "_") || (c =s String backslash "").

Definition escaped (c : string) : list string :=
  if special c then [String backslash ""; c] else [c].

Lemma replace_app c b s t :
  replace_char c b (String.append s t) =
  String.append (replace_char c b s) (replace_char c b t).
Proof.
  induction s as [|a s IH]; [done|]. simpl. destruct (Ascii.eqb a c); rewrite IH; [|done].
  by rewrite str_app_assoc.
Qed.

Lemma escape_app s t : escape_like (String.append s t) = String.append (escape_like s) (escape_like t).
Proof. unfold escape_like. by rewrite !replace_app. Qed.

Lemma replace_continuations c b r :
  (Ascii.nat_of_ascii c < 128)%nat -> continuations r = true -> replace_char c b r = r.
Proof.
  intros Hc. induction r as [|a r IH]; [done|]. simpl. intros [Ha Hr]%andb_true_iff.
  rewrite (IH Hr). destruct (Ascii.eqb_spec a c) as [->|]; [|done].
  unfold continuation in Ha. apply andb_true_iff in Ha as [H1 _]. apply Nat.leb_le in H1. lia.
Qed.

Lemma escape_char c : utf8_char c -> escape_like c = concat_str (escaped c).
Proof.
  intros (a & r & -> & Ha & Hr & Hshort). unfold escaped, special.
  destruct (Nat.ltb_spec (Ascii.nat_of_ascii a) 128) as [Hlt|Hge].
  - rewrite (Hshort Hlt). clear. destruct a as [[] [] [] [] [] [] [] []]; vm_compute; reflexivity.
  - assert (forall x, (Ascii.nat_of_ascii x < 128)%nat -> Ascii.eqb a x = false) as Hne.
    { intros x Hx. apply Ascii.eqb_neq. intros ->. lia. }
    assert (forall x b, (Ascii.nat_of_ascii x < 128)%nat ->
      replace_char x b (String a r) = String a r) as Hrep.
    { intros x b Hx. simpl. by rewrite (Hne x Hx), replace_continuations. }
    assert (forall x t, (Ascii.nat_of_ascii x < 128)%nat -> (String a r =s String x t) = false) as Hs.
    { intros x t Hx. apply str_eqb_neq. intros [= -> ->]. lia. }
    unfold escape_like. rewrite !Hrep, !Hs by (vm_compute; lia).
    change (String a r = String.append (String a r) ""). by rewrite str_app_empty.
Qed.

Lemma concat_str_app l l' : concat_str (l ++ l') = String.append (concat_str l) (concat_str l').
Proof.
  induction l as [|c l IH]; [done|]. simpl. rewrite IH. by rewrite str_app_assoc.
Qed.

Lemma escape_concat l :
  Forall utf8_char l -> escape_like (concat_str l) = concat_str (flat_map escaped l).
Proof.
  induction 1 as [|c l Hc Hl IH]; [done|]. simpl. by rewrite escape_app, concat_str_app, IH, escape_char.
Qed.

Lemma special_utf8 c : special c = true -> utf8_char c.
Proof.
  unfold special. rewrite !orb_true_iff, !str_eqb_eq.
  intros [[->| ->]| ->]; by eexists _, _.
Qed.

Lemma escaped_utf8 l : Forall utf8_char l -> Forall utf8_char (flat_map escaped l).
Proof.
  induction 1 as [|c l Hc Hl IH]; [constructor|]. simpl. apply Forall_app. split; [|done].
  unfold escaped. destruct (special c); repeat constructor; try done. by eexists _, _.
Qed.

(** The characters of the pattern of a search. *)
Lemma pattern_chars s :
  utf8 s -> chars (like_pattern s) = "%" :: flat_map escaped (chars s) ++ ["%"].
Proof.
  intros Hs. unfold like_pattern. rewrite <- (concat_chars s) at 1.
  rewrite escape_concat by done.
  replace (String.append "%" (String.append (concat_str (flat_map escaped (chars s))) "%"))
    with (concat_str ("%" :: flat_map escaped (chars s) ++ ["%"])).
  - apply chars_of_concat. constructor; [by apply special_utf8|].
    apply Forall_app. split; [by apply escaped_utf8|]. constructor; [by apply special_utf8|done].
  - simpl. by rewrite concat_str_app.
Qed.

(** ** Matching *)

Lemma like_any p t :
  like ("%" :: p) t = true <-> exists pre post, t = pre ++ post /\ like p post = true.
Proof.
  induction t as [|c t IH].
  - simpl. rewrite orb_false_r. split; [intros H; by exists [], []|].
    intros (pre & post & H & Hl). symmetry in H. apply app_nil in H as [-> ->]. done.
  - change (like ("%" :: p) (c :: t)) with (like p (c :: t) || like ("%" :: p) t).
    rewrite orb_true_iff, IH. split.
    + intros [H|(pre & post & -> & H)]; [by exists [], (c :: t)|by exists (c :: pre), post].
    + intros ([|x pre] & post & E & H); simpl in E.
      * left. by rewrite E.
      * injection E as -> ->. right. eauto.
Qed.

Lemma like_escaped c p t :
  like (escaped c ++ p) t = true <-> exists t', t = c :: t' /\ like p t' = true.
Proof.
  unfold escaped. destruct (special c) eqn:Es.
  - change (match t with [] => false | x :: t' => (x =s c) && like p t' end = true <->
      exists t', t = c :: t' /\ like p t' = true).
    destruct t as [|x t]; [naive_solver|]. rewrite andb_true_iff, str_eqb_eq. naive_solver.
  - unfold special in Es. apply orb_false_iff in Es as [[E1 E2]%orb_false_iff E3].
    simpl. rewrite E1, E2, E3.
    destruct t as [|x t]; [naive_solver|]. rewrite andb_true_iff, str_eqb_eq. naive_solver.
Qed.

Lemma like_literal l p t :
  like (flat_map escaped l ++ p) t = true <-> exists post, t = l ++ post /\ like p post = true.
Proof.
  revert t. induction l as [|c l IH]; intros t; simpl; [naive_solver|].
  rewrite <- app_assoc, like_escaped. setoid_rewrite IH. naive_solver.
Qed.

Lemma like_all t : like ["%"] t = true.
Proof. apply like_any. exists t, []. by rewrite app_nil_r. Qed.

Section Literal.
Context {CF : CaseFolding}.

(** Folding changes letters into letters: it keeps the special characters and
    makes no new ones. *)
Hypothesis fold_special : forall c, special c = true -> fold_case c = c.
Hypothesis fold_plain : forall c, special c = false -> special (fold_case c) = false.

Lemma fold_escaped l : map fold_case (flat_map escaped l) = flat_map escaped (map fold_case l).
Proof.
  induction l as [|c l IH]; [done|]. simpl. rewrite map_app, IH. f_equal. unfold escaped.
  destruct (special c) eqn:Es.
  - rewrite (fold_special c Es), Es. simpl. by rewrite !fold_special.
  - by rewrite (fold_plain c Es).
Qed.

(** The text contains the search text, up to case. *)
Definition mentions (s t : string) : Prop := exists pre post, folded t = pre ++ folded s ++ post.

Lemma ilike_mentions s t : utf8 s -> ilike t (like_pattern s) = true <-> mentions s t.
Proof.
  intros Hs. unfold ilike, folded at 1. rewrite pattern_chars by done.
  rewrite map_cons, map_app, fold_escaped. simpl map. rewrite !(fold_special "%") by done.
  rewrite like_any. unfold mentions. split.
  - intros (pre & post & Ht & (post' & -> & _)%like_literal). eauto.
  - intros (pre & post & Ht). eexists pre, _. split; [exact Ht|]. apply like_literal.
    exists post. split; [done|apply like_all].
Qed.

(** a search of the inbox is for literal text: whatever characters it
    contains, LIKE wildcards and escapes included, it keeps exactly the
    notifications whose title or body contains the search text up to case. *)
Theorem inbox_search_is_literal now access st s src sev row :
  utf8 s ->
  inbox_filter now access (mkInboxFilters st (Some s) src sev) row = true <->
  inbox_filter now access (mkInboxFilters st None src sev) row = true /\
  (mentions s (Notif.title (fst row)) \/
   exists b, Notif.body (fst row) = Some b /\ mentions s b).
Proof.
  intros Hs. unfold inbox_filter. cbn [i_state i_search i_source i_severity].
  rewrite andb_true_r, (andb_true_iff _ (holds _)).
  apply and_iff_compat_l. rewrite holds_or, orb_true_iff.
  rewrite <- (ilike_mentions s (Notif.title (fst row)) Hs). unfold holds at 1.
  destruct (ilike (Notif.title (fst row)) (like_pattern s)); [naive_solver|].
  destruct (Notif.body (fst row)) as [b|]; simpl; [|naive_solver].
  pose proof (ilike_mentions s b Hs) as Hb. destruct (ilike b (like_pattern s)); naive_solver.
Qed.
End Literal.

Definition ascii_folding : CaseFolding := {| fold_case := to_ascii_lowercase |}.

Lemma ascii_fold_special c : special c = true -> to_ascii_lowercase c = c.
Proof. unfold special. rewrite !orb_true_iff, !str_eqb_eq. by intros [[->| ->]| ->]. Qed.

Lemma ascii_fold_plain c : special c = false -> special (to_ascii_lowercase c) = false.
Proof.
  destruct c as [|a [|b r]]; [done|..].
  - destruct a as [[] [] [] [] [] [] [] []]; vm_compute; done.
  - intros _. unfold special. simpl. by rewrite !(proj2 (str_eqb_neq _ _)) by done.
Qed.

Definition discount : Notif.Notification :=
  Notif.mkNotification 1 "shop" "Get 50% OFF today" None "info" false None 0 0 None None None None
    None None None.

Definition fifty : InboxFilters := mkInboxFilters "unread" (Some "50% off") None None.

Lemma inbox_search_is_literal_witness :
  inbox_filter (CF:=ascii_folding) 10 (mkRecordAccessScope 7 false []) fifty (discount, None) = true
  /\ inbox_filter (CF:=ascii_folding) 10 (mkRecordAccessScope 7 false [])
       (mkInboxFilters "unread" (Some "5_% off") None None) (discount, None) = false.
Proof.
  split; [|vm_compute; reflexivity].
  apply (inbox_search_is_literal (CF:=ascii_folding) ascii_fold_special ascii_fold_plain 10
    (mkRecordAccessScope 7 false []) "unread" "50% off" None None (discount, None)).
  - unfold utf8. repeat constructor; by eexists _, _.
  - split; [vm_compute; reflexivity|]. left. exists ["g"; "e"; "t"; " "], [" "; "t"; "o"; "d"; "a"; "y"].
    vm_compute. reflexivity.
Defined.

(** ** States *)

Lemma state_cases now n r :
  Notif.archived_at n = None ->
  (length (List.filter (fun st => in_state now st (n, r)) ["unread"; "read"; "snoozed"; "dismissed"]) = 1)%nat.
Proof.
  intros Ha. unfold in_state, awake. simpl. rewrite Ha. simpl.
  destruct (r_dismissed_at r); simpl; [done|].
  destruct (r_snoozed_until r) as [u|]; simpl.
  - rewrite Z.gtb_ltb. destruct (Z.leb_spec u now), (Z.ltb_spec now u); try lia; simpl; [|done].
    destruct (Notif.is_read n), (r_read_at r); done.
  - destruct (Notif.is_read n), (r_read_at r); done.
Qed.

Definition indicator (b : bool) : nat := if b then 1 else 0.

Lemma filter_partition {A} (P Q1 Q2 Q3 Q4 : A -> bool) (l : list A) :
  (forall x, indicator (Q1 x) + indicator (Q2 x) + indicator (Q3 x) + indicator (Q4 x)
             = indicator (P x))%nat ->
  List.filter P l ≡ₚ
  List.filter Q1 l ++ List.filter Q2 l ++ List.filter Q3 l ++ List.filter Q4 l.
Proof.
  intros H. induction l as [|x l IH]; [done|]. simpl. specialize (H x).
  destruct (P x), (Q1 x), (Q2 x), (Q3 x), (Q4 x); simpl in H; try lia; rewrite IH; simpl;
    rewrite ?Permutation_middle, ?(app_assoc (List.filter Q1 l)), ?Permutation_middle,
      ?(app_assoc (_ ++ _)), ?Permutation_middle, <- ?app_assoc; done.
Qed.

Lemma in_state_all now n r : in_state now "all" (n, r) = holds (is_null (Notif.archived_at n)).
Proof. unfold in_state. simpl. by rewrite andb_true_r. Qed.

Lemma states_exclusive now row :
  (indicator (in_state now "unread" row) + indicator (in_state now "read" row)
   + indicator (in_state now "snoozed" row) + indicator (in_state now "dismissed" row)
   = indicator (in_state now "all" row))%nat.
Proof.
  destruct row as [n r]. rewrite in_state_all. destruct (Notif.archived_at n) as [a|] eqn:Ha.
  - unfold in_state. simpl. by rewrite Ha.
  - pose proof (state_cases now n r Ha) as H. revert H. unfold List.filter.
    destruct (in_state now "unread" (n, r)), (in_state now "read" (n, r)),
      (in_state now "snoozed" (n, r)), (in_state now "dismissed" (n, r)); simpl; lia.
Qed.

Section States.
Context {CF : CaseFolding}.
Variables (now : Z) (access : RecordAccessScope) (search src sev : option string) (d : Db).

Definition listed (st : string) : list (Notif.Notification * option Receipt.NotificationReceipt) :=
  inbox_rows now access (mkInboxFilters st search src sev) d.

(** the inbox states partition what a user may see: under any search and
    filter, the unread, read, snoozed and dismissed lists together are exactly
    the [all] list, each notification in one of them, archived notifications
    are in none of them, and the lists agree with the read flag of the view. *)
Theorem inbox_states_partition :
  listed "all" ≡ₚ listed "unread" ++ listed "read" ++ listed "snoozed" ++ listed "dismissed" /\
  (forall row, row ∈ listed "archived" -> row ∉ listed "all") /\
  (forall row, row ∈ listed "unread" -> View.is_read (from_record (fst row) (snd row)) = false) /\
  (forall row, row ∈ listed "read" -> View.is_read (from_record (fst row) (snd row)) = true).
Proof.
  split_and!.
  - apply filter_partition. intros row. unfold inbox_filter. cbn [i_state i_search i_source i_severity].
    pose proof (states_exclusive now row) as H. revert H.
    generalize (in_state now "unread" row), (in_state now "read" row), (in_state now "snoozed" row),
      (in_state now "dismissed" row), (in_state now "all" row). intros u r s di a H.
    match goal with |- context [?v && u && ?x && ?y && ?z] => destruct v, x, y, z end;
      rewrite ?andb_false_r, ?andb_true_r; simpl; done.
  - intros [n r] H1 H2. apply elem_of_filter_b in H1 as [_ H1], H2 as [_ H2].
    unfold inbox_filter in H1, H2. cbn [i_state fst] in H1, H2. rewrite in_state_all in H2.
    rewrite !andb_true_iff in H1, H2. unfold in_state in H1. simpl in H1.
    destruct (Notif.archived_at n); naive_solver.
  - intros [n r] [_ H]%elem_of_filter_b. unfold inbox_filter, in_state in H. simpl in H.
    rewrite !andb_true_iff in H. destruct H as [[[[_ [_ [_ [Hr Hn]]]] _] _] _].
    unfold from_record. simpl. destruct r as [r|]; simpl in *;
      [destruct (Receipt.read_at r)|]; by destruct (Notif.is_read n).
  - intros [n r] [_ H]%elem_of_filter_b. unfold inbox_filter, in_state in H. simpl in H.
    rewrite !andb_true_iff in H. destruct H as [[[[_ [_ [_ Hr]]] _] _] _].
    unfold from_record. simpl. destruct r as [r|]; simpl in *;
      [destruct (Receipt.read_at r)|]; by destruct (Notif.is_read n).
Qed.
End States.

(** ** Pages *)

Lemma pages_take {A} (m n : nat) (l : list A) :
  List.concat (map (fun k => take m (drop (k * m) l)) (seq 0 n)) = take (n * m) l.
Proof.
  induction n as [|n IH]; [done|].
  rewrite seq_S, map_app, List.concat_app, IH. simpl. rewrite app_nil_r, Nat.add_comm.
  apply take_take_drop.
Qed.

Section Pages.
Context {CF : CaseFolding}.
Variables (access : RecordAccessScope) (filters : InboxFilters) (size : Z).

(** The items of a page, from the rows the inbox has at that moment. *)
Definition page_items (now : Z) (d : Db) (page : Z) : list View.NotificationView :=
  map (fun row => from_record (fst row) (snd row))
    (limit size (offset ((page - 1) * size) (order_by newest_first (inbox_rows now access filters d)))).

Lemma inbox_reads page c :
  match inbox_for_access access filters page size c with
  | (Ok (items, total), c') =>
      items = page_items (reading c) (db c) page /\
      total = Z.of_nat (length (inbox_rows (reading c) access filters (db c))) /\ db c' = db c
  | (_, c') => db c' = db c
  end.
Proof.
  unfold inbox_for_access, bind, utc_now, exec, sql_query, reading. cbn -[inbox_rows].
  destruct (hd None (faults c)); [done|]. destruct (aborted c) eqn:Ha; [done|]. cbn -[inbox_rows].
  destruct (hd None (tl (faults c))); [done|]. rewrite Ha. cbn -[inbox_rows]. done.
Qed.

(** paging loses and repeats nothing: every page request that succeeds
    returns the page of the inbox sorted by latest change and the size of the
    whole inbox, reads only, and the pages up to that size, one after the
    other, are exactly the sorted inbox. *)
Theorem inbox_pages_cover pages c :
  1 <= size ->
  Z.of_nat (length (inbox_rows (reading c) access filters (db c))) <= Z.of_nat pages * size ->
  (forall page, match inbox_for_access access filters page size c with
     | (Ok (items, total), c') =>
         items = page_items (reading c) (db c) page /\
         total = Z.of_nat (length (inbox_rows (reading c) access filters (db c))) /\ db c' = db c
     | (_, c') => db c' = db c
     end) /\
  exists sorted, sorted ≡ₚ inbox_rows (reading c) access filters (db c) /\
    List.concat (map (fun k => page_items (reading c) (db c) (Z.of_nat k)) (seq 1 pages)) =
    map (fun row => from_record (fst row) (snd row)) sorted.
Proof.
  intros Hs Hp. split; [intros page; apply inbox_reads|].
  set (rows := inbox_rows (reading c) access filters (db c)) in *.
  exists (order_by newest_first rows). split; [apply order_by_perm|].
  rewrite <- seq_shift, map_map. unfold page_items. fold rows.
  rewrite (map_ext _ (fun k => map (fun row => from_record (fst row) (snd row))
    (take (Z.to_nat size) (drop (k * Z.to_nat size) (order_by newest_first rows))))).
  - rewrite <- (map_map _ (map _)), <- concat_map, pages_take, firstn_all2; [done|].
    rewrite length_order_by. lia.
  - intros k. unfold limit, offset. do 3 f_equal. lia.
Qed.
End Pages.

Definition inbox_db : Db :=
  empty_db <| users := [Users.mkUser 7 "ada" "" 0] |>
           <| notifications := [discount; discount <| Notif.id := 2 |>; discount <| Notif.id := 3 |>] |>
           <| notification_receipts := [Receipt.mkNotificationReceipt 1 3 7 None (Some 5) None 5 5] |>.

Definition unread_only : InboxFilters := mkInboxFilters "unread" None None None.

Lemma inbox_pages_cover_witness :
  exists sorted, sorted ≡ₚ inbox_rows (CF:=ascii_folding) 10 (mkRecordAccessScope 7 false []) unread_only inbox_db /\
    length sorted = 2%nat /\
    List.concat (map (fun k => page_items (CF:=ascii_folding) (mkRecordAccessScope 7 false [])
        unread_only 1 10 inbox_db (Z.of_nat k)) (seq 1 2)) =
    map (fun row => from_record (fst row) (snd row)) sorted.
Proof.
  destruct (inbox_pages_cover (CF:=ascii_folding) (mkRecordAccessScope 7 false []) unread_only 1 2
    (calm inbox_db 10 [] 1)) as [_ (sorted & Hp & Hc)]; [lia|vm_compute; discriminate|].
  exists sorted. split; [exact Hp|]. split; [|exact Hc].
  rewrite Hp. vm_compute. reflexivity.
Defined.

(** ** Receipt actions *)

Definition receipt_of (nid u : Z) (d : Db) : option Receipt.NotificationReceipt :=
  head (List.filter (NotificationReceiptRepository.of_user nid u) (notification_receipts d)).

(** The receipt [r] of the pair replaces the one before, if any; the receipts of
    other users and notifications stay. *)
Record receipt_put (nid u : Z) (r : Receipt.NotificationReceipt) (d d' : Db) : Prop := {
  put_found : receipt_of nid u d' = Some r;
  put_others : List.filter (fun x => negb (NotificationReceiptRepository.of_user nid u x))
                 (notification_receipts d') =
               List.filter (fun x => negb (NotificationReceiptRepository.of_user nid u x))
                 (notification_receipts d);
  put_same : notifications d' = notifications d
}.

Lemma filter_map_keeps {A} (P : A -> bool) f (l : list A) :
  (forall x, P (f x) = P x) ->
  List.filter P (map (fun x => if P x then f x else x) l) = map f (List.filter P l) /\
  List.filter (fun x => negb (P x)) (map (fun x => if P x then f x else x) l) =
  List.filter (fun x => negb (P x)) l.
Proof.
  intros H. induction l as [|x l [IH1 IH2]]; [done|]. simpl.
  destruct (P x) eqn:E; simpl; rewrite ?H, ?E; simpl; rewrite ?IH1, ?IH2; done.
Qed.

Lemma put_effect nid u ra da su change c :
  (forall x, Receipt.notification_id (change x) = Receipt.notification_id x /\
             Receipt.user_id (change x) = Receipt.user_id x) ->
  match NotificationReceiptRepository.put nid u (ra, da, su) change c with
  | (Ok r, c') =>
      receipt_put nid u r (db c) (db c') /\
      match receipt_of nid u (db c) with
      | Some x => r = change x
      | None => Receipt.read_at r = ra /\ Receipt.dismissed_at r = da /\ Receipt.snoozed_until r = su
      end
  | (_, c') => db c' = db c
  end.
Proof.
  intros Hc. unfold NotificationReceiptRepository.put.
  match goal with |- context [exec ?s c] => destruct (exec s c) as [[r|e|] c'] eqn:E end;
    [|by apply exec_fails in E..].
  apply exec_returns in E as (now & n & n' & E). unfold sql_upsert in E. unfold receipt_of.
  set (P := NotificationReceiptRepository.of_user nid u) in *.
  assert (forall x, P (change x) = P x) as HP.
  { intros x. unfold P, NotificationReceiptRepository.of_user. by destruct (Hc x) as [-> ->]. }
  change (rows (db c)) with (notification_receipts (db c)) in E.
  destruct (List.filter P (notification_receipts (db c))) as [|x l] eqn:Ef.
  - apply sql_insert_inv in E as (-> & _ & -> & _). split; [|done].
    assert (P (Receipt.mkNotificationReceipt n nid u ra da su now now) = true) as Hr.
    { unfold P, NotificationReceiptRepository.of_user. simpl. by rewrite !Z.eqb_refl. }
    constructor; [| |done]; unfold receipt_of; fold P; simpl; rewrite List.filter_app; simpl.
    + by rewrite Ef, Hr.
    + by rewrite Hr, app_nil_r.
  - destruct (sql_update P (fun _ => change) now (n + 1) (db c)) as [n1 [e|[a d']]] eqn:Eu; [done|].
    injection E as _ <- Hd. apply sql_update_inv in Eu as (_ & Hd' & _). rewrite <- Hd, Hd'.
    destruct (filter_map_keeps P change (notification_receipts (db c)) HP) as [H1 H2].
    split; [|done]. constructor; [| |done]; unfold receipt_of; fold P; simpl.
    + by rewrite H1, Ef.
    + exact H2.
Qed.

(** ** What the actions promise *)

Inductive hiding := Shown | SnoozedUntil (t : Z) | Dismissed.

(** A user's own state of a notification. *)
Record personal := mkPersonal { was_read : bool; hidden : hiding }.

Definition personal_of (r : option Receipt.NotificationReceipt) : personal :=
  mkPersonal (match r_read_at r with Some _ => true | None => false end)
    (match r_dismissed_at r, r_snoozed_until r with
     | Some _, _ => Dismissed
     | None, Some t => SnoozedUntil t
     | None, None => Shown
     end).

Inductive action := MarkRead | MarkUnread | Dismiss | Snooze (until : Z) | Restore.

Definition act (a : action) (nid u : Z) : Query Receipt.NotificationReceipt :=
  match a with
  | MarkRead => NotificationReceiptRepository.mark_read nid u
  | MarkUnread => NotificationReceiptRepository.mark_unread nid u
  | Dismiss => NotificationReceiptRepository.dismiss nid u
  | Snooze until => NotificationReceiptRepository.snooze nid u until
  | Restore => NotificationReceiptRepository.restore nid u
  end.

(** Reading and hiding are independent; the last hiding action counts, and
    restoring keeps the read state. *)
Definition promised (a : action) (p : personal) : personal :=
  match a with
  | MarkRead => mkPersonal true (hidden p)
  | MarkUnread => mkPersonal false (hidden p)
  | Dismiss => mkPersonal (was_read p) Dismissed
  | Snooze until => mkPersonal (was_read p) (SnoozedUntil until)
  | Restore => mkPersonal (was_read p) Shown
  end.

(** The inbox list of a notification that is not archived. *)
Definition inbox_state (now : Z) (n : Notif.Notification) (p : personal) : string :=
  let read := if Notif.is_read n || was_read p then "read" else "unread" in
  match hidden p with
  | Dismissed => "dismissed"
  | SnoozedUntil t => if now <? t then "snoozed" else read
  | Shown => read
  end.

Lemma inbox_state_lists now n r :
  Notif.archived_at n = None -> in_state now (inbox_state now n (personal_of r)) (n, r) = true.
Proof.
  intros Ha. unfold inbox_state, personal_of. simpl.
  destruct (r_dismissed_at r) eqn:Ed; [unfold in_state; simpl; by rewrite Ha|].
  destruct (r_snoozed_until r) as [t|] eqn:Es; [destruct (Z.ltb_spec now t)|];
    [unfold in_state; simpl; rewrite Ha, ?Ed, ?Es; simpl; rewrite Z.gtb_ltb;
       by destruct (Z.ltb_spec now t); [rewrite ?Ed|lia]|..];
    destruct (Notif.is_read n) eqn:En, (r_read_at r) eqn:Er; unfold in_state, awake; simpl;
    rewrite Ha, ?Ed, ?Es, ?En, ?Er; simpl; rewrite ?Ed, ?Es, ?En, ?Er; simpl; try done;
    by destruct (Z.leb_spec t now); [rewrite ?Er|lia].
Qed.

Lemma act_promised a nid u c :
  match act a nid u c with
  | (Ok r, c') =>
      receipt_put nid u r (db c) (db c') /\
      personal_of (Some r) = promised a (personal_of (receipt_of nid u (db c)))
  | (_, c') => db c' = db c
  end.
Proof.
  destruct a; simpl; unfold NotificationReceiptRepository.mark_read,
    NotificationReceiptRepository.mark_unread, NotificationReceiptRepository.dismiss,
    NotificationReceiptRepository.snooze, NotificationReceiptRepository.restore, bind, utc_now;
  match goal with |- context [NotificationReceiptRepository.put nid u (?ra, ?da, ?su) ?f ?c0] =>
    pose proof (put_effect nid u ra da su f c0 ltac:(done)) as H;
    destruct (NotificationReceiptRepository.put nid u (ra, da, su) f c0) as [[r|e|] c'] end;
  try done; destruct H as [Hp Hr]; (split; [exact Hp|]);
  change (db (c <| clock := clock c + hd 0 (ticks c) |> <| ticks := tl (ticks c) |>)) with (db c) in Hr;
  (destruct (receipt_of nid u (db c)) as [x|];
   [subst r; reflexivity|destruct Hr as (H1 & H2 & H3); unfold personal_of; simpl; by rewrite H1, H2, ?H3]).
Qed.

(** C28: the receipt actions keep their promise: an action that succeeds takes
    the user's own state of the notification exactly where the specification
    says (restoring clears snoozing and dismissal and keeps the read state),
    the inbox then lists the notification under the state this implies at any
    time, and receipts of other users and notifications stay; an action that
    fails changes nothing. *)
Theorem receipt_actions_refine a nid u c :
  match act a nid u c with
  | (Ok r, c') =>
      receipt_put nid u r (db c) (db c') /\
      personal_of (receipt_of nid u (db c')) = promised a (personal_of (receipt_of nid u (db c))) /\
      forall now n, Notif.archived_at n = None ->
        in_state now (inbox_state now n (promised a (personal_of (receipt_of nid u (db c)))))
          (n, receipt_of nid u (db c')) = true
  | (_, c') => db c' = db c
  end.
Proof.
  pose proof (act_promised a nid u c) as H. destruct (act a nid u c) as [[r|e|] c']; [|done..].
  destruct H as [Hp Hs]. split; [done|]. rewrite (put_found _ _ _ _ _ Hp), <- Hs. split; [done|].
  intros now n Ha. by apply inbox_state_lists.
Qed.

(** ** Access *)

Lemma scope_read auth c access c' :
  record_access_scope auth c = (Ok access, c') -> db c' = db c /\ access = scope_of auth (db c).
Proof.
  unfold record_access_scope. intros (l & c1 & Hl & [= <- <-])%bind_returns.
  unfold query, map_err, catch, MaintainerMemberRepository.find_by_user in Hl.
  destruct (bind _ _ c) as [[l'|e|] c2] eqn:E; [|done..]. injection Hl as <- <-.
  apply bind_returns in E as (l0 & c3 & (Hd & _ & ->)%select_cases & [= <- <-]). done.
Qed.

Section Accessible.
Context {SJ : SerdeJson}.

Lemma accessible_only auth id c n c' :
  find_accessible_notification auth id c = (Ok n, c') ->
  db c' = db c /\ n ∈ notifications (db c) /\ Notif.id n = id /\
  allows (scope_of auth (db c)) (Notif.owner_user_id n) (Notif.maintainer_id n) = true.
Proof.
  unfold find_accessible_notification. intros (n0 & c1 & Hn & H)%bind_returns.
  unfold query, map_err, catch in Hn.
  destruct (NotificationRepository.find id c) as [[n1|e|] c2] eqn:E; [|done..]. injection Hn as <- <-.
  apply find_cases in E as (Hd & _ & Hin & Hid%Z.eqb_eq).
  apply bind_returns in H as (access & c3 & [Hd3 ->]%scope_read & H).
  destruct (allows _ _ _) eqn:Ea; simpl in H; [|done]. injection H as <- <-.
  rewrite Hd3, Hd in *. done.
Qed.

Lemma find_accessible_keeps auth id I : preserves I (find_accessible_notification auth id).
Proof.
  unfold find_accessible_notification, record_access_scope, query,
    MaintainerMemberRepository.find_by_user. preserve.
Qed.

(** a user acts only on notifications the user may see: when the access
    rule refuses the notification, or it does not exist, every receipt handler
    fails and the database is unchanged, receipts and audit trail included. *)
Theorem hidden_notifications_stay_hidden auth action id run c :
  (forall n, n ∈ notifications (db c) -> Notif.id n = id ->
     allows (scope_of auth (db c)) (Notif.owner_user_id n) (Notif.maintainer_id n) = false) ->
  (forall v c', receipt_action auth action id run c <> (Ok v, c')) /\
  db (snd (receipt_action auth action id run c)) = db c.
Proof.
  intros Hno. unfold receipt_action, bind at 1 4.
  pose proof (find_accessible_keeps auth id (fun d => d = db c) c eq_refl) as Hk.
  destruct (find_accessible_notification auth id c) as [[n|e|] c1] eqn:E; [|done..].
  apply accessible_only in E as (_ & Hin & Hid & Ha). by rewrite (Hno n Hin Hid) in Ha.
Qed.
End Accessible.

Definition no_json : SerdeJson := {| json_to_string _ := None |}.

Definition private_db : Db :=
  inbox_db <| notifications := [discount <| Notif.owner_user_id := Some 8 |>] |>.

Lemma hidden_notifications_stay_hidden_witness :
  db (snd (dismiss_notification (SJ:=no_json) (plain_user 7) 1 (calm private_db 10 [] 1))) = private_db
  /\ fst (dismiss_notification (SJ:=no_json) (plain_user 7) 1 (calm private_db 10 [] 1)) = Err NotFound.
Proof.
  split; [|vm_compute; reflexivity].
  apply (hidden_notifications_stay_hidden (SJ:=no_json) (plain_user 7) "dismiss" 1
    (NotificationReceiptRepository.dismiss 1 7) (calm private_db 10 [] 1)).
  intros n Hn _. apply list_elem_of_singleton in Hn as ->. reflexivity.
Defined.
