(* ===== verification/WorkCards.v ===== *)
(** Work cards and calendar events as a user sees them: the my-work queries and
    the access-scoped listings of [src/src/repositories.rs], with the handlers of
    [src/src/rocket_routes/work_cards.rs] and [calendar_events.rs]. *)
From S2P Require Import Prelude Logic Text Models Schema Api Validation Access Records Connections.
From S2P Require Import AuditLogs Inbox.

Open Scope Z_scope.
Open Scope portal_scope.

(** ** My work *)

Inductive WorkCardDueFilter := Overdue | Today | NextSevenDays | NoDue.
Inductive WorkCardSort := Attention | DueAsc | SourceUpdatedDesc.

Record MyWorkCardFilters := mkMyWorkCardFilters {
  w_status : option string;
  w_due : option WorkCardDueFilter;
  w_project : option string;
  w_work_item_type : option string;
  w_source : option string;
  w_sort : WorkCardSort;
  today_start : Z;
  tomorrow_start : Z;
  next_seven_days_end : Z
}.

Record MyWorkCardFacetValues := mkMyWorkCardFacetValues {
  fv_statuses : list string;
  fv_projects : list string;
  fv_work_item_types : list string;
  fv_sources : list string
}.

(** Assigned to the user, visible and not archived. *)
Definition my_work_base_query (access : RecordAccessScope) (r : Card.WorkCard) : bool :=
  holds (is_null (Card.archived_at r))
  && holds (eq_int (Card.assignee_user_id r) (Some (user_id access)))
  && visible access (Card.owner_user_id r) (Card.maintainer_id r).

Definition apply_my_work_filters (f : MyWorkCardFilters) (r : Card.WorkCard) : bool :=
  match w_status f with Some s => Card.status r =s s | None => true end
  && match w_project f with Some p => holds (eq_text (Card.project r) (Some p)) | None => true end
  && match w_work_item_type f with
     | Some t => holds (eq_text (Card.work_item_type r) (Some t)) | None => true end
  && match w_source f with Some s => Card.source r =s s | None => true end
  && match w_due f with
     | Some Overdue => negb (Card.status r =s "done")
                       && holds (lt_ts (Card.due_at r) (Some (today_start f)))
     | Some Today => holds (ge_ts (Card.due_at r) (Some (today_start f)))
                     && holds (lt_ts (Card.due_at r) (Some (tomorrow_start f)))
     | Some NextSevenDays => holds (ge_ts (Card.due_at r) (Some (today_start f)))
                             && holds (lt_ts (Card.due_at r) (Some (next_seven_days_end f)))
     | Some NoDue => holds (is_null (Card.due_at r))
     | None => true
     end.

(** A boolean SQL expression as a sort key: FALSE < TRUE, NULL unordered. *)
Definition bool_key (t : tv) : option Z :=
  match t with Some true => Some 1 | Some false => Some 0 | None => None end.

Definition priority_rank (r : Card.WorkCard) : Z :=
  if Card.priority r =s "urgent" then 4
  else if Card.priority r =s "high" then 3
  else if Card.priority r =s "medium" then 2
  else 1.

Definition null_key {A} (x : option A) : option Z := bool_key (is_null x).

Definition my_work_keys (f : MyWorkCardFilters)
    : list (Card.WorkCard -> Card.WorkCard -> comparison) :=
  match w_sort f with
  | Attention =>
      [ desc_null (fun r => bool_key (Some (Card.status r =s "blocked")));
        desc_null (fun r => bool_key (tv_and (Some (negb (Card.status r =s "done")))
                                        (lt_ts (Card.due_at r) (Some (today_start f)))));
        asc_null (fun r => bool_key (Some (Card.status r =s "done")));
        desc priority_rank;
        asc_null (fun r => null_key (Card.due_at r));
        asc_null Card.due_at;
        asc_null (fun r => null_key (Card.source_updated_at r));
        desc_null Card.source_updated_at;
        asc Card.id ]
  | DueAsc =>
      [ asc_null (fun r => null_key (Card.due_at r)); asc_null Card.due_at; asc Card.id ]
  | SourceUpdatedDesc =>
      [ asc_null (fun r => null_key (Card.source_updated_at r)); desc_null Card.source_updated_at;
        desc Card.id ]
  end.

Definition apply_my_work_sort (f : MyWorkCardFilters) : Card.WorkCard -> Card.WorkCard -> bool :=
  lex_leb (my_work_keys f).

Definition my_work (access : RecordAccessScope) (f : MyWorkCardFilters) (r : Card.WorkCard) : bool :=
  my_work_base_query access r && apply_my_work_filters f r.

Definition find_my_work (access : RecordAccessScope) (f : MyWorkCardFilters) (page page_size : Z)
    : Query (list Card.WorkCard * Z) :=
  total <- exec (sql_count (my_work access f)) ;;
  l <- exec (sql_select (my_work access f)) ;;
  let skipped := (page - 1) * page_size in
  ret (limit page_size (offset skipped (order_by (apply_my_work_sort f) l)), total).

Section Facets.
Context {C : Collation}.

(** [SELECT DISTINCT column .. ORDER BY column]. *)
Definition distinct_texts (l : list string) : list string :=
  order_by (lex_leb [asc_text id]) (remove_dups l).

Definition not_blank_column (x : option string) : bool :=
  holds (is_not_null x)
  && holds (tv_cmp (fun a b => negb (str_eqb a b)) x (Some "")).

Definition my_work_facets (access : RecordAccessScope) : Query MyWorkCardFacetValues :=
  statuses <- exec (sql_select (my_work_base_query access)) ;;
  projects <- exec (sql_select (fun r =>
                my_work_base_query access r && not_blank_column (Card.project r))) ;;
  work_item_types <- exec (sql_select (fun r =>
                my_work_base_query access r && not_blank_column (Card.work_item_type r))) ;;
  sources <- exec (sql_select (my_work_base_query access)) ;;
  ret (mkMyWorkCardFacetValues (distinct_texts (map Card.status statuses))
         (distinct_texts (omap Card.project projects))
         (distinct_texts (omap Card.work_item_type work_item_types))
         (distinct_texts (map Card.source sources))).
End Facets.

(** ** Listings *)

Definition find_multiple_for_access (n : Z) (access : RecordAccessScope)
    : Query (list Card.WorkCard) :=
  l <- exec (sql_select (fun r => holds (is_null (Card.archived_at r))
         && visible access (Card.owner_user_id r) (Card.maintainer_id r))) ;;
  ret (limit n (order_by (lex_leb [desc Card.updated_at]) l)).

Definition open_for_access (maintainer_id : option Z) (source : option string)
    (access : RecordAccessScope) (r : Card.WorkCard) : bool :=
  negb (Card.status r =s "done") && holds (is_null (Card.archived_at r))
  && match maintainer_id with
     | Some m => holds (eq_int (Card.maintainer_id r) (Some m)) | None => true end
  && match source with Some s => Card.source r =s s | None => true end
  && visible access (Card.owner_user_id r) (Card.maintainer_id r).

Definition find_open_for_access (n : Z) (maintainer_id : option Z) (source : option string)
    (access : RecordAccessScope) : Query (list Card.WorkCard) :=
  l <- exec (sql_select (open_for_access maintainer_id source access)) ;;
  ret (limit n (order_by (lex_leb [desc Card.updated_at]) l)).

Definition count_open_for_access (maintainer_id : option Z) (source : option string)
    (access : RecordAccessScope) : Query Z :=
  exec (sql_count (open_for_access maintainer_id source access)).

Definition find_upcoming_for_access (n starts_from starts_before : Z) (maintainer_id : option Z)
    (source : option string) (access : RecordAccessScope) : Query (list Event.CalendarEvent) :=
  l <- exec (sql_select (fun e =>
         holds (is_null (Event.archived_at e)) && negb (Event.is_cancelled e)
         && (starts_from <=? Event.starts_at e) && (Event.starts_at e <? starts_before)
         && match maintainer_id with
            | Some m => holds (eq_int (Event.maintainer_id e) (Some m)) | None => true end
         && match source with Some s => Event.source e =s s | None => true end
         && visible access (Event.owner_user_id e) (Event.maintainer_id e))) ;;
  ret (limit n (order_by (lex_leb [asc Event.starts_at; asc Event.id]) l)).

(** ** Handlers *)

Record MyWorkCardQuery := mkMyWorkCardQuery {
  mq_status : option string;
  mq_due : option string;
  mq_project : option string;
  mq_work_item_type : option string;
  mq_source : option string;
  mq_sort : option string;
  mq_page : option Z;
  mq_page_size : option Z
}.

Definition DEFAULT_MY_WORK_PAGE_SIZE : Z := 25.
Definition MAX_MY_WORK_PAGE_SIZE : Z := 100.
Definition MAX_MY_WORK_PAGE : Z := 1000000.

Definition validate_optional_choice (f : string) (value : option string) (allowed : list string)
    : Check :=
  push_if (match value with Some v => negb (one_of_texts (trim v) allowed) | None => false end) f
    (String.append "must be one of " (join ", " allowed)).

Definition not_empty_when_provided (f : string) (value : option string) : Check :=
  push_if (match value with Some v => is_empty (trim v) | None => false end) f
    "must not be empty when provided".

#[export] Instance validate_my_work_query : Validate MyWorkCardQuery := fun q =>
  run_checks
    [ validate_optional_choice "status" (mq_status q) ["todo"; "in_progress"; "blocked"; "done"];
      validate_optional_choice "due" (mq_due q) ["overdue"; "today"; "next_7_days"; "none"];
      validate_optional_choice "sort" (mq_sort q) ["attention"; "due_asc"; "source_updated_desc"];
      max_optional_len "project" (mq_project q) 128;
      max_optional_len "work_item_type" (mq_work_item_type q) 128;
      max_optional_len "source" (mq_source q) 64;
      not_empty_when_provided "project" (mq_project q);
      not_empty_when_provided "work_item_type" (mq_work_item_type q);
      not_empty_when_provided "source" (mq_source q);
      push_if (out_of 1 MAX_MY_WORK_PAGE (mq_page q)) "page" "must be from 1 to 1000000";
      push_if (out_of 1 MAX_MY_WORK_PAGE_SIZE (mq_page_size q)) "page_size"
        "must be from 1 to 100" ].

Record MyWorkCardsResponse := mkMyWorkCardsResponse {
  mw_items : list Card.WorkCard;
  mw_total : Z;
  mw_page : Z;
  mw_page_size : Z;
  mw_facets : MyWorkCardFacetValues
}.

Definition trimmed (value : option string) : option string := trim <$> value.

Definition due_of (value : option string) : Handler (option WorkCardDueFilter) :=
  match trim <$> value with
  | Some v =>
      if v =s "overdue" then ret (Some Overdue)
      else if v =s "today" then ret (Some Today)
      else if v =s "next_7_days" then ret (Some NextSevenDays)
      else if v =s "none" then ret (Some NoDue)
      else fail BadRequest
  | None => ret None
  end.

Definition sort_of (value : option string) : Handler WorkCardSort :=
  match trim <$> value with
  | Some v =>
      if v =s "due_asc" then ret DueAsc
      else if v =s "source_updated_desc" then ret SourceUpdatedDesc
      else if v =s "attention" then ret Attention
      else fail BadRequest
  | None => ret Attention
  end.

(** The start of the day of an instant. *)
Definition midnight (t : Z) : Z := t / day * day.

Definition get_my_work_cards {C : Collation} (auth : AuthenticatedUser) (q : MyWorkCardQuery)
    : Handler MyWorkCardsResponse :=
  q <- validate_request q ;;
  access <- record_access_scope auth ;;
  let page := default 1 (mq_page q) in
  let page_size := default DEFAULT_MY_WORK_PAGE_SIZE (mq_page_size q) in
  now <- utc_now ;;
  let today_start := midnight now in
  due <- due_of (mq_due q) ;;
  sort <- sort_of (mq_sort q) ;;
  tomorrow_start <- or_panic (datetime_add today_start day) ;;
  next_seven_days_end <- or_panic (datetime_add today_start (7 * day)) ;;
  let filters := mkMyWorkCardFilters (trimmed (mq_status q)) due (trimmed (mq_project q))
    (trimmed (mq_work_item_type q)) (trimmed (mq_source q)) sort today_start tomorrow_start
    next_seven_days_end in
  result <- query (find_my_work access filters page page_size) ;;
  facets <- query (my_work_facets access) ;;
  ret (mkMyWorkCardsResponse (fst result) (snd result) page page_size facets).

Definition get_work_cards (auth : AuthenticatedUser) : Handler (list Card.WorkCard) :=
  access <- record_access_scope auth ;;
  query (find_multiple_for_access 100 access).

Definition view_work_card (auth : AuthenticatedUser) (id : Z) : Handler Card.WorkCard :=
  work_card <- query (WorkCardRepository.find id) ;;
  access <- record_access_scope auth ;;
  if negb (allows access (Card.owner_user_id work_card) (Card.maintainer_id work_card))
  then fail NotFound else ret work_card.

Section Editing.
Context {SJ : SerdeJson}.

Definition card_metadata (r : Card.WorkCard) : Json :=
  JObj [("source", JStr (Card.source r)); ("status", JStr (Card.status r));
        ("priority", JStr (Card.priority r))].

Definition create_work_card (auth : AuthenticatedUser) (n : NewCard.NewWorkCard)
    : Handler Card.WorkCard :=
  require_admin auth ;;;
  n <- validate_request n ;;
  work_card <- query (WorkCardRepository.create n) ;;
  record_audit_log auth "create" "work_card" (int_to_string (Card.id work_card))
    (card_metadata work_card) ;;;
  ret work_card.

(** What an update keeps of the stored card. *)
Definition keep_card_origin (existing : Card.WorkCard) (n : NewCard.NewWorkCard)
    : NewCard.NewWorkCard :=
  n <| NewCard.connector_id := Card.connector_id existing |>
    <| NewCard.owner_user_id := Card.owner_user_id existing |>
    <| NewCard.maintainer_id := Card.maintainer_id existing |>
    <| NewCard.assignee_source_id := Card.assignee_source_id existing |>
    <| NewCard.assignee_user_id := Card.assignee_user_id existing |>
    <| NewCard.source_updated_at := Card.source_updated_at existing |>
    <| NewCard.last_seen_run_id := Card.last_seen_run_id existing |>
    <| NewCard.archived_at := Card.archived_at existing |>.

Definition update_work_card (auth : AuthenticatedUser) (id : Z) (n : NewCard.NewWorkCard)
    : Handler Card.WorkCard :=
  require_admin auth ;;;
  n <- validate_request n ;;
  existing <- query (WorkCardRepository.find id) ;;
  work_card <- query (WorkCardRepository.update id (keep_card_origin existing n)) ;;
  record_audit_log auth "update" "work_card" (int_to_string (Card.id work_card))
    (card_metadata work_card) ;;;
  ret work_card.

Definition delete_work_card (auth : AuthenticatedUser) (id : Z) : Handler unit :=
  require_admin auth ;;;
  work_card <- query (WorkCardRepository.find id) ;;
  query (WorkCardRepository.delete id) ;;;
  record_audit_log auth "delete" "work_card" (int_to_string id)
    (JObj [("source", JStr (Card.source work_card)); ("status", JStr (Card.status work_card))]).
End Editing.

(** ** Calendar events *)

Definition hour : Z := 3600 * second.
Definition CALENDAR_WINDOW_BEFORE_HOURS : Z := 18.
Definition CALENDAR_WINDOW_AFTER_HOURS : Z := 42.

Definition get_calendar_events (auth : AuthenticatedUser) : Handler (list Event.CalendarEvent) :=
  access <- record_access_scope auth ;;
  now <- utc_now ;;
  starts_from <- or_panic (datetime_add now (- (CALENDAR_WINDOW_BEFORE_HOURS * hour))) ;;
  starts_before <- or_panic (datetime_add now (CALENDAR_WINDOW_AFTER_HOURS * hour)) ;;
  query (find_upcoming_for_access 100 starts_from starts_before None None access).

Definition view_calendar_event (auth : AuthenticatedUser) (id : Z) : Handler Event.CalendarEvent :=
  event <- query (CalendarEventRepository.find id) ;;
  access <- record_access_scope auth ;;
  if holds (is_not_null (Event.archived_at event))
     || negb (allows access (Event.owner_user_id event) (Event.maintainer_id event))
  then fail NotFound else ret event.
