(* ===== verification/WorkCardSafety.v ===== *)
(** The guarantees of my work: what the query returns, and how the attention
    order treats cards without a due date. *)
From S2P Require Import Prelude Logic Text Models Schema Api Validation Access Records WorkCards.

Open Scope Z_scope.
Open Scope portal_scope.

(** my work shows a user only the user's own work: every card returned is
    stored, assigned to the user, not archived, open to the user's access scope
    and within the requested filters; the page is no longer than asked, the
    total counts all such cards, and nothing is written. *)
Theorem my_work_is_own_work access f page size c :
  match find_my_work access f page size c with
  | (Ok (items, total), c') =>
      (forall r, r ∈ items -> r ∈ work_cards (db c) /\
         Card.assignee_user_id r = Some (user_id access) /\ Card.archived_at r = None /\
         (record_scope_check (Card.owner_user_id r) (Card.maintainer_id r) = true ->
          allows access (Card.owner_user_id r) (Card.maintainer_id r) = true) /\
         apply_my_work_filters f r = true) /\
      (length items <= Z.to_nat size)%nat /\
      total = Z.of_nat (length (List.filter (my_work access f) (work_cards (db c)))) /\
      db c' = db c
  | (_, c') => db c' = db c
  end.
Proof.
  assert (preserves (fun d => d = db c) (find_my_work access f page size)) as Hp
    by (unfold find_my_work; preserve).
  specialize (Hp c eq_refl). revert Hp.
  destruct (find_my_work access f page size c) as [[[items total]|e|] c'] eqn:E; [|done..].
  intros Hd. simpl in Hd. unfold find_my_work in E.
  apply bind_returns in E as (n & c1 & Hn & E).
  apply bind_returns in E as (l & c2 & (_ & _ & Hl)%select_cases & [= <- <- <-]).
  apply exec_returns in Hn as (now & s & s' & [= _ <- Hd1]). split_and!; [|..|done|done].
  - intros r Hr%elem_of_take.
    assert (r ∈ order_by (apply_my_work_sort f) l) as Ho
      by (eapply elem_of_sublist; [exact Hr|apply sublist_drop]).
    apply elem_of_order_by in Ho. rewrite Hl, elem_of_filter_b in Ho. rewrite <- Hd1 in Ho.
    destruct Ho as [Hin Hm]. split; [done|].
    apply andb_true_iff in Hm as [Hb Hf]. unfold my_work_base_query in Hb.
    rewrite !andb_true_iff in Hb. destruct Hb as [[Ha Hu] Hv]. split_and!; [| |..|done].
    + destruct (Card.assignee_user_id r) as [u|]; [|done]. unfold holds in Hu. simpl in Hu.
      destruct (Z.eqb_spec u (user_id access)); [congruence|done].
    + by destruct (Card.archived_at r).
    + intros Hs. by rewrite <- visible_allows.
  - unfold limit. rewrite length_take. lia.
Qed.

(** the attention order puts work without a due date before overdue work:
    for two open cards that are not blocked, one overdue and one without a due
    date, the overdue flag of the second is NULL, which a descending sort puts
    first, whatever their priorities. *)
Theorem undated_card_outranks_overdue f undated overdue t :
  w_sort f = Attention ->
  Card.status undated <> "blocked" -> Card.status undated <> "done" -> Card.due_at undated = None ->
  Card.status overdue <> "blocked" -> Card.status overdue <> "done" ->
  Card.due_at overdue = Some t -> t < today_start f ->
  apply_my_work_sort f undated overdue = true /\ apply_my_work_sort f overdue undated = false.
Proof.
  intros Hs U1%str_eqb_neq U2%str_eqb_neq U3 O1%str_eqb_neq O2%str_eqb_neq O3 Ht.
  unfold apply_my_work_sort, my_work_keys. rewrite Hs. cbn [lex_leb].
  unfold desc_null at 1 2 4 5. rewrite U1, U2, U3, O1, O2, O3. unfold lt_ts, tv_cmp.
  by destruct (Z.ltb_spec t (today_start f)); [|lia].
Qed.

Definition my_card (id : Z) (priority : string) (due : option Z) : Card.WorkCard :=
  Card.mkWorkCard id "azure" (Some "a") "Fix" "todo" priority None None None None (Some 7) due None
    0 0 None None None None None None.

Definition attention_on (today : Z) : MyWorkCardFilters :=
  mkMyWorkCardFilters None None None None None Attention today (today + day) (today + 7 * day).

Lemma undated_card_outranks_overdue_witness :
  apply_my_work_sort (attention_on (10 * day)) (my_card 2 "low" None)
    (my_card 1 "urgent" (Some day)) = true /\
  apply_my_work_sort (attention_on (10 * day)) (my_card 1 "urgent" (Some day))
    (my_card 2 "low" None) = false.
Proof.
  apply (undated_card_outranks_overdue (attention_on (10 * day)) (my_card 2 "low" None)
    (my_card 1 "urgent" (Some day)) day); try discriminate; reflexivity.
Defined.
