(* ===== verification/Catalog.v ===== *)
(** The catalog of teams, packages and services: [MaintainerRepository] and
    [PackageRepository] of [src/src/repositories.rs] and the handlers of
    [src/src/rocket_routes/maintainers.rs], [packages.rs] and [services.rs]. *)
From S2P Require Import Prelude Logic Text Models Schema Api Validation Access Accounts.
From S2P Require Import Records Runs Connections AuditLogs.

Open Scope Z_scope.
Open Scope portal_scope.

(** ** Repositories *)

Module MaintainerRepository.

Definition by_id (id : Z) (r : Maint.Maintainer) : bool := Maint.id r =? id.

Definition find (id : Z) : Query Maint.Maintainer := first_row (exec (sql_select (by_id id))).

Definition find_multiple {C : Collation} (n : Z) : Query (list Maint.Maintainer) :=
  l <- exec (sql_select (fun _ => true)) ;;
  ret (limit n (order_by (lex_leb [asc_text Maint.display_name]) l)).

Definition find_by_ids {C : Collation} (ids : list Z) : Query (list Maint.Maintainer) :=
  match ids with
  | [] => ret []
  | _ =>
      l <- exec (sql_select (fun m => existsb (Z.eqb (Maint.id m)) ids)) ;;
      ret (order_by (lex_leb [asc_text Maint.display_name]) l)
  end.

Definition of_new (n : NewMaint.NewMaintainer) (now id : Z) : Maint.Maintainer :=
  Maint.mkMaintainer id (NewMaint.display_name n) (NewMaint.email n) now.

Definition create (n : NewMaint.NewMaintainer) : Query Maint.Maintainer :=
  exec (sql_insert (of_new n)).

Definition update (id : Z) (n : NewMaint.NewMaintainer) : Query Maint.Maintainer :=
  first_row (exec (sql_update (by_id id) (fun _ m =>
    m <| Maint.display_name := NewMaint.display_name n |> <| Maint.email := NewMaint.email n |>))).

(** Two statements, each its own transaction. *)
Definition delete (id : Z) : Query Z :=
  affected (exec (sql_delete (fun m => Member.maintainer_id m =? id))) ;;;
  affected (exec (sql_delete (by_id id))).

End MaintainerRepository.

Module PackageRepository.

Definition by_id (id : Z) (r : Pkg.Package) : bool := Pkg.id r =? id.

Definition newest_first : Pkg.Package -> Pkg.Package -> bool := lex_leb [desc Pkg.updated_at].

Definition find (id : Z) : Query Pkg.Package := first_row (exec (sql_select (by_id id))).

Definition find_multiple (n : Z) : Query (list Pkg.Package) :=
  l <- exec (sql_select (fun _ => true)) ;; ret (limit n (order_by newest_first l)).

Definition find_recent_for_maintainer (n : Z) (maintainer_id : option Z)
    : Query (list Pkg.Package) :=
  l <- exec (sql_select (fun p =>
         match maintainer_id with Some m => Pkg.maintainer_id p =? m | None => true end)) ;;
  ret (limit n (order_by newest_first l)).

Definition find_recent_for_maintainers (n : Z) (maintainer_ids : list Z)
    : Query (list Pkg.Package) :=
  match maintainer_ids with
  | [] => ret []
  | _ =>
      l <- exec (sql_select (fun p => existsb (Z.eqb (Pkg.maintainer_id p)) maintainer_ids)) ;;
      ret (limit n (order_by newest_first l))
  end.

Definition of_new (n : NewPkg.NewPackage) (now id : Z) : Pkg.Package :=
  Pkg.mkPackage id (NewPkg.maintainer_id n) (NewPkg.slug n) (NewPkg.name n) (NewPkg.version n)
    (NewPkg.description n) now (NewPkg.status n) (NewPkg.repository_url n)
    (NewPkg.documentation_url n) now.

Definition create (n : NewPkg.NewPackage) : Query Pkg.Package := exec (sql_insert (of_new n)).

Definition update (id : Z) (n : NewPkg.NewPackage) : Query Pkg.Package :=
  first_row (exec (sql_update (by_id id) (fun now p =>
    (of_new n now (Pkg.id p)) <| Pkg.created_at := Pkg.created_at p |>))).

Definition delete (id : Z) : Query Z := affected (exec (sql_delete (by_id id))).

End PackageRepository.

(** ** Maintainer handlers *)

Record MaintainerMemberRequest := mkMaintainerMemberRequest {
  mr_user_id : Z;
  mr_role : string
}.

Definition get_maintainers {C : Collation} (_auth : AuthenticatedUser)
    : Handler (list Maint.Maintainer) := query (MaintainerRepository.find_multiple 100).

Definition view_maintainer (_auth : AuthenticatedUser) (id : Z) : Handler Maint.Maintainer :=
  query (MaintainerRepository.find id).

Definition get_maintainer_members (auth : AuthenticatedUser) (id : Z)
    : Handler (list Member.MaintainerMember) :=
  require_maintainer_owner_access auth id ;;;
  query (MaintainerMemberRepository.find_by_maintainer id).

Section Handlers.
Context {SJ : SerdeJson}.

Definition create_maintainer (auth : AuthenticatedUser) (n : NewMaint.NewMaintainer)
    : Handler Maint.Maintainer :=
  require_admin auth ;;;
  n <- validate_request n ;;
  maintainer <- query (MaintainerRepository.create n) ;;
  record_audit_log auth "create" "maintainer" (int_to_string (Maint.id maintainer))
    (JObj [("email", JStr (Maint.email maintainer))]) ;;;
  ret maintainer.

Definition update_maintainer (auth : AuthenticatedUser) (id : Z) (n : NewMaint.NewMaintainer)
    : Handler Maint.Maintainer :=
  require_admin auth ;;;
  n <- validate_request n ;;
  maintainer <- query (MaintainerRepository.update id n) ;;
  record_audit_log auth "update" "maintainer" (int_to_string (Maint.id maintainer))
    (JObj [("email", JStr (Maint.email maintainer))]) ;;;
  ret maintainer.

Definition delete_maintainer (auth : AuthenticatedUser) (id : Z) : Handler unit :=
  require_admin auth ;;;
  query (MaintainerRepository.delete id) ;;;
  record_audit_log auth "delete" "maintainer" (int_to_string id) (JObj []).

Definition upsert_maintainer_member {U : Unicode} (auth : AuthenticatedUser) (id : Z)
    (member : MaintainerMemberRequest) : Handler Member.MaintainerMember :=
  require_maintainer_owner_access auth id ;;;
  query (MaintainerRepository.find id) ;;;
  query (UserRepository.find (mr_user_id member)) ;;;
  new_member <- validate_request
    (NewMember.mkNewMaintainerMember id (mr_user_id member) (mr_role member)) ;;
  member <- query (MaintainerMemberRepository.upsert new_member) ;;
  record_audit_log auth "upsert_member" "maintainer" (int_to_string id)
    (JObj [("user_id", JInt (Member.user_id member)); ("role", JStr (Member.role member))]) ;;;
  ret member.

Definition delete_maintainer_member (auth : AuthenticatedUser) (id user_id : Z) : Handler unit :=
  require_maintainer_owner_access auth id ;;;
  query (MaintainerMemberRepository.delete_by_maintainer_and_user id user_id) ;;;
  record_audit_log auth "delete_member" "maintainer" (int_to_string id)
    (JObj [("user_id", JInt user_id)]).

(** ** Package handlers *)

Definition get_packages (_auth : AuthenticatedUser) : Handler (list Pkg.Package) :=
  query (PackageRepository.find_multiple 100).

Definition view_package (_auth : AuthenticatedUser) (id : Z) : Handler Pkg.Package :=
  query (PackageRepository.find id).

Definition package_metadata (p : Pkg.Package) : Json :=
  JObj [("maintainer_id", JInt (Pkg.maintainer_id p)); ("slug", JStr (Pkg.slug p));
        ("status", JStr (Pkg.status p))].

Definition create_package (auth : AuthenticatedUser) (n : NewPkg.NewPackage)
    : Handler Pkg.Package :=
  n <- validate_request n ;;
  require_maintainer_write_access auth (NewPkg.maintainer_id n) ;;;
  package <- query (PackageRepository.create n) ;;
  record_audit_log auth "create" "package" (int_to_string (Pkg.id package))
    (package_metadata package) ;;;
  ret package.

Definition update_package (auth : AuthenticatedUser) (id : Z) (n : NewPkg.NewPackage)
    : Handler Pkg.Package :=
  n <- validate_request n ;;
  existing <- query (PackageRepository.find id) ;;
  require_maintainer_write_access auth (Pkg.maintainer_id existing) ;;;
  require_maintainer_write_access auth (NewPkg.maintainer_id n) ;;;
  package <- query (PackageRepository.update id n) ;;
  record_audit_log auth "update" "package" (int_to_string (Pkg.id package))
    (package_metadata package) ;;;
  ret package.

Definition delete_package (auth : AuthenticatedUser) (id : Z) : Handler unit :=
  package <- query (PackageRepository.find id) ;;
  require_maintainer_write_access auth (Pkg.maintainer_id package) ;;;
  query (PackageRepository.delete id) ;;;
  record_audit_log auth "delete" "package" (int_to_string id)
    (JObj [("maintainer_id", JInt (Pkg.maintainer_id package)); ("slug", JStr (Pkg.slug package))]).

(** ** Service handlers *)

Definition get_services (_auth : AuthenticatedUser) : Handler (list Svc.Service) :=
  query (ServiceRepository.find_multiple 100).

Definition view_service (_auth : AuthenticatedUser) (id : Z) : Handler Svc.Service :=
  query (ServiceRepository.find id).

Definition service_metadata (s : Svc.Service) : Json :=
  JObj [("maintainer_id", JInt (Svc.maintainer_id s)); ("slug", JStr (Svc.slug s));
        ("health_status", JStr (Svc.health_status s))].

Definition create_service (auth : AuthenticatedUser) (n : NewSvc.NewService)
    : Handler Svc.Service :=
  n <- validate_request n ;;
  require_maintainer_write_access auth (NewSvc.maintainer_id n) ;;;
  service <- query (ServiceRepository.create n) ;;
  record_audit_log auth "create" "service" (int_to_string (Svc.id service))
    (service_metadata service) ;;;
  ret service.

Definition update_service (auth : AuthenticatedUser) (id : Z) (n : NewSvc.NewService)
    : Handler Svc.Service :=
  n <- validate_request n ;;
  existing <- query (ServiceRepository.find id) ;;
  require_maintainer_write_access auth (Svc.maintainer_id existing) ;;;
  require_maintainer_write_access auth (NewSvc.maintainer_id n) ;;;
  service <- query (ServiceRepository.update id n) ;;
  record_audit_log auth "update" "service" (int_to_string (Svc.id service))
    (service_metadata service) ;;;
  ret service.

Definition delete_service (auth : AuthenticatedUser) (id : Z) : Handler unit :=
  service <- query (ServiceRepository.find id) ;;
  require_maintainer_write_access auth (Svc.maintainer_id service) ;;;
  query (ServiceRepository.delete id) ;;;
  record_audit_log auth "delete" "service" (int_to_string id)
    (JObj [("maintainer_id", JInt (Svc.maintainer_id service)); ("slug", JStr (Svc.slug service))]).
End Handlers.

(** ** The overview of a service *)

Record ServiceOwner := mkServiceOwner {
  so_id : Z;
  so_display_name : string;
  so_email : string
}.

Record ServiceHealthOverview := mkServiceHealthOverview {
  sh_status : string;
  sh_lifecycle_status : string;
  sh_last_checked_at : option Z
}.

Record ServiceLinks := mkServiceLinks {
  sl_repository_url : option string;
  sl_dashboard_url : option string;
  sl_runbook_url : option string
}.

Record ServiceOverview := mkServiceOverview {
  ov_service : Svc.Service;
  ov_owner : ServiceOwner;
  ov_maintainer : Maint.Maintainer;
  ov_maintainer_members : list Member.MaintainerMember;
  ov_packages : list Pkg.Package;
  ov_health : ServiceHealthOverview;
  ov_connector : option Connectors.Connector;
  ov_recent_connector_runs : list Run.ConnectorRun;
  ov_links : ServiceLinks
}.

Definition service_overview (auth : AuthenticatedUser) (id : Z) : Handler ServiceOverview :=
  service <- query (ServiceRepository.find id) ;;
  let maintainer_id := Svc.maintainer_id service in
  let source := Svc.source service in
  access <- record_access_scope auth ;;
  maintainer <- query (MaintainerRepository.find maintainer_id) ;;
  may_view <- can_view_maintainer_members auth maintainer_id ;;
  members <- (if may_view : bool
              then query (MaintainerMemberRepository.find_by_maintainer maintainer_id)
              else ret []) ;;
  packages <- query (PackageRepository.find_recent_for_maintainer 20 (Some maintainer_id)) ;;
  found <- catch (ConnectorRepository.find_by_source source) (fun r =>
             match r with
             | inr connector => ret (Some connector)
             | inl DNotFound => ret None
             | inl error => fail (from_diesel error)
             end) ;;
  let connector := match found with
                   | Some k => if allows access (Connectors.owner_user_id k)
                                       (Connectors.maintainer_id k) then Some k else None
                   | None => None
                   end in
  runs <- match connector with
          | Some _ => query (find_multiple_for_access 10 (Some source) (Some "service_health") access)
          | None => ret []
          end ;;
  ret (mkServiceOverview service
         (mkServiceOwner (Maint.id maintainer) (Maint.display_name maintainer) (Maint.email maintainer))
         maintainer members packages
         (mkServiceHealthOverview (Svc.health_status service) (Svc.lifecycle_status service)
            (Svc.last_checked_at service))
         connector runs
         (mkServiceLinks (Svc.repository_url service) (Svc.dashboard_url service)
            (Svc.runbook_url service))).
