(* ===== verification/CatalogSafety.v ===== *)
(** Properties of the catalog handlers of [Catalog.v]: whose entries a request
    can change, and what a refused deletion of a team leaves behind. *)
From S2P Require Import Prelude Logic Text Models Schema Api Validation Access Accounts.
From S2P Require Import Records Connections AuditLogs Catalog.

Open Scope Z_scope.
Open Scope portal_scope.

(** ** The entries of a team *)

Section Team.
Context {A : Type} (key id : A -> Z).

(** The entries of team [m], by the column [key]. *)
Definition entries (m : Z) (l : list A) : list A := List.filter (fun r => key r =? m) l.

Lemma entries_insert m l r : key r <> m -> entries m (l ++ [r]) = entries m l.
Proof.
  intros H. unfold entries. rewrite List.filter_app. simpl.
  by rewrite (proj2 (Z.eqb_neq _ _) H), app_nil_r.
Qed.

Lemma entries_update m l (P : A -> bool) f :
  (forall r, r ∈ l -> P r = true -> key r <> m /\ key (f r) <> m) ->
  entries m (map (fun r => if P r then f r else r) l) = entries m l.
Proof.
  unfold entries. induction l as [|r l IH]; simpl; [done|]. intros H.
  rewrite IH by (intros x Hx; apply H; by right).
  destruct (P r) eqn:E; [|done].
  destruct (H r) as [H1 H2]; [left|done|]. apply Z.eqb_neq in H1, H2. by rewrite H1, H2.
Qed.

Lemma entries_delete m l (P : A -> bool) :
  (forall r, r ∈ l -> P r = true -> key r <> m) ->
  entries m (List.filter (fun r => negb (P r)) l) = entries m l.
Proof.
  unfold entries. induction l as [|r l IH]; simpl; [done|]. intros H.
  rewrite <- IH by (intros x Hx; apply H; by right).
  destruct (P r) eqn:E; simpl; [|done].
  assert (Hk : key r <> m) by (apply H; [left|done]). apply Z.eqb_neq in Hk. by rewrite Hk.
Qed.

(** A row found by its primary key stands for every row with that key. *)
Lemma found_by_id i (l : list A) x r :
  NoDup (map id l) -> List.filter (fun r => id r =? i) l = x :: r ->
  forall y, y ∈ l -> id y = i -> y = x.
Proof.
  intros Hn E y Hy Hi.
  assert (x ∈ List.filter (fun r => id r =? i) l) as Hx by (rewrite E; left).
  apply elem_of_filter_b in Hx as [Hx Hxi%Z.eqb_eq].
  apply (NoDup_map_inj id l); congruence.
Qed.
End Team.

Definition packages_of (m : Z) (d : Db) : list Pkg.Package :=
  entries Pkg.maintainer_id m (packages d).
Definition services_of (m : Z) (d : Db) : list Svc.Service :=
  entries Svc.maintainer_id m (services d).
Definition members_of (m : Z) (d : Db) : list Member.MaintainerMember :=
  entries Member.maintainer_id m (maintainer_members d).

(** ** The requests that change the catalog *)

Inductive CatalogRequest :=
  | CreateMaintainer (n : NewMaint.NewMaintainer)
  | UpdateMaintainer (id : Z) (n : NewMaint.NewMaintainer)
  | DeleteMaintainer (id : Z)
  | UpsertMaintainerMember (id : Z) (member : MaintainerMemberRequest)
  | DeleteMaintainerMember (id user_id : Z)
  | CreatePackage (n : NewPkg.NewPackage)
  | UpdatePackage (id : Z) (n : NewPkg.NewPackage)
  | DeletePackage (id : Z)
  | CreateService (n : NewSvc.NewService)
  | UpdateService (id : Z) (n : NewSvc.NewService)
  | DeleteService (id : Z).

Definition discard {A} (m : Handler A) : Handler unit := m ;;; ret tt.

Definition serve {SJ : SerdeJson} {U : Unicode} (auth : AuthenticatedUser) (r : CatalogRequest)
    : Handler unit :=
  match r with
  | CreateMaintainer n => discard (create_maintainer auth n)
  | UpdateMaintainer id n => discard (update_maintainer auth id n)
  | DeleteMaintainer id => delete_maintainer auth id
  | UpsertMaintainerMember id member => discard (upsert_maintainer_member auth id member)
  | DeleteMaintainerMember id user_id => delete_maintainer_member auth id user_id
  | CreatePackage n => discard (create_package auth n)
  | UpdatePackage id n => discard (update_package auth id n)
  | DeletePackage id => delete_package auth id
  | CreateService n => discard (create_service auth n)
  | UpdateService id n => discard (update_service auth id n)
  | DeleteService id => delete_service auth id
  end.

(** ** Who may change what *)

(** An admin, or a member of the team in one of the roles. *)
Definition may (auth : AuthenticatedUser) (d : Db) (roles : list string) (m : Z) : Prop :=
  auth_is_admin auth = true \/ member_with d m (Users.id (auth_user auth)) roles.

(** From [d0] to [d] a team's entries change only if the caller may write to it,
    and its members only if the caller may act as its owner. *)
Definition within_rights (auth : AuthenticatedUser) (d0 d : Db) : Prop := forall m,
  (may auth d0 ["owner"; "maintainer"] m \/
     packages_of m d = packages_of m d0 /\ services_of m d = services_of m d0) /\
  (may auth d0 ["owner"] m \/ members_of m d = members_of m d0).

Lemma within_rights_refl auth d : within_rights auth d d.
Proof. intros m. split; by right. Qed.

Lemma within_rights_admin auth d0 d : auth_is_admin auth = true -> within_rights auth d0 d.
Proof. intros H m. split; by left; left. Qed.

Section Rights.
Context {SJ : SerdeJson} {U : Unicode} (auth : AuthenticatedUser) (d0 : Db).

Abbreviation here := (fun d => d = d0).
Abbreviation granted := (within_rights auth d0).

(** A step that only reads, and then continues under what it found. *)
Lemma reads {E A B} (m : M Db E A) (k : A -> M Db E B) (R : A -> Prop) (Q : B -> Db -> Prop) X :
  hoare here m (fun a d => d = d0 /\ R a) (fun _ _ => here) ->
  (forall e ab d, d = d0 -> X e ab d) ->
  (forall a, R a -> hoare here (k a) Q X) -> hoare here (bind m k) Q X.
Proof.
  intros Hm HX Hk. eapply hoare_bind.
  - eapply hoare_conseq; [exact Hm|done|intros a d H; exact H|intros; by apply HX].
  - intros a c Hab [Hd HR]. by apply Hk.
Qed.

Lemma role_checked mid roles :
  hoare here (require_maintainer_member_role auth mid roles)
    (fun _ d => d = d0 /\ may auth d0 roles mid) (fun _ _ => here).
Proof.
  unfold require_maintainer_member_role. destruct (auth_is_admin auth) eqn:E.
  { apply hoare_ret. intros d ->. split; [done|]. by left. }
  eapply (hoare_catch _ _ _
    (fun m d => d = d0 /\ m ∈ maintainer_members d0 /\ Member.maintainer_id m = mid /\
                Member.user_id m = Users.id (auth_user auth)) (fun _ _ => here)).
  - apply hoare_first_row, hoare_select; [|done].
    destruct (List.filter _ _) as [|m l] eqn:F; [done|]. split; [done|].
    assert (m ∈ List.filter (MaintainerMemberRepository.of_pair mid (Users.id (auth_user auth)))
              (maintainer_members d0)) as Hm by (setoid_rewrite F; left).
    by apply elem_of_filter_b in Hm as [? ?%of_pair_spec].
  - intros m. destruct (existsb _ roles) eqn:F.
    + apply hoare_ret. intros d (-> & Hm & H1 & H2). split; [done|]. right. exists m.
      by rewrite <- existsb_role.
    + apply hoare_fail. by intros d [-> _].
  - intros e. destruct e; by apply hoare_fail.
  - intros e c Hab Hd. by destruct e.
  - done.
Qed.

Lemma admin_checked :
  hoare here (require_admin auth) (fun _ d => d = d0 /\ auth_is_admin auth = true) (fun _ _ => here).
Proof.
  unfold require_admin. destruct (auth_is_admin auth); [by apply hoare_ret|by apply hoare_fail].
Qed.

Lemma validated {T} {V : Validate T} (r : T) :
  hoare here (validate_request r) (fun a d => d = d0 /\ a = r) (fun _ _ => here).
Proof.
  unfold validate_request. destruct (validate r); [by apply hoare_ret|by apply hoare_fail].
Qed.

Lemma found {R} {T : Table Db R} (P : R -> bool) :
  hoare here (query (first_row (exec (sql_select P))))
    (fun a d => d = d0 /\ exists l, List.filter P (rows d0) = a :: l) (fun _ _ => here).
Proof.
  apply hoare_map_err, hoare_first_row, hoare_select; [|done].
  destruct (List.filter P (rows d0)) as [|a l] eqn:E; [done|]. eauto.
Qed.

Lemma recorded action type id metadata :
  hoare granted (record_audit_log auth action type id metadata)
    (fun _ => granted) (fun _ _ => granted).
Proof.
  eapply (hoare_bind _ _ _ (fun _ => granted)); [|intros ?; by apply hoare_ret].
  apply hoare_map_err, hoare_exec; [|done].
  by intros ?????? ? (_ & _ & -> & _)%sql_insert_inv.
Qed.

(** A write within the caller's rights, followed by its audit record. *)
Lemma writes {A B} (m : Query A) (k : A -> Handler B) :
  hoare here m (fun _ => granted) (fun _ _ => granted) ->
  (forall a, hoare granted (k a) (fun _ => granted) (fun _ _ => granted)) ->
  hoare here (bind (query m) k) (fun _ => granted) (fun _ _ => granted).
Proof.
  intros Hm Hk. eapply hoare_bind; [|exact Hk].
  apply hoare_map_err. eapply hoare_conseq; [exact Hm|done..].
Qed.

(** The three kinds of writes, by the team of the rows they touch. *)
Lemma package_rights d :
  services d = services d0 -> maintainer_members d = maintainer_members d0 ->
  (forall m, may auth d0 ["owner"; "maintainer"] m \/ packages_of m d = packages_of m d0) ->
  granted d.
Proof.
  intros Hs Hm H m. unfold services_of, members_of. rewrite Hs, Hm.
  split; [destruct (H m); [by left|by right]|by right].
Qed.

Lemma service_rights d :
  packages d = packages d0 -> maintainer_members d = maintainer_members d0 ->
  (forall m, may auth d0 ["owner"; "maintainer"] m \/ services_of m d = services_of m d0) ->
  granted d.
Proof.
  intros Hs Hm H m. unfold packages_of, members_of. rewrite Hs, Hm.
  split; [destruct (H m); [by left|by right]|by right].
Qed.

Lemma member_rights d mid :
  packages d = packages d0 -> services d = services d0 -> may auth d0 ["owner"] mid ->
  (forall m, m <> mid -> members_of m d = members_of m d0) -> granted d.
Proof.
  intros Hp Hs Hmay H m. unfold packages_of, services_of. rewrite Hp, Hs. split; [by right|].
  destruct (decide (m = mid)) as [->|Hm]; [by left|right; by apply H].
Qed.

(** Rights on the teams the written rows come from and go to. *)
Lemma rights_or_same {X} (f : Z -> Db -> X) d (teams : list Z) :
  (forall t, t ∈ teams -> may auth d0 ["owner"; "maintainer"] t) ->
  (forall m, m ∉ teams -> f m d = f m d0) ->
  forall m, may auth d0 ["owner"; "maintainer"] m \/ f m d = f m d0.
Proof.
  intros Ht Hf m. destruct (decide (m ∈ teams)) as [Hm|Hm]; [left; by apply Ht|right; by apply Hf].
Qed.
End Rights.

(** Steps through the guards of a handler, its write and its audit record. *)
Ltac guards :=
  repeat first
    [ eapply reads; [apply validated|by intros; subst; apply within_rights_refl|intros ? ->]
    | eapply reads; [apply role_checked|by intros; subst; apply within_rights_refl|intros ? ?]
    | eapply reads; [apply admin_checked|by intros; subst; apply within_rights_refl|intros ? ?]
    | eapply reads; [apply found|by intros; subst; apply within_rights_refl|intros ? [? ?]] ].

Ltac audited :=
  intros ?; first [apply recorded
    | eapply hoare_bind; [apply recorded|intros ?; by apply hoare_ret]].

Ltac unchanged := intros; apply within_rights_refl.

Section Served.
Context {SJ : SerdeJson} {U : Unicode} (auth : AuthenticatedUser) (d0 : Db).
Hypothesis unique_packages : NoDup (map Pkg.id (packages d0)).
Hypothesis unique_services : NoDup (map Svc.id (services d0)).

Abbreviation here := (fun d => d = d0).
Abbreviation granted := (within_rights auth d0).
Abbreviation rightful m := (hoare here m (fun _ => granted) (fun _ _ => granted)).

Lemma discarded {A} (m : Handler A) : rightful m -> rightful (discard m).
Proof. intros H. eapply hoare_bind; [exact H|intros ?; by apply hoare_ret]. Qed.

Lemma create_package_served n : rightful (create_package auth n).
Proof.
  unfold create_package. guards. apply writes; [|audited].
  apply hoare_insert; [|unchanged]. intros now i d -> _. apply package_rights; [done..|].
  apply (rights_or_same _ _ packages_of _ [NewPkg.maintainer_id n]); [set_solver|].
  intros m Hm. apply entries_insert. set_solver.
Qed.

Lemma row_written {R} (m : Query (list R)) : rightful m -> rightful (first_row m).
Proof.
  intros H. apply hoare_first_row. eapply hoare_conseq; [exact H|done| |done]. by intros [|a l].
Qed.

Lemma rows_affected {R} (m : Query (list R)) : rightful m -> rightful (affected m).
Proof. intros H. by apply hoare_affected. Qed.

Lemma update_package_served id n : rightful (update_package auth id n).
Proof.
  unfold update_package, PackageRepository.find. guards. apply writes; [|audited].
  apply row_written, hoare_update; [|unchanged]. intros now d -> _. apply package_rights; [done..|].
  apply (rights_or_same _ _ packages_of _ [Pkg.maintainer_id a; NewPkg.maintainer_id n]); [set_solver|].
  intros m Hm. apply entries_update. intros r Hr Hid%Z.eqb_eq.
  rewrite (found_by_id Pkg.id id (packages d0) a x unique_packages H r Hr Hid). set_solver.
Qed.

Lemma delete_package_served id : rightful (delete_package auth id).
Proof.
  unfold delete_package, PackageRepository.find. guards. apply writes; [|audited].
  apply rows_affected, hoare_delete; [|unchanged]. intros d [= <-]. apply package_rights; [done..|].
  apply (rights_or_same _ _ packages_of _ [Pkg.maintainer_id a]); [set_solver|].
  intros m Hm. apply entries_delete. intros r Hr Hid%Z.eqb_eq.
  rewrite (found_by_id Pkg.id id (packages d0) a x unique_packages H r Hr Hid). set_solver.
Qed.

Lemma create_service_served n : rightful (create_service auth n).
Proof.
  unfold create_service. guards. apply writes; [|audited].
  apply hoare_insert; [|unchanged]. intros now i d -> _. apply service_rights; [done..|].
  apply (rights_or_same _ _ services_of _ [NewSvc.maintainer_id n]); [set_solver|].
  intros m Hm. apply entries_insert. set_solver.
Qed.

Lemma update_service_served id n : rightful (update_service auth id n).
Proof.
  unfold update_service, ServiceRepository.find. guards. apply writes; [|audited].
  apply row_written, hoare_update; [|unchanged]. intros now d -> _. apply service_rights; [done..|].
  apply (rights_or_same _ _ services_of _ [Svc.maintainer_id a; NewSvc.maintainer_id n]); [set_solver|].
  intros m Hm. apply entries_update. intros r Hr Hid%Z.eqb_eq.
  rewrite (found_by_id Svc.id id (services d0) a x unique_services H r Hr Hid). set_solver.
Qed.

Lemma delete_service_served id : rightful (delete_service auth id).
Proof.
  unfold delete_service, ServiceRepository.find. guards. apply writes; [|audited].
  apply rows_affected, hoare_delete; [|unchanged]. intros d [= <-]. apply service_rights; [done..|].
  apply (rights_or_same _ _ services_of _ [Svc.maintainer_id a]); [set_solver|].
  intros m Hm. apply entries_delete. intros r Hr Hid%Z.eqb_eq.
  rewrite (found_by_id Svc.id id (services d0) a x unique_services H r Hr Hid). set_solver.
Qed.

Lemma upsert_member_served id member : rightful (upsert_maintainer_member auth id member).
Proof.
  unfold upsert_maintainer_member, MaintainerRepository.find, UserRepository.find. guards.
  apply writes; [|audited].
  apply hoare_exec; [|intros ??? ->; apply within_rights_refl].
  intros now i d i' b d' -> [[_ ->]| ->]%sql_upsert_inv; apply (member_rights _ _ _ id); try done.
  - intros m Hm. apply entries_insert. simpl. congruence.
  - intros m Hm. apply entries_update. intros r Hr [E _]%of_pair_spec. simpl in *. split; congruence.
Qed.

Lemma delete_member_served id user_id : rightful (delete_maintainer_member auth id user_id).
Proof.
  unfold delete_maintainer_member. guards. apply writes; [|audited].
  apply rows_affected, hoare_delete; [|unchanged]. intros d [= <-].
  apply (member_rights _ _ _ id); [done..|].
  intros m Hm. apply entries_delete. intros r Hr [E _]%of_pair_spec. congruence.
Qed.

Lemma request_served r : auth_is_admin auth = false -> rightful (serve auth r).
Proof.
  intros Hadmin. destruct r; cbn [serve]; try apply discarded;
    auto using create_package_served, update_package_served, delete_package_served,
      create_service_served, update_service_served, delete_service_served,
      upsert_member_served, delete_member_served.
  all: unfold create_maintainer, update_maintainer, delete_maintainer, require_admin;
    rewrite Hadmin; apply (hoare_bind _ _ _ (fun _ _ => False)); [|by intros ??].
  all: apply hoare_fail; intros d ->; apply within_rights_refl.
Qed.
End Served.

(** C29: whatever a catalog request does, fails at or is interrupted by, the
    packages and services of a team change only if the caller was an admin or an
    owner or maintainer of that team, and its members only if the caller was an
    admin or an owner of it. Moving an entry needs the right on both teams. *)
Theorem catalog_changes_need_role {SJ : SerdeJson} {U : Unicode} auth r (c : Conn Db) :
  aborted c = false -> NoDup (map Pkg.id (packages (db c))) -> NoDup (map Svc.id (services (db c))) ->
  within_rights auth (db c) (db (snd (serve auth r c))).
Proof.
  intros Hab Hp Hs. destruct (auth_is_admin auth) eqn:E; [by apply within_rights_admin|].
  pose proof (request_served auth (db c) Hp Hs r E c Hab eq_refl) as H.
  destruct (serve auth r c) as [[a|e|] c']; [by destruct H|done..].
Qed.

Definition catalog_db : Db :=
  team_db <| maintainers := [Maint.mkMaintainer 3 "Platform" "p@x.io" 0; Maint.mkMaintainer 4 "Data" "d@x.io" 0] |>
          <| users := [Users.mkUser 7 "ann" "" 0; Users.mkUser 8 "bob" "" 0] |>
          <| packages := [Pkg.mkPackage 1 3 "lib" "Lib" "1.0" None 0 "active" None None 0] |>.

Definition admin_user : AuthenticatedUser :=
  mkAuthenticatedUser (Users.mkUser 1 "root" "" 0) (Sess.mkSession 1 1 "" 0 0 "password" 0 None None)
    [Roles.mkRole 1 "admin" "Admin" 0] "".

Definition no_json : SerdeJson := {| json_to_string := fun _ => None |}.

Definition moved_package : NewPkg.NewPackage :=
  NewPkg.mkNewPackage 4 "lib" "Lib" "1.1" "active" None None None.

(** A maintainer of team 3 can update its package, but not give it to team 4. *)
Lemma catalog_changes_need_role_witness :
  (exists c', @update_package no_json (plain_user 7) 1 (moved_package <| NewPkg.maintainer_id := 3 |>)
                (calm catalog_db 5 [] 9) = (Ok (Pkg.mkPackage 1 3 "lib" "Lib" "1.1" None 0 "active" None None 5), c')) /\
  (exists c', @update_package no_json (plain_user 7) 1 moved_package (calm catalog_db 5 [] 9)
              = (Err Forbidden, c')) /\
  within_rights (plain_user 7) catalog_db
    (db (snd (@serve no_json {| to_lowercase := id |} (plain_user 7) (UpdatePackage 1 moved_package)
                (calm catalog_db 5 [] 9)))).
Proof.
  split; [eexists; vm_compute; reflexivity|]. split; [eexists; vm_compute; reflexivity|].
  apply (@catalog_changes_need_role no_json {| to_lowercase := id |} (plain_user 7)
           (UpdatePackage 1 moved_package) (calm catalog_db 5 [] 9));
    [reflexivity|apply NoDup_singleton|apply NoDup_nil_2].
Defined.

(** ** Deleting a team *)

Lemma entries_used {A} (key : A -> Z) m l gone :
  entries key m l <> [] -> m ∈ gone -> existsb (fun r => gone_id gone (key r)) l = true.
Proof.
  intros Hl Hm. destruct (entries key m l) as [|r l'] eqn:E; [done|].
  assert (r ∈ entries key m l) as Hr by (rewrite E; left).
  apply elem_of_filter_b in Hr as [Hr Hk%Z.eqb_eq].
  apply existsb_exists. exists r. rewrite <- list_elem_of_In. split; [done|].
  apply existsb_exists. exists m. rewrite <- list_elem_of_In. split; [done|]. by apply Z.eqb_eq.
Qed.

Lemma used_team_stays gone m d :
  m ∈ map Maint.id gone -> packages_of m d <> [] \/ services_of m d <> [] ->
  delete_maintainers_action gone d = inl ForeignKeyViolation.
Proof.
  intros Hm Hused. unfold delete_maintainers_action.
  destruct Hused as [H|H]; rewrite (entries_used _ _ _ _ H Hm), ?orb_true_r; done.
Qed.

(** deleting a team that still has a package or a service is refused by the
    foreign key and answers with a database error, but its members are gone: the
    two statements of the deletion are not one transaction. *)
Theorem refused_delete_loses_members {SJ : SerdeJson} t auth id d :
  auth_is_admin auth = true -> id ∈ map Maint.id (maintainers d) ->
  packages_of id d <> [] \/ services_of id d <> [] ->
  yields t (fun x => x = d) (delete_maintainer auth id) (fun o d' =>
    o = Err (Database (DDatabaseError ForeignKeyViolation)) /\
    d' = d <| maintainer_members :=
                List.filter (fun m => negb (Member.maintainer_id m =? id)) (maintainer_members d) |>).
Proof.
  intros Hadmin Hid Hused. unfold delete_maintainer, require_admin. rewrite Hadmin.
  set (d1 := d <| maintainer_members := _ |>).
  cut (yields t (fun x => x = d) (MaintainerRepository.delete id)
         (fun o d' => o = Err (DDatabaseError ForeignKeyViolation) /\ d' = d1)).
  { intros H. apply (total_bind t _ (ret tt) _ (fun o x => o = Ok tt /\ x = d));
      [by apply total_ret| |by intros ?? [? _]|by intros ? [? _]].
    intros []. eapply total_bind; [apply total_map_err| | |].
    - eapply total_conseq; [exact H|naive_solver|]. intros o x [-> ->].
      instantiate (1 := fun o x => o = Err (Database (DDatabaseError ForeignKeyViolation)) /\ x = d1). done.
    - by intros a c Hc [? _].
    - naive_solver.
    - by intros ? [? _]. }
  eapply (total_bind t _ _ _ (fun o x => x = d1 /\ exists n, o = Ok n));
    [|intros n; eapply (total_conseq t (fun x => x = d1)); [|by intros ? [? _]|exact (fun _ _ H => H)]
     |naive_solver|naive_solver].
  - apply total_affected, total_delete. simpl. eauto.
  - apply total_affected, total_delete. simpl.
    rewrite (used_team_stays _ id); [done| |done].
    apply list_elem_of_fmap in Hid as (m & -> & Hm). apply list_elem_of_fmap. exists m.
    split; [done|]. apply elem_of_filter_b. split; [done|]. apply Z.eqb_refl.
Qed.

Lemma refused_delete_loses_members_witness :
  members_of 3 catalog_db <> [] /\
  yields 5 (fun x => x = catalog_db) (@delete_maintainer no_json admin_user 3) (fun o d' =>
    o = Err (Database (DDatabaseError ForeignKeyViolation)) /\
    d' = catalog_db <| maintainer_members :=
           List.filter (fun m => negb (Member.maintainer_id m =? 3)) (maintainer_members catalog_db) |>).
Proof.
  split; [done|].
  apply (@refused_delete_loses_members no_json 5 admin_user 3 catalog_db); [reflexivity| |by left].
  vm_compute. left.
Defined.
