(* ===== verification/SingleSignOn.v ===== *)
(** Single sign-on storage: [OidcLoginTransactionRepository] and
    [ExternalIdentityRepository] of [src/src/repositories.rs]. *)
From S2P Require Import Prelude Logic Text Models Schema Api Validation Access Sessions Accounts AuditLogs.

Open Scope Z_scope.
Open Scope portal_scope.

(** ** Pending sign-ins *)

Module OidcLoginTransactionRepository.

Definition expired_by (now : Z) (t : Oidc.OidcLoginTransaction) : bool := Oidc.expires_at t <=? now.
Definition pending_at (now : Z) (t : Oidc.OidcLoginTransaction) : bool := Oidc.expires_at t >? now.

Definition delete_expired (now : Z) : Query Z :=
  affected (exec (sql_delete (expired_by now))).

Definition of_new (t : NewOidc.NewOidcLoginTransaction) (now _ : Z) : Oidc.OidcLoginTransaction :=
  Oidc.mkOidcLoginTransaction (NewOidc.state_hash t) (NewOidc.browser_binding_hash t)
    (NewOidc.nonce t) (NewOidc.pkce_verifier_ciphertext t) (NewOidc.return_to t)
    (NewOidc.expires_at t) now.

Definition create_bounded (t : NewOidc.NewOidcLoginTransaction) (now max_pending : Z)
    : Query (option Oidc.OidcLoginTransaction) :=
  query_transaction (
    advisory_xact_lock ;;;
    delete_expired now ;;;
    pending <- exec (sql_count (pending_at now)) ;;
    if max_pending <=? pending then ret None
    else
      t <- exec (sql_insert (of_new t)) ;;
      ret (Some t)).

Definition presented (state_hash browser_binding_hash : string) (now : Z)
    (t : Oidc.OidcLoginTransaction) : bool :=
  (Oidc.state_hash t =s state_hash) && (Oidc.browser_binding_hash t =s browser_binding_hash)
  && pending_at now t.

Definition consume (state_hash browser_binding_hash : string) (now : Z)
    : Query Oidc.OidcLoginTransaction :=
  first_row (exec (sql_delete (presented state_hash browser_binding_hash now))).

End OidcLoginTransactionRepository.

(** ** External identities *)

Record JitProvisionedIdentity := mkJitProvisionedIdentity {
  jit_user : Users.User;
  jit_identity : Identity.ExternalIdentity;
  jit_created : bool
}.

Record ExternalIdentityLoginProfile := mkExternalIdentityLoginProfile {
  lp_issuer : string;
  lp_subject : string;
  lp_preferred_username : option string;
  lp_display_name : option string;
  lp_email : option string;
  lp_last_login_at : Z
}.

Module ExternalIdentityRepository.
Section WithParameters.
Context {U : Unicode} {SJ : SerdeJson}.

Definition entra_object (tenant_id object_id : string) (i : Identity.ExternalIdentity) : bool :=
  (Identity.provider i =s "entra") && (Identity.tenant_id i =s tenant_id)
  && (Identity.object_id i =s object_id).

Definition find_by_entra_object (tenant_id object_id : string) : Query Identity.ExternalIdentity :=
  first_row (exec (sql_select (entra_object tenant_id object_id))).

(** The identity keeps its issuer, and its subject once it is known. *)
Definition same_login (id : Z) (profile : ExternalIdentityLoginProfile)
    (i : Identity.ExternalIdentity) : bool :=
  (Identity.id i =? id) && (Identity.issuer i =s lp_issuer profile)
  && holds (tv_or (is_null (Identity.subject i))
                  (eq_text (Identity.subject i) (Some (lp_subject profile)))).

Definition update_login_profile (id : Z) (profile : ExternalIdentityLoginProfile)
    : Query Identity.ExternalIdentity :=
  now <- utc_now ;;
  first_row (exec (sql_update (same_login id profile) (fun _ i =>
    i <| Identity.subject := Some (lp_subject profile) |>
      <| Identity.preferred_username := lp_preferred_username profile |>
      <| Identity.display_name := lp_display_name profile |>
      <| Identity.email := lp_email profile |>
      <| Identity.last_login_at := Some (lp_last_login_at profile) |>
      <| Identity.updated_at := now |>))).

Definition identity_of (n : NewIdentity.NewExternalIdentity) (user_id now id : Z)
    : Identity.ExternalIdentity :=
  Identity.mkExternalIdentity id user_id (NewIdentity.provider n) (NewIdentity.issuer n)
    (NewIdentity.subject n) (NewIdentity.tenant_id n) (NewIdentity.object_id n)
    (NewIdentity.preferred_username n) (NewIdentity.display_name n) (NewIdentity.email n)
    (NewIdentity.last_login_at n) now now.

(** A new user with the role [member], its identity and an audit entry. *)
Definition provision (new_user : NewUsr.NewUser) (identity : NewIdentity.NewExternalIdentity)
    : Query JitProvisionedIdentity :=
  user <- exec (sql_insert (fun now id =>
            Users.mkUser id (NewUsr.username new_user) (NewUsr.password new_user) now)) ;;
  exec (sql_insert_or_ignore (fun r => Roles.code r =s "member") (fun now id =>
    Roles.mkRole id "member" "member" now)) ;;;
  role <- RoleRepository.find_by_code "member" ;;
  exec (sql_insert (UserRoleRepository.user_role_of (Users.id user) (Roles.id role))) ;;;
  created_identity <- exec (sql_insert (identity_of identity (Users.id user))) ;;
  AuditLogRepository.create
    (NewAudit.mkNewAuditLog (Some (Users.id user)) "auth.entra_jit_provisioned" "user"
       (Some (int_to_string (Users.id user)))
       (json_to_string (JObj [("provider", JStr "entra");
          ("tenant_id", JStr (NewIdentity.tenant_id identity));
          ("object_id", JStr (NewIdentity.object_id identity))]))) ;;;
  ret (mkJitProvisionedIdentity user created_identity true).

Definition find_or_create_jit_user (new_user : NewUsr.NewUser)
    (identity : NewIdentity.NewExternalIdentity) : Query JitProvisionedIdentity :=
  let new_user :=
    NewUsr.mkNewUser (canonical_username (NewUsr.username new_user)) (NewUsr.password new_user) in
  query_transaction (
    advisory_xact_lock ;;;
    catch (find_by_entra_object (NewIdentity.tenant_id identity) (NewIdentity.object_id identity))
      (fun r =>
        match r with
        | inr existing =>
            user <- UserRepository.find (Identity.user_id existing) ;;
            ret (mkJitProvisionedIdentity user existing false)
        | inl DNotFound => provision new_user identity
        | inl error => fail error
        end)).

End WithParameters.
End ExternalIdentityRepository.

(** ** Properties *)

Import OidcLoginTransactionRepository.

(** A deletion that returns its first row. *)
Lemma delete_returns {R} {T : Table Db R} (P : R -> bool) c r c' :
  first_row (exec (sql_delete P)) c = (Ok r, c') ->
  r ∈ rows (db c) /\ P r = true /\
  on_delete (List.filter P (rows (db c)))
    (set_rows (List.filter (fun r => negb (P r)) (rows (db c))) (db c)) = inr (db c').
Proof.
  intros (l & c1 & (now & n & n' & (-> & Hd)%sql_delete_inv)%exec_returns & Hl)%bind_returns.
  destruct (List.filter P (rows (db c))) as [|x l] eqn:Ef; [done|]. injection Hl as <- <-.
  assert (x ∈ List.filter P (rows (db c))) as Hx by (rewrite Ef; left).
  by apply elem_of_filter_b in Hx as [??].
Qed.

(** C27: a sign-in started with the identity provider is completed at most once:
    [consume] hands out a stored transaction only for its own state and browser
    binding and before it expires, and removes it, so that no transaction with
    this state is left for a replay; a call that fails changes nothing. *)
Theorem oidc_transaction_consumed_once state binding now c :
  NoDup (map Oidc.state_hash (oidc_login_transactions (db c))) ->
  match consume state binding now c with
  | (Ok t, c') =>
      t ∈ oidc_login_transactions (db c) /\ Oidc.state_hash t = state /\
      Oidc.browser_binding_hash t = binding /\ now < Oidc.expires_at t /\
      (forall x, x ∈ oidc_login_transactions (db c') -> Oidc.state_hash x <> state) /\
      (forall x, x ∈ oidc_login_transactions (db c) -> Oidc.state_hash x <> state ->
         x ∈ oidc_login_transactions (db c'))
  | (_, c') => db c' = db c
  end.
Proof.
  intros Hn. unfold consume.
  destruct (first_row (exec (sql_delete (presented state binding now))) c) as [[t|e|] c'] eqn:E.
  - apply delete_returns in E as (Ht & HP & [= Hd]). unfold presented in HP.
    rewrite !andb_true_iff, !str_eqb_eq in HP. destruct HP as [[Hs Hb] Hp].
    unfold pending_at in Hp. split_and!; try done; [lia|..]; rewrite <- Hd; simpl; intros x.
    + intros [Hx HP]%elem_of_filter_b Hxs.
      assert (x = t) as ->. { eapply NoDup_map_inj; [exact Hn|done..|congruence]. }
      unfold presented, pending_at in HP. rewrite Hs, Hb, !str_eqb_refl in HP. simpl in HP. lia.
    + intros Hx Hne. apply elem_of_filter_b. split; [done|]. unfold presented.
      by rewrite (proj2 (str_eqb_neq _ _) Hne).
  - revert E. unfold first_row, bind.
    destruct (exec _ c) as [[l|e'|] c1] eqn:E; [|apply exec_fails in E; by intros [= _ <-]..].
    apply exec_returns in E as (n & i & i' & (-> & Hd)%sql_delete_inv).
    destruct (List.filter _ _) as [|x l] eqn:Ef; [|done]. intros [= _ <-].
    simpl in Hd. injection Hd as <-.
    rewrite (filter_all_b (fun r => negb (presented state binding now r))).
    + by destruct (db c).
    + intros x Hx. apply negb_true_iff. by eapply filter_nil_inv_b.
  - revert E. unfold first_row, bind.
    destruct (exec _ c) as [[[|x l]|e'|] c1] eqn:E; try done; apply exec_fails in E; by intros [= <-].
Qed.

Definition pending_db : Db :=
  empty_db <| oidc_login_transactions :=
    [Oidc.mkOidcLoginTransaction "s" "b" "n" "p" "/" 100 0;
     Oidc.mkOidcLoginTransaction "t" "b" "n" "p" "/" 100 0] |>.

Lemma oidc_transaction_consumed_once_witness :
  exists t c', consume "s" "b" 50 (calm pending_db 50 [] 1) = (Ok t, c') /\
    (forall x, x ∈ oidc_login_transactions (db c') -> Oidc.state_hash x <> "s") /\
    fst (consume "s" "b" 50 c') = Err DNotFound.
Proof.
  pose proof (oidc_transaction_consumed_once "s" "b" 50 (calm pending_db 50 [] 1)
    ltac:(apply (bool_decide_unpack _); vm_compute; exact I)) as H.
  destruct (consume "s" "b" 50 (calm pending_db 50 [] 1)) as [o c'] eqn:E.
  vm_compute in E. destruct o as [t|e|]; try discriminate E. exists t, c'.
  split; [reflexivity|]. split; [apply H|]. injection E as _ <-. vm_compute. reflexivity.
Defined.

Lemma create_bounded_effect t now max d0 :
  hoare (fun d => d = d0)
    (advisory_xact_lock ;;;
     delete_expired now ;;;
     pending <- exec (sql_count (pending_at now)) ;;
     if max <=? pending then ret None
     else t <- exec (sql_insert (of_new t)) ;; ret (Some t))
    (fun o d => 
       let left := List.filter (fun x => negb (expired_by now x)) (oidc_login_transactions d0) in
       match o with
       | Some t' => Z.of_nat (length (List.filter (pending_at now) left)) < max /\
           oidc_login_transactions d = left ++ [t'] /\ exists stored_at i, t' = of_new t stored_at i
       | None => max <= Z.of_nat (length (List.filter (pending_at now) left)) /\
           oidc_login_transactions d = left
       end)
    (fun _ _ _ => True).
Proof.
  eapply (hoare_bind _ _ _ (fun _ d => d = d0)).
  { unfold advisory_xact_lock, control. apply hoare_exec; [|done]. by intros ?????? -> [= _ _ <-]. }
  intros _.
  eapply (hoare_bind _ _ _ (fun _ d => oidc_login_transactions d =
    List.filter (fun x => negb (expired_by now x)) (oidc_login_transactions d0))).
  { unfold delete_expired. apply hoare_affected, hoare_delete; [|done]. by intros d' [= <-]. }
  intros _. apply hoare_at. intros d1 Hd1. eapply hoare_bind.
  { apply (hoare_count (pending_at now) d1 (fun n d => d = d1 /\
      n = Z.of_nat (length (List.filter (pending_at now) (oidc_login_transactions d1))))); done. }
  intros n. destruct (Z.leb_spec max n).
  - apply hoare_ret. intros d [-> ->]. rewrite Hd1 in *. done.
  - apply hoare_pure_after. apply hoare_at. intros d [-> ->]. apply hoare_insert; [|done].
    intros now' i d' -> _. rewrite <- Hd1. by split_and!; try eexists _, _.
Qed.

Lemma pending_not_expired now l :
  List.filter (pending_at now) (List.filter (fun x => negb (expired_by now x)) l) =
  List.filter (pending_at now) l.
Proof.
  rewrite filter_filter_b. apply filter_ext_b. intros x _. unfold pending_at, expired_by.
  rewrite Z.gtb_ltb. destruct (Z.ltb_spec now (Oidc.expires_at x)), (Z.leb_spec (Oidc.expires_at x) now);
    simpl; try done; lia.
Qed.

(** the pending sign-ins are bounded: [create_bounded] stores a new
    transaction exactly when fewer than [max_pending] unexpired ones are
    stored, after which there are at most that many, and expired ones are
    swept; at the limit it stores nothing and returns [None]; a failure changes
    nothing. *)
Theorem oidc_transactions_bounded t now max c :
  aborted c = false -> now < NewOidc.expires_at t ->
  match create_bounded t now max c with
  | (Ok o, c') =>
      let before := length (List.filter (pending_at now) (oidc_login_transactions (db c))) in
      let after := length (List.filter (pending_at now) (oidc_login_transactions (db c'))) in
      Forall (fun x => now < Oidc.expires_at x) (oidc_login_transactions (db c')) /\
      match o with
      | Some t' => t' ∈ oidc_login_transactions (db c') /\ Z.of_nat before < max /\
          after = S before /\ Z.of_nat after <= max
      | None => max <= Z.of_nat before /\ after = before
      end
  | (_, c') => db c' = db c
  end.
Proof.
  intros Ha Hfresh. unfold create_bounded, query_transaction.
  pose proof (transaction_effect id _ c _ Ha (create_bounded_effect t now max (db c))) as H.
  destruct (transaction _ _ c) as [[o|e|] c']; [|done..]. cbv zeta in H |- *.
  set (l := oidc_login_transactions (db c)) in *.
  assert (Forall (fun x => now < Oidc.expires_at x)
    (List.filter (fun x => negb (expired_by now x)) l)) as Hl.
  { apply Forall_forall. intros x [_ Hx]%elem_of_filter_b. unfold expired_by in Hx. lia. }
  rewrite pending_not_expired in H. destruct o as [t'|].
  - destruct H as (Hm & Hl' & at_ & i & Ht). assert (Oidc.expires_at t' = NewOidc.expires_at t) as He by (by rewrite Ht).
    rewrite Hl', List.filter_app, pending_not_expired.
    assert (pending_at now t' = true) as Hp by (unfold pending_at; rewrite He; lia).
    cbn [List.filter]. rewrite Hp, length_app. simpl.
    split; [apply Forall_app; split; [done|constructor; [by rewrite He|constructor]]|].
    split_and!; [apply elem_of_app; right; left|done|lia..].
  - destruct H as [Hm Hl']. rewrite Hl', pending_not_expired. done.
Qed.

Definition sample_transaction : NewOidc.NewOidcLoginTransaction :=
  NewOidc.mkNewOidcLoginTransaction "u" "b" "n" "p" "/" 400.

Lemma oidc_transactions_bounded_witness :
  exists t' c', create_bounded sample_transaction 50 3 (calm pending_db 50 [] 1) = (Ok (Some t'), c') /\
    length (List.filter (pending_at 50) (oidc_login_transactions (db c'))) = 3%nat.
Proof.
  pose proof (oidc_transactions_bounded sample_transaction 50 3 (calm pending_db 50 [] 1) eq_refl
    ltac:(reflexivity)) as H.
  destruct (create_bounded sample_transaction 50 3 (calm pending_db 50 [] 1)) as [o c'] eqn:E.
  vm_compute in E. destruct o as [[t'|]|e|]; try discriminate E. exists t', c'.
  split; [reflexivity|]. apply H.
Defined.

(** ** Just-in-time accounts *)

Section Jit.
Context {U : Unicode} {SJ : SerdeJson}.
Import ExternalIdentityRepository.

(** What a provisioning adds to the database it ran on. *)
Record provisioned (new_user : NewUsr.NewUser) (identity : NewIdentity.NewExternalIdentity)
    (jit : JitProvisionedIdentity) (d0 d : Db) : Prop := {
  prov_user : users d = users d0 ++ [jit_user jit];
  prov_name : Users.username (jit_user jit) = NewUsr.username new_user;
  prov_identity : external_identities d = external_identities d0 ++ [jit_identity jit];
  prov_owner : Identity.user_id (jit_identity jit) = Users.id (jit_user jit);
  prov_object : Identity.provider (jit_identity jit) = NewIdentity.provider identity /\
    Identity.tenant_id (jit_identity jit) = NewIdentity.tenant_id identity /\
    Identity.object_id (jit_identity jit) = NewIdentity.object_id identity;
  prov_sessions : sessions d = sessions d0;
  prov_role : exists ur role, users_roles d = users_roles d0 ++ [ur] /\
    URole.user_id ur = Users.id (jit_user jit) /\ URole.role_id ur = Roles.id role /\
    role ∈ roles d /\ Roles.code role = "member";
  prov_roles : exists added, roles d = roles d0 ++ added /\
    Forall (fun r => Roles.code r = "member") added;
  prov_audit : exists entry, audit_logs d = audit_logs d0 ++ [entry] /\
    Audit.actor_user_id entry = Some (Users.id (jit_user jit)) /\
    Audit.action entry = "auth.entra_jit_provisioned"
}.

Lemma member_role_effect d0 :
  hoare (fun d => d = d0)
    (exec (sql_insert_or_ignore (fun r => Roles.code r =s "member") (fun now id =>
       Roles.mkRole id "member" "member" now)))
    (fun _ d => exists added, d = d0 <| roles := roles d0 ++ added |> /\
       Forall (fun r => Roles.code r = "member") added)
    (fun _ _ _ => True).
Proof.
  apply hoare_exec; [|done]. intros now n d n' a d' -> H. unfold sql_insert_or_ignore in H.
  destruct (List.filter _ _) as [|r l].
  - destruct (sql_insert _ _ _ _) as [m [e|[r d1]]] eqn:E; [done|].
    apply sql_insert_inv in E as (-> & _ & -> & _). injection H as _ _ <-.
    eexists. split; [reflexivity|]. by repeat constructor.
  - injection H as _ _ <-. exists []. rewrite app_nil_r. by destruct d0.
Qed.

Lemma provision_effect new_user identity d0 :
  hoare (fun d => d = d0) (provision new_user identity)
    (fun jit d => jit_created jit = true /\ provisioned new_user identity jit d0 d)
    (fun _ _ _ => True).
Proof.
  unfold provision. eapply hoare_bind.
  { apply (hoare_insert _ _ (fun user d => Users.username user = NewUsr.username new_user /\
      d = d0 <| users := users d0 ++ [user] |>)); [|done]. by intros now n d' ->. }
  intros user. apply hoare_at. intros d1 [Hname Hd1]. eapply hoare_bind;
    [apply member_role_effect|].
  intros ?. apply hoare_at. intros d2 (added & Hd2 & Hadded). eapply hoare_bind.
  { unfold RoleRepository.find_by_code. apply hoare_first_row, (hoare_select _ _ (fun l d =>
      match l with [] => True | role :: _ =>
        d = d2 /\ role ∈ roles d2 /\ Roles.code role = "member" end)); [|done].
    destruct (List.filter _ _) as [|role l] eqn:E; [done|].
    assert (role ∈ List.filter (fun r => Roles.code r =s "member") (roles d2)) as Hr
      by (setoid_rewrite E; left).
    apply elem_of_filter_b in Hr as [? ?%str_eqb_eq]. done. }
  intros role. apply hoare_at. intros d3 (-> & Hrole & Hcode). eapply hoare_bind.
  { apply (hoare_insert _ _ (fun ur d => URole.user_id ur = Users.id user /\
      URole.role_id ur = Roles.id role /\
      d = d2 <| users_roles := users_roles d2 ++ [ur] |>)); [|done]. by intros now n d' ->. }
  intros ur. apply hoare_at. intros d4 (Hur & Hrr & Hd4). eapply hoare_bind.
  { apply (hoare_insert _ _ (fun i d => d = d4 <| external_identities :=
      external_identities d4 ++ [i] |> /\ Identity.user_id i = Users.id user /\
      Identity.provider i = NewIdentity.provider identity /\
      Identity.tenant_id i = NewIdentity.tenant_id identity /\
      Identity.object_id i = NewIdentity.object_id identity)); [|done]. by intros now n d' ->. }
  intros i. apply hoare_at. intros d5 (Hd5 & Hi & Hp & Ht & Ho). eapply hoare_bind.
  { apply (hoare_insert _ _ (fun entry d => d = d5 <| audit_logs := audit_logs d5 ++ [entry] |> /\
      Audit.actor_user_id entry = Some (Users.id user) /\
      Audit.action entry = "auth.entra_jit_provisioned")); [|done]. by intros now n d' ->. }
  intros entry. apply hoare_ret. intros d (Hd & Hactor & Hact). split; [done|]. subst.
  split; simpl; eauto 10.
Qed.

Lemma find_identity_cases tenant object d0 :
  hoare (fun d => d = d0) (find_by_entra_object tenant object)
    (fun i d => d = d0 /\ i ∈ external_identities d0 /\ entra_object tenant object i = true)
    (fun e ab d => d = d0 /\ (e = Some DNotFound -> ab = false /\
       forall i, i ∈ external_identities d0 -> entra_object tenant object i = false)).
Proof.
  apply hoare_first_row, hoare_select; [|done].
  destruct (List.filter _ _) as [|i l] eqn:E.
  - split; [done|]. intros _. split; [done|]. intros i Hi. by eapply filter_nil_inv_b.
  - assert (i ∈ List.filter (entra_object tenant object) (external_identities d0)) as Hi
      by (setoid_rewrite E; left).
    by apply elem_of_filter_b in Hi.
Qed.

(** The account an identity is mapped to, and the database afterwards. *)
Definition mapped_account (new_user : NewUsr.NewUser) (identity : NewIdentity.NewExternalIdentity)
    (d0 : Db) (jit : JitProvisionedIdentity) (d : Db) : Prop :=
  let known := entra_object (NewIdentity.tenant_id identity) (NewIdentity.object_id identity) in
  if jit_created jit then
    (forall i, i ∈ external_identities d0 -> known i = false) /\
    provisioned (NewUsr.mkNewUser (canonical_username (NewUsr.username new_user))
      (NewUsr.password new_user)) identity jit d0 d
  else
    d = d0 /\ jit_identity jit ∈ external_identities d0 /\
    known (jit_identity jit) = true /\ jit_user jit ∈ users d0 /\
    Users.id (jit_user jit) = Identity.user_id (jit_identity jit).

Lemma jit_mapped_account new_user identity c :
  aborted c = false ->
  match find_or_create_jit_user new_user identity c with
  | (Ok jit, c') => mapped_account new_user identity (db c) jit (db c')
  | (_, c') => db c' = db c
  end.
Proof.
  intros Ha. unfold find_or_create_jit_user, query_transaction. cbv zeta.
  apply (transaction_effect _ _ _ (mapped_account new_user identity (db c))); [done|]. eapply (hoare_bind _ _ _ (fun _ d => d = db c)).
  { unfold advisory_xact_lock, control. apply hoare_exec; [|done]. by intros ?????? -> [= _ _ <-]. }
  intros _. eapply hoare_catch; [apply find_identity_cases|..]; [| | |done].
  - intros i. apply hoare_at. intros d (-> & Hi & Hk).
    eapply (hoare_bind _ _ _ (fun user d => d = db c /\ user ∈ users (db c) /\
      Users.id user = Identity.user_id i)).
    + apply hoare_first_row, hoare_select; [|done].
      destruct (List.filter _ _) as [|u l] eqn:E; [done|].
      assert (u ∈ List.filter (fun u => Users.id u =? Identity.user_id i) (users (db c))) as Hu
        by (setoid_rewrite E; left).
      apply elem_of_filter_b in Hu as [? ?%Z.eqb_eq]. done.
    + intros user. apply hoare_ret. intros d (-> & Hu & Hid). unfold mapped_account. simpl. auto.
  - intros e. destruct e; try by apply hoare_fail. apply hoare_at. intros d [-> Hnone].
    eapply hoare_conseq; [apply (provision_effect _ _ (db c))|done| |done].
    intros jit d [Hc Hp]. unfold mapped_account. rewrite Hc. split; [|done]. by apply Hnone.
  - intros e c1 Hc1 [_ Hx]. destruct e; try done. by destruct Hx.
Qed.

(** C26: signing in with Entra maps an object id to one account. For an object
    that is known, [find_or_create_jit_user] returns its identity and that
    identity's user and changes nothing; for an unknown one it adds one user
    with a canonical name, its identity, the role [member] and no other, and an
    audit entry; when any of these steps fails nothing is added. *)
Theorem jit_account_is_unique_member new_user identity c :
  aborted c = false ->
  match find_or_create_jit_user new_user identity c with
  | (Ok jit, c') => mapped_account new_user identity (db c) jit (db c')
  | (_, c') => db c' = db c
  end.
Proof. apply jit_mapped_account. Qed.
End Jit.

Definition sample_identity : NewIdentity.NewExternalIdentity :=
  NewIdentity.mkNewExternalIdentity 0 "entra" "issuer" (Some "sub") "tenant" "object" None None None None.

Lemma jit_account_is_unique_member_witness :
  let U := {| to_lowercase := to_ascii_lowercase |} in
  let SJ := {| json_to_string := fun _ => None |} in
  exists jit c', ExternalIdentityRepository.find_or_create_jit_user
      (NewUsr.mkNewUser " Ada " "hash") sample_identity (calm empty_db 50 [] 1) = (Ok jit, c') /\
    Users.username (jit_user jit) = "ada" /\ users (db c') = [jit_user jit] /\
    fst (ExternalIdentityRepository.find_or_create_jit_user
      (NewUsr.mkNewUser "other" "hash") sample_identity c') =
    Ok (mkJitProvisionedIdentity (jit_user jit) (jit_identity jit) false).
Proof.
  cbv zeta.
  pose proof (@jit_account_is_unique_member {| to_lowercase := to_ascii_lowercase |}
    {| json_to_string := fun _ => None |} (NewUsr.mkNewUser " Ada " "hash") sample_identity
    (calm empty_db 50 [] 1) eq_refl) as H.
  destruct (ExternalIdentityRepository.find_or_create_jit_user _ _ _) as [o c'] eqn:E.
  vm_compute in E. destruct o as [jit|e|]; try discriminate E. exists jit, c'.
  split; [reflexivity|]. unfold mapped_account in H. injection E as <- <-.
  destruct H as [_ H]. split; [apply (prov_name _ _ _ _ _ H)|].
  split; [apply (prov_user _ _ _ _ _ H)|]. vm_compute. reflexivity.
Defined.
