(* ===== verification/Config.v ===== *)
(** The process configuration: [src/src/config.rs]. The URL and UUID parsers of
    the crates [url] and [uuid] are parameters. *)
From S2P Require Import Prelude Logic Text Models Schema Api Validation Access Sessions Accounts Authn.
From Stdlib Require Import Ascii.

Open Scope Z_scope.
Open Scope portal_scope.

(** ** Results *)

(** [Result<A, E>] of code that touches no database, with its [?]. *)
Abbreviation Result := sum.

Definition and_then {E A B} (m : Result E A) (k : A -> Result E B) : Result E B :=
  match m with inl e => inl e | inr a => k a end.

Notation "'let?' x := m 'in' k" := (and_then m (fun x => k))
  (at level 200, x name, m at level 200, k at level 200, right associativity) : portal_scope.
Notation "'guard?' b 'else' e 'in' k" := (if b then k else inl e)
  (at level 200, b at level 200, e at level 200, k at level 200, right associativity)
  : portal_scope.

Record ConfigError := mkConfigError { ce_message : string }.

(** A [ConfigError] whose message is formatted from its parts. *)
Definition config_error (parts : list string) : ConfigError := mkConfigError (concat_str parts).

(** [option.ok_or(e)?] *)
Definition some_or {E A} (o : option A) (e : E) : Result E A :=
  match o with Some a => inr a | None => inl e end.

(** [option.filter(..)] *)
Definition keep_if {A} (P : A -> bool) (o : option A) : option A :=
  match o with Some a => if P a then Some a else None | None => None end.

(** ** The environment *)

(** [std::env::var]. *)
Inductive EnvVar :=
  | Present (value : string)
  | NotPresent
  | NotUnicode.

Definition Environ : Type := string -> EnvVar.

Definition env_read (env : Environ) (name : string) : Result ConfigError (option string) :=
  match env name with
  | Present value => inr (Some value)
  | NotPresent => inr None
  | NotUnicode => inl (config_error [name; " must contain valid Unicode"])
  end.

(** ** UTF-8 and percent-encoding *)

Definition byte_of (a : ascii) : Z := Z.of_nat (nat_of_ascii a).

Definition hex_value (b : Z) : option Z :=
  if (48 <=? b) && (b <=? 57) then Some (b - 48)
  else if (97 <=? b) && (b <=? 102) then Some (b - 97 + 10)
  else if (65 <=? b) && (b <=? 70) then Some (b - 65 + 10)
  else None.

Fixpoint bytes (s : string) : list Z :=
  match s with EmptyString => [] | String a s' => byte_of a :: bytes s' end.

Fixpoint of_bytes (l : list Z) : string :=
  match l with [] => EmptyString | b :: l' => String (ascii_of_nat (Z.to_nat b)) (of_bytes l') end.

Definition within (lo hi b : Z) : bool := (lo <=? b) && (b <=? hi).

(** [String::from_utf8] accepts exactly the well-formed sequences of one to four
    bytes of the Unicode standard (no surrogates, no overlong forms). *)
Fixpoint utf8 (l : list Z) : bool :=
  match l with
  | [] => true
  | b0 :: l1 =>
      if within 0 127 b0 then utf8 l1
      else if within 194 223 b0 then
        match l1 with
        | b1 :: l2 => within 128 191 b1 && utf8 l2
        | _ => false
        end
      else if within 224 239 b0 then
        match l1 with
        | b1 :: b2 :: l3 =>
            (if b0 =? 224 then within 160 191 b1
             else if b0 =? 237 then within 128 159 b1 else within 128 191 b1)
            && within 128 191 b2 && utf8 l3
        | _ => false
        end
      else if within 240 244 b0 then
        match l1 with
        | b1 :: b2 :: b3 :: l4 =>
            (if b0 =? 240 then within 144 191 b1
             else if b0 =? 244 then within 128 143 b1 else within 128 191 b1)
            && within 128 191 b2 && within 128 191 b3 && utf8 l4
        | _ => false
        end
      else false
  end.

(** The loop of [percent_decode_utf8]: 37 is the percent sign, and
    [(high << 4) | low] of two nibbles is [16 * high + low]. *)
Fixpoint percent_decode (l : list Z) : option (list Z) :=
  match l with
  | [] => Some []
  | b :: l' =>
      if b =? 37 then
        match l' with
        | h :: lo :: rest =>
            match hex_value h, hex_value lo with
            | Some high, Some low => cons (Z.lor (Z.shiftl high 4) low) <$> percent_decode rest
            | _, _ => None
            end
        | _ => None
        end
      else cons b <$> percent_decode l'
  end.

Definition percent_decode_utf8 (value : string) : option string :=
  match percent_decode (bytes value) with
  | Some decoded => if utf8 decoded then Some (of_bytes decoded) else None
  | None => None
  end.

(** [char::is_control]: the category Cc, U+0000 to U+001F and U+007F to U+009F. *)
Definition is_control (c : string) : bool :=
  match bytes c with
  | [b] => (b <=? 31) || (b =? 127)
  | [194; b] => within 128 159 b
  | _ => false
  end.

Definition has_control (s : string) : bool := existsb is_control (chars s).

(** [char::REPLACEMENT_CHARACTER] *)
Definition replacement_character : string := of_bytes [239; 191; 189].

(** ** Test databases *)

(** What the [url] crate reports of a parsed URL. *)
Record Url := mkUrl {
  u_scheme : string;
  u_host_str : option string;
  u_username : string;
  u_password : option string;
  u_path : string;
  u_query : option string;
  u_fragment : option string;
  u_query_pairs : list (string * string)
}.

Class UrlParser := { url_parse : string -> option Url }.
Class UuidParser := { uuid_parse_str : string -> option string }.

Section Configuration.
Context {UP : UrlParser} {UU : UuidParser}.

(** Splitting at every byte that is not alphanumeric yields, around a character
    of several bytes, some more empty segments than splitting at characters. *)
Definition has_standalone_test_segment (database_name : string) : bool :=
  existsb (fun segment => eq_ignore_ascii_case segment "test")
    (split_on (fun a => negb (is_ascii_alphanumeric a)) database_name).

Definition database_name_from_url (database_url : string) : Result string string :=
  let? url := some_or (url_parse (trim database_url)) "the URL is invalid" in
  guard? one_of_texts (u_scheme url) ["postgres"; "postgresql"]
    else "the URL scheme must be postgres or postgresql" in
  let encoded_path := default (u_path url) (str_strip_prefix "/" (u_path url)) in
  let? path_database_name :=
    (if is_empty encoded_path then inr None
     else let? name := some_or (percent_decode_utf8 encoded_path)
                         "the database name encoding is invalid" in inr (Some name)) in
  let query_database_names :=
    map snd (List.filter (fun p => fst p =s "dbname") (u_query_pairs url)) in
  guard? negb ((1 <? length query_database_names)%nat
               || (bool_decide (is_Some path_database_name)
                   && negb (length query_database_names =? 0)%nat))
    else "the database name must be specified exactly once" in
  let? database_name :=
    some_or (keep_if (fun v => negb (is_empty v))
               (match path_database_name with
                | Some v => Some v
                | None => head query_database_names
                end)) "the database name is missing" in
  guard? negb (has_control database_name || contains database_name replacement_character)
    else "the database name is invalid" in
  inr database_name.

Record TestDatabaseTarget := mkTestDatabaseTarget { td_database_name : string }.

Definition validate_test_database_url (environment database_url source : string)
    : Result ConfigError (option TestDatabaseTarget) :=
  if negb (environment =s "test") then inr None else
  let? database_name :=
    match database_name_from_url database_url with
    | inr name => inr name
    | inl message => inl (config_error
        ["test environment requires "; source;
         " to be a PostgreSQL URL with an explicit database name: "; message])
    end in
  guard? has_standalone_test_segment database_name
    else config_error ["test environment requires "; source;
           " database name to contain a standalone 'test' segment"] in
  inr (Some (mkTestDatabaseTarget database_name)).

Definition validate_actual_test_database_name (target : TestDatabaseTarget)
    (actual_database_name source : string) : Result ConfigError unit :=
  guard? actual_database_name =s td_database_name target
    else config_error ["database selected by "; source;
           " does not match its configured test database name"] in
  guard? has_standalone_test_segment actual_database_name
    else config_error ["database selected by "; source;
           " does not contain a standalone 'test' segment"] in
  inr tt.

(** [actual] is the answer to [SELECT current_database()], or nothing when the
    query fails. *)
Definition verify_test_database_connection (actual : option string) (target : TestDatabaseTarget)
    (source : string) : Result ConfigError unit :=
  let? actual := some_or actual (config_error ["could not verify the database selected by ";
                                   source; " before test writes"]) in
  validate_actual_test_database_name target actual source.

(** ** Values *)

Definition parse_bool (name value : string) : Result ConfigError bool :=
  let value := to_ascii_lowercase (trim value) in
  if one_of_texts value ["true"; "1"; "yes"] then inr true
  else if one_of_texts value ["false"; "0"; "no"] then inr false
  else inl (config_error [name; " must be one of: true, false, 1, 0, yes, no"]).

(** [parse_bool] of a value that is read, or a default. *)
Definition bool_or (name : string) (value : option string) (default_value : bool)
    : Result ConfigError bool :=
  match value with Some value => parse_bool name value | None => inr default_value end.

Definition parse_positive_i32 (name : string) (value : option string) (default_value : Z)
    : Result ConfigError Z :=
  match value with
  | Some value => some_or (keep_if (Z.ltb 0) (parse_i32 value))
                    (config_error [name; " must be a positive integer"])
  | None => inr default_value
  end.

Definition parse_positive_i64 (name : string) (value : option string) (default_value : Z)
    : Result ConfigError Z :=
  match value with
  | Some value => some_or (keep_if (Z.ltb 0) (parse_i64 value))
                    (config_error [name; " must be a positive integer"])
  | None => inr default_value
  end.

Definition parse_bounded_positive_i64 (name : string) (value : option string)
    (default_value minimum maximum : Z) : Result ConfigError Z :=
  let? value := parse_positive_i64 name value default_value in
  guard? within minimum maximum value
    else config_error [name; " must be between "; int_to_string minimum; " and ";
           int_to_string maximum] in
  inr value.

Definition optional_setting (value : option string) : option string :=
  keep_if (fun v => negb (is_empty v)) (trim <$> value).

Definition required_setting (name : string) (value : option string) : Result ConfigError string :=
  some_or (optional_setting value) (config_error [name; " is required"]).

Definition validate_uuid (name value : string) : Result ConfigError string :=
  some_or (uuid_parse_str value) (config_error [name; " must be a UUID"]).

Definition validate_auth_url (name value environment : string) (redirect_uri : bool)
    : Result ConfigError unit :=
  let? url := some_or (url_parse value)
                (config_error [name; " must be an absolute HTTP(S) URL"]) in
  guard? one_of_texts (u_scheme url) ["http"; "https"] && bool_decide (is_Some (u_host_str url))
    else config_error [name; " must be an absolute HTTP(S) URL"] in
  guard? is_empty (u_username url) && bool_decide (u_password url = None)
    else config_error [name; " must not contain credentials"] in
  guard? negb ((environment =s "production") && negb (u_scheme url =s "https"))
    else config_error [name; " must use HTTPS in production"] in
  guard? bool_decide (u_query url = None) && bool_decide (u_fragment url = None)
    else config_error [name; " "; (if redirect_uri then "redirect URI" else "URL");
           " must not contain a query or fragment"] in
  guard? negb (redirect_uri && negb (u_path url =s "/auth/entra/callback"))
    else config_error [name; " path must be exactly /auth/entra/callback"] in
  inr tt.

Definition MIN_CONNECTOR_SECRET_KEY_BYTES : Z := 32.
Definition MIN_AUTH_SECRET_KEY_BYTES : Z := 32.

(** The number of distinct bytes: the size of a [HashSet] of them. *)
Definition distinct_bytes (s : string) : Z := Z.of_nat (length (remove_dups (bytes s))).

Definition contains_placeholder (s : string) (placeholders : list string) : bool :=
  existsb (contains (to_ascii_lowercase s)) placeholders.

Definition validate_auth_secret (name secret : string) : Result ConfigError unit :=
  guard? MIN_AUTH_SECRET_KEY_BYTES <=? byte_len secret
    else config_error [name; " must be at least 32 bytes"] in
  guard? byte_len secret <=? 4096
    else config_error [name; " must be at most 4096 bytes"] in
  guard? negb ((distinct_bytes secret <? 8)
               || contains_placeholder secret ["change-me"; "changeme"; "replace-me"; "replace_me"])
    else config_error [name; " must be a non-placeholder, high-entropy value"] in
  inr tt.

Definition has_non_empty_value (value : option string) : bool :=
  match value with Some v => negb (is_empty (trim v)) | None => false end.

Definition validate_connector_secret_key (secret_key : string) : Result ConfigError unit :=
  guard? MIN_CONNECTOR_SECRET_KEY_BYTES <=? byte_len secret_key
    else config_error ["CONNECTOR_SECRET_KEY must be at least 32 bytes in production"] in
  let is_placeholder := contains_placeholder secret_key
    ["change-me"; "changeme"; "replace-me"; "replace_me"; "dev-connector-secret-key"] in
  guard? negb (is_placeholder || (distinct_bytes secret_key <? 8))
    else config_error
      ["CONNECTOR_SECRET_KEY must be a non-placeholder, high-entropy value in production"] in
  inr tt.

(** ** [AppConfig::from_source] *)

Definition SUPPORTED_ENVIRONMENTS : list string := ["development"; "test"; "production"].

Section FromSource.
Variable read : string -> Result ConfigError (option string).

(** The tenant-specific Entra settings, read when [AUTH_ENTRA_ENABLED]. *)
Definition check_url (environment name value : string) : Result ConfigError unit :=
  guard? byte_len value <=? 2048 else config_error [name; " must be at most 2048 bytes"] in
  validate_auth_url name value environment false.

Definition entra_from_source (environment : string) : Result ConfigError EntraConfig :=
  let? tenant_id := read "AUTH_ENTRA_TENANT_ID" in
  let? tenant_id := required_setting "AUTH_ENTRA_TENANT_ID" tenant_id in
  let? client_id := read "AUTH_ENTRA_CLIENT_ID" in
  let? client_id := required_setting "AUTH_ENTRA_CLIENT_ID" client_id in
  let? tenant_id := validate_uuid "AUTH_ENTRA_TENANT_ID" tenant_id in
  let? client_id := validate_uuid "AUTH_ENTRA_CLIENT_ID" client_id in
  let? redirect_uri := read "AUTH_ENTRA_REDIRECT_URI" in
  let? redirect_uri := required_setting "AUTH_ENTRA_REDIRECT_URI" redirect_uri in
  guard? byte_len redirect_uri <=? 2048
    else config_error ["AUTH_ENTRA_REDIRECT_URI must be at most 2048 bytes"] in
  let? _ := validate_auth_url "AUTH_ENTRA_REDIRECT_URI" redirect_uri environment true in
  let? transaction_key := read "AUTH_OIDC_TRANSACTION_KEY" in
  let? transaction_key := required_setting "AUTH_OIDC_TRANSACTION_KEY" transaction_key in
  let? _ := validate_auth_secret "AUTH_OIDC_TRANSACTION_KEY" transaction_key in
  let? client_secret := read "AUTH_ENTRA_CLIENT_SECRET" in
  let client_secret := optional_setting client_secret in
  guard? match client_secret with Some secret => byte_len secret <=? 4096 | None => true end
    else config_error ["AUTH_ENTRA_CLIENT_SECRET must be at most 4096 bytes"] in
  guard? negb ((environment =s "production") && bool_decide (client_secret = None))
    else config_error ["production Entra login requires AUTH_ENTRA_CLIENT_SECRET"] in
  let base := String.append "https://login.microsoftonline.com/" tenant_id in
  let authority := String.append base "/oauth2/v2.0" in
  let? issuer := read "AUTH_ENTRA_ISSUER" in
  let issuer := default (String.append base "/v2.0") (optional_setting issuer) in
  let? authorization_url := read "AUTH_ENTRA_AUTHORIZATION_URL" in
  let authorization_url :=
    default (String.append authority "/authorize") (optional_setting authorization_url) in
  let? token_url := read "AUTH_ENTRA_TOKEN_URL" in
  let token_url := default (String.append authority "/token") (optional_setting token_url) in
  let? jwks_url := read "AUTH_ENTRA_JWKS_URL" in
  let jwks_url := default (String.append base "/discovery/v2.0/keys") (optional_setting jwks_url) in
  guard? byte_len issuer <=? 255
    else config_error ["AUTH_ENTRA_ISSUER must be at most 255 bytes"] in
  let? _ := check_url environment "AUTH_ENTRA_ISSUER" issuer in
  let? _ := check_url environment "AUTH_ENTRA_AUTHORIZATION_URL" authorization_url in
  let? _ := check_url environment "AUTH_ENTRA_TOKEN_URL" token_url in
  let? _ := check_url environment "AUTH_ENTRA_JWKS_URL" jwks_url in
  let? jit_provisioning := read "AUTH_ENTRA_JIT_PROVISIONING" in
  let? jit_provisioning := bool_or "AUTH_ENTRA_JIT_PROVISIONING" jit_provisioning false in
  let? required_role := read "AUTH_ENTRA_REQUIRED_ROLE" in
  let required_role := optional_setting required_role in
  guard? match required_role with
         | Some role => (byte_len role <=? 128) && negb (has_control role)
         | None => true
         end
    else config_error ["AUTH_ENTRA_REQUIRED_ROLE must be at most 128 bytes and contain no control characters"] in
  guard? negb ((environment =s "production") && jit_provisioning
               && bool_decide (required_role = None))
    else config_error ["production Entra JIT provisioning requires AUTH_ENTRA_REQUIRED_ROLE"] in
  let? ttl := read "AUTH_OIDC_TRANSACTION_TTL_SECONDS" in
  let? ttl := parse_bounded_positive_i64 "AUTH_OIDC_TRANSACTION_TTL_SECONDS" ttl 600 60 1800 in
  let? cache := read "AUTH_ENTRA_JWKS_CACHE_SECONDS" in
  let? cache := parse_bounded_positive_i64 "AUTH_ENTRA_JWKS_CACHE_SECONDS" cache 300 30 86400 in
  let? skew := read "AUTH_ENTRA_CLOCK_SKEW_SECONDS" in
  let? skew := parse_bounded_positive_i64 "AUTH_ENTRA_CLOCK_SKEW_SECONDS" skew 120 1 300 in
  inr (mkEntraConfig tenant_id client_id client_secret transaction_key redirect_uri issuer
         authorization_url token_url jwks_url jit_provisioning required_role ttl cache skew).

(** What a test process and a production process need of the database and the
    connector key. *)
Definition check_test_database (environment : string) : Result ConfigError unit :=
  if environment =s "test" then
    let? database_url := read "DATABASE_URL" in
    match keep_if (fun v => negb (is_empty (trim v))) database_url with
    | Some database_url =>
        let? _ := validate_test_database_url environment database_url "DATABASE_URL" in inr tt
    | None => inr tt
    end
  else inr tt.

Definition check_production (environment : string) : Result ConfigError unit :=
  if environment =s "production" then
    let? database_url := read "DATABASE_URL" in
    let? rocket_databases := read "ROCKET_DATABASES" in
    guard? has_non_empty_value database_url || has_non_empty_value rocket_databases
      else config_error ["production requires DATABASE_URL or ROCKET_DATABASES"] in
    let? key := read "CONNECTOR_SECRET_KEY" in
    let? key := some_or (keep_if (fun v => negb (is_empty (trim v))) key)
                  (config_error ["production requires CONNECTOR_SECRET_KEY"]) in
    validate_connector_secret_key key
  else inr tt.

Definition from_source : Result ConfigError AppConfig :=
  let? environment := read "APP_ENV" in
  let environment := default "development" environment in
  guard? one_of_texts environment SUPPORTED_ENVIRONMENTS
    else config_error ["APP_ENV must be one of: "; join ", " SUPPORTED_ENVIRONMENTS] in
  let? ttl := read "AUTH_TOKEN_TTL_SECONDS" in
  let? auth_token_ttl_seconds :=
    match ttl with
    | Some value => some_or (parse_i64 value)
                      (config_error ["AUTH_TOKEN_TTL_SECONDS must be a positive integer"])
    | None => inr 86400
    end in
  guard? 0 <? auth_token_ttl_seconds
    else config_error ["AUTH_TOKEN_TTL_SECONDS must be greater than 0"] in
  let? sessions := read "AUTH_MAX_ACTIVE_SESSIONS_PER_USER" in
  let? auth_max_active_sessions_per_user :=
    parse_bounded_positive_i64 "AUTH_MAX_ACTIVE_SESSIONS_PER_USER" sessions 20 1 100 in
  let? secure := read "AUTH_COOKIE_SECURE" in
  let? auth_cookie_secure :=
    bool_or "AUTH_COOKIE_SECURE" secure (environment =s "production") in
  guard? negb ((environment =s "production") && negb auth_cookie_secure)
    else config_error ["AUTH_COOKIE_SECURE must be true in production"] in
  let? failures := read "AUTH_LOGIN_MAX_FAILURES" in
  let? auth_login_max_failures := parse_positive_i32 "AUTH_LOGIN_MAX_FAILURES" failures 5 in
  let? account := read "AUTH_LOGIN_ACCOUNT_MAX_FAILURES" in
  let? auth_login_account_max_failures :=
    parse_positive_i32 "AUTH_LOGIN_ACCOUNT_MAX_FAILURES" account 50 in
  guard? auth_login_max_failures * 2 <=? auth_login_account_max_failures
    else config_error
      ["AUTH_LOGIN_ACCOUNT_MAX_FAILURES must be at least twice AUTH_LOGIN_MAX_FAILURES"] in
  let? window := read "AUTH_LOGIN_WINDOW_SECONDS" in
  let? auth_login_window_seconds := parse_positive_i64 "AUTH_LOGIN_WINDOW_SECONDS" window 900 in
  let? lockout := read "AUTH_LOGIN_LOCKOUT_SECONDS" in
  let? auth_login_lockout_seconds := parse_positive_i64 "AUTH_LOGIN_LOCKOUT_SECONDS" lockout 900 in
  let? password := read "AUTH_PASSWORD_LOGIN_ENABLED" in
  let? auth_password_login_enabled := bool_or "AUTH_PASSWORD_LOGIN_ENABLED" password true in
  let? entra_enabled := read "AUTH_ENTRA_ENABLED" in
  let? entra_enabled := bool_or "AUTH_ENTRA_ENABLED" entra_enabled false in
  let? entra := (if entra_enabled : bool
                 then let? entra := entra_from_source environment in inr (Some entra)
                 else inr None) in
  guard? auth_password_login_enabled || bool_decide (is_Some entra)
    else config_error ["at least one login method must be enabled"] in
  let? _ := check_test_database environment in
  let? _ := check_production environment in
  inr (mkAppConfig environment auth_token_ttl_seconds auth_max_active_sessions_per_user
         auth_cookie_secure auth_login_max_failures auth_login_account_max_failures
         auth_login_window_seconds auth_login_lockout_seconds auth_password_login_enabled entra).

End FromSource.

Definition from_env (env : Environ) : Result ConfigError AppConfig := from_source (env_read env).

End Configuration.
