(* ===== verification/ConfigSafety.v ===== *)
(** Properties of the process configuration of [Config.v]: what an accepted
    environment guarantees, and how the name of a test database is read from its
    URL. *)
From S2P Require Import Prelude Logic Text Models Schema Api Validation Access Sessions Accounts Authn Config.
From Stdlib Require Import Ascii.

Open Scope Z_scope.
Open Scope portal_scope.

(** ** Accepted values *)

Lemma and_then_ok {E A B} (m : Result E A) (k : A -> Result E B) b :
  and_then m k = inr b -> exists a, m = inr a /\ k a = inr b.
Proof. destruct m as [e|a]; simpl; [done|]. eauto. Qed.

Lemma guard_ok {E A} (b : bool) (e : E) (k : Result E A) a :
  (guard? b else e in k) = inr a -> b = true /\ k = inr a.
Proof. by destruct b. Qed.

Lemma some_or_ok {E A} (o : option A) (e : E) a : some_or o e = inr a -> o = Some a.
Proof. destruct o; simpl; [by intros [= ->]|done]. Qed.

Lemma keep_if_some {A} (P : A -> bool) o a : keep_if P o = Some a -> o = Some a /\ P a = true.
Proof. destruct o as [x|]; simpl; [|done]. destruct (P x) eqn:E; [|done]. by intros [= ->]. Qed.

(** Splits an accepted computation into its steps. *)
Ltac accepted H :=
  cbv zeta in H;
  repeat first
    [ let E := fresh "E" in let x := fresh "x" in apply and_then_ok in H as (x & E & H); cbv zeta in H
    | let G := fresh "G" in apply guard_ok in H as [G H]; cbv zeta in H ].

Section Accepted.
Context {UP : UrlParser} {UU : UuidParser}.

Lemma positive_i32_ok name value d z :
  parse_positive_i32 name value d = inr z -> 0 < d <= i32_max -> 0 < z <= i32_max.
Proof.
  destruct value as [v|]; simpl; [|by intros [= ->]].
  intros [H%parse_signed_bounds Hz]%some_or_ok%keep_if_some _. lia.
Qed.

Lemma positive_i64_ok name value d z :
  parse_positive_i64 name value d = inr z -> 0 < d <= i64_max -> 0 < z <= i64_max.
Proof.
  destruct value as [v|]; simpl; [|by intros [= ->]].
  intros [H%parse_i64_bounds Hz]%some_or_ok%keep_if_some _. lia.
Qed.

Lemma bounded_ok name value d lo hi z :
  parse_bounded_positive_i64 name value d lo hi = inr z -> lo <= z <= hi.
Proof. intros H. unfold parse_bounded_positive_i64 in H. accepted H. injection H as <-. unfold within in G. lia. Qed.

(** A setting that is used is trimmed and not blank. *)
Lemma required_ok name value v : required_setting name value = inr v -> v <> "".
Proof.
  intros [_ H]%some_or_ok%keep_if_some. unfold is_empty in H. intros ->. by rewrite str_eqb_refl in H.
Qed.

(** The URLs an accepted configuration may name. *)
Definition safe_url (environment : string) (redirect : bool) (value : string) : Prop :=
  exists url, url_parse value = Some url /\
    (u_scheme url = "https" \/ (u_scheme url = "http" /\ environment <> "production")) /\
    u_host_str url <> None /\ u_username url = "" /\ u_password url = None /\
    u_query url = None /\ u_fragment url = None /\
    (redirect = true -> u_path url = "/auth/entra/callback").

Lemma auth_url_ok name value environment redirect u :
  validate_auth_url name value environment redirect = inr u ->
  safe_url environment redirect value.
Proof.
  intros H. unfold validate_auth_url in H. accepted H. apply some_or_ok in E.
  apply andb_prop in G as [Hs Hh%bool_decide_eq_true], G0 as [Hu Hp%bool_decide_eq_true],
    G2 as [Hq%bool_decide_eq_true Hf%bool_decide_eq_true].
  exists x. unfold one_of_texts in Hs. simpl in Hs. unfold is_empty in Hu.
  apply str_eqb_eq in Hu. split_and!; try done.
  - destruct (str_eqb_spec (u_scheme x) "https"); [by left|]. right.
    rewrite !orb_true_iff, !str_eqb_eq in Hs. split; [naive_solver|]. intros ->. done.
  - by destruct Hh as [? ->].
  - intros ->. by destruct (str_eqb_spec (u_path x) "/auth/entra/callback").
Qed.

Lemma auth_secret_ok name secret u :
  validate_auth_secret name secret = inr u -> 32 <= byte_len secret <= 4096 /\ 8 <= distinct_bytes secret.
Proof.
  intros H. unfold validate_auth_secret in H. accepted H. unfold MIN_AUTH_SECRET_KEY_BYTES in *.
  apply negb_true_iff, orb_false_iff in G1 as [? _]. lia.
Qed.

Lemma env_read_ok env name value :
  env_read env name = inr value ->
  match value with Some v => env name = Present v | None => env name = NotPresent end.
Proof. unfold env_read. destruct (env name); [by intros [= <-]..|done]. Qed.

(** The Entra settings of an accepted configuration. *)
Record safe_entra (environment : string) (e : EntraConfig) : Prop := {
  se_redirect : safe_url environment true (redirect_uri e);
  se_urls : Forall (safe_url environment false)
    [issuer e; authorization_url e; token_url e; jwks_url e];
  se_key : 32 <= byte_len (transaction_key e) <= 4096 /\ 8 <= distinct_bytes (transaction_key e);
  se_confidential : environment = "production" -> client_secret e <> None;
  se_gated_jit : environment = "production" -> jit_provisioning e = true -> required_role e <> None;
  se_issuer : byte_len (issuer e) <= 255;
  se_bounds : 60 <= transaction_ttl_seconds e <= 1800 /\ 30 <= jwks_cache_seconds e <= 86400 /\
    1 <= clock_skew_seconds e <= 300
}.

Lemma entra_ok read environment e :
  entra_from_source read environment = inr e -> safe_entra environment e.
Proof.
  intros H. unfold entra_from_source, check_url in H. accepted H. injection H as <-.
  repeat match goal with
  | E : and_then _ _ = inr _ |- _ => accepted E
  | E : (if _ then _ else inl _) = inr _ |- _ => apply guard_ok in E as [? E]
  | E : validate_auth_url _ _ _ _ = inr _ |- _ => apply auth_url_ok in E
  | E : validate_auth_secret _ _ = inr _ |- _ => apply auth_secret_ok in E
  | E : parse_bounded_positive_i64 _ _ _ _ _ = inr _ |- _ => apply bounded_ok in E
  end.
  split; cbn; try done; [by repeat constructor|..].
  - intros -> Hn. by rewrite str_eqb_refl, bool_decide_eq_true_2 in G1.
  - intros -> -> Hn. by rewrite str_eqb_refl, bool_decide_eq_true_2 in G4.
  - lia.
Qed.

(** What an accepted environment guarantees of the process. *)
Record safe_configuration (env : Environ) (c : AppConfig) : Prop := {
  sc_environment : environment c ∈ SUPPORTED_ENVIRONMENTS;
  sc_ttl : 0 < auth_token_ttl_seconds c <= i64_max;
  sc_sessions : 1 <= auth_max_active_sessions_per_user c <= 100;
  sc_failures : 0 < auth_login_max_failures c /\
    2 * auth_login_max_failures c <= auth_login_account_max_failures c <= i32_max;
  sc_window : 0 < auth_login_window_seconds c <= i64_max /\
    0 < auth_login_lockout_seconds c <= i64_max;
  sc_cookie : environment c = "production" -> auth_cookie_secure c = true;
  sc_login : auth_password_login_enabled c = true \/ entra c <> None;
  sc_entra : forall e, entra c = Some e -> safe_entra (environment c) e;
  sc_production_key : environment c = "production" ->
    exists key, env "CONNECTOR_SECRET_KEY" = Present key /\ is_empty (trim key) = false /\
      32 <= byte_len key /\ 8 <= distinct_bytes key;
  sc_test_database : environment c = "test" ->
    forall url, env "DATABASE_URL" = Present url -> is_empty (trim url) = false ->
      exists name, database_name_from_url url = inr name /\ has_standalone_test_segment name = true
}.

Lemma production_ok env u :
  check_production (env_read env) "production" = inr u ->
  exists key, env "CONNECTOR_SECRET_KEY" = Present key /\ is_empty (trim key) = false /\
    32 <= byte_len key /\ 8 <= distinct_bytes key.
Proof.
  unfold check_production. rewrite str_eqb_refl. intros H. accepted H.
  apply some_or_ok, keep_if_some in E2 as [-> Hblank%negb_true_iff]. apply env_read_ok in E1. exists x2.
  unfold validate_connector_secret_key in H. accepted H. unfold MIN_CONNECTOR_SECRET_KEY_BYTES in *.
  apply negb_true_iff, orb_false_iff in G1 as [_ ?]. split; [done|]. split; [done|lia].
Qed.

Lemma test_database_ok env u :
  check_test_database (env_read env) "test" = inr u ->
  forall url, env "DATABASE_URL" = Present url -> is_empty (trim url) = false ->
    exists name, database_name_from_url url = inr name /\ has_standalone_test_segment name = true.
Proof.
  unfold check_test_database. rewrite str_eqb_refl. intros H url Hu Hb. accepted H.
  unfold env_read in E. rewrite Hu in E. injection E as <-. simpl in H. rewrite Hb in H. simpl in H.
  accepted H. unfold validate_test_database_url in E. rewrite str_eqb_refl in E. simpl in E. accepted E.
  destruct (database_name_from_url url) as [m|name]; [done|]. injection E0 as ->. eauto.
Qed.

End Accepted.

Lemma accepted_environment {UP : UrlParser} {UU : UuidParser} env c :
  from_env env = inr c -> safe_configuration env c.
Proof.
  intros H. unfold from_env, from_source in H. accepted H. injection H as <-.
  repeat match goal with
  | E : parse_bounded_positive_i64 _ _ _ _ _ = inr _ |- _ => apply bounded_ok in E
  | E : parse_positive_i64 _ _ _ = inr _ |- _ =>
      apply positive_i64_ok in E; [|unfold i64_max; lia]
  | E : parse_positive_i32 _ _ _ = inr _ |- _ =>
      apply positive_i32_ok in E; [|unfold i32_max; lia]
  end.
  split; cbn; try lia.
  - unfold one_of_texts in G. apply existsb_exists in G as (e & He & ->%str_eqb_eq).
    by apply list_elem_of_In.
  - destruct x0 as [v|]; [apply some_or_ok, parse_i64_bounds in E1; lia|].
    injection E1 as <-. unfold i64_max. lia.
  - intros Hp. rewrite Hp, str_eqb_refl in G1. by destruct x5.
  - destruct x18 as [e|]; [by right|]. left. by destruct x15.
  - intros e ->. destruct x17; [|done]. apply and_then_ok in E18 as (e' & He & [= ->]).
    by apply entra_ok in He.
  - intros Hp. rewrite Hp in *. by eapply production_ok.
  - intros Ht. rewrite Ht in *. by eapply test_database_ok.
Qed.

(** C25: a process starts only with a safe configuration: in production session
    cookies are secure, every identity-provider URL is HTTPS, Entra login has a
    client secret and a role for just-in-time accounts, and the connector key is
    long and not degenerate; in a test process the configured database is a test
    database; in every environment some login method is enabled, the redirect
    URI is the callback route, and all numeric limits are positive and in
    range. *)
Theorem accepted_configuration_is_safe {UP : UrlParser} {UU : UuidParser} env c :
  from_env env = inr c -> safe_configuration env c.
Proof. apply accepted_environment. Qed.

(** An environment given by its assignments, and parsers for its URLs. *)
Definition assignments (l : list (string * string)) : Environ := fun name =>
  match head (List.filter (fun p => fst p =s name) l) with
  | Some p => Present (snd p)
  | None => NotPresent
  end.

Definition sample_url : Url :=
  mkUrl "https" (Some "portal.example") "" None "/auth/entra/callback" None None [].

Definition sample_urls : UrlParser := {| url_parse := fun _ => Some sample_url |}.
Definition sample_uuids : UuidParser := {| uuid_parse_str := Some |}.

Definition production_environment : Environ := assignments
  [("APP_ENV", "production"); ("DATABASE_URL", "postgres://db/portal");
   ("CONNECTOR_SECRET_KEY", "S7yN2vQ9kL4mX8pR1tW6cF3hJ5dB0zAa");
   ("AUTH_ENTRA_ENABLED", "yes"); ("AUTH_ENTRA_TENANT_ID", "t"); ("AUTH_ENTRA_CLIENT_ID", "c");
   ("AUTH_ENTRA_CLIENT_SECRET", "secret");
   ("AUTH_ENTRA_REDIRECT_URI", "https://portal.example/auth/entra/callback");
   ("AUTH_OIDC_TRANSACTION_KEY", "S7yN2vQ9kL4mX8pR1tW6cF3hJ5dB0zAa");
   ("AUTH_ENTRA_JIT_PROVISIONING", "true"); ("AUTH_ENTRA_REQUIRED_ROLE", "Portal.Member")].

Lemma accepted_configuration_is_safe_witness :
  exists c e, @from_env sample_urls sample_uuids production_environment = inr c /\
    auth_cookie_secure c = true /\ entra c = Some e /\ client_secret e <> None /\
    required_role e <> None.
Proof.
  destruct (@from_env sample_urls sample_uuids production_environment) as [m|c] eqn:H;
    [vm_compute in H; discriminate H|].
  pose proof (@accepted_configuration_is_safe sample_urls sample_uuids _ _ H) as Hs.
  assert (environment c = "production") as Hp by (vm_compute in H; injection H as <-; reflexivity).
  destruct (entra c) as [e|] eqn:He; [|vm_compute in H; injection H as <-; discriminate He].
  exists c, e. split; [reflexivity|]. split; [by apply (sc_cookie _ _ Hs)|]. split; [exact He|].
  pose proof (sc_entra _ _ Hs e He) as Hse. split; [by apply (se_confidential _ _ Hse)|].
  apply (se_gated_jit _ _ Hse); [exact Hp|]. vm_compute in H. injection H as <-.
  injection He as <-. reflexivity.
Defined.

(** ** The name of the database in its URL *)

Definition hex_digit (n : Z) : Z := if n <? 10 then 48 + n else 55 + n.

(** The encoding of a URL path: bytes the writer does not keep become [%XX]. *)
Fixpoint percent_encode (keep : Z -> bool) (l : list Z) : list Z :=
  match l with
  | [] => []
  | b :: l' =>
      if keep b && negb (b =? 37) then b :: percent_encode keep l'
      else 37 :: hex_digit (b / 16) :: hex_digit (b mod 16) :: percent_encode keep l'
  end.

Lemma hex_digit_value n : 0 <= n < 16 -> hex_value (hex_digit n) = Some n.
Proof.
  intros H. unfold hex_digit, hex_value. destruct (Z.ltb_spec n 10).
  - replace ((48 <=? 48 + n) && (48 + n <=? 57)) with true by lia. f_equal. lia.
  - replace ((48 <=? 55 + n) && (55 + n <=? 57)) with false by lia.
    replace ((97 <=? 55 + n) && (55 + n <=? 102)) with false by lia.
    replace ((65 <=? 55 + n) && (55 + n <=? 70)) with true by lia. f_equal. lia.
Qed.

Lemma nibbles b : 0 <= b < 256 -> Z.lor (Z.shiftl (b / 16) 4) (b mod 16) = b.
Proof.
  intros H. rewrite Z.shiftl_mul_pow2 by lia. change (2 ^ 4) with 16.
  pose proof (Z.add_lor_land (b / 16 * 16) (b mod 16)) as Hor.
  pose proof (Z.div_mod b 16 ltac:(lia)) as Hdiv.
  enough (Z.land (b / 16 * 16) (b mod 16) = 0) by lia. clear.
  change 16 with (2 ^ 4). rewrite <- Z.shiftl_mul_pow2, <- Z.land_ones by lia.
  apply Z.bits_inj'. intros n Hn. rewrite Z.land_spec, Z.land_spec, Z.bits_0.
  destruct (Z.ltb_spec n 4).
  - by rewrite Z.shiftl_spec_low.
  - rewrite Z.ones_spec_high by lia. by rewrite !andb_false_r.
Qed.

Lemma percent_round_trip keep l :
  Forall (fun b => 0 <= b < 256) l -> percent_decode (percent_encode keep l) = Some l.
Proof.
  induction 1 as [|b l Hb Hl IH]; simpl; [done|].
  destruct (keep b && negb (b =? 37)) eqn:E; simpl.
  - apply andb_prop in E as [_ E%negb_true_iff]. by rewrite E, IH.
  - rewrite !hex_digit_value by (try apply Z.mod_pos_bound; try (split; [apply Z.div_pos|apply Z.div_lt_upper_bound]); lia).
    by rewrite IH, nibbles.
Qed.

Lemma bytes_range s : Forall (fun b => 0 <= b < 256) (bytes s).
Proof.
  induction s as [|a s IH]; simpl; constructor; [|done]. unfold byte_of.
  pose proof (nat_ascii_bounded a). lia.
Qed.

Lemma of_bytes_bytes s : of_bytes (bytes s) = s.
Proof.
  induction s as [|a s IH]; simpl; [done|]. unfold byte_of. by rewrite Nat2Z.id, ascii_nat_embedding, IH.
Qed.

Lemma bytes_of_bytes l : Forall (fun b => 0 <= b < 256) l -> bytes (of_bytes l) = l.
Proof.
  induction 1 as [|b l Hb Hl IH]; simpl; [done|]. unfold byte_of. rewrite nat_ascii_embedding by lia.
  rewrite IH. f_equal. lia.
Qed.

Lemma percent_encode_range keep l :
  Forall (fun b => 0 <= b < 256) l -> Forall (fun b => 0 <= b < 256) (percent_encode keep l).
Proof.
  induction 1 as [|b l Hb Hl IH]; simpl; [done|].
  assert (forall n, 0 <= n < 16 -> 0 <= hex_digit n < 256) as Hh
    by (intros n Hn; unfold hex_digit; case_match; lia).
  destruct (keep b && negb (b =? 37)); [by constructor|]. constructor; [lia|].
  constructor; [apply Hh; split; [apply Z.div_pos|apply Z.div_lt_upper_bound]; lia|].
  constructor; [apply Hh, Z.mod_pos_bound; lia|done].
Qed.

(** the guard of test databases reads the name PostgreSQL will use: for a
    URL whose path is the percent-encoding of a database name, with any choice of
    the bytes that are left as they are, [database_name_from_url] returns that
    name, so that an encoded name cannot slip past the check for a [test]
    segment. *)
Theorem encoded_database_name_is_read {UP : UrlParser} keep name raw url :
  name <> "" -> utf8 (bytes name) = true -> has_control name = false ->
  contains name replacement_character = false ->
  url_parse (trim raw) = Some url -> u_scheme url ∈ ["postgres"; "postgresql"] ->
  u_path url = String "/" (of_bytes (percent_encode keep (bytes name))) ->
  Forall (fun p => fst p <> "dbname") (u_query_pairs url) ->
  database_name_from_url raw = inr name /\
  (validate_test_database_url "test" raw "DATABASE_URL" =
     inr (Some (mkTestDatabaseTarget name)) <-> has_standalone_test_segment name = true).
Proof.
  intros Hne Hu Hc Hr Hp Hs Hpath Hq.
  assert (database_name_from_url raw = inr name) as Hn.
  { unfold database_name_from_url. rewrite Hp. cbn [some_or and_then].
    assert (one_of_texts (u_scheme url) ["postgres"; "postgresql"] = true) as ->.
    { apply existsb_exists. exists (u_scheme url). by rewrite str_eqb_refl, <- list_elem_of_In. }
    rewrite Hpath. simpl.
    assert (is_empty (of_bytes (percent_encode keep (bytes name))) = false) as ->.
    { destruct name as [|a name]; [done|]. simpl. by case_match. }
    unfold percent_decode_utf8. rewrite bytes_of_bytes by apply percent_encode_range, bytes_range.
    rewrite percent_round_trip by apply bytes_range. rewrite Hu, of_bytes_bytes. simpl.
    rewrite filter_none_b; [|intros p Hin]; cycle 1.
    { rewrite Forall_forall in Hq. by apply str_eqb_neq, Hq. }
    simpl. unfold is_empty. rewrite (proj2 (str_eqb_neq _ _) Hne). simpl. by rewrite Hc, Hr. }
  split; [done|]. unfold validate_test_database_url. rewrite str_eqb_refl, Hn. simpl.
  destruct (has_standalone_test_segment name); done.
Qed.

Definition encoded_urls : UrlParser :=
  {| url_parse := fun _ => Some (mkUrl "postgres" (Some "db") "" None "/por%74al_%74es%74" None None []) |}.

Lemma encoded_database_name_is_read_witness :
  @database_name_from_url encoded_urls "postgres://db/por%74al_%74es%74" = inr "portal_test" /\
  @validate_test_database_url encoded_urls "test" "postgres://db/por%74al_%74es%74" "DATABASE_URL" =
    inr (Some (mkTestDatabaseTarget "portal_test")).
Proof.
  pose proof (@encoded_database_name_is_read encoded_urls (fun b => negb (b =? 116)) "portal_test"
    "postgres://db/por%74al_%74es%74"
    (mkUrl "postgres" (Some "db") "" None "/por%74al_%74es%74" None None [])
    ltac:(discriminate) eq_refl eq_refl eq_refl eq_refl ltac:(by left) eq_refl
    ltac:(constructor)) as [H1 H2].
  split; [exact H1|]. apply H2. reflexivity.
Defined.

(** ** Limits that are not checked *)

(** the session lifetime is not bounded from above: an environment with
    [AUTH_TOKEN_TTL_SECONDS] beyond the range of a chrono duration is accepted at
    startup, and with it every successful sign-in panics before its session is
    stored. *)
Theorem accepted_ttl_panics_sign_in {UP : UrlParser} {UU : UuidParser} {H : Sha256} :
  exists c, from_env (assignments [("AUTH_TOKEN_TTL_SECONDS", "9223372036854775807")]) = inr c /\
    forall user_id method client token conn,
      fst (establish_session user_id method client token c conn) = Panic /\
      db (snd (establish_session user_id method client token c conn)) = db conn.
Proof. eexists. split; [reflexivity|]. done. Qed.
