(* ===== verification/ConnectorWorkers.v ===== *)
(** The background worker: [src/src/rocket_routes/connectors/worker.rs]. One
    cycle of its loop recovers expired leases, cleans up expired data, enqueues
    due schedules and executes queued runs. The readings of the monotonic clock,
    the outcome of [pg_try_advisory_xact_lock] and the [Debug] text of errors are
    inputs of the model; log output is left out. *)
From S2P Require Import Prelude Logic Text Models Schema Api Validation Schedule Runs Access Sessions.
From S2P Require Import Records Connections Runtime AuditLogs SingleSignOn Config.
From Stdlib Require Import Ascii.

Open Scope Z_scope.
Open Scope portal_scope.

(** ** Environment variables *)

(** [std::env::var(name).ok()] *)
Definition env_ok (env : Environ) (name : string) : option string :=
  match env name with Present value => Some value | _ => None end.

Definition env_flag (env : Environ) (name : string) (default_value : bool) : bool :=
  match env_ok env name with
  | Some value => one_of_texts value ["1"; "true"; "TRUE"; "yes"; "YES"]
  | None => default_value
  end.

Definition env_u64 (env : Environ) (name : string) (default_value : Z) : Z :=
  default default_value
    (keep_if (Z.ltb 0) (match env_ok env name with Some v => parse_u64 v | None => None end)).

Definition strict_positive_env_u64 (env : Environ) (name : string) (default_value : Z)
    : Result string Z :=
  match env name with
  | Present value => some_or (keep_if (Z.ltb 0) (parse_u64 (trim value)))
                       (concat_str [name; " must be a positive integer"])
  | NotPresent => inr default_value
  | NotUnicode => inl (concat_str [name; " must contain valid Unicode"])
  end.

Definition connector_worker_stale_after_seconds (env : Environ) : Z :=
  u64_as_i64 (env_u64 env "CONNECTOR_WORKER_STALE_AFTER_SECONDS" 45).

Definition env_retention_days (env : Environ) (name : string) (default_value : Z) : option Z :=
  let days := default default_value
    (keep_if (Z.leb 0) (match env_ok env name with Some v => parse_i64 v | None => None end)) in
  if days =? 0 then None else Some days.

Definition strict_env_flag (env : Environ) (name : string) (default_value : bool)
    : Result string bool :=
  match env name with
  | Present value =>
      let value := to_ascii_lowercase (trim value) in
      if one_of_texts value ["1"; "true"; "yes"] then inr true
      else if one_of_texts value ["0"; "false"; "no"] then inr false
      else inl (concat_str [name; " must be one of: true, false, 1, 0, yes, no"])
  | NotPresent => inr default_value
  | NotUnicode => inl (concat_str [name; " must contain valid Unicode"])
  end.

(** ** Retention policy and schedule *)

Record ConnectorRetentionPolicy := mkConnectorRetentionPolicy {
  health_retention_days : option Z;
  run_retention_days : option Z;
  audit_log_retention_days : option Z;
  cleanup_interval : Z
}.

Definition retention_policy_from_env (env : Environ) : ConnectorRetentionPolicy :=
  mkConnectorRetentionPolicy
    (env_retention_days env "CONNECTOR_HEALTH_RETENTION_DAYS" 30)
    (env_retention_days env "CONNECTOR_RUN_RETENTION_DAYS" 90)
    (env_retention_days env "AUDIT_LOG_RETENTION_DAYS" 365)
    (env_u64 env "CONNECTOR_RETENTION_CLEANUP_INTERVAL_SECONDS" 3600).

Definition retention_enabled (policy : ConnectorRetentionPolicy) : bool := true.

Inductive RetentionAttemptOutcome :=
  | AttemptCompleted
  | AttemptSkippedLockBusy
  | AttemptSkippedRecentlyCompleted
  | AttemptFailed.

Record RetentionAttemptSchedule := mkRetentionAttemptSchedule {
  next_attempt_at : Z;
  consecutive_failures : Z
}.

(** Instants are microseconds; [Instant + Duration] panics beyond the seconds of
    an [i64]. *)
Definition instant_add (t seconds : Z) : option Z :=
  let sum := t + seconds * second in
  if sum / second <=? i64_max then Some sum else None.

Definition due_immediately (now : Z) : RetentionAttemptSchedule :=
  mkRetentionAttemptSchedule now 0.

Definition is_due (s : RetentionAttemptSchedule) (now : Z) : bool := next_attempt_at s <=? now.

Definition record_outcome (s : RetentionAttemptSchedule) (outcome : RetentionAttemptOutcome)
    (policy : ConnectorRetentionPolicy) (now : Z) : option RetentionAttemptSchedule :=
  let '(failures, delay) :=
    match outcome with
    | AttemptCompleted | AttemptSkippedLockBusy | AttemptSkippedRecentlyCompleted =>
        (0, cleanup_interval policy)
    | AttemptFailed =>
        let failures := i32_saturating_add (consecutive_failures s) 1 in
        (failures, bounded_retry_backoff_seconds failures 30 300)
    end in
  (fun t => mkRetentionAttemptSchedule t failures) <$> instant_add now delay.

(** ** One cycle's failures *)

Inductive WorkerCycleOperation := LeaseRecovery | RetentionCleanup | Scheduler | ConnectorQueue.

Record WorkerCycleState := mkWorkerCycleState { reconnect_required : bool }.

Definition record_failure (s : WorkerCycleState) (operation : WorkerCycleOperation)
    : WorkerCycleState :=
  match operation with
  | RetentionCleanup => s
  | LeaseRecovery | Scheduler | ConnectorQueue => mkWorkerCycleState true
  end.

Definition can_continue_connector_work (s : WorkerCycleState) : bool := negb (reconnect_required s).

(** ** Lease policy *)

Record ConnectorRunLeasePolicy := mkConnectorRunLeasePolicy {
  lease_seconds : Z;
  renew_interval : Z;
  retry_base_seconds : Z;
  retry_max_seconds : Z
}.

Definition lease_policy_from_env (env : Environ) : Result string ConnectorRunLeasePolicy :=
  let? lease_seconds := strict_positive_env_u64 env "CONNECTOR_RUN_LEASE_SECONDS" 60 in
  let? renew := strict_positive_env_u64 env "CONNECTOR_RUN_LEASE_RENEW_INTERVAL_SECONDS" 15 in
  let? retry_base := strict_positive_env_u64 env "CONNECTOR_RUN_RETRY_BASE_SECONDS" 5 in
  let? retry_max := strict_positive_env_u64 env "CONNECTOR_RUN_RETRY_MAX_SECONDS" 300 in
  let? max_attempts := strict_positive_env_u64 env "CONNECTOR_RUN_MAX_ATTEMPTS"
    (configured_connector_run_max_attempts (env_ok env "CONNECTOR_RUN_MAX_ATTEMPTS")) in
  guard? renew <? lease_seconds
    else "CONNECTOR_RUN_LEASE_RENEW_INTERVAL_SECONDS must be less than CONNECTOR_RUN_LEASE_SECONDS" in
  guard? retry_base <=? retry_max
    else "CONNECTOR_RUN_RETRY_MAX_SECONDS must be greater than or equal to CONNECTOR_RUN_RETRY_BASE_SECONDS" in
  guard? max_attempts <=? i32_max
    else "CONNECTOR_RUN_MAX_ATTEMPTS must fit in a signed 32-bit integer" in
  inr (mkConnectorRunLeasePolicy (u64_as_i64 lease_seconds) renew (u64_as_i64 retry_base)
         (u64_as_i64 retry_max)).

(** ** Heartbeats *)

Record WorkerHeartbeatContext := mkWorkerHeartbeatContext {
  hb_worker_id : string;
  hb_started_at : Z;
  hb_scheduler_enabled : bool;
  hb_retention_enabled : bool
}.

(** [last_heartbeat_at.elapsed()] is read against the instant [now]. *)
Definition heartbeat_due (last_heartbeat_at : option Z) (interval_seconds now : Z) : bool :=
  match last_heartbeat_at with
  | Some last => interval_seconds * second <=? now - last
  | None => true
  end.

Definition record_worker_heartbeat (heartbeat : WorkerHeartbeatContext) (status : string)
    (current_run_id : option Z) (last_error : option string) : Handler Worker.ConnectorWorker :=
  query (ConnectorWorkerRepository.upsert_heartbeat
    (Heartbeat.mkConnectorWorkerHeartbeat (hb_worker_id heartbeat) status
       (hb_scheduler_enabled heartbeat) (hb_retention_enabled heartbeat) current_run_id last_error
       (hb_started_at heartbeat))).

(** [if let Err(error) = .. { warn }] *)
Definition warn_on_error {A} (m : Handler A) : Handler unit := catch m (fun _ => ret tt).

(** ** Retention cleanup *)

Record ConnectorRetentionCleanup := mkConnectorRetentionCleanup {
  health_checks_deleted : Z;
  runs_deleted : Z;
  audit_logs_deleted : Z;
  oidc_transactions_deleted : Z;
  expired_sessions_deleted : Z;
  login_throttle_buckets_deleted : Z
}.

Inductive ConnectorRetentionCleanupAttempt :=
  | CleanupCompleted (cleanup : ConnectorRetentionCleanup)
  | CleanupSkippedLockBusy
  | CleanupSkippedRecentlyCompleted.

(** [now - chrono::Duration::days(days)] *)
Definition days_before (now days : Z) : option Z :=
  match duration_days days with Some d => datetime_add now (- d) | None => None end.

(** [match days { Some(days) => delete(cutoff), None => 0 }] *)
Definition delete_by_age (now : Z) (days : option Z) (delete : Z -> Query Z) : Handler Z :=
  match days with
  | Some days => cutoff <- or_panic (days_before now days) ;; query (delete cutoff)
  | None => ret 0
  end.

Definition is_recent (interval now : Z) (latest : option Maintenance.MaintenanceRun) : bool :=
  match latest with
  | Some m => num_seconds (now - Maintenance.finished_at m) <? Z.min interval i64_max
  | None => false
  end.

(** The deletions of a pass and the record of the pass. *)
Definition cleanup_pass (policy : ConnectorRetentionPolicy) (worker_id : string)
    (started_at now : Z) : Handler ConnectorRetentionCleanupAttempt :=
  health <- delete_by_age now (health_retention_days policy)
              ServiceHealthCheckRepository.delete_older_than ;;
  runs <- delete_by_age now (run_retention_days policy)
            ConnectorRunRepository.delete_finished_older_than ;;
  audit <- delete_by_age now (audit_log_retention_days policy)
             AuditLogRepository.delete_older_than ;;
  oidc <- query (OidcLoginTransactionRepository.delete_expired now) ;;
  sessions <- query (Sessions.delete_expired now) ;;
  cutoff <- or_panic (days_before now 30) ;;
  buckets <- query (prune_before cutoff) ;;
  finished_at <- utc_now ;;
  let duration_ms := Z.max (num_milliseconds (finished_at - started_at)) 0 in
  query (MaintenanceRunRepository.create
    (NewMaintenance.mkNewMaintenanceRun "retention_cleanup" "success" (Some worker_id) started_at
       finished_at duration_ms (count_as_i32 (Z.to_nat health)) (count_as_i32 (Z.to_nat runs))
       (count_as_i32 (Z.to_nat audit)) None)) ;;;
  ret (CleanupCompleted (mkConnectorRetentionCleanup health runs audit oidc sessions buckets)).

(** [acquired] is what [pg_try_advisory_xact_lock] answers. *)
Definition cleanup_connector_retention (acquired : bool) (policy : ConnectorRetentionPolicy)
    (worker_id : string) (started_at : Z) : Handler ConnectorRetentionCleanupAttempt :=
  api_transaction (
    lock <- query (exec (sql_query (fun _ => acquired))) ;;
    if negb lock then ret CleanupSkippedLockBusy
    else
      now <- utc_now ;;
      latest_success <- query (MaintenanceRunRepository.find_latest_success "retention_cleanup") ;;
      if is_recent (cleanup_interval policy) now latest_success
      then ret CleanupSkippedRecentlyCompleted
      else cleanup_pass policy worker_id started_at now).

(** The [Debug] text of an error, which Rust derives. *)
Class ErrorDebug := { api_error_debug : ApiError -> string }.

(** ** The scheduler *)

Section Worker.
Context {SJ : SerdeJson} {ED : ErrorDebug}.
Variable env : Environ.

Definition record_retention_cleanup_failure (worker_id : string) (started_at : Z)
    (error : ApiError) : Handler Maintenance.MaintenanceRun :=
  finished_at <- utc_now ;;
  let duration_ms := Z.max (num_milliseconds (finished_at - started_at)) 0 in
  query (MaintenanceRunRepository.create
    (NewMaintenance.mkNewMaintenanceRun "retention_cleanup" "failed" (Some worker_id) started_at
       finished_at duration_ms 0 0 0 (Some (api_error_debug error)))).

Definition max_attempts_var : option string := env_ok env "CONNECTOR_RUN_MAX_ATTEMPTS".

(** The body of the loop over the due configurations. *)
Definition schedule_config (now : Z) (enqueued : Z) (config : Config.ConnectorConfig) : Handler Z :=
  match Config.schedule_cron config with
  | None => ret enqueued
  | Some schedule_cron =>
      match effective_schedule_interval_seconds schedule_cron with
      | None => ret enqueued
      | Some interval_seconds =>
          let mark run_id :=
            query (ConnectorConfigRepository.mark_scheduled (Config.source config) now
                     interval_seconds run_id) in
          catch (ConnectorRepository.find_by_source (Config.source config)) (fun r =>
            match r with
            | inr connector =>
                if (Connectors.status connector =s "paused") || negb (Config.enabled config)
                then mark None ;;; ret enqueued
                else
                  pending <- query (ConnectorRunRepository.has_pending (Config.source config)
                                      (Config.target config)) ;;
                  if pending : bool then ret enqueued
                  else
                    run <- create_queued_run max_attempts_var (Config.source config)
                             (Config.target config) "scheduled" None ;;
                    mark (Some (Run.id run)) ;;;
                    ret (enqueued + 1)
            | inl DNotFound => mark None ;;; ret enqueued
            | inl error => fail (from_diesel error)
            end)
      end
  end.

Definition enqueue_due_scheduled_runs_locked : Handler Z :=
  now <- utc_now ;;
  configs <- query (ConnectorConfigRepository.find_due_for_schedule now 10) ;;
  for_each configs 0 (schedule_config now).

Definition enqueue_due_scheduled_runs : Handler Z :=
  api_transaction enqueue_due_scheduled_runs_locked.

(** ** Executing a queued run *)

Context {DD : DieselDisplay} {RI : RawItems} {PL : Payloads} {AD : Adapters}.

(** The lease is renewed meanwhile by the task of [RunLeaseRenewal] on its own
    connection; whether it lost the lease only changes what is logged. *)
Definition process_one_queued_run (heartbeat : WorkerHeartbeatContext)
    (policy : ConnectorRunLeasePolicy) : Handler bool :=
  claimed <- query (ConnectorRunRepository.claim_next_queued (hb_worker_id heartbeat)
                      (lease_seconds policy)) ;;
  match claimed with
  | None => ret false
  | Some run =>
      let run_id := Run.id run in
      warn_on_error (record_worker_heartbeat heartbeat "running" (Some run_id) None) ;;;
      catch (execute_leased_connector_run run (hb_worker_id heartbeat)) (fun execution =>
        match execution with
        | inl error =>
            warn_on_error (record_worker_heartbeat heartbeat "error" (Some run_id)
                             (Some (api_error_debug error))) ;;;
            fail error
        | inr _ =>
            record_system_audit_log "worker_run" "connector_run" (int_to_string run_id)
              (JObj [("worker_id", JStr (hb_worker_id heartbeat))]) ;;;
            warn_on_error (record_worker_heartbeat heartbeat "idle" None None) ;;;
            ret true
        end)
  end.

(** ** Renewing the lease *)

(** The state of the task [RunLeaseRenewal::spawn] starts: when the lease was
    last renewed, whether it is lost, and whether the task still runs. *)
Record RunLeaseRenewal := mkRunLeaseRenewal {
  last_successful_renewal : Z;
  lease_lost : bool;
  renewing : bool
}.

Definition spawn_renewal (now : Z) : RunLeaseRenewal := mkRunLeaseRenewal now false true.

(** A tick that could not renew: the lease is given up once no renewal has
    succeeded for its whole length. *)
Definition renewal_failed (policy : ConnectorRunLeasePolicy) (now : Z) (s : RunLeaseRenewal)
    : RunLeaseRenewal :=
  if i64_as_u64 (lease_seconds policy) * second <=? now - last_successful_renewal s
  then mkRunLeaseRenewal (last_successful_renewal s) true false
  else s.

(** One tick of the task: [connected] tells whether a connection could be
    established; the instants are those of the answer. *)
Definition renewal_tick (policy : ConnectorRunLeasePolicy) (run_id : Z) (worker_id : string)
    (connected : bool) (now : Z) (s : RunLeaseRenewal) : Query RunLeaseRenewal :=
  if negb (renewing s) then ret s
  else if negb connected then ret (renewal_failed policy now s)
  else
    catch (ConnectorRunRepository.renew_lease run_id worker_id (lease_seconds policy)) (fun r =>
      match r with
      | inr true => ret (mkRunLeaseRenewal now false true)
      | inr false => ret (mkRunLeaseRenewal (last_successful_renewal s) true false)
      | inl _ => ret (renewal_failed policy now s)
      end).

(** [RunLeaseRenewal::stop]: a task that panicked counts as a lost lease. *)
Definition stop_renewal (task_panicked : bool) (s : RunLeaseRenewal) : bool :=
  task_panicked || lease_lost s.

(** ** One cycle of the loop *)

Record ConnectorWorkerLoopConfig := mkConnectorWorkerLoopConfig {
  poll_ms : Z;
  heartbeat_interval_seconds : Z;
  scheduler_enabled : bool;
  retention_policy : ConnectorRetentionPolicy;
  lease_policy : ConnectorRunLeasePolicy;
  worker_id : string;
  worker_started_at : Z
}.

(** The variables the loop keeps, and the monotonic clock with the increments of
    its next readings. *)
Record WorkerLoopState := mkWorkerLoopState {
  retention_schedule : RetentionAttemptSchedule;
  last_heartbeat_at : option Z;
  instant : Z;
  advances : list Z
}.

#[export] Instance eta_WorkerLoopState : Eta WorkerLoopState := fun s =>
  mkWorkerLoopState (retention_schedule s) (last_heartbeat_at s) (instant s) (advances s).

(** [Instant::now()] *)
Definition instant_now (s : WorkerLoopState) : Z * WorkerLoopState :=
  let t := instant s + hd 0 (advances s) in
  (t, s <| instant := t |> <| advances := tl (advances s) |>).

Variable config : ConnectorWorkerLoopConfig.

Definition heartbeat_context : WorkerHeartbeatContext :=
  mkWorkerHeartbeatContext (worker_id config) (worker_started_at config)
    (scheduler_enabled config) (retention_enabled (retention_policy config)).

(** A heartbeat whose success is noted in [last_heartbeat_at]. *)
Definition beat (status : string) (last_error : option string) (s : WorkerLoopState)
    : Handler WorkerLoopState :=
  catch (record_worker_heartbeat heartbeat_context status None last_error) (fun r =>
    match r with
    | inr _ => let '(t, s) := instant_now s in ret (s <| last_heartbeat_at := Some t |>)
    | inl _ => ret s
    end).

Definition outcome_of (r : ApiError + ConnectorRetentionCleanupAttempt) : RetentionAttemptOutcome :=
  match r with
  | inr (CleanupCompleted _) => AttemptCompleted
  | inr CleanupSkippedLockBusy => AttemptSkippedLockBusy
  | inr CleanupSkippedRecentlyCompleted => AttemptSkippedRecentlyCompleted
  | inl _ => AttemptFailed
  end.

Definition recovery_phase (cycle : WorkerCycleState) : Handler WorkerCycleState :=
  catch (ConnectorRunRepository.recover_expired_leases (retry_base_seconds (lease_policy config))
           (retry_max_seconds (lease_policy config)) 100) (fun r =>
    match r with
    | inr _ => ret cycle
    | inl _ => ret (record_failure cycle LeaseRecovery)
    end).

Definition retention_phase (acquired : bool) (s : WorkerLoopState) (cycle : WorkerCycleState)
    : Handler (WorkerLoopState * WorkerCycleState) :=
  if negb (can_continue_connector_work cycle) then ret (s, cycle)
  else
    let '(t, s) := instant_now s in
    if negb (is_due (retention_schedule s) t) then ret (s, cycle)
    else
      cleanup_started_at <- utc_now ;;
      warn_on_error (record_worker_heartbeat heartbeat_context "retention_cleanup" None None) ;;;
      catch (cleanup_connector_retention acquired (retention_policy config) (worker_id config)
               cleanup_started_at) (fun r =>
        let '(t, s) := instant_now s in
        schedule <- or_panic (record_outcome (retention_schedule s) (outcome_of r)
                                (retention_policy config) t) ;;
        let s := s <| retention_schedule := schedule |> in
        match r with
        | inr _ => s <- beat "idle" None s ;; ret (s, cycle)
        | inl error =>
            warn_on_error (record_retention_cleanup_failure (worker_id config) cleanup_started_at
                             error) ;;;
            s <- beat "error" (Some (api_error_debug error)) s ;;
            ret (s, record_failure cycle RetentionCleanup)
        end).

Definition scheduler_phase (cycle : WorkerCycleState) : Handler WorkerCycleState :=
  if can_continue_connector_work cycle && scheduler_enabled config then
    catch enqueue_due_scheduled_runs (fun r =>
      match r with
      | inr _ => ret cycle
      | inl _ => ret (record_failure cycle Scheduler)
      end)
  else ret cycle.

(** [for _ in 0..n] *)
Fixpoint queue_phase (n : nat) (s : WorkerLoopState) (cycle : WorkerCycleState)
    : Handler (WorkerLoopState * WorkerCycleState) :=
  match n with
  | O => ret (s, cycle)
  | S n =>
      catch (process_one_queued_run heartbeat_context (lease_policy config)) (fun r =>
        match r with
        | inr true =>
            let '(t, s) := instant_now s in
            queue_phase n (s <| last_heartbeat_at := Some t |>) cycle
        | inr false => ret (s, cycle)
        | inl _ => ret (s, record_failure cycle ConnectorQueue)
        end)
  end.

(** One pass of the inner loop: the state, and whether the connection is kept. *)
Definition worker_cycle (acquired : bool) (s : WorkerLoopState) : Handler (WorkerLoopState * bool) :=
  cycle <- recovery_phase (mkWorkerCycleState false) ;;
  p <- retention_phase acquired s cycle ;;
  let '(s, cycle) := p in
  cycle <- scheduler_phase cycle ;;
  p <- (if can_continue_connector_work cycle then queue_phase 5 s cycle else ret (s, cycle)) ;;
  let '(s, cycle) := p in
  if negb (can_continue_connector_work cycle) then ret (s, false)
  else
    let '(t, s) := instant_now s in
    if heartbeat_due (last_heartbeat_at s) (heartbeat_interval_seconds config) t then
      catch (record_worker_heartbeat heartbeat_context "idle" None None) (fun r =>
        match r with
        | inr _ => let '(t, s) := instant_now s in ret (s <| last_heartbeat_at := Some t |>, true)
        | inl _ => ret (s, false)
        end)
    else ret (s, true).

(** A connection: the first heartbeat, then cycles until one gives it up;
    [locks] lists the answers of the advisory lock, one per cycle that runs. *)
Fixpoint worker_cycles (locks : list bool) (s : WorkerLoopState) : Handler WorkerLoopState :=
  match locks with
  | [] => ret s
  | acquired :: locks =>
      p <- worker_cycle acquired s ;;
      let '(s, kept) := p in
      if kept : bool then worker_cycles locks s else ret s
  end.

Definition worker_connection (locks : list bool) (s : WorkerLoopState) : Handler WorkerLoopState :=
  s <- catch (record_worker_heartbeat heartbeat_context "idle" None None) (fun r =>
         match r with
         | inr _ => let '(t, s) := instant_now s in ret (s <| last_heartbeat_at := Some t |>)
         | inl _ => ret (s <| last_heartbeat_at := None |>)
         end) ;;
  worker_cycles locks s.

End Worker.

(** ** Startup *)

(** [run_connector_worker_forever] up to its loop: nothing when the worker is
    disabled, otherwise the database URL and the configuration of the loop. *)
Definition run_connector_worker_forever {UP : UrlParser} {UU : UuidParser} (env : Environ)
    (uuid : string) (started_at : Z) : Result string (option (string * ConnectorWorkerLoopConfig)) :=
  let? enabled := strict_env_flag env "CONNECTOR_WORKER_ENABLED" true in
  if negb enabled then inr None else
  let? _ := match from_env env with inr _ => inr tt | inl error => inl (ce_message error) end in
  let? database_url :=
    some_or (keep_if (fun v => negb (is_empty (trim v))) (env_ok env "DATABASE_URL"))
      "connector worker requires DATABASE_URL when enabled" in
  let? lease_policy := lease_policy_from_env env in
  inr (Some (database_url,
    mkConnectorWorkerLoopConfig (env_u64 env "CONNECTOR_WORKER_POLL_MS" 500)
      (env_u64 env "CONNECTOR_WORKER_HEARTBEAT_INTERVAL_SECONDS" 15)
      (env_flag env "CONNECTOR_SCHEDULER_ENABLED" true) (retention_policy_from_env env)
      lease_policy (concat_str ["connector-worker-"; uuid]) started_at)).

(** ** Guarded entry points of the integration tests *)

Definition is_safe_test_database_name (database_name : string) : bool :=
  existsb (fun segment => segment =s "test")
    (split_on (fun a => negb (is_ascii_alphanumeric a)) (to_ascii_lowercase database_name)).

Section Guarded.
Context {DD : DieselDisplay} {ED : ErrorDebug}.
Variable env : Environ.

(** The name [SELECT current_database()] answers. *)
Variable current_database : string.

Definition or_message {A} (prefix : string) (m : Query A) : M Db string A :=
  map_err (fun error => concat_str [prefix; diesel_to_string error]) m.

Definition ensure_safe_test_database (operation : string) : M Db string unit :=
  match env "APP_ENV" with
  | Present "test" =>
      database_name <- or_message "failed to read current_database(): "
                         (exec (sql_query (fun _ => current_database))) ;;
      if is_safe_test_database_name database_name then ret tt
      else fail (concat_str ["refusing "; operation; ": database '"; database_name;
                             "' must contain a standalone 'test' segment"])
  | _ => fail (concat_str ["refusing "; operation; ": APP_ENV must be exactly 'test'"])
  end.

Inductive GuardedRetentionCleanupResult :=
  | GuardedCompleted (counts : Z * Z * Z * Z * Z * Z)
  | GuardedSkippedLockBusy
  | GuardedSkippedRecentlyCompleted.

Definition run_guarded_retention_cleanup_for_test (acquired : bool)
    (health_retention_days run_retention_days audit_log_retention_days : option Z)
    (worker_id : string) : M Db string GuardedRetentionCleanupResult :=
  ensure_safe_test_database "retention test cleanup" ;;;
  let policy := mkConnectorRetentionPolicy health_retention_days run_retention_days
                  audit_log_retention_days 3600 in
  now <- utc_now ;;
  attempt <- map_err (fun error => concat_str ["retention test cleanup failed: ";
                                     api_error_debug error])
               (cleanup_connector_retention acquired policy worker_id now) ;;
  ret (match attempt with
       | CleanupCompleted c =>
           GuardedCompleted (health_checks_deleted c, runs_deleted c, audit_logs_deleted c,
             oidc_transactions_deleted c, expired_sessions_deleted c,
             login_throttle_buckets_deleted c)
       | CleanupSkippedLockBusy => GuardedSkippedLockBusy
       | CleanupSkippedRecentlyCompleted => GuardedSkippedRecentlyCompleted
       end).

Definition claim_connector_run_for_test (worker_id : string) (lease_seconds : Z)
    : M Db string (option Z) :=
  ensure_safe_test_database "connector lease claim test" ;;;
  run <- or_message "connector lease claim test failed: "
           (ConnectorRunRepository.claim_next_queued worker_id lease_seconds) ;;
  ret (Run.id <$> run).

Definition recover_connector_runs_for_test (retry_base_seconds retry_max_seconds : Z)
    : M Db string (nat * nat * nat) :=
  ensure_safe_test_database "connector lease recovery test" ;;;
  stats <- or_message "connector lease recovery test failed: "
             (ConnectorRunRepository.recover_expired_leases retry_base_seconds
                retry_max_seconds 100) ;;
  ret (requeued stats, failed stats, cancelled stats).

Definition request_connector_run_cancel_for_test (run_id : Z) : M Db string (option string) :=
  ensure_safe_test_database "connector cancellation test" ;;;
  run <- or_message "connector cancellation test failed: "
           (ConnectorRunRepository.request_cancel run_id) ;;
  ret (Run.status <$> run).

End Guarded.
