(* ===== verification/WorkerSafety.v ===== *)
(** Properties of the background worker of [ConnectorWorkers.v]: its cycles keep
    the run queue within the life cycle, the scheduler enqueues each due
    configuration once, and retention deletes what has expired and nothing
    else. *)
From S2P Require Import Prelude Logic Text Models Schema Api Validation Schedule Runs RunLifecycle RunSafety.
From S2P Require Import Access Sessions Records Connections Runtime AuditLogs SingleSignOn Config.
From S2P Require Import RuntimeSafety ConfigSafety ConnectorWorkers.
From stdpp Require Import relations.
From Stdlib Require Import Ascii.

Open Scope Z_scope.
Open Scope portal_scope.

(** ** The transactions of the worker drive the life cycle *)

Lemma max_attempts_positive v : 0 < configured_connector_run_max_attempts v.
Proof.
  unfold configured_connector_run_max_attempts. destruct v as [v|]; [|lia].
  destruct (parse_i32 v) as [z|]; [|lia]. destruct (Z.ltb_spec 0 z); lia.
Qed.

Definition has_run (i : Z) (d : Db) : Prop := i ∈ run_ids (connector_runs d).

#[export] Instance has_run_decision i d : Decision (has_run i d).
Proof. unfold has_run. apply _. Defined.

Lemma finalize_has_run id w u i : preserves (has_run i) (ConnectorRunRepository.finalize_if_active id w u).
Proof.
  unfold ConnectorRunRepository.finalize_if_active. preserve.
  all: apply preserves_exec; intros ? ? d ? ? ? Hd (_ & -> & _)%sql_update_inv;
    unfold has_run, run_ids; rewrite runs_updated; by rewrite (map_key_update Run.id).
Qed.

Lemma create_has_run n i : preserves (has_run i) (ConnectorRunRepository.create_if_no_pending n).
Proof.
  unfold ConnectorRunRepository.create_if_no_pending, ConnectorRunRepository.lock_connector, query_transaction. preserve.
  apply preserves_exec. intros ? ? d ? ? ? Hd (_ & _ & -> & _)%sql_insert_inv.
  unfold has_run in *. rewrite runs_updated. unfold run_ids. rewrite map_app. apply elem_of_app. by left.
Qed.

(** What holds of the content as long as runs move along the life cycle and none is deleted. *)
Section Growth.
Context {SJ : SerdeJson} {DD : DieselDisplay} {RI : RawItems} {PL : Payloads} {AD : Adapters}.
Variable I : Db -> Prop.
Hypothesis grows : forall d d', refines d d' -> (forall i, has_run i d -> has_run i d') -> I d -> I d'.

(** A program that keeps the run table. *)
Lemma keeps_other {E A} (m : M Db E A) :
  (forall l, preserves (fun d => connector_runs d = l) m) -> preserves I m.
Proof.
  intros H c Hc. pose proof (H (connector_runs (db c)) c eq_refl) as E0. simpl in E0.
  eapply grows; [| |exact Hc]; [intros _; right; by rewrite E0|]. unfold has_run. by rewrite E0.
Qed.

Lemma keeps_op {A} (m : Query A) :
  evolves refines m -> refuses m -> (forall i, preserves (has_run i) m) -> preserves I m.
Proof.
  intros He Hr Hi c Hc. destruct (aborted c) eqn:Ha.
  - destruct (Hr c Ha) as (k & c' & -> & Hd). simpl. by rewrite Hd.
  - eapply grows; [by apply He|intros i; apply Hi|done].
Qed.

Lemma finalize_keeps id w u :
  final_update u -> preserves I (ConnectorRunRepository.finalize_if_active id w u).
Proof.
  intros Hu. apply keeps_op; [by apply finalize_refines| |intros; apply finalize_has_run].
  apply refuses_now. intros t. destruct w; apply refuses_optional, refuses_bind, refuses_exec.
Qed.

Lemma create_queued_keeps v source target trigger payload :
  preserves I (create_queued_run v source target trigger payload).
Proof.
  unfold create_queued_run, create_queued_run_with_parent, active_run_exists, query.
  apply preserves_bind; [preserve|intros now]. cbv zeta.
  apply preserves_bind; [|preserve]. apply preserves_map_err, keeps_op.
  - apply create_if_no_pending_refines. split_and!; try done. left. split_and!; try done. apply max_attempts_positive.
  - apply refuses_transaction.
  - intros i. apply create_has_run.
Qed.

Lemma finish_keeps source target run x w :
  preserves I (finish_connector_run_for_owner source target run x w).
Proof.
  unfold finish_connector_run_for_owner. cbv zeta.
  apply preserves_bind; [apply preserves_now|]. intros t.
  apply preserves_bind.
  { apply preserves_map_err, finalize_keeps. split; [|done].
    unfold run_status. simpl. repeat case_match; set_solver. }
  intros o. apply preserves_bind; [apply preserves_ok_or|]. intros r.
  apply preserves_bind; [apply keeps_other; intros l; apply errors_keep_runs|]. intros es.
  apply preserves_bind; [apply keeps_other; intros l; apply items_keep_runs|]. intros its.
  apply preserves_bind; [apply keeps_other; intros l; apply touch_keeps_runs|].
  intros k. apply preserves_ret.
Qed.

#[local] Hint Resolve finish_keeps create_queued_keeps : portal.
#[local] Opaque finish_connector_run_for_owner execute_payload_for_target create_queued_run
  ConnectorConfigRepository.mark_scheduled.

Lemma run_transaction_keeps run w prepared : preserves I (run_transaction run w prepared).
Proof.
  unfold run_transaction, assert_active, ConnectorRunRepository.execution_is_active. preserve.
  apply keeps_other. intros l. apply payload_keeps_runs.
Qed.

Lemma mark_scheduled_keeps source t interval run :
  preserves I (ConnectorConfigRepository.mark_scheduled source t interval run).
Proof.
  apply keeps_other. intros l. Transparent ConnectorConfigRepository.mark_scheduled.
  unfold ConnectorConfigRepository.mark_scheduled. preserve_writes.
Qed.

#[local] Hint Resolve mark_scheduled_keeps : portal.
#[local] Opaque ConnectorConfigRepository.mark_scheduled.

Lemma scheduler_keeps env : preserves I (enqueue_due_scheduled_runs env).
Proof.
  unfold enqueue_due_scheduled_runs, enqueue_due_scheduled_runs_locked, schedule_config. preserve.
Qed.
End Growth.

(** A retention pass deletes runs and creates none. *)
Section Shrinking.
Variable I : Db -> Prop.
Hypothesis shrinks : forall d d', refines d d' -> (forall i, has_run i d' -> has_run i d) -> I d -> I d'.

Lemma shrinks_other {E A} (m : M Db E A) :
  (forall l, preserves (fun d => connector_runs d = l) m) -> preserves I m.
Proof.
  intros H c Hc. pose proof (H (connector_runs (db c)) c eq_refl) as E0. simpl in E0.
  eapply shrinks; [| |exact Hc]; [intros _; right; by rewrite E0|]. unfold has_run. by rewrite E0.
Qed.

Lemma delete_finished_creates_none t i :
  preserves (fun d => ~ has_run i d) (ConnectorRunRepository.delete_finished_older_than t).
Proof.
  apply preserves_affected, preserves_exec. intros ? ? d ? ? ? Hd [_ [= <-]]%sql_delete_inv.
  unfold has_run in *. cbn. unfold run_ids. rewrite map_map. intros (r & E & [Hr _]%elem_of_filter_b)%list_elem_of_fmap.
  apply Hd, list_elem_of_fmap. exists r. by split.
Qed.

Lemma delete_finished_shrinks t : preserves I (ConnectorRunRepository.delete_finished_older_than t).
Proof.
  intros c Hc. destruct (aborted c) eqn:Ha.
  - assert (refuses (ConnectorRunRepository.delete_finished_older_than t)) as Hr by apply refuses_bind, refuses_exec.
    destruct (Hr c Ha) as (k & c' & -> & Hd). simpl. by rewrite Hd.
  - eapply shrinks; [by apply delete_finished_refines| |done]. intros i Hi.
    destruct (decide (has_run i (db c))) as [|Hn]; [done|]. by apply (delete_finished_creates_none t i c) in Hn.
Qed.

#[local] Hint Resolve delete_finished_shrinks : portal.
#[local] Opaque ConnectorRunRepository.delete_finished_older_than.

Lemma cleanup_follows acquired policy w t : preserves I (cleanup_connector_retention acquired policy w t).
Proof.
  unfold cleanup_connector_retention, cleanup_pass, delete_by_age. preserve.
  all: apply shrinks_other; intros l;
    first [ apply preserves_insert; done
          | apply preserves_delete; [done|]; by intros ? d d' <- [= <-] ].
Qed.
End Shrinking.

(** [lives d d']: the run table moved along the life cycle. *)
Definition lives (d d' : Db) : Prop :=
  NoDup (run_ids (connector_runs d)) -> rtc table_step (connector_runs d) (connector_runs d').

Lemma lives_refl d : lives d d.
Proof. intros _. apply rtc_refl. Qed.

Lemma lives_refines d d' : refines d d' -> lives d d'.
Proof. intros H Hn. by apply refines_steps. Qed.

Lemma lives_follows d0 d d' : refines d d' -> lives d0 d -> lives d0 d'.
Proof.
  intros H Hl Hn. etrans; [by apply Hl|]. apply refines_steps; [done|]. by eapply table_steps_keyed; [apply Hl|].
Qed.

(** ** The two guards of test databases agree *)

Lemma alphanumeric_lower a : is_ascii_alphanumeric (ascii_lower a) = is_ascii_alphanumeric a.
Proof. destruct a as [[][][][][][][][]]; reflexivity. Qed.

Lemma split_lower s :
  split_on (fun a => negb (is_ascii_alphanumeric a)) (to_ascii_lowercase s) =
  map to_ascii_lowercase (split_on (fun a => negb (is_ascii_alphanumeric a)) s).
Proof.
  induction s as [|a s IH]; simpl; [done|]. rewrite alphanumeric_lower, IH.
  destruct (negb (is_ascii_alphanumeric a)); [done|]. by destruct (split_on _ s).
Qed.

(** the guard the worker's test entry points apply to the connected database
    and the guard the configuration applies to the configured one accept the
    same names: one lower-cases the name before it splits it, the other compares
    the segments without case. *)
Theorem test_database_guards_agree name :
  is_safe_test_database_name name = has_standalone_test_segment name.
Proof.
  unfold is_safe_test_database_name, has_standalone_test_segment. rewrite split_lower.
  induction (split_on _ name) as [|seg l IH]; [done|]. cbn [map existsb]. by rewrite IH.
Qed.

(** ** Leases *)

(** A lease policy that fits the signed columns. *)
Lemma strict_u64_ok env name d z :
  strict_positive_env_u64 env name d = inr z -> 0 < d <= u64_max -> 0 < z <= u64_max.
Proof.
  unfold strict_positive_env_u64. destruct (env name) as [v| |]; [|by intros [= ->]|done].
  intros [H%parse_u64_bounds Hz]%some_or_ok%keep_if_some _. lia.
Qed.

(** an accepted lease policy renews in time: each renewal is due strictly
    before the lease it extends can run out, and the retry delays are ordered,
    as long as the configured seconds fit a signed 64-bit integer. *)
Theorem accepted_lease_policy env p :
  lease_policy_from_env env = inr p ->
  (0 < lease_seconds p -> 0 < renew_interval p < lease_seconds p) /\
  (0 < retry_base_seconds p -> 0 < retry_max_seconds p -> retry_base_seconds p <= retry_max_seconds p).
Proof.
  intros H. unfold lease_policy_from_env in H. accepted H. injection H as <-. simpl.
  apply strict_u64_ok in E as Hl, E0 as Hr, E1 as Hb, E2 as Hm; try (unfold u64_max; lia).
  unfold u64_as_i64, i64_max, u64_max in *.
  split; [destruct (Z.leb_spec x 9223372036854775807); lia|].
  destruct (Z.leb_spec x1 9223372036854775807), (Z.leb_spec x2 9223372036854775807); lia.
Qed.

Lemma accepted_lease_policy_witness :
  exists p, lease_policy_from_env (assignments []) = inr p /\
    0 < renew_interval p < lease_seconds p.
Proof.
  destruct (lease_policy_from_env (assignments [])) as [e|p] eqn:E; [vm_compute in E; discriminate E|].
  exists p. split; [reflexivity|]. apply (accepted_lease_policy (assignments []) p E).
  vm_compute in E. injection E as <-. reflexivity.
Defined.

(** beyond that the conversion to [i64] wraps: a lease of 2^64 - 1 seconds is
    accepted at startup and becomes a lease of -1 seconds, with which a run counts
    as abandoned from the moment it is claimed and is requeued by the next
    recovery while its worker still executes it. *)
Theorem accepted_lease_wraps :
  exists env p run c',
    lease_policy_from_env env = inr p /\ lease_seconds p = -1 /\
    ConnectorRunRepository.claim_next_queued "w2" (lease_seconds p) (calm sample_db 200 [] 3) =
      (Ok (Some run), c') /\
    ConnectorRunRepository.expired 200 run = true /\
    match ConnectorRunRepository.recover_expired_leases 5 300 100 c' with
    | (Ok stats, c2) => requeued stats = 1%nat /\
        map Run.status (List.filter (fun r => Run.id r =? Run.id run) (connector_runs (db c2))) =
          ["queued"]
    | _ => False
    end.
Proof.
  exists (assignments [("CONNECTOR_RUN_LEASE_SECONDS", "18446744073709551615")]).
  eexists _, _, _. split; [vm_compute; reflexivity|]. split; [reflexivity|].
  split; [vm_compute; reflexivity|]. split; [vm_compute; reflexivity|].
  vm_compute. split; reflexivity.
Qed.

(** ** Witness of a working worker *)

Definition plain_payloads : Payloads := {|
  Value := unit;
  decode_events := fun _ => inl "none";
  decode_cards := fun _ => inr (WorkCardImport.mkWorkCardImportRequest [] None);
  decode_notifications := fun _ => inl "none";
  decode_services := fun _ => inl "none"
|}.

Definition plain_adapters : @Adapters plain_payloads := {|
  parse_json_payload := fun _ => (tt : @Value plain_payloads);
  decrypt_connector_config := fun s => inr s;
  encrypt_connector_config := fun s => inr s;
  fetch_connector_payload := fun _ _ => Ok (mkAdapterResult None None);
  normalize_legacy_connector_payload_timestamps := fun _ v => v
|}.

Definition working_db : Db :=
  empty_db <| connectors := [sample_connector "azure"] |>
    <| connector_configs := [Config.mkConnectorConfig 1 "azure" "work_cards" true (Some "@hourly") "{}"
         "{}" 0 0 None (Some 5) None] |>.

