(* ===== verification/SchedulerSafety.v ===== *)
(** Properties of the scheduler of [ConnectorWorkers.v]: what one pass over the
    due configurations does to the queue and to the configurations. *)
From S2P Require Import Prelude Logic Text Models Schema Api Validation Schedule Runs RunLifecycle RunSafety.
From S2P Require Import Connections Runtime AuditLogs Config ConnectorWorkers.
Import ConnectorRunRepository.

Open Scope Z_scope.
Open Scope portal_scope.

(** The interval of a configuration, if its schedule is valid. *)
Definition interval_of (k : Config.ConnectorConfig) : option Z :=
  Config.schedule_cron k ≫= effective_schedule_interval_seconds.

(** The configurations a pass at [now] looks at. *)
Definition due_batch (now : Z) (d : Db) : list Config.ConnectorConfig :=
  limit 10 (order_by (lex_leb [asc_null Config.next_run_at])
    (List.filter (ConnectorConfigRepository.due now) (connector_configs d))).

Definition slot_taken_by (k : Config.ConnectorConfig) (d : Db) : Prop :=
  exists r, r ∈ connector_runs d /\ pending (Config.source k) (Config.target k) r = true.

(** A run as the scheduler enqueues it for [k]. *)
Definition scheduled_run (k : Config.ConnectorConfig) (r : Run.ConnectorRun) : Prop :=
  Run.source r = Config.source k /\ Run.target r = Config.target k /\
  Run.status r = "queued" /\ Run.trigger r = "scheduled" /\ Run.attempt_count r = 0 /\
  Run.payload r = None.

Definition marked (now next : Z) (run : option Z) (k k' : Config.ConnectorConfig) : Prop :=
  exists t, k' = k <| Config.last_scheduled_at := Some now |>
    <| Config.next_run_at := Some next |> <| Config.last_scheduled_run_id := run |>
    <| Config.updated_at := t |>.

Definition marks (now next : Z) (run : option Z) (source : string) (d d' : Db) : Prop :=
  exists f, d' = d <| connector_configs :=
      map (fun x => if ConnectorConfigRepository.from_source source x then f x else x) (connector_configs d) |> /\
    forall x, marked now next run x (f x).

(** Why a configuration gets no run: its connector is paused or is gone. *)
Definition not_running (k : Config.ConnectorConfig) (d : Db) : Prop :=
  (forall x, x ∈ connectors d -> Connectors.source x <> Config.source k) \/
  exists x, x ∈ connectors d /\ Connectors.source x = Config.source k /\
    Connectors.status x = "paused".

(** What the pass does for one configuration. *)
Inductive settles (now : Z) (k : Config.ConnectorConfig) (n : Z) (d : Db) : Z -> Db -> Prop :=
  | settles_blocked :
      interval_of k = None \/ slot_taken_by k d -> settles now k n d n d
  | settles_deferred interval next d' :
      interval_of k = Some interval -> after_seconds now interval = Some next -> not_running k d ->
      marks now next None (Config.source k) d d' -> settles now k n d n d'
  | settles_enqueued interval next r d' :
      interval_of k = Some interval -> after_seconds now interval = Some next ->
      ~ slot_taken_by k d -> scheduled_run k r ->
      marks now next (Some (Run.id r)) (Config.source k) (d <| connector_runs := connector_runs d ++ [r] |>) d' ->
      settles now k n d (n + 1) d'.

Lemma mark_effect source now interval run d0 :
  hoare (fun d => d = d0)
    (query (ConnectorConfigRepository.mark_scheduled source now interval run))
    (fun _ d => exists next, after_seconds now interval = Some next /\ marks now next run source d0 d)
    (fun _ _ _ => True).
Proof.
  apply hoare_map_err, hoare_or_panic; [|done]. intros next Hn.
  apply hoare_first_row, hoare_update; [|done]. intros t d' -> _.
  assert (marks now next run source d0 (set_rows (map (fun x =>
    if ConnectorConfigRepository.from_source source x
    then x <| Config.last_scheduled_at := Some now |> <| Config.next_run_at := Some next |>
           <| Config.last_scheduled_run_id := run |> <| Config.updated_at := t |>
    else x) (connector_configs d0)) d0)) as Hm.
  { eexists. split; [reflexivity|]. intros x. by exists t. }
  case_match; [done|]. eauto.
Qed.

Lemma queued_effect v source target d0 :
  hoare (fun d => d = d0) (create_queued_run v source target "scheduled" None)
    (fun r d => d = d0 <| connector_runs := connector_runs d0 ++ [r] |> /\
       Run.source r = source /\ Run.target r = target /\ Run.status r = "queued" /\
       Run.trigger r = "scheduled" /\ Run.attempt_count r = 0 /\ Run.payload r = None)
    (fun _ _ _ => True).
Proof.
  unfold create_queued_run, create_queued_run_with_parent. apply hoare_now. intros t. cbv zeta.
  eapply hoare_bind with (R := fun o d => match o with
    | Some r => d = d0 <| connector_runs := connector_runs d0 ++ [r] |> /\
       Run.source r = source /\ Run.target r = target /\ Run.status r = "queued" /\
       Run.trigger r = "scheduled" /\ Run.attempt_count r = 0 /\ Run.payload r = None
    | None => True end).
  - apply hoare_map_err, hoare_transaction; [|done].
    eapply hoare_bind; [by apply (lock_connector_same _ d0)|]. intros ?.
    eapply (hoare_bind _ _ _ (fun _ d => d = d0)).
    { by apply (hoare_count _ d0). }
    intros n. case_match; [by apply hoare_ret|].
    apply hoare_pure_after, hoare_insert; [|done]. by intros now i d' ->.
  - intros [r|]; [by apply hoare_ret|by apply hoare_fail].
Qed.

Lemma settle_effect env now k n d0 :
  Config.enabled k = true ->
  hoare (fun d => d = d0) (schedule_config env now n k) (fun n' d => settles now k n d0 n' d)
    (fun _ _ _ => True).
Proof.
  intros Hen. unfold schedule_config.
  destruct (Config.schedule_cron k) as [cron|] eqn:Ec; cycle 1.
  { apply hoare_ret. intros d ->. apply settles_blocked. left. unfold interval_of. by rewrite Ec. }
  destruct (effective_schedule_interval_seconds cron) as [interval|] eqn:Ei; cycle 1.
  { apply hoare_ret. intros d ->. apply settles_blocked. left. unfold interval_of. by rewrite Ec. }
  assert (interval_of k = Some interval) as Hi by (unfold interval_of; by rewrite Ec).
  assert (not_running k d0 -> hoare (fun d => d = d0)
    (query (ConnectorConfigRepository.mark_scheduled (Config.source k) now interval None) ;;; ret n)
    (fun n' d => settles now k n d0 n' d) (fun _ _ _ => True)) as Hmark.
  { intros Hwhy. eapply hoare_bind; [apply mark_effect|]. intros ?. apply hoare_ret.
    intros d (next & Hn & Hm). by eapply settles_deferred. }
  eapply hoare_catch with
    (R := fun x d => d = d0 /\ x ∈ connectors d0 /\ Connectors.source x = Config.source k)
    (X' := fun e ab d => d = d0 /\ (e = Some DNotFound -> ab = false /\
             forall x, x ∈ connectors d0 -> Connectors.source x <> Config.source k));
    [| | | |done].
  - apply hoare_first_row, hoare_select.
    + destruct (List.filter _ _) as [|x l] eqn:Ef.
      * split; [done|]. intros _. split; [done|]. intros x Hx.
        apply str_eqb_neq. by eapply filter_nil_inv_b in Ef.
      * assert (x ∈ List.filter (ConnectorRepository.from_source (Config.source k)) (connectors d0))
          as Hx by (setoid_rewrite Ef; left).
        apply elem_of_filter_b in Hx as [? ?%str_eqb_eq]. done.
    + intros e ab. split; [done|]. by intros [=].
  - intros connector. apply hoare_at. intros d (-> & Hin & Hsrc).
    rewrite Hen, orb_false_r. destruct (str_eqb_spec (Connectors.status connector) "paused").
    { apply Hmark. right. eauto. }
    eapply (hoare_bind _ _ _ (fun b d => d = d0 /\ b = (0 <? Z.of_nat (length (List.filter
      (pending (Config.source k) (Config.target k)) (connector_runs d0)))))).
    { apply hoare_map_err, hoare_pure_after, hoare_count; done. }
    intros b. apply hoare_at. intros d [-> ->].
    destruct (0 <? _) eqn:Ep.
    + apply hoare_ret. intros d ->. apply settles_blocked. right.
      destruct (List.filter _ _) as [|r l] eqn:Ef; [done|]. exists r.
      assert (r ∈ List.filter (pending (Config.source k) (Config.target k)) (connector_runs d0)) as Hr
        by (rewrite Ef; left).
      by apply elem_of_filter_b in Hr.
    + eapply hoare_bind; [apply queued_effect|]. intros r. apply hoare_at.
      intros d (Hd & Hs & Ht & Hst & Htr & Ha & Hp).
      eapply hoare_bind; [apply mark_effect|]. intros ?. apply hoare_ret.
      intros d' (next & Hn & Hm). apply (settles_enqueued now k n d0 interval next r); [done|done| | |].
      * intros (x & Hx & Hpx). by rewrite (no_pending _ _ Ep x Hx) in Hpx.
      * by split_and!.
      * rewrite Hd in Hm. exact Hm.
  - intros e. apply hoare_at. intros d [-> He].
    destruct e; [apply Hmark; left; by apply He|apply hoare_fail; done..].
  - intros e c Hc [_ Hx]. destruct e; [by destruct (Hx eq_refl)|done..].
Qed.

(** ** A whole pass *)

Inductive pass (now : Z) : list Config.ConnectorConfig -> Z -> Db -> Z -> Db -> Prop :=
  | pass_nil n d : pass now [] n d n d
  | pass_cons k l n d n1 d1 n2 d2 :
      settles now k n d n1 d1 -> pass now l n1 d1 n2 d2 -> pass now (k :: l) n d n2 d2.

Lemma pass_effect env now l n d0 :
  Forall (fun k => Config.enabled k = true) l ->
  hoare (fun d => d = d0) (for_each l n (schedule_config env now))
    (fun n' d => pass now l n d0 n' d) (fun _ _ _ => True).
Proof.
  intros Hl. revert n d0. induction Hl as [|k l Hk Hl IH]; intros n d0; simpl.
  - apply hoare_ret. intros d ->. apply pass_nil.
  - eapply hoare_bind; [by apply settle_effect|]. intros n1. apply hoare_at. intros d1 H1.
    eapply hoare_conseq; [apply (IH n1 d1)|done| |done]. intros n2 d2 H2. by eapply pass_cons.
Qed.

Lemma due_batch_due now d k :
  k ∈ due_batch now d -> k ∈ connector_configs d /\ ConnectorConfigRepository.due now k = true.
Proof.
  unfold due_batch, limit. intros Hk%elem_of_take%elem_of_order_by%elem_of_filter_b. done.
Qed.

Lemma enqueue_effect env c :
  aborted c = false ->
  match enqueue_due_scheduled_runs env c with
  | (Ok n, c') => pass (reading c) (due_batch (reading c) (db c)) 0 (db c) n (db c')
  | (_, c') => db c' = db c
  end.
Proof.
  intros Ha. unfold enqueue_due_scheduled_runs, api_transaction, enqueue_due_scheduled_runs_locked.
  apply (transaction_at_reading _ _ _ (fun n d =>
    pass (reading c) (due_batch (reading c) (db c)) 0 (db c) n d)); [done|].
  eapply (hoare_bind _ _ _ (fun l d => d = db c /\ l = due_batch (reading c) (db c))).
  { apply hoare_map_err, hoare_pure_after, hoare_select; done. }
  intros l. apply hoare_at. intros d [-> ->].
  eapply hoare_conseq; [apply (pass_effect env (reading c) _ 0 (db c))|done|done|done].
  apply Forall_forall. intros k [_ Hk]%due_batch_due. unfold ConnectorConfigRepository.due in Hk.
  by destruct (Config.enabled k).
Qed.

(** ** What a pass leaves behind *)

(** The configuration [k] of the content [d] after the pass: blocked and unchanged, because its
    schedule is invalid or a run that was there before has its slot, or deferred to the moment
    its interval names, with the run that was enqueued for it. *)
Inductive settled (now : Z) (d : Db) (new : list Run.ConnectorRun) (k k' : Config.ConnectorConfig)
    : Prop :=
  | settled_blocked : k' = k -> interval_of k = None \/ slot_taken_by k d -> settled now d new k k'
  | settled_deferred interval run :
      interval_of k = Some interval -> marked now (now + interval * second) run k k' ->
      ConnectorConfigRepository.due now k' = false ->
      (run = None /\ not_running k d \/ exists r, r ∈ new /\ run = Some (Run.id r) /\ scheduled_run k r) ->
      settled now d new k k'.

Lemma after_seconds_value now s t : after_seconds now s = Some t -> t = now + s * second.
Proof.
  unfold after_seconds, duration_seconds, datetime_add. intros H. repeat case_match; by simplify_eq.
Qed.

Lemma marked_not_due now next run k k' :
  marked now next run k k' -> now < next -> ConnectorConfigRepository.due now k' = false.
Proof.
  intros [t ->] Hn. unfold ConnectorConfigRepository.due. simpl.
  apply andb_false_iff. right. unfold le_ts, tv_cmp. simpl. by destruct (Z.leb_spec next now); [lia|].
Qed.

Lemma interval_positive k s : interval_of k = Some s -> 60 <= s.
Proof.
  unfold interval_of. destruct (Config.schedule_cron k) as [cron|]; simpl; [|done].
  intros H%effective_interval_bounds. unfold MIN_CONNECTOR_SCHEDULE_INTERVAL_SECONDS in H. lia.
Qed.

Lemma marks_other now next run source d d' x :
  marks now next run source d d' -> x ∈ connector_configs d -> Config.source x <> source ->
  x ∈ connector_configs d'.
Proof.
  intros (f & -> & _) Hx Hs. apply list_elem_of_fmap. exists x. split; [|done].
  unfold ConnectorConfigRepository.from_source. by rewrite (proj2 (str_eqb_neq _ _) Hs).
Qed.

Lemma marks_own now next run d d' k :
  marks now next run (Config.source k) d d' -> k ∈ connector_configs d ->
  exists k', k' ∈ connector_configs d' /\ marked now next run k k'.
Proof.
  intros (f & -> & Hf) Hk. exists (f k). split; [|done]. apply list_elem_of_fmap. exists k.
  split; [|done]. unfold ConnectorConfigRepository.from_source. by rewrite str_eqb_refl.
Qed.

(** Only runs are added and only rows of configurations are rewritten. *)
Definition scheduler_frame (d d' : Db) : Prop :=
  exists runs configs, d' = d <| connector_runs := runs |> <| connector_configs := configs |> /\
    map Config.source configs = map Config.source (connector_configs d).

Lemma scheduler_frame_refl d : scheduler_frame d d.
Proof. exists (connector_runs d), (connector_configs d). split; [by destruct d|done]. Qed.

Lemma scheduler_frame_trans d d1 d2 : scheduler_frame d d1 -> scheduler_frame d1 d2 -> scheduler_frame d d2.
Proof.
  intros (r1 & k1 & -> & M1) (r2 & k2 & -> & M2). exists r2, k2. split; [done|]. simpl in M2. congruence.
Qed.

Lemma marks_frame now next run source d d' : marks now next run source d d' -> scheduler_frame d d'.
Proof.
  intros (f & -> & Hf). eexists (connector_runs d), _. split; [by destruct d|]. rewrite map_map. apply map_ext.
  intros x. destruct (ConnectorConfigRepository.from_source source x); [|done]. by destruct (Hf x) as [t ->].
Qed.

Lemma settles_frame now k n d n' d' : settles now k n d n' d' -> scheduler_frame d d'.
Proof.
  destruct 1 as [|? ? ? _ _ _ H%marks_frame|? ? r ? _ _ _ _ H%marks_frame]; [apply scheduler_frame_refl|done|].
  eapply scheduler_frame_trans; [|exact H]. exists (connector_runs d ++ [r]), (connector_configs d).
  split; [by destruct d|done].
Qed.

Lemma pass_frame now l n d n' d' : pass now l n d n' d' -> scheduler_frame d d'.
Proof.
  induction 1 as [n d|? ? ? ? ? ? ? ? H1%settles_frame _ IH]; [apply scheduler_frame_refl|].
  by eapply scheduler_frame_trans.
Qed.

Lemma frame_connectors d d' : scheduler_frame d d' -> connectors d' = connectors d.
Proof. by intros (r & k & -> & _). Qed.

Lemma settles_runs now k n d n' d' :
  settles now k n d n' d' ->
  exists new, connector_runs d' = connector_runs d ++ new /\ n' = n + Z.of_nat (length new) /\
    (length new <= 1)%nat /\ Forall (scheduled_run k) new.
Proof.
  destruct 1 as [|? ? ? _ _ _ (f & -> & _)|interval next r d' _ _ _ Hs (f & -> & _)].
  - exists []. rewrite app_nil_r. split_and!; [done|simpl; lia|simpl; lia|constructor].
  - exists []. rewrite app_nil_r. split_and!; [done|simpl; lia|simpl; lia|constructor].
  - exists [r]. split_and!; [done|simpl; lia|simpl; lia|by apply Forall_singleton].
Qed.

(** The new runs belong to configurations of the pass, at most one to each. *)
Lemma pass_runs now l n d n' d' :
  pass now l n d n' d' ->
  exists new, connector_runs d' = connector_runs d ++ new /\ n' = n + Z.of_nat (length new) /\
    map Run.source new `sublist_of` map Config.source l /\
    Forall (fun r => exists k, k ∈ l /\ scheduled_run k r) new.
Proof.
  induction 1 as [n d|k l n d n1 d1 n2 d2 H1 _ (new2 & E2 & N2 & L2 & F2)].
  - exists []. rewrite app_nil_r. split_and!; [done|simpl; lia|done|constructor].
  - destruct (settles_runs _ _ _ _ _ _ H1) as (new1 & E1 & N1 & L1 & F1).
    exists (new1 ++ new2). rewrite E2, E1, app_assoc, length_app. split_and!; [done|lia| |].
    + destruct new1 as [|r [|? ?]]; [by apply sublist_cons| |simpl in L1; lia].
      apply Forall_inv in F1. destruct F1 as (E & _). cbn [map app]. rewrite E. by apply sublist_skip.
    + apply Forall_app. split.
      * eapply Forall_impl; [exact F1|]. intros r Hr. exists k. split; [left|done].
      * eapply Forall_impl; [exact F2|]. intros r (k' & Hk & Hr). exists k'. split; [by right|done].
Qed.

Lemma settles_other now k n d n' d' x :
  settles now k n d n' d' -> x ∈ connector_configs d -> Config.source x <> Config.source k ->
  x ∈ connector_configs d'.
Proof. destruct 1 as [|? ? ? _ _ _ Hm|? ? ? ? _ _ _ _ Hm]; [done|..]; intros; by eapply (marks_other _ _ _ _ _ _ _ Hm). Qed.

Lemma pass_other now l n d n' d' x :
  pass now l n d n' d' -> x ∈ connector_configs d -> Config.source x ∉ map Config.source l ->
  x ∈ connector_configs d'.
Proof.
  induction 1 as [|k l n d n1 d1 n2 d2 H1 _ IH]; [done|]. intros Hx Hn.
  apply IH; [eapply settles_other; [exact H1|done|]|]; set_solver.
Qed.

(** The row of a configuration, once settled, is not touched again. *)
Lemma settles_own now k n d n' d' new :
  settles now k n d n' d' -> k ∈ connector_configs d ->
  (forall r, connector_runs d' = connector_runs d ++ [r] -> r ∈ new) ->
  exists k', k' ∈ connector_configs d' /\ Config.source k' = Config.source k /\ settled now d new k k'.
Proof.
  intros H Hk Hnew.
  assert (forall interval next run d1 d', interval_of k = Some interval -> connector_configs d1 = connector_configs d ->
    after_seconds now interval = Some next -> marks now next run (Config.source k) d1 d' ->
    (run = None /\ not_running k d \/ exists r, r ∈ new /\ run = Some (Run.id r) /\ scheduled_run k r) ->
    exists k', k' ∈ connector_configs d' /\ Config.source k' = Config.source k /\ settled now d new k k')
    as Hmarked.
  { intros interval next run d1 d'' Hi Hd1 Hn Hm Hr.
    destruct (marks_own _ _ _ _ _ k Hm) as (k' & Hk' & Hmk); [by rewrite Hd1|]. exists k'. split; [done|].
    apply after_seconds_value in Hn as ->. apply interval_positive in Hi as Hpos.
    split; [by destruct Hmk as [t ->]|]. eapply settled_deferred; [done..| |done].
    eapply marked_not_due; [done|]. unfold second. lia. }
  destruct H as [Hb|interval next d' Hi Hn Hwhy Hm|interval next r d' Hi Hn Hfree Hs Hm].
  - exists k. split_and!; [done..|]. by apply settled_blocked.
  - eapply Hmarked; [done..|]. by left.
  - eapply Hmarked; [done| |done|done|]; [done|]. right. exists r. split_and!; [|done..].
    apply Hnew. by destruct Hm as (f & -> & _).
Qed.

(** What a later part of the pass found is true of the content before it. *)
Lemma settled_before now d d1 new1 new2 k k' :
  scheduler_frame d d1 -> connector_runs d1 = connector_runs d ++ new1 ->
  (forall r, r ∈ new1 -> Run.source r <> Config.source k) ->
  settled now d1 new2 k k' -> settled now d (new1 ++ new2) k k'.
Proof.
  intros Hf E1 Hother [Hk Hb|interval run Hi Hm Hd Hr].
  - apply settled_blocked; [done|]. destruct Hb as [?|(r & Hin & Hp)]; [by left|right]. exists r. split; [|done].
    rewrite E1 in Hin. apply elem_of_app in Hin as [?|Hin]; [done|].
    apply pending_iff in Hp as [Hs _]. by destruct (Hother r Hin).
  - eapply settled_deferred; [done..|]. destruct Hr as [[? Hn]|(r & Hr & ?)]; [left|right].
    + split; [done|]. unfold not_running in *. by rewrite (frame_connectors _ _ Hf) in Hn.
    + exists r. split; [apply elem_of_app; by right|done].
Qed.

Lemma pass_own now l n d n' d' k new :
  pass now l n d n' d' -> NoDup (map Config.source l) -> k ∈ l ->
  (forall x, x ∈ l -> x ∈ connector_configs d) ->
  connector_runs d' = connector_runs d ++ new ->
  exists k', k' ∈ connector_configs d' /\ Config.source k' = Config.source k /\ settled now d new k k'.
Proof.
  intros H. revert new. induction H as [n d|x l n d n1 d1 n2 d2 H1 H2 IH]; intros new Hnd Hk Hin Hnew;
    [by apply elem_of_nil in Hk|].
  destruct (settles_runs _ _ _ _ _ _ H1) as (new1 & E1 & _ & _ & F1).
  destruct (pass_runs _ _ _ _ _ _ H2) as (new2 & E2 & _).
  assert (new = new1 ++ new2) as ->.
  { apply (app_inv_head (connector_runs d)). by rewrite <- Hnew, E2, E1, app_assoc. }
  apply NoDup_cons in Hnd as [Hx Hnd]. apply elem_of_cons in Hk as [->|Hk].
  - destruct (settles_own now x n d n1 d1 (new1 ++ new2) H1) as (k' & Hk' & Hs & Hset).
    + apply Hin. left.
    + intros r Hr. rewrite E1 in Hr. apply app_inv_head in Hr as ->. apply elem_of_app. left. left.
    + exists k'. split; [|done]. eapply pass_other; [exact H2|done|]. by rewrite Hs.
  - assert (Config.source k <> Config.source x) as Hne.
    { intros Heq. apply Hx. rewrite <- Heq. by apply list_elem_of_fmap_2. }
    destruct (IH new2 Hnd Hk) as (k' & Hk' & Hs & Hset); [|done|].
    + intros y Hy. eapply settles_other; [exact H1|apply Hin; by right|]. intros Heq.
      apply Hx. rewrite <- Heq. by apply list_elem_of_fmap_2.
    + exists k'. split_and!; [done..|].
      eapply settled_before; [by eapply settles_frame|done| |done].
      intros r Hr. rewrite Forall_forall in F1. destruct (F1 r Hr) as (-> & _). congruence.
Qed.

Lemma due_batch_sources now d :
  NoDup (map Config.source (connector_configs d)) -> NoDup (map Config.source (due_batch now d)).
Proof.
  intros H. unfold due_batch, limit. rewrite <- firstn_map. eapply sublist_NoDup; [|apply sublist_take].
  rewrite (Permutation_map _ (order_by_perm _ _)). by apply NoDup_map_filter_b.
Qed.

(** C23: a pass of the scheduler commits as a whole or not at all. When it
    commits it has looked at the ten most overdue configurations: each is either
    blocked (its schedule is invalid, or a run that was there before is active in
    its slot) and stays as it is, or is deferred by its interval, so that it is no
    longer due, with the queued run that carries its source and target and that it
    names, or with none when its connector is paused or gone. Each configuration
    gets at most one new run, the result counts them, and nothing else changes:
    every other configuration keeps its row, no row is added or removed, and
    the other tables stay as they are. *)
Theorem scheduler_settles_due_configs env c :
  aborted c = false -> NoDup (map Config.source (connector_configs (db c))) ->
  let now := reading c in
  match enqueue_due_scheduled_runs env c with
  | (Ok n, c') => exists new,
      connector_runs (db c') = connector_runs (db c) ++ new /\
      n = Z.of_nat (length new) /\ n <= 10 /\
      NoDup (map Run.source new) /\
      Forall (fun r => exists k, k ∈ due_batch now (db c) /\ scheduled_run k r) new /\
      (forall k, k ∈ due_batch now (db c) ->
         exists k', k' ∈ connector_configs (db c') /\ settled now (db c) new k k') /\
      (forall k, k ∈ connector_configs (db c) -> k ∉ due_batch now (db c) ->
         k ∈ connector_configs (db c')) /\
      scheduler_frame (db c) (db c')
  | (_, c') => db c' = db c
  end.
Proof.
  intros Ha Hnd. cbv zeta. pose proof (enqueue_effect env c Ha) as H.
  destruct (enqueue_due_scheduled_runs env c) as [[n|e|] c']; [|done..].
  destruct (pass_runs _ _ _ _ _ _ H) as (new & E & N & L & F).
  pose proof (due_batch_sources (reading c) (db c) Hnd) as Hb.
  exists new. split_and!; try done.
  - apply sublist_length in L. rewrite !length_map in L.
    assert (length (due_batch (reading c) (db c)) <= 10)%nat; [|lia]. apply firstn_le_length.
  - by eapply sublist_NoDup.
  - intros k Hk. destruct (pass_own _ _ _ _ _ _ k new H) as (k' & Hk' & _ & Hs); try done;
      [by intros x [? _]%due_batch_due|eauto].
  - intros k Hk Hnk. eapply pass_other; [exact H|done|].
    intros (x & Hx & Hin)%list_elem_of_fmap. apply Hnk. apply due_batch_due in Hin as Hin'.
    replace k with x; [done|]. symmetry. eapply NoDup_map_inj; [exact Hnd|done|apply Hin'|done].
  - by eapply pass_frame.
Qed.

Definition due_config (i : Z) (source : string) : Config.ConnectorConfig :=
  Config.mkConnectorConfig i source "work_cards" true (Some "@hourly") "{}" "{}" 0 0 None (Some i) None.

Definition no_variables : Environ := fun _ => NotPresent.

Definition scheduling_db : Db :=
  empty_db <| connectors := [sample_connector "azure";
      (sample_connector "quiet") <| Connectors.status := "paused" |>] |>
    <| connector_configs := [due_config 1 "azure"; due_config 2 "quiet"] |>.

Lemma scheduler_settles_due_configs_witness :
  exists n c' r, enqueue_due_scheduled_runs no_variables (calm scheduling_db 100 [] 7) = (Ok n, c') /\
    n = 1 /\ connector_runs (db c') = [r] /\ Run.source r = "azure" /\ Run.trigger r = "scheduled".
Proof.
  pose proof (scheduler_settles_due_configs no_variables (calm scheduling_db 100 [] 7) eq_refl
    ltac:(apply (bool_decide_unpack _); vm_compute; exact I)) as H. cbv zeta in H.
  destruct (enqueue_due_scheduled_runs no_variables (calm scheduling_db 100 [] 7)) as [o c'] eqn:E.
  vm_compute in E. destruct o as [n|e|]; try discriminate E.
  destruct H as (new & Hr & Hn & _ & _ & Hf & _). injection E as E1 E2.
  destruct new as [|r [|r' new]]; [vm_compute in Hn; lia| |simpl in Hn; lia].
  exists n, c', r. split; [reflexivity|]. split; [congruence|]. split; [exact Hr|].
  apply Forall_inv in Hf. destruct Hf as (k & _ & _ & _ & _ & Ht & _). split; [|exact Ht].
  rewrite <- E2 in Hr. vm_compute in Hr. injection Hr as <-. reflexivity.
Defined.

(** ** Starvation *)

(** Blocked for as long as the run in its slot is active. *)
Definition stuck (d : Db) (k : Config.ConnectorConfig) : Prop :=
  interval_of k = None \/ slot_taken_by k d /\ ~ not_running k d.

Lemma stuck_pass now l n d n' d' :
  pass now l n d n' d' -> Forall (stuck d) l -> n' = n /\ d' = d.
Proof.
  induction 1 as [|k l n d n1 d1 n2 d2 H1 _ IH]; [done|]. intros [Hk Hl]%Forall_cons.
  assert (n1 = n /\ d1 = d) as [-> ->]; [|by apply IH].
  destruct H1 as [|? ? ? Hi ? Hw|? ? ? ? Hi ? Hfree]; [done|..];
    destruct Hk as [Hk|[Hs Hrun]]; congruence.
Qed.

(** the scheduler looks at the ten most overdue configurations and skips
    those whose slot has an active run without deferring them. When all ten are
    in that state, the pass enqueues nothing and changes nothing, however many
    other configurations are due with a free slot; the next pass meets the same
    ten. *)
Theorem blocked_configs_starve_the_rest env c :
  aborted c = false -> Forall (stuck (db c)) (due_batch (reading c) (db c)) ->
  match enqueue_due_scheduled_runs env c with
  | (Ok n, c') => n = 0 /\ db c' = db c
  | (_, c') => db c' = db c
  end.
Proof.
  intros Ha Hs. pose proof (enqueue_effect env c Ha) as H.
  destruct (enqueue_due_scheduled_runs env c) as [[n|e|] c']; [|done..].
  by apply stuck_pass in H.
Qed.

Definition names : list string := ["a"; "b"; "c"; "d"; "e"; "f"; "g"; "h"; "i"; "j"].

(** Ten sources with an active run, and one more that is due and free. *)
Definition starving_db : Db :=
  empty_db <| connectors := map sample_connector (names ++ ["free"]) |>
    <| connector_runs := map (fun p => sample_run (fst p) (snd p) "running" None None 1)
         (zip [1; 2; 3; 4; 5; 6; 7; 8; 9; 10] names) |>
    <| connector_configs := map (fun p => due_config (fst p) (snd p))
         (zip [1; 2; 3; 4; 5; 6; 7; 8; 9; 10; 11] (names ++ ["free"])) |>.

(** The conditions of a stuck configuration, evaluated. *)
Definition stuck_b (d : Db) (k : Config.ConnectorConfig) : bool :=
  existsb (pending (Config.source k) (Config.target k)) (connector_runs d)
  && existsb (fun x => Connectors.source x =s Config.source k) (connectors d)
  && forallb (fun x => negb ((Connectors.source x =s Config.source k)
                             && (Connectors.status x =s "paused"))) (connectors d).

Lemma stuck_b_true d k : stuck_b d k = true -> stuck d k.
Proof.
  unfold stuck_b. rewrite !andb_true_iff, !existsb_exists, forallb_forall.
  intros [[(r & Hr & Hp) (x & Hx & Hs%str_eqb_eq)] Hall]. right. split.
  - exists r. by rewrite list_elem_of_In.
  - intros [Hnone|(y & Hy & Hys & Hst)].
    + apply (Hnone x); [by apply list_elem_of_In|done].
    + apply list_elem_of_In, Hall in Hy. by rewrite Hys, Hst, !str_eqb_refl in Hy.
Qed.

Lemma blocked_configs_starve_the_rest_witness :
  due_config 11 "free" ∈ connector_configs starving_db /\
  ConnectorConfigRepository.due 100 (due_config 11 "free") = true /\
  existsb (pending "free" "work_cards") (connector_runs starving_db) = false /\
  match enqueue_due_scheduled_runs no_variables (calm starving_db 100 [] 20) with
  | (Ok n, c') => n = 0 /\ db c' = starving_db
  | (_, c') => db c' = starving_db
  end.
Proof.
  split; [vm_compute; repeat first [apply list_elem_of_here|apply list_elem_of_further]|].
  split; [reflexivity|]. split; [vm_compute; reflexivity|].
  apply (blocked_configs_starve_the_rest no_variables (calm starving_db 100 [] 20) eq_refl).
  apply Forall_forall. intros k Hk. apply stuck_b_true.
  assert (forallb (stuck_b starving_db) (due_batch 100 starving_db) = true) as Hall
    by (vm_compute; reflexivity).
  rewrite forallb_forall in Hall. apply Hall, list_elem_of_In. exact Hk.
Defined.
