(* ===== verification/RetentionSafety.v ===== *)
(** Properties of the retention cleanup of [ConnectorWorkers.v]: what a pass
    deletes, when a pass is skipped, and when the next one is due. *)
From S2P Require Import Prelude Logic Text Models Schema Api Validation Schedule Runs RunLifecycle.
From S2P Require Import Access Sessions Records Connections Runtime AuditLogs SingleSignOn Config.
From S2P Require Import ConnectorWorkers.

Open Scope Z_scope.
Open Scope portal_scope.

(** ** One deletion by age *)







(** ** What a pass leaves *)














(** ** Passes and skips *)








(** ** Limits that are not checked *)

(** the retention settings are not bounded from above: a number of days that
    chrono cannot represent is accepted at startup, and the first cleanup then
    panics inside the cycle, which ends the worker's task; here on an empty
    database, at any time and with any lease policy. *)
Theorem accepted_retention_ends_worker {SJ : SerdeJson} {ED : ErrorDebug} {DD : DieselDisplay}
    {RI : RawItems} {PL : Payloads} {AD : Adapters} :
  exists env, forall lease t,
    retention_policy_from_env env =
      mkConnectorRetentionPolicy (Some i64_max) (Some 90) (Some 365) 3600 /\
    fst (worker_cycle env
      (mkConnectorWorkerLoopConfig 500 15 true (retention_policy_from_env env) lease
         "connector-worker-1" t) true
      (mkWorkerLoopState (due_immediately 0) None 0 []) (calm empty_db t [] 1)) = Panic.
Proof.
  exists (fun name => if name =s "CONNECTOR_HEALTH_RETENTION_DAYS"
    then Present "9223372036854775807" else NotPresent).
  intros lease t. split; [reflexivity|]. vm_compute. reflexivity.
Qed.
