(* ===== verification/Dashboard.v ===== *)
(** The dashboards: [DashboardRepository] ([src/src/repositories.rs]),
    [src/src/rocket_routes/dashboard.rs], the personal overview and the user
    directory of [authorization.rs], and the probes of [health.rs]. *)
From S2P Require Import Prelude Logic Text Models Schema Api Validation Access Accounts Authn.
From S2P Require Import Runs Records Connections Inbox WorkCards Config ConnectorWorkers Catalog.

Open Scope Z_scope.
Open Scope portal_scope.

(** The [Display] text of an instant, which chrono owns. *)
Class InstantDisplay := { show_instant : Z -> string }.

(** ** Counts *)

Module DashboardRepository.

Definition in_scope (maintainer_id : option Z) (source : option string) (s : Svc.Service) : bool :=
  match maintainer_id with Some m => Svc.maintainer_id s =? m | None => true end
  && match source with Some x => Svc.source s =s x | None => true end.

Definition total_services_scoped (maintainer_id : option Z) (source : option string) : Query Z :=
  exec (sql_count (in_scope maintainer_id source)).

Definition healthy_services_scoped (maintainer_id : option Z) (source : option string) : Query Z :=
  exec (sql_count (fun s => (Svc.health_status s =s "healthy") && in_scope maintainer_id source s)).

Definition degraded_services_scoped (maintainer_id : option Z) (source : option string) : Query Z :=
  exec (sql_count (fun s => (Svc.health_status s =s "degraded") && in_scope maintainer_id source s)).

Definition down_services_scoped (maintainer_id : option Z) (source : option string) : Query Z :=
  exec (sql_count (fun s => (Svc.health_status s =s "down") && in_scope maintainer_id source s)).

Definition active_packages_scoped (maintainer_id : option Z) : Query Z :=
  exec (sql_count (fun p => (Pkg.status p =s "active")
    && match maintainer_id with Some m => Pkg.maintainer_id p =? m | None => true end)).

End DashboardRepository.

(** ** Data *)

Definition HEALTH_HISTORY_WINDOW_HOURS : Z := 24.
Definition SERVICE_HEALTH_STALE_AFTER_HOURS : Z := 2.

Record DashboardSummary := mkDashboardSummary {
  total_services : Z;
  healthy_services : Z;
  degraded_services : Z;
  down_services : Z;
  active_packages : Z;
  open_work_cards : Z;
  unread_notifications : Z
}.

Record DashboardScope := mkDashboardScope {
  scope_maintainer_id : option Z;
  scope_source : option string
}.

Record ServiceHealthHistorySummary := mkServiceHealthHistorySummary {
  window_hours : Z;
  checks : Z;
  healthy_checks : Z;
  degraded_checks : Z;
  down_checks : Z;
  unknown_checks : Z;
  changed_checks : Z
}.

Record ServiceHealthHistory := mkServiceHealthHistory {
  history_summary : ServiceHealthHistorySummary;
  recent_checks : list Check.ServiceHealthCheck;
  recent_incidents : list Check.ServiceHealthCheck
}.

Record DashboardPriorityItem := mkDashboardPriorityItem {
  key : string;
  kind : string;
  severity : string;
  rank : Z;
  title : string;
  detail : string;
  item_source : option string;
  target : option string;
  record_id : option Z;
  service_id : option Z;
  url : option string;
  occurred_at : option Z
}.

Record DashboardPriorityContext := mkDashboardPriorityContext {
  worker_status : option string;
  active_workers : Z;
  stale_workers : Z;
  latest_worker_seen_at : option Z;
  worker_stale_after_seconds : Z;
  health_data_stale : bool;
  latest_health_check_at : option Z;
  health_stale_after_hours : Z
}.

Record DashboardResponse := mkDashboardResponse {
  response_scope : DashboardScope;
  response_summary : DashboardSummary;
  response_priority_items : list DashboardPriorityItem;
  response_health_history : ServiceHealthHistory;
  response_service_health : list Svc.Service;
  response_calendar_events : list Event.CalendarEvent;
  response_work_cards : list Card.WorkCard;
  response_notifications : list View.NotificationView;
  response_recent_packages : list Pkg.Package
}.

(** ** Health history *)

Definition usize_of {A} (l : list A) : Z := Z.of_nat (length l).

Definition count_checks (checks : list Check.ServiceHealthCheck) (status : string) : Z :=
  usize_of (List.filter (fun check => Check.health_status check =s status) checks).

Definition build_service_health_history (recent_checks : list Check.ServiceHealthCheck)
    (window_hours : Z) : ServiceHealthHistory :=
  let changed := List.filter (fun check =>
    match Check.previous_health_status check with
    | Some previous => negb (previous =s Check.health_status check)
    | None => false
    end) recent_checks in
  let recent_incidents := take 8 (List.filter (fun check =>
    one_of_texts (Check.health_status check) ["degraded"; "down"]) recent_checks) in
  mkServiceHealthHistory
    (mkServiceHealthHistorySummary window_hours (usize_of recent_checks)
       (count_checks recent_checks "healthy") (count_checks recent_checks "degraded")
       (count_checks recent_checks "down") (count_checks recent_checks "unknown")
       (usize_of changed))
    recent_checks recent_incidents.

(** [Iterator::max] of instants. *)
Definition latest (l : list Z) : option Z :=
  fold_left (fun best t => option_max best (Some t)) l None.

(** ** Workers *)

Definition is_active_worker (now stale_after_seconds : Z) (worker : Worker.ConnectorWorker) : bool :=
  num_seconds (now - Worker.last_seen_at worker) <=? stale_after_seconds.

Definition summarize_workers (workers : list Worker.ConnectorWorker) (now stale_after_seconds : Z)
    : string * Z * Z * option Z :=
  let latest_worker_seen_at := latest (map Worker.last_seen_at workers) in
  let active_workers := usize_of (List.filter (is_active_worker now stale_after_seconds) workers) in
  let stale_workers := Z.max 0 (usize_of workers - active_workers) in
  let worker_status :=
    if 0 <? active_workers then "healthy"
    else match workers with [] => "missing" | _ => "stale" end in
  (worker_status, active_workers, stale_workers, latest_worker_seen_at).

(** ** Priority items *)

Section Items.
Context {ID : InstantDisplay}.

Definition or_text (o : option string) (s : string) : string := default s o.

Definition worker_item (context : DashboardPriorityContext) : list DashboardPriorityItem :=
  match worker_status context with
  | Some status =>
      if status =s "healthy" then []
      else
        let title := if status =s "missing" then "Connector worker heartbeat is missing"
                     else "Connector worker heartbeat is stale" in
        let detail := or_text
          ((fun seen_at => concat_str ["Last seen at "; show_instant seen_at; "; ";
              int_to_string (stale_workers context); " stale worker(s), ";
              int_to_string (active_workers context); " active"])
             <$> latest_worker_seen_at context) "No connector worker has checked in" in
        [mkDashboardPriorityItem "operations-worker" "worker" status 5 title
           (concat_str [detail; "; stale after ";
              int_to_string (worker_stale_after_seconds context); "s"])
           None None None None None (latest_worker_seen_at context)]
  | None => []
  end.

Definition health_data_item (context : DashboardPriorityContext) : list DashboardPriorityItem :=
  if health_data_stale context then
    let detail := or_text
      ((fun checked_at => concat_str ["Latest health check was "; show_instant checked_at;
          "; stale after "; int_to_string (health_stale_after_hours context); "h"])
         <$> latest_health_check_at context) "No service health checks are available" in
    [mkDashboardPriorityItem "operations-health-data" "health_data" "stale" 6
       "Service health data is stale" detail None (Some "service_health") None None None
       (latest_health_check_at context)]
  else [].

Definition service_item (service : Svc.Service) : DashboardPriorityItem :=
  mkDashboardPriorityItem (String.append "service-" (int_to_string (Svc.id service))) "service"
    (Svc.health_status service) (if Svc.health_status service =s "down" then 10 else 20)
    (Svc.name service)
    (concat_str [Svc.health_status service; " service from "; Svc.source service])
    (Some (Svc.source service)) (Some "service_health") (Some (Svc.id service))
    (Some (Svc.id service))
    (match Svc.dashboard_url service with Some u => Some u | None => Svc.runbook_url service end)
    (match Svc.last_checked_at service with
     | Some t => Some t | None => Some (Svc.updated_at service) end).

Definition card_item (card : Card.WorkCard) : DashboardPriorityItem :=
  let blocked := Card.status card =s "blocked" in
  mkDashboardPriorityItem (String.append "work-card-" (int_to_string (Card.id card))) "work_card"
    (if blocked then "blocked" else "urgent") (if blocked then 30 else 40) (Card.title card)
    (join " - " (omap id [Some (Card.priority card); Card.assignee card; Some (Card.source card)]))
    (Some (Card.source card)) (Some "work_cards") (Some (Card.id card)) None (Card.url card)
    (Some (Card.updated_at card)).

Definition notification_item (n : View.NotificationView) : DashboardPriorityItem :=
  mkDashboardPriorityItem (String.append "notification-" (int_to_string (View.id n))) "notification"
    (View.severity n) 50 (View.title n) (or_text (View.body n) (View.source n))
    (Some (View.source n)) (Some "notifications") (Some (View.id n)) None (View.url n)
    (Some (View.updated_at n)).

Definition run_item (run : Run.ConnectorRun) : DashboardPriorityItem :=
  mkDashboardPriorityItem (String.append "connector-run-" (int_to_string (Run.id run)))
    "connector_run" (Run.status run) (if Run.status run =s "failed" then 60 else 65)
    (concat_str [Run.source run; " / "; Run.target run])
    (or_text (Run.error_message run)
       (String.append (int_to_string (Run.failure_count run)) " failed item(s)"))
    (Some (Run.source run)) (Some (Run.target run)) (Some (Run.id run)) None None
    (match Run.finished_at run with Some t => Some t | None => Some (Run.started_at run) end).

(** The items in the order they are pushed. *)
Definition candidate_items (services : list Svc.Service) (work_cards : list Card.WorkCard)
    (notifications : list View.NotificationView) (failed_connector_runs : list Run.ConnectorRun)
    (context : DashboardPriorityContext) : list DashboardPriorityItem :=
  worker_item context ++ health_data_item context
  ++ map service_item (List.filter (fun s =>
       one_of_texts (Svc.health_status s) ["down"; "degraded"]) services)
  ++ map card_item (List.filter (fun card => (Card.status card =s "blocked")
       || ((Card.priority card =s "urgent") && negb (Card.status card =s "done"))) work_cards)
  ++ map notification_item (List.filter (fun n => View.severity n =s "critical") notifications)
  ++ map run_item failed_connector_runs.

(** [Option<DateTime>::cmp], where [None] is the least. *)
Definition option_compare (a b : option Z) : comparison :=
  match a, b with
  | Some x, Some y => x ?= y
  | Some _, None => Gt
  | None, Some _ => Lt
  | None, None => Eq
  end.

(** By rank, then the latest first, then by title. *)
Definition item_leb : DashboardPriorityItem -> DashboardPriorityItem -> bool :=
  lex_leb [asc rank; (fun left right => option_compare (occurred_at right) (occurred_at left));
           (fun left right => String.compare (title left) (title right))].

Definition build_dashboard_priority_items (services : list Svc.Service)
    (work_cards : list Card.WorkCard) (notifications : list View.NotificationView)
    (failed_connector_runs : list Run.ConnectorRun) (context : DashboardPriorityContext)
    : list DashboardPriorityItem :=
  take 12 (order_by item_leb
    (candidate_items services work_cards notifications failed_connector_runs context)).

(** ** The dashboard *)

Definition hours_before (now hours : Z) : Handler Z := or_panic (datetime_add now (- (hours * hour))).
Definition hours_after (now hours : Z) : Handler Z := or_panic (datetime_add now (hours * hour)).

(** [!services.is_empty() && latest.map(..).unwrap_or(true)]; the subtraction is
    only evaluated when there is a check to compare with. *)
Definition is_health_data_stale (now : Z) (services : list Svc.Service) (latest_check : option Z)
    : Handler bool :=
  match services, latest_check with
  | [], _ => ret false
  | _, None => ret true
  | _, Some checked_at =>
      limit <- hours_before now SERVICE_HEALTH_STALE_AFTER_HOURS ;;
      ret (checked_at <? limit)
  end.

Definition dashboard_summary (scope : DashboardScope) (access : RecordAccessScope)
    : Query DashboardSummary :=
  let m := scope_maintainer_id scope in
  let s := scope_source scope in
  total <- DashboardRepository.total_services_scoped m s ;;
  healthy <- DashboardRepository.healthy_services_scoped m s ;;
  degraded <- DashboardRepository.degraded_services_scoped m s ;;
  down <- DashboardRepository.down_services_scoped m s ;;
  packages <- DashboardRepository.active_packages_scoped m ;;
  cards <- count_open_for_access m s access ;;
  unread <- count_actionable_for_access m s access ;;
  ret (mkDashboardSummary total healthy degraded down packages cards unread).

Context (env : Environ).

Definition dashboard (auth : AuthenticatedUser) (maintainer_id : option Z) (source : option string)
    : Handler DashboardResponse :=
  access <- record_access_scope auth ;;
  now <- utc_now ;;
  match maintainer_id with
  | Some id => if negb (auth_is_admin auth) && negb (existsb (Z.eqb id) (maintainer_ids access))
               then fail Forbidden else ret tt
  | None => ret tt
  end ;;;
  let scope := mkDashboardScope maintainer_id source in
  summary <- query (dashboard_summary scope access) ;;
  service_health <- query (ServiceRepository.find_health_snapshot_scoped 10 maintainer_id source) ;;
  work_cards <- query (find_open_for_access 10 maintainer_id source access) ;;
  notifications <- query (find_actionable_for_access 10 maintainer_id source access) ;;
  starts_from <- hours_before now 18 ;;
  starts_before <- hours_after now 42 ;;
  calendar_events <- query (find_upcoming_for_access 100 starts_from starts_before maintainer_id
                              source access) ;;
  failed_connector_runs <- query (find_failed_for_access 25 maintainer_id source access) ;;
  recent_packages <- query (PackageRepository.find_recent_for_maintainer 5 maintainer_id) ;;
  now' <- utc_now ;;
  since <- hours_before now' HEALTH_HISTORY_WINDOW_HOURS ;;
  health_checks <- query (ServiceHealthCheckRepository.find_recent_scoped 250 since maintainer_id
                            source) ;;
  let health_history := build_service_health_history health_checks HEALTH_HISTORY_WINDOW_HOURS in
  let latest_check := latest (map Check.checked_at (recent_checks health_history)) in
  stale <- is_health_data_stale now service_health latest_check ;;
  let stale_after := connector_worker_stale_after_seconds env in
  workers <- query (ConnectorWorkerRepository.find_recent 20) ;;
  let '(status, active, stale_count, seen_at) := summarize_workers workers now stale_after in
  let priority_items := build_dashboard_priority_items service_health work_cards notifications
    failed_connector_runs
    (mkDashboardPriorityContext (Some status) active stale_count seen_at stale_after stale
       latest_check SERVICE_HEALTH_STALE_AFTER_HOURS) in
  ret (mkDashboardResponse scope summary priority_items health_history service_health
         calendar_events work_cards notifications recent_packages).

(** ** The personal overview *)

Record MeMaintainerOverview := mkMeMaintainerOverview {
  mo_maintainer : Maint.Maintainer;
  mo_role : string
}.

Record MeOverviewSummary := mkMeOverviewSummary {
  sum_maintainers : Z;
  sum_services : Z;
  sum_unhealthy_services : Z;
  sum_packages : Z;
  sum_today_calendar_events : Z;
  sum_open_work_cards : Z;
  sum_unread_notifications : Z;
  sum_failed_connector_runs : Z
}.

Record MeOperationsStatus := mkMeOperationsStatus {
  ops_worker_status : string;
  ops_active_workers : Z;
  ops_stale_workers : Z;
  ops_latest_worker_seen_at : option Z;
  ops_worker_stale_after_seconds : Z;
  ops_latest_retention_cleanup : option Maintenance.MaintenanceRun;
  ops_latest_health_check_at : option Z;
  ops_health_data_stale : bool;
  ops_health_stale_after_hours : Z
}.

Record MeOverviewResponse := mkMeOverviewResponse {
  me_user : MeResponse;
  me_maintainers : list MeMaintainerOverview;
  me_services : list Svc.Service;
  me_packages : list Pkg.Package;
  me_today_calendar_events : list Event.CalendarEvent;
  me_open_work_cards : list Card.WorkCard;
  me_unread_notifications : list View.NotificationView;
  me_failed_connector_runs : list Run.ConnectorRun;
  me_priority_items : list DashboardPriorityItem;
  me_health_history : ServiceHealthHistory;
  me_operations : MeOperationsStatus;
  me_summary : MeOverviewSummary
}.

(** [collect] into a [HashMap] keeps the last role of a maintainer. *)
Definition roles_by_maintainer (memberships : list Member.MaintainerMember) : gmap Z string :=
  list_to_map (rev (map (fun m => (Member.maintainer_id m, Member.role m)) memberships)).

Definition maintainers_of_user {C : Collation} (auth : AuthenticatedUser)
    (memberships : list Member.MaintainerMember) : Query (list Maint.Maintainer) :=
  match memberships, auth_is_admin auth with
  | [], true => MaintainerRepository.find_multiple 100
  | _, _ => MaintainerRepository.find_by_ids (map Member.maintainer_id memberships)
  end.

Definition me_overview {C : Collation} (auth : AuthenticatedUser) : Handler MeOverviewResponse :=
  memberships <- query (MaintainerMemberRepository.find_by_user (Users.id (auth_user auth))) ;;
  let roles := roles_by_maintainer memberships in
  maintainers <- query (maintainers_of_user auth memberships) ;;
  let maintainer_ids := map Maint.id maintainers in
  let access := mkRecordAccessScope (Users.id (auth_user auth)) (auth_is_admin auth)
                  (map Member.maintainer_id memberships) in
  services <- query (ServiceRepository.find_for_maintainers 100 maintainer_ids) ;;
  packages <- query (PackageRepository.find_recent_for_maintainers 100 maintainer_ids) ;;
  now <- utc_now ;;
  starts_from <- hours_before now 18 ;;
  starts_before <- hours_after now 42 ;;
  events <- query (find_upcoming_for_access 100 starts_from starts_before None None access) ;;
  cards <- query (find_open_for_access 50 None None access) ;;
  notifications <- query (find_actionable_for_access 50 None None access) ;;
  runs <- query (find_failed_for_access 25 None None access) ;;
  since <- hours_before now HEALTH_HISTORY_WINDOW_HOURS ;;
  health_checks <- query (ServiceHealthCheckRepository.find_recent_for_maintainers 250 since
                            maintainer_ids) ;;
  let health_history := build_service_health_history health_checks HEALTH_HISTORY_WINDOW_HOURS in
  let latest_check := latest (map Check.checked_at (recent_checks health_history)) in
  stale <- is_health_data_stale now services latest_check ;;
  let stale_after := connector_worker_stale_after_seconds env in
  workers <- query (ConnectorWorkerRepository.find_recent 20) ;;
  let '(status, active, stale_count, seen_at) := summarize_workers workers now stale_after in
  cleanup <- query (MaintenanceRunRepository.find_latest_success "retention_cleanup") ;;
  let priority_items := build_dashboard_priority_items services cards notifications runs
    (mkDashboardPriorityContext (Some status) active stale_count seen_at stale_after stale
       latest_check SERVICE_HEALTH_STALE_AFTER_HOURS) in
  let unhealthy := List.filter (fun s => negb (Svc.health_status s =s "healthy")) services in
  ret (mkMeOverviewResponse (build_me_response auth memberships)
         (map (fun m => mkMeMaintainerOverview m (default "admin" (roles !! Maint.id m))) maintainers)
         services packages events cards notifications runs priority_items health_history
         (mkMeOperationsStatus status active stale_count seen_at stale_after cleanup latest_check
            stale SERVICE_HEALTH_STALE_AFTER_HOURS)
         (mkMeOverviewSummary (usize_of maintainers) (usize_of services) (usize_of unhealthy)
            (usize_of packages) (usize_of events) (usize_of cards) (usize_of notifications)
            (usize_of runs))).
End Items.

(** ** The user directory *)

Record UserSummary := mkUserSummary {
  us_id : Z;
  us_username : string;
  us_roles : list string;
  us_created_at : Z
}.

Definition user_summary (row : Users.User * list (URole.UserRole * Roles.Role)) : UserSummary :=
  let '(user, roles) := row in
  mkUserSummary (Users.id user) (Users.username user) (map (fun p => Roles.code (snd p)) roles)
    (Users.created_at user).

Definition users_directory {U : Unicode} (auth : AuthenticatedUser) : Handler (list UserSummary) :=
  require_user_directory_access auth ;;;
  users <- query UserRepository.find_with_roles ;;
  ret (order_by (lex_leb [fun left right => String.compare (us_username left) (us_username right)])
         (map user_summary users)).

(** ** Probes *)

Definition SERVICE_NAME : string := "internal-developer-portal-api".

Record HealthResponse := mkHealthResponse { hr_status : string; hr_service : string }.
Record ReadinessChecks := mkReadinessChecks { rc_database : string }.
Record ReadinessResponse := mkReadinessResponse {
  rr_status : string;
  rr_service : string;
  rr_checks : ReadinessChecks
}.

(** [SELECT 1]; its every failure is reported as an unavailable database. *)
Definition require_database : Handler unit :=
  map_err DatabaseUnavailable (exec (sql_query (fun _ : Db => tt))).

Definition health : Handler HealthResponse :=
  require_database ;;; ret (mkHealthResponse "ok" SERVICE_NAME).

Definition livez : Handler HealthResponse := ret (mkHealthResponse "ok" SERVICE_NAME).

Definition readyz : Handler ReadinessResponse :=
  require_database ;;; ret (mkReadinessResponse "ok" SERVICE_NAME (mkReadinessChecks "ok")).
