(* ===== verification/DashboardSafety.v ===== *)
(** Properties of the dashboards of [Dashboard.v]: the priority items are the
    most urgent candidates in order, the status of the workers is exact, and a
    dashboard shows only what its reader may see. *)
From S2P Require Import Prelude Logic Text Models Schema Api Validation Access Accounts Authn.
From S2P Require Import Runs Records Connections Inbox WorkCards Config ConnectorWorkers Catalog.
From S2P Require Import Dashboard.

Open Scope Z_scope.
Open Scope portal_scope.

(** ** The order of the priority items *)

Lemma string_compare_trans s t u :
  String.compare s t = Lt -> String.compare t u = Lt -> String.compare s u = Lt.
Proof.
  revert t u. induction s as [|a s IH]; intros [|b t] [|c u]; simpl; try done.
  unfold Ascii.compare.
  destruct (N.compare_spec (Ascii.N_of_ascii a) (Ascii.N_of_ascii b)) as [E1|E1|E1],
    (N.compare_spec (Ascii.N_of_ascii b) (Ascii.N_of_ascii c)) as [E2|E2|E2]; try done.
  - rewrite E1, E2, N.compare_refl. apply IH.
  - rewrite E1. by apply N.compare_lt_iff in E2 as ->.
  - rewrite <- E2. by apply N.compare_lt_iff in E1 as ->.
  - assert (E3 : (Ascii.N_of_ascii a < Ascii.N_of_ascii c)%N) by lia.
    by apply N.compare_lt_iff in E3 as ->.
Qed.

#[export] Instance text_key {R} (f : R -> string) : OrderKey (fun x y => String.compare (f x) (f y)).
Proof.
  split; intros.
  - apply String.compare_antisym.
  - match goal with H : _ = Eq |- _ => apply String.compare_eq_iff in H; by rewrite H end.
  - by eapply string_compare_trans.
Qed.

#[export] Instance option_key {R} (f : R -> option Z) : OrderKey (fun x y => option_compare (f x) (f y)).
Proof.
  split; intros.
  - destruct (f x), (f y); simpl; try done. apply Z.compare_antisym.
  - destruct (f x), (f y); simpl in *; try done.
    match goal with H : _ = Eq |- _ => apply Z.compare_eq in H; by rewrite H end.
  - destruct (f x), (f y), (f z); simpl in *; try done.
    rewrite Z.compare_lt_iff in *. lia.
Qed.

Lemma item_keys : Forall OrderKey
  [asc rank; (fun left right => option_compare (occurred_at right) (occurred_at left));
   (fun left right => String.compare (title left) (title right))].
Proof.
  apply List.Forall_cons; [apply _|]. apply List.Forall_cons; [|apply List.Forall_cons; [apply _|constructor]].
  apply (flip_key (fun x y => option_compare (occurred_at x) (occurred_at y))), option_key.
Qed.

(** The first rows of a sorted list come before the rest. *)
Lemma take_sorted_before {A} (R : A -> A -> Prop) n l x y :
  StronglySorted R l -> x ∈ take n l -> y ∈ drop n l -> R x y.
Proof.
  intros Hs. revert n. induction Hs as [|z l Hs IH Hall]; intros n.
  - rewrite take_nil. by intros []%elem_of_nil.
  - destruct n as [|n]; [by intros []%elem_of_nil|]. simpl.
    intros [->|Hx]%elem_of_cons Hy; [|by apply (IH n)].
    rewrite Forall_forall in Hall. apply Hall. rewrite <- (take_drop n l). apply elem_of_app. by right.
Qed.

Lemma take_sorted {A} (R : A -> A -> Prop) n l : StronglySorted R l -> StronglySorted R (take n l).
Proof.
  intros Hs. revert n. induction Hs as [|z l Hs IH Hall]; intros [|n]; simpl; try constructor; auto.
  eapply Forall_take. exact Hall.
Qed.

(** a dashboard lists at most twelve priority items, sorted by rank, then
    latest first, then by title, and it leaves a candidate out only if twelve
    others come before it. Nothing is listed that is not a candidate. *)
Theorem priority_items_are_most_urgent {ID : InstantDisplay} services cards notifications runs context :
  let items := build_dashboard_priority_items services cards notifications runs context in
  let candidates := candidate_items services cards notifications runs context in
  (length items <= 12)%nat /\
  StronglySorted (fun a b => item_leb a b = true) items /\
  (forall i, i ∈ items -> i ∈ candidates) /\
  (forall i, i ∈ candidates -> i ∈ items \/
     length items = 12%nat /\ forall j, j ∈ items -> item_leb j i = true).
Proof.
  intros items candidates. unfold items, build_dashboard_priority_items. fold candidates.
  pose proof (order_by_sorted item_leb (lex_leb_total _ item_keys) (lex_leb_trans _ item_keys)
                candidates) as Hs.
  split_and!.
  - apply firstn_le_length.
  - by apply take_sorted.
  - intros i Hi. apply (elem_of_order_by item_leb).
    rewrite <- (take_drop 12 (order_by item_leb candidates)). apply elem_of_app. by left.
  - intros i Hi. apply (elem_of_order_by item_leb) in Hi.
    rewrite <- (take_drop 12 (order_by item_leb candidates)) in Hi.
    apply elem_of_app in Hi as [Hi|Hi]; [by left|right]. split.
    + rewrite length_take. destruct (drop 12 _) eqn:E; [by apply elem_of_nil in Hi|].
      assert (length (drop 12 (order_by item_leb candidates)) <> 0%nat) by (rewrite E; done).
      rewrite length_drop in *. lia.
    + intros j Hj. by apply (take_sorted_before (fun a b => item_leb a b = true) 12 (order_by item_leb candidates)).
Qed.

(** ** What a dashboard shows *)

Section Shown.
Context (auth : AuthenticatedUser) (d : Db).

Abbreviation scope := (scope_of auth d).

Definition shown_card (r : Card.WorkCard) : Prop :=
  r ∈ work_cards d /\ visible scope (Card.owner_user_id r) (Card.maintainer_id r) = true.

Definition shown_event (e : Event.CalendarEvent) : Prop :=
  e ∈ calendar_events d /\ visible scope (Event.owner_user_id e) (Event.maintainer_id e) = true.

Definition shown_notification (v : View.NotificationView) : Prop :=
  exists n r, n ∈ notifications d /\ v = from_record n r /\
    visible scope (Notif.owner_user_id n) (Notif.maintainer_id n) = true.

(** A run is shown through a visible connector of its source. *)
Definition shown_run (r : Run.ConnectorRun) : Prop :=
  r ∈ connector_runs d /\ exists k, k ∈ connectors d /\ Connectors.source k = Run.source r /\
    visible scope (Connectors.owner_user_id k) (Connectors.maintainer_id k) = true.

(** What the catalog shows for a selected team and source: of the services, the packages and the
    health checks of the services. The catalog itself is open to every user. *)
Definition of_team (team : option Z) (id : Z) : Prop := forall m, team = Some m -> id = m.
Definition of_source (source : option string) (x : string) : Prop := forall s, source = Some s -> x = s.

Definition listed_service (team : option Z) (source : option string) (s : Svc.Service) : Prop :=
  s ∈ services d /\ of_team team (Svc.maintainer_id s) /\ of_source source (Svc.source s).

Definition listed_package (team : option Z) (p : Pkg.Package) : Prop :=
  p ∈ packages d /\ of_team team (Pkg.maintainer_id p).

(** A check of a service that satisfies [P]. *)
Definition check_of (P : Svc.Service -> Prop) (c : Check.ServiceHealthCheck) : Prop :=
  c ∈ service_health_checks d /\ exists s, s ∈ services d /\ Svc.id s = Check.service_id c /\ P s.

(** A history is computed from checks that satisfy [P] and lists no others. *)
Definition history_of (P : Check.ServiceHealthCheck -> Prop) (h : ServiceHealthHistory) : Prop :=
  exists checks, h = build_service_health_history checks HEALTH_HISTORY_WINDOW_HOURS /\ Forall P checks /\
    Forall P (recent_checks h) /\ Forall P (recent_incidents h).

Lemma history_shown (P : Check.ServiceHealthCheck -> Prop) checks :
  Forall P checks -> history_of P (build_service_health_history checks HEALTH_HISTORY_WINDOW_HOURS).
Proof.
  intros H. exists checks. split_and!; [done..|]. simpl. apply Forall_take.
  rewrite Forall_forall in *. intros c [Hc _]%elem_of_filter_b. by apply H.
Qed.

(** An item that concerns a single record concerns one that is shown. *)
Definition shown_item (services : list Svc.Service) (cards : list Card.WorkCard)
    (notifications : list View.NotificationView) (i : DashboardPriorityItem) : Prop :=
  record_id i = None \/
  (exists s, s ∈ services /\ i = service_item s) \/
  (exists r, r ∈ cards /\ shown_card r /\ i = card_item r) \/
  (exists v, v ∈ notifications /\ shown_notification v /\ i = notification_item v) \/
  (exists r, shown_run r /\ i = run_item r).

Lemma sees_any {E A} (m : M Db E A) : preserves (fun x => x = d) m -> sees d m (fun _ => True).
Proof. intros H c a c' Hc E'. specialize (H c Hc). rewrite E' in H. done. Qed.

Lemma scope_seen : sees d (record_access_scope auth) (fun access => access = scope).
Proof.
  eapply sees_bind.
  - apply sees_map_err. eapply sees_bind; [apply sees_select|].
    + instantiate (1 := fun l => l = List.filter (fun m => Member.user_id m =? Users.id (auth_user auth)) (rows d)).
      done.
    + intros l ->. apply sees_ret. instantiate (1 := fun l => l = _). done.
  - intros l ->. by apply sees_ret.
Qed.

Lemma limited_elem {A} n leb (l : list A) x : x ∈ limit n (order_by leb l) -> x ∈ l.
Proof.
  intros Hx. apply (elem_of_order_by leb).
  rewrite <- (take_drop (Z.to_nat n) (order_by leb l)). apply elem_of_app. by left.
Qed.

Lemma cards_seen n m s : sees d (find_open_for_access n m s scope) (Forall shown_card).
Proof.
  eapply sees_bind; [apply (sees_select _ _ (fun l => l = List.filter (open_for_access m s scope) (rows d))); done|].
  intros l ->. apply sees_ret, Forall_forall. intros x Hx%limited_elem.
  apply elem_of_filter_b in Hx as [Hx Hv]. split; [done|].
  unfold open_for_access in Hv. rewrite !andb_true_iff in Hv. by destruct Hv.
Qed.

Lemma events_seen n a b m s : sees d (find_upcoming_for_access n a b m s scope) (Forall shown_event).
Proof.
  eapply sees_bind; [apply sees_select; instantiate (1 := fun l => l = List.filter _ (rows d)); reflexivity|].
  intros l ->. apply sees_ret, Forall_forall. intros x Hx%limited_elem.
  apply elem_of_filter_b in Hx as [Hx Hv]. split; [done|].
  rewrite !andb_true_iff in Hv. by destruct Hv.
Qed.

Lemma views_from l rs v : v ∈ views_with l rs -> exists n r, n ∈ l /\ v = from_record n r.
Proof.
  revert rs. induction l as [|n l IH]; intros rs; simpl; [by intros []%elem_of_nil|].
  intros [->|Hv]%elem_of_cons; [exists n; eexists; split; [left|done]|].
  destruct (IH _ Hv) as (n' & r & Hn & ->). exists n', r. split; [by right|done].
Qed.

Lemma with_receipt_elem u row : row ∈ with_receipt u d -> fst row ∈ notifications d.
Proof.
  unfold with_receipt. rewrite list_elem_of_In, in_flat_map. intros (n & Hn%list_elem_of_In & Hr).
  destruct (List.filter _ _); simpl in Hr; [by destruct Hr as [<-|[]]|].
  destruct Hr as [<-|Hr]; [done|]. by apply in_map_iff in Hr as (r & <- & _).
Qed.

Lemma notifications_seen n m s : sees d (find_actionable_for_access n m s scope) (Forall shown_notification).
Proof.
  apply sees_now. intros now.
  eapply sees_bind; [apply sees_query; instantiate (1 := fun l => l = map fst _); reflexivity|].
  intros l ->. eapply sees_bind; [apply sees_any; unfold NotificationReceiptRepository.find_for_user_and_notifications; preserve|].
  intros rs _. apply sees_ret, Forall_forall. intros v (n' & r & Hn & ->)%views_from.
  apply limited_elem, list_elem_of_fmap in Hn as ([n1 r1] & -> & [Hrow Hv]%elem_of_filter_b).
  exists n1, r. split; [by apply (with_receipt_elem (user_id scope) (n1, r1))|]. split; [done|].
  simpl in Hv. rewrite !andb_true_iff in Hv. by destruct Hv.
Qed.

Lemma runs_seen n m s : sees d (find_failed_for_access n m s scope) (Forall shown_run).
Proof.
  eapply sees_bind; [apply sees_query; instantiate (1 := fun l => l = runs_for_access _ _ d); reflexivity|].
  intros l ->. apply sees_ret, Forall_forall. intros x Hx%limited_elem.
  apply elem_of_filter_b in Hx as [Hx Hk]. split; [done|].
  apply existsb_exists in Hk as (k & Hk%list_elem_of_In & Hv).
  rewrite !andb_true_iff, str_eqb_eq in Hv. exists k. naive_solver.
Qed.

Lemma team_spec team id :
  match team with Some m => id =? m | None => true end = true -> of_team team id.
Proof. intros H m ->. lia. Qed.

Lemma source_spec source x :
  match source with Some s => x =s s | None => true end = true -> of_source source x.
Proof. intros H s ->. by apply str_eqb_eq. Qed.

Lemma snapshot_seen n team source :
  sees d (ServiceRepository.find_health_snapshot_scoped n team source) (Forall (listed_service team source)).
Proof.
  eapply sees_bind; [apply sees_select; instantiate (1 := fun l => l = List.filter _ (rows d)); reflexivity|].
  intros l ->. apply sees_ret, Forall_forall. intros x Hx%limited_elem.
  apply elem_of_filter_b in Hx as [Hx [Ht Hs]%andb_prop]. split_and!; [done|by apply team_spec|by apply source_spec].
Qed.

Lemma team_packages_seen n team :
  sees d (PackageRepository.find_recent_for_maintainer n team) (Forall (listed_package team)).
Proof.
  eapply sees_bind; [apply sees_select; instantiate (1 := fun l => l = List.filter _ (rows d)); reflexivity|].
  intros l ->. apply sees_ret, Forall_forall. intros x Hx%limited_elem.
  apply elem_of_filter_b in Hx as [Hx Ht]. split; [done|by apply team_spec].
Qed.

(** The join of checks with their services. *)
Lemma joined_check keep (P : Svc.Service -> Prop) (Q : Check.ServiceHealthCheck -> Prop) c :
  c ∈ ServiceHealthCheckRepository.joined keep d ->
  (forall s, keep s c = true -> P s /\ Q c) -> check_of P c /\ Q c.
Proof.
  intros [Hc He]%elem_of_filter_b Hk. apply existsb_exists in He as (s & Hs%list_elem_of_In & [Hid%Z.eqb_eq Hkeep]%andb_prop).
  destruct (Hk s Hkeep) as [HP HQ]. split; [|done]. split; [done|]. by exists s.
Qed.

Lemma checks_seen n since team source :
  sees d (ServiceHealthCheckRepository.find_recent_scoped n since team source)
    (Forall (fun c => check_of (fun s => of_team team (Svc.maintainer_id s)) c /\ of_source source (Check.source c))).
Proof.
  eapply sees_bind; [apply sees_query; instantiate (1 := fun l => l = ServiceHealthCheckRepository.joined _ d); reflexivity|].
  intros l ->. apply sees_ret, Forall_forall. intros x Hx%limited_elem.
  apply (joined_check _ _ (fun c => of_source source (Check.source c)) x Hx). intros s. rewrite !andb_true_iff. intros [[_ Ht] Hs]. split; [by apply team_spec|by apply source_spec].
Qed.

Lemma any_id_spec x ids : existsb (Z.eqb x) ids = true -> x ∈ ids.
Proof. intros (y & Hy%list_elem_of_In & ->%Z.eqb_eq)%existsb_exists. done. Qed.

Lemma team_checks_seen n since ids :
  sees d (ServiceHealthCheckRepository.find_recent_for_maintainers n since ids)
    (Forall (check_of (fun s => Svc.maintainer_id s ∈ ids))).
Proof.
  destruct ids as [|i ids]; [by apply sees_ret|].
  eapply sees_bind; [apply sees_query; instantiate (1 := fun l => l = ServiceHealthCheckRepository.joined _ d); reflexivity|].
  intros l ->. apply sees_ret, Forall_forall. intros x Hx%limited_elem.
  apply (joined_check _ _ (fun _ => True) x Hx). intros s [_ Hi]%andb_prop. split; [|done]. by apply any_id_spec.
Qed.

(** The numbers of the summary count what is listed or visible. *)
Definition counted (team : option Z) (source : option string) (r : DashboardSummary) : Prop :=
  total_services r = Z.of_nat (length (List.filter (DashboardRepository.in_scope team source) (services d))) /\
  open_work_cards r = Z.of_nat (length (List.filter (open_for_access team source scope) (work_cards d))) /\
  exists now, unread_notifications r =
    Z.of_nat (length (List.filter (actionable now team source scope) (with_receipt (user_id scope) d))).

Lemma summary_seen team source :
  sees d (dashboard_summary (mkDashboardScope team source) scope) (counted team source).
Proof.
  unfold dashboard_summary. cbv zeta. cbn [scope_maintainer_id scope_source].
  eapply sees_bind; [apply sees_count; instantiate (1 := fun n => n = _); reflexivity|]. intros total ->.
  do 4 (eapply sees_bind; [apply sees_any; apply preserves_count|intros ? _]).
  eapply sees_bind; [apply sees_count; instantiate (1 := fun n => n = _); reflexivity|]. intros cards ->.
  eapply (sees_bind _ _ _ (fun n => exists now, n = Z.of_nat (length (List.filter (actionable now team source scope)
    (with_receipt (user_id scope) d))))); [apply sees_now; intros now; apply sees_query; by exists now|].
  intros unread Hu. by apply sees_ret.
Qed.

Context {ID : InstantDisplay}.

Lemma items_shown services cards ns runs context :
  Forall shown_card cards -> Forall shown_notification ns -> Forall shown_run runs ->
  Forall (shown_item services cards ns)
    (build_dashboard_priority_items services cards ns runs context).
Proof.
  rewrite !Forall_forall. intros Hc Hn Hr i Hi.
  assert (Hi' : i ∈ candidate_items services cards ns runs context).
  { apply (elem_of_order_by item_leb). unfold build_dashboard_priority_items in Hi.
    rewrite <- (take_drop 12 (order_by _ _)). apply elem_of_app. by left. }
  clear Hi. unfold candidate_items in Hi'. rewrite !elem_of_app in Hi'.
  destruct Hi' as [Hi|[Hi|[Hi|[Hi|[Hi|Hi]]]]].
  - left. unfold worker_item in Hi. destruct (worker_status context) as [w|]; [|by apply elem_of_nil in Hi].
    destruct (w =s "healthy"); [by apply elem_of_nil in Hi|]. by apply list_elem_of_singleton in Hi as ->.
  - left. unfold health_data_item in Hi. destruct (health_data_stale context); [|by apply elem_of_nil in Hi].
    by apply list_elem_of_singleton in Hi as ->.
  - apply list_elem_of_fmap in Hi as (x & -> & [Hx _]%elem_of_filter_b). right; left. eauto.
  - apply list_elem_of_fmap in Hi as (x & -> & [Hx _]%elem_of_filter_b). do 2 right; left. eauto.
  - apply list_elem_of_fmap in Hi as (x & -> & [Hx _]%elem_of_filter_b). do 3 right; left. eauto.
  - apply list_elem_of_fmap in Hi as (x & -> & Hx). do 4 right. eauto.
Qed.
End Shown.

(** Steps over the clock and over the reads of the operational state (the heartbeats of the
    workers, the last cleanup, whether the checks are stale), which every user is shown. *)
Ltac unexposed := first
  [ apply sees_now; intros ?
  | apply sees_or_panic; intros ? ?
  | eapply sees_bind; [apply sees_any; preserve; done|intros ? _] ].

Lemma stale_reads I now services latest_check : preserves I (is_health_data_stale now services latest_check).
Proof. unfold is_health_data_stale, hours_before. preserve. Qed.

Lemma history_reads I n since ids :
  preserves I (ServiceHealthCheckRepository.find_recent_for_maintainers n since ids).
Proof. unfold ServiceHealthCheckRepository.find_recent_for_maintainers. preserve. Qed.

Lemma services_reads I n ids : preserves I (ServiceRepository.find_for_maintainers n ids).
Proof. unfold ServiceRepository.find_for_maintainers. preserve. Qed.

Lemma packages_reads I n ids : preserves I (PackageRepository.find_recent_for_maintainers n ids).
Proof. unfold PackageRepository.find_recent_for_maintainers. preserve. Qed.

Lemma teams_reads {C : Collation} I auth memberships : preserves I (maintainers_of_user auth memberships).
Proof. unfold maintainers_of_user, MaintainerRepository.find_by_ids. preserve. Qed.

Lemma receipts_reads I u ids :
  preserves I (NotificationReceiptRepository.find_for_user_and_notifications u ids).
Proof. unfold NotificationReceiptRepository.find_for_user_and_notifications. preserve. Qed.

#[local] Hint Resolve stale_reads history_reads services_reads packages_reads teams_reads
  receipts_reads : portal.

Section Response.
Context {ID : InstantDisplay} (env : Environ) (auth : AuthenticatedUser) (d : Db).

Definition dashboard_discloses (m : option Z) (source : option string) (r : DashboardResponse) : Prop :=
  counted auth d m source (response_summary r) /\
  Forall (listed_service d m source) (response_service_health r) /\
  Forall (listed_package d m) (response_recent_packages r) /\
  history_of (fun c => check_of d (fun s => of_team m (Svc.maintainer_id s)) c /\ of_source source (Check.source c))
    (response_health_history r) /\
  Forall (shown_card auth d) (response_work_cards r) /\
  Forall (shown_event auth d) (response_calendar_events r) /\
  Forall (shown_notification auth d) (response_notifications r) /\
  Forall (shown_item auth d (response_service_health r) (response_work_cards r)
            (response_notifications r)) (response_priority_items r) /\
  (forall id, m = Some id -> auth_is_admin auth = true \/
     exists x, x ∈ maintainer_members d /\ Member.maintainer_id x = id /\
               Member.user_id x = Users.id (auth_user auth)).

Lemma dashboard_seen m s : sees d (dashboard env auth m s) (dashboard_discloses m s).
Proof.
  unfold dashboard. eapply sees_bind; [apply scope_seen|]. intros access ->.
  apply sees_now. intros now.
  eapply (sees_bind _ _ _ (fun _ => forall id, m = Some id -> auth_is_admin auth = true \/ id ∈ maintainer_ids (scope_of auth d))).
  { destruct m as [id|]; [|by apply sees_ret].
    destruct (negb _ && negb _) eqn:E; [apply sees_fail|apply sees_ret]. intros ? [= <-].
    apply andb_false_iff in E as [E|E]; apply negb_false_iff in E; [by left|right].
    apply existsb_exists in E as (x & Hx%list_elem_of_In & ->%Z.eqb_eq). done. }
  intros _ Hm. eapply sees_bind; [apply sees_map_err, summary_seen|]. intros summary Hsum.
  eapply sees_bind; [apply sees_map_err, snapshot_seen|]. intros services Hsvc.
  eapply sees_bind; [apply sees_map_err, cards_seen|]. intros cards Hc.
  eapply sees_bind; [apply sees_map_err, notifications_seen|]. intros ns Hn.
  unexposed. unexposed.
  eapply sees_bind; [apply sees_map_err, events_seen|]. intros events He.
  eapply sees_bind; [apply sees_map_err, runs_seen|]. intros runs Hr.
  eapply sees_bind; [apply sees_map_err, team_packages_seen|]. intros packages Hp.
  do 2 unexposed. eapply sees_bind; [apply sees_map_err, checks_seen|]. intros checks Hh.
  do 2 unexposed.
  destruct (summarize_workers _ _ _) as [[[status active] stale] seen] eqn:Hw.
  apply sees_ret. split_and!; try done.
  - by apply history_shown.
  - by apply items_shown.
  - intros id Hid. destruct (Hm id Hid) as [?|Hi]; [by left|right].
    simpl in Hi. apply list_elem_of_fmap in Hi as (x & -> & Hx).
    apply elem_of_order_by, elem_of_filter_b in Hx as [Hx Hu%Z.eqb_eq]. eauto.
Qed.

Definition own_team (id : Z) : Prop :=
  exists x, x ∈ maintainer_members d /\ Member.maintainer_id x = id /\
            Member.user_id x = Users.id (auth_user auth).

(** The overview of someone who is not an admin is about the own teams. *)
Definition overview_discloses (r : MeOverviewResponse) : Prop :=
  Forall (shown_card auth d) (me_open_work_cards r) /\
  Forall (shown_event auth d) (me_today_calendar_events r) /\
  Forall (shown_notification auth d) (me_unread_notifications r) /\
  Forall (shown_run auth d) (me_failed_connector_runs r) /\
  Forall (shown_item auth d (me_services r) (me_open_work_cards r)
            (me_unread_notifications r)) (me_priority_items r) /\
  (auth_is_admin auth = false ->
     Forall (fun s => own_team (Svc.maintainer_id s)) (me_services r) /\
     Forall (fun p => own_team (Pkg.maintainer_id p)) (me_packages r) /\
     Forall (fun m => own_team (Maint.id (mo_maintainer m))) (me_maintainers r) /\
     history_of (check_of d (fun s => own_team (Svc.maintainer_id s))) (me_health_history r)).

Lemma services_seen n ids :
  sees d (ServiceRepository.find_for_maintainers n ids) (Forall (fun s => Svc.maintainer_id s ∈ ids)).
Proof.
  destruct ids as [|i ids]; [by apply sees_ret|].
  eapply sees_bind; [apply sees_select; instantiate (1 := fun l => l = List.filter _ (rows d)); reflexivity|].
  intros l ->. apply sees_ret, Forall_forall. intros x Hx%limited_elem.
  apply elem_of_filter_b in Hx as [_ Hx]. by apply any_id_spec.
Qed.

Lemma packages_seen n ids :
  sees d (PackageRepository.find_recent_for_maintainers n ids) (Forall (fun p => Pkg.maintainer_id p ∈ ids)).
Proof.
  destruct ids as [|i ids]; [by apply sees_ret|].
  eapply sees_bind; [apply sees_select; instantiate (1 := fun l => l = List.filter _ (rows d)); reflexivity|].
  intros l ->. apply sees_ret, Forall_forall. intros x Hx%limited_elem.
  apply elem_of_filter_b in Hx as [_ Hx]. by apply any_id_spec.
Qed.

Lemma teams_seen {C : Collation} memberships :
  sees d (maintainers_of_user auth memberships) (fun l => auth_is_admin auth = false ->
    Forall (fun m => Maint.id m ∈ map Member.maintainer_id memberships) l).
Proof.
  unfold maintainers_of_user. destruct (auth_is_admin auth) eqn:Ea.
  { eapply sees_weaken; [apply sees_any|by intros]. destruct memberships; preserve. }
  assert (H : sees d (MaintainerRepository.find_by_ids (map Member.maintainer_id memberships))
    (fun l => false = false -> Forall (fun m => Maint.id m ∈ map Member.maintainer_id memberships) l)).
  { unfold MaintainerRepository.find_by_ids.
    destruct (map Member.maintainer_id memberships) as [|i ids]; [by apply sees_ret|].
    eapply sees_bind; [apply sees_select; instantiate (1 := fun l => l = List.filter _ (rows d)); reflexivity|].
    intros l ->. apply sees_ret. intros _. apply Forall_forall. intros x Hx%elem_of_order_by.
    apply elem_of_filter_b in Hx as [_ Hx]. by apply any_id_spec. }
  destruct memberships; exact H.
Qed.

Lemma memberships_seen :
  sees d (MaintainerMemberRepository.find_by_user (Users.id (auth_user auth))) (fun l =>
    map Member.maintainer_id l = maintainer_ids (scope_of auth d) /\
    forall id, id ∈ map Member.maintainer_id l -> own_team id).
Proof.
  eapply sees_bind; [apply sees_select; instantiate (1 := fun l => l = List.filter _ (rows d)); reflexivity|].
  intros l ->. apply sees_ret. split; [done|]. intros id (x & -> & Hx)%list_elem_of_fmap.
  apply elem_of_order_by, elem_of_filter_b in Hx as [Hx Hu%Z.eqb_eq]. by exists x.
Qed.

Lemma overview_seen {C : Collation} : sees d (me_overview env auth) overview_discloses.
Proof.
  unfold me_overview. eapply sees_bind; [apply sees_map_err, memberships_seen|]. intros ms [Hscope Hown].
  eapply sees_bind; [apply sees_map_err, teams_seen|]. intros teams Hteams.
  rewrite Hscope in *. fold (scope_of auth d).
  change (mkRecordAccessScope _ _ _) with (scope_of auth d).
  eapply sees_bind; [apply sees_map_err, services_seen|]. intros services Hs.
  eapply sees_bind; [apply sees_map_err, packages_seen|]. intros packages Hp.
  do 3 unexposed.
  eapply sees_bind; [apply sees_map_err, events_seen|]. intros events He.
  eapply sees_bind; [apply sees_map_err, cards_seen|]. intros cards Hc.
  eapply sees_bind; [apply sees_map_err, notifications_seen|]. intros ns Hn.
  eapply sees_bind; [apply sees_map_err, runs_seen|]. intros runs Hr.
  unexposed. eapply sees_bind; [apply sees_map_err, team_checks_seen|]. intros checks Hh.
  do 2 unexposed.
  destruct (summarize_workers _ _ _) as [[[status active] stale] seen] eqn:Hw.
  unexposed. apply sees_ret. split_and!; try done; [by apply items_shown|].
  intros Hadmin. specialize (Hteams Hadmin). rewrite Forall_forall in Hteams.
  pose proof (proj1 (Forall_forall _ _) Hs) as Hs'. pose proof (proj1 (Forall_forall _ _) Hp) as Hp'. simpl.
  assert (Hmine : forall id, id ∈ map Maint.id teams -> own_team id).
  { intros id (x & -> & Hx)%list_elem_of_fmap. by apply Hown, Hteams. }
  rewrite !Forall_forall. split_and!.
  - intros x Hx. by apply Hmine, Hs'.
  - intros x Hx. by apply Hmine, Hp'.
  - intros o (x & -> & Hx)%list_elem_of_fmap. simpl. apply Hmine, list_elem_of_fmap. by exists x.
  - apply history_shown. eapply Forall_impl; [exact Hh|]. intros h (Hin & x & Hx & Hid & Ht).
    split; [done|]. exists x. split_and!; [done..|by apply Hmine].
Qed.
End Response.

(** C30: the dashboard and the personal overview change nothing, and every record
    they return is one their reader may see. Cards, events, notifications and runs
    pass the visibility filter of the reader's scope, and the numbers of open cards and unread
    notifications count only such; a priority item about a single record is derived from one of
    these or from a listed service. Services, packages and health checks belong to the open
    catalog: the dashboard lists those of the selected team and source, and only an admin or a
    member can select a team; the overview of anyone else than an admin covers the services,
    packages and health checks of the own teams alone. *)
Theorem dashboards_show_only_visible {ID : InstantDisplay} {C : Collation} env auth m s (c : Conn Db) :
  db (snd (dashboard env auth m s c)) = db c /\ db (snd (me_overview env auth c)) = db c /\
  (forall r c', dashboard env auth m s c = (Ok r, c') -> dashboard_discloses auth (db c) m s r) /\
  (forall r c', me_overview env auth c = (Ok r, c') -> overview_discloses auth (db c) r).
Proof.
  split_and!.
  - assert (H : preserves (fun x => x = db c) (dashboard env auth m s)); [|by apply H].
    unfold dashboard. preserve.
  - assert (H : preserves (fun x => x = db c) (me_overview env auth)); [|by apply H].
    unfold me_overview. preserve.
  - intros r c' E. by apply (dashboard_seen env auth (db c) m s c r c').
  - intros r c' E. by apply (overview_seen env auth (db c) c r c').
Qed.

Definition plain_display : InstantDisplay := {| show_instant := int_to_string |}.
Definition byte_order : Collation := {| collate := String.compare |}.
Definition empty_environment : Environ := fun _ => NotPresent.

Lemma dashboards_show_only_visible_witness :
  exists r c', @dashboard plain_display empty_environment (plain_user 7) (Some 3) None
                 (calm team_db (100 * day) [] 9) = (Ok r, c') /\
               dashboard_discloses (plain_user 7) team_db (Some 3) None r.
Proof.
  eexists _, _. split; [vm_compute; reflexivity|].
  eapply (@dashboards_show_only_visible plain_display byte_order empty_environment (plain_user 7)
            (Some 3) None (calm team_db (100 * day) [] 9)).
  vm_compute. reflexivity.
Defined.

(** ** Services that are not listed *)

Definition a_service (id : Z) (health : string) (updated_at : Z) : Svc.Service :=
  Svc.mkService id 3 "svc" "Service" "active" health None None None None None 0 updated_at "mon" None.

(** Ten healthy services updated after one that is down. *)
Definition eleven_services : Db :=
  empty_db <| services := a_service 1 "down" 5 :: map (fun i => a_service (2 + Z.of_nat i) "healthy" 10) (seq 0 10) |>.

(** The dashboard looks for unhealthy services among the ten updated last only: a
    service that went down before these were touched is counted in the summary,
    but none of the priority items is about it. *)
Theorem old_outage_is_not_listed :
  exists r c', @dashboard plain_display empty_environment (plain_user 7) None None
                 (calm eleven_services (100 * day) [] 20) = (Ok r, c') /\
    down_services (response_summary r) = 1 /\
    Forall (fun i => kind i <> "service") (response_priority_items r).
Proof.
  eexists _, _. split; [vm_compute; reflexivity|]. split; [reflexivity|].
  repeat constructor; done.
Qed.
