(* ===== verification/Values.v ===== *)
(** JSON values: [serde_json::Value] with the accessors the portal uses. An object
    is its entries in key order, the order of the [BTreeMap] behind
    [serde_json::Map]; a float is kept as an opaque text. *)
From S2P Require Import Prelude Text.

Open Scope Z_scope.
Open Scope portal_scope.

Inductive number :=
  | PosInt (n : Z)
  | NegInt (n : Z)
  | Float (text : string).

Inductive value :=
  | Null
  | Bool (b : bool)
  | Number (n : number)
  | Str (s : string)
  | Array (items : list value)
  | Object (map : list (string * value)).

(** The printer and parser of serde_json: an error is its [Display] text. *)
Class SerdeValue := {
  value_from_str : string -> string + value;
  value_to_string : value -> string + string
}.

(** ** Accessors *)

Fixpoint lookup_key (k : string) (l : list (string * value)) : option value :=
  match l with
  | [] => None
  | (k', v) :: l' => if k' =s k then Some v else lookup_key k l'
  end.

(** [Value::get] with a text key. *)
Definition get (v : value) (k : string) : option value :=
  match v with Object l => lookup_key k l | _ => None end.

(** [fields.iter().find_map(|field| v.get(field))]: the first field that is
    present, whatever it holds. *)
Fixpoint first_field (v : value) (fields : list string) : option value :=
  match fields with
  | [] => None
  | f :: fs => match get v f with Some x => Some x | None => first_field v fs end
  end.

(** [Value::pointer] along keys; an array is never entered, since no pointer of the
    portal names an index. *)
Fixpoint pointer (v : value) (path : list string) : option value :=
  match path with
  | [] => Some v
  | k :: path' => match get v k with Some x => pointer x path' | None => None end
  end.

Definition as_str (v : value) : option string := match v with Str s => Some s | _ => None end.
Definition as_array (v : value) : option (list value) :=
  match v with Array l => Some l | _ => None end.
Definition as_object (v : value) : option (list (string * value)) :=
  match v with Object l => Some l | _ => None end.
Definition as_bool (v : value) : option bool := match v with Bool b => Some b | _ => None end.

Definition as_i64 (v : value) : option Z :=
  match v with
  | Number (PosInt n) => if n <=? i64_max then Some n else None
  | Number (NegInt n) => Some n
  | _ => None
  end.

Definition as_u64 (v : value) : option Z :=
  match v with Number (PosInt n) => Some n | _ => None end.

Definition is_object (v : value) : bool := match v with Object _ => true | _ => false end.
Definition is_array (v : value) : bool := match v with Array _ => true | _ => false end.
Definition is_boolean (v : value) : bool := match v with Bool _ => true | _ => false end.

(** ** Building objects *)

(** [Map::insert] and [Map::remove]: the entries stay in key order. *)
Fixpoint insert_key (k : string) (v : value) (l : list (string * value)) : list (string * value) :=
  match l with
  | [] => [(k, v)]
  | (k', v') :: l' =>
      match String.compare k k' with
      | Eq => (k, v) :: l'
      | Lt => (k, v) :: l
      | Gt => (k', v') :: insert_key k v l'
      end
  end.

Definition remove_key (k : string) (l : list (string * value)) : list (string * value) :=
  List.filter (fun e => negb (fst e =s k)) l.

(** [json!({ .. })]. *)
Definition json_object (l : list (string * value)) : value :=
  Object (foldl (fun m e => insert_key (fst e) (snd e) m) [] l).

Definition opt_value {A} (f : A -> value) (o : option A) : value :=
  match o with Some a => f a | None => Null end.

#[export] Instance number_eq_dec : EqDecision number.
Proof. solve_decision. Defined.

#[export] Instance value_eq_dec : EqDecision value.
Proof.
  unfold EqDecision, Decision. fix go 1. intros a b.
  destruct a as [|p|p|p|p|p], b as [|q|q|q|q|q]; try (right; discriminate); [by left|..].
  1-3: destruct (decide (p = q)) as [->|]; [by left|right; congruence].
  - destruct (List.list_eq_dec go p q) as [->|]; [by left|right; congruence].
  - destruct (List.list_eq_dec (@prod_eq_dec string _ value go) p q) as [->|]; [by left|right; congruence].
Defined.

(** ** Induction over values *)

Section Induction.
Variable P : value -> Prop.
Hypothesis H_null : P Null.
Hypothesis H_bool : forall b, P (Bool b).
Hypothesis H_number : forall n, P (Number n).
Hypothesis H_str : forall s, P (Str s).
Hypothesis H_array : forall l, Forall P l -> P (Array l).
Hypothesis H_object : forall l, Forall (fun e => P (snd e)) l -> P (Object l).

Fixpoint value_induction (v : value) : P v :=
  match v with
  | Null => H_null
  | Bool b => H_bool b
  | Number n => H_number n
  | Str s => H_str s
  | Array l => H_array l ((fix go l := match l return Forall P l with
                           | [] => List.Forall_nil P
                           | x :: l' => List.Forall_cons P x l' (value_induction x) (go l')
                           end) l)
  | Object l => H_object l ((fix go l := match l return Forall (fun e => P (snd e)) l with
                             | [] => List.Forall_nil _
                             | e :: l' => List.Forall_cons _ e l' (value_induction (snd e)) (go l')
                             end) l)
  end.
End Induction.

(** ** Well-formed values *)

(** The keys of a [Map] are distinct, at every level. *)
Inductive distinct_keys : value -> Prop :=
  | distinct_null : distinct_keys Null
  | distinct_bool b : distinct_keys (Bool b)
  | distinct_number n : distinct_keys (Number n)
  | distinct_str s : distinct_keys (Str s)
  | distinct_array l : Forall distinct_keys l -> distinct_keys (Array l)
  | distinct_object l : NoDup (map fst l) -> Forall (fun e => distinct_keys (snd e)) l ->
      distinct_keys (Object l).

Lemma lookup_key_here k v l : NoDup (map fst l) -> (k, v) ∈ l -> lookup_key k l = Some v.
Proof.
  induction l as [|[k' v'] l IH]; simpl; [by intros _ []%elem_of_nil|].
  rewrite NoDup_cons. intros [Hk Hl] [[= -> ->]|Hin]%elem_of_cons.
  - unfold str_eqb. by rewrite bool_decide_eq_true_2.
  - destruct (str_eqb_spec k' k) as [->|_]; [|by apply IH].
    destruct Hk. apply list_elem_of_fmap. by exists (k, v).
Qed.

Lemma lookup_insert_key k v l : lookup_key k (insert_key k v l) = Some v.
Proof.
  induction l as [|[k' v'] l IH]; simpl; [by rewrite str_eqb_refl|].
  destruct (String.compare k k') eqn:E; simpl; rewrite ?str_eqb_refl; [done..|].
  destruct (str_eqb_spec k' k) as [->|_]; [|done].
  pose proof (String.compare_antisym k k) as H. by rewrite E in H.
Qed.

Lemma lookup_insert_key_ne k k' v l : k <> k' -> lookup_key k' (insert_key k v l) = lookup_key k' l.
Proof.
  intros Hne. induction l as [|[x y] l IH]; simpl; [by rewrite (proj2 (str_eqb_neq k k'))|].
  destruct (String.compare k x) eqn:E; simpl.
  - apply String.compare_eq_iff in E as <-. by rewrite (proj2 (str_eqb_neq k k')).
  - by rewrite (proj2 (str_eqb_neq k k')).
  - by rewrite IH.
Qed.

Lemma lookup_remove_key k k' l :
  lookup_key k' (remove_key k l) = if k' =s k then None else lookup_key k' l.
Proof.
  unfold remove_key. induction l as [|[x y] l IH]; simpl; [by case_match|].
  destruct (str_eqb_spec x k) as [->|Hx]; simpl; rewrite IH.
  - destruct (str_eqb_spec k' k) as [->|Hk]; [done|]. by rewrite (proj2 (str_eqb_neq k k')).
  - destruct (str_eqb_spec k' k) as [->|Hk]; [by rewrite (proj2 (str_eqb_neq x k))|done].
Qed.
