(* ===== verification/Secrets.v ===== *)
(** Secrets in connector configurations: [src/src/crypto.rs]. SHA-256, AES-256-GCM,
    base64 and the random UUIDs the nonces come from are parameters. *)
From S2P Require Import Prelude Text Schema Values Config.
From Stdlib Require Import Ascii.

Open Scope Z_scope.
Open Scope portal_scope.

Definition ENCRYPTED_PREFIX : string := "enc:v1:".
Definition REDACTED_SECRET : string := "***redacted***".
Definition DEV_SECRET_KEY : string := "development-only-connector-secret-key".

Definition is_secret_key (key : string) : bool :=
  one_of_texts (to_ascii_lowercase key)
    ["personal_access_token"; "pat"; "token"; "password"; "secret"; "client_secret"; "api_key";
     "x-api-key"; "bearer_token"; "access_token"; "refresh_token"; "authorization"].

(** ** The key *)

Definition connector_secret_key (env : Environ) : Result string string :=
  match env "CONNECTOR_SECRET_KEY" with
  | Present secret_key =>
      if negb (is_empty (trim secret_key)) then inr secret_key
      else match env "APP_ENV" with
           | Present v => if v =s "production" then inl "CONNECTOR_SECRET_KEY must be set in production"
                          else inr DEV_SECRET_KEY
           | _ => inr DEV_SECRET_KEY
           end
  | _ => match env "APP_ENV" with
         | Present v => if v =s "production" then inl "CONNECTOR_SECRET_KEY must be set in production"
                        else inr DEV_SECRET_KEY
         | _ => inr DEV_SECRET_KEY
         end
  end.

(** ** Cipher, encoding and nonces *)

Class Aes256Gcm := {
  CipherKey : Type;
  sha256_digest : string -> string;
  new_from_slice : string -> option CipherKey;
  aead_encrypt : CipherKey -> string -> string -> option string;
  aead_decrypt : CipherKey -> string -> string -> option string
}.

(** [base64::STANDARD_NO_PAD]. *)
Class Base64 := {
  base64_encode : string -> string;
  base64_decode : string -> option string
}.

(** [base64::URL_SAFE_NO_PAD]. *)
Class UrlSafeBase64 := {
  url_safe_encode : string -> string;
  url_safe_decode : string -> option string
}.

(** The bytes of the UUIDs [Uuid::new_v4] returns, one after the other. *)
Class UuidSource := { uuid_bytes : nat -> string }.

(** Computations that draw UUIDs and may fail with a message. *)
Definition Rnd (A : Type) : Type := nat -> Result string A * nat.

Definition rnd_ret {A} (a : A) : Rnd A := fun n => (inr a, n).

Definition rnd_bind {A B} (m : Rnd A) (k : A -> Rnd B) : Rnd B := fun n =>
  match m n with
  | (inr a, n') => k a n'
  | (inl e, n') => (inl e, n')
  end.

Definition rnd_lift {A} (r : Result string A) : Rnd A := fun n => (r, n).

Section Secrets.
Context {AG : Aes256Gcm} {B64 : Base64} {US : UuidSource} (env : Environ).

Definition cipher : Result string CipherKey :=
  let? key_material := connector_secret_key env in
  some_or (new_from_slice (sha256_digest key_material))
    "connector secret key could not initialize AES-256-GCM".

Definition encrypt_secret (secret : string) : Rnd string := fun n =>
  match cipher with
  | inl e => (inl e, n)
  | inr key =>
      let nonce := String.substring 0 12 (uuid_bytes n) in
      (let? ciphertext := some_or (aead_encrypt key nonce secret)
                            "connector secret could not be encrypted" in
       inr (concat_str [ENCRYPTED_PREFIX; base64_encode nonce; ":"; base64_encode ciphertext]),
       S n)
  end.

Definition colon : Ascii.ascii := ":"%char.

Definition decrypt_secret (secret : string) : Result string string :=
  let? encrypted := some_or (str_strip_prefix ENCRYPTED_PREFIX secret)
                      "connector secret is not encrypted" in
  let? parts := some_or (split_once colon encrypted)
                  "connector secret has an invalid encrypted format" in
  let? nonce := some_or (base64_decode (fst parts)) "connector secret nonce is invalid" in
  let? ciphertext := some_or (base64_decode (snd parts))
                       "connector secret ciphertext is invalid" in
  guard? byte_len nonce =? 12 else "connector secret nonce has an invalid length" in
  let? key := cipher in
  let? plaintext := some_or (aead_decrypt key nonce ciphertext)
                      "connector secret could not be decrypted" in
  guard? utf8 (bytes plaintext) else "connector secret is not valid UTF-8" in
  inr plaintext.
End Secrets.

(** ** Walking a configuration *)

(** The recursion the functions below share: the value under a secret key is
    replaced by [leaf], everything else is walked, in key and index order. *)
Section Walk.
Variable leaf : value -> Rnd value.

Fixpoint walk (v : value) : Rnd value :=
  match v with
  | Object l =>
      rnd_bind ((fix go l := match l with
                 | [] => rnd_ret []
                 | (k, x) :: l' =>
                     rnd_bind (if is_secret_key k then leaf x else walk x) (fun x' =>
                     rnd_bind (go l') (fun l'' => rnd_ret ((k, x') :: l'')))
                 end) l) (fun l' => rnd_ret (Object l'))
  | Array l =>
      rnd_bind ((fix go l := match l with
                 | [] => rnd_ret []
                 | x :: l' => rnd_bind (walk x) (fun x' =>
                              rnd_bind (go l') (fun l'' => rnd_ret (x' :: l'')))
                 end) l) (fun l' => rnd_ret (Array l'))
  | v => rnd_ret v
  end.
End Walk.

Section Configurations.
Context {AG : Aes256Gcm} {B64 : Base64} {US : UuidSource} {SV : SerdeValue} (env : Environ).

Definition encrypt_leaf (v : value) : Rnd value :=
  match v with
  | Str secret =>
      if negb (starts_with secret ENCRYPTED_PREFIX) && negb (is_empty secret)
      then rnd_bind (encrypt_secret env secret) (fun s => rnd_ret (Str s))
      else rnd_ret (Str secret)
  | v => rnd_ret v
  end.

Definition encrypt_json_secrets : value -> Rnd value := walk encrypt_leaf.

Definition decrypt_leaf (v : value) : Rnd value :=
  match v with
  | Str secret =>
      if starts_with secret ENCRYPTED_PREFIX
      then rnd_bind (rnd_lift (decrypt_secret env secret)) (fun s => rnd_ret (Str s))
      else rnd_ret (Str secret)
  | v => rnd_ret v
  end.

Definition decrypt_json_secrets : value -> Rnd value := walk decrypt_leaf.

(** [map_err(|error| format!(prefix, error))] *)
Definition with_prefix {A} (prefix : string) (r : string + A) : Result string A :=
  match r with inl error => inl (String.append prefix error) | inr a => inr a end.

Definition parse_config (config : string) : Result string value :=
  with_prefix "connector config is not valid JSON: " (value_from_str config).

Definition print_config (v : value) : Result string string :=
  with_prefix "connector config could not be encoded: " (value_to_string v).

Definition encrypt_connector_config (config : string) : Rnd string :=
  rnd_bind (rnd_lift (parse_config config)) (fun v =>
  rnd_bind (encrypt_json_secrets v) (fun v =>
  rnd_lift (print_config v))).

Definition decrypt_connector_config (config : string) : Rnd string :=
  rnd_bind (rnd_lift (parse_config config)) (fun v =>
  rnd_bind (decrypt_json_secrets v) (fun v =>
  rnd_lift (print_config v))).
End Configurations.

(** ** Redaction *)

Fixpoint redact_json_secrets (v : value) : value :=
  match v with
  | Object l => Object (map (fun e => (fst e, if is_secret_key (fst e) then Str REDACTED_SECRET
                                              else redact_json_secrets (snd e))) l)
  | Array l => Array (map redact_json_secrets l)
  | v => v
  end.

Section Redaction.
Context {SV : SerdeValue}.

Definition redact_connector_config (config : string) : string :=
  match value_from_str config with
  | inl _ => config
  | inr v => match value_to_string (redact_json_secrets v) with
             | inr s => s
             | inl _ => config
             end
  end.

Definition truncated (max_chars : nat) (preview : string) : value :=
  Object [("_max_chars", Number (PosInt (Z.of_nat max_chars))); ("_preview", Str preview);
          ("_truncated", Bool true)].

(** The loop that shortens the preview; [None] when the fuel runs out. *)
Fixpoint shorten (fuel max_chars : nat) (snapshot : string) (preview_len : nat)
    : option (option string) :=
  match fuel with
  | O => None
  | S fuel =>
      match value_to_string (truncated max_chars (take_chars preview_len snapshot)) with
      | inl _ => Some None
      | inr wrapped =>
          let wrapped_len := char_count wrapped in
          if ((wrapped_len <=? max_chars) || (preview_len =? 1))%nat then Some (Some wrapped)
          else shorten fuel max_chars snapshot
                 (Nat.max (preview_len - (wrapped_len - max_chars)) 1)
      end
  end.

(** [to_value(value).ok()] is the argument. *)
Definition sanitized_json_snapshot (v : option value) (max_chars : nat) : option (option string) :=
  match v with
  | None => Some None
  | Some v =>
      match value_to_string (redact_json_secrets v) with
      | inl _ => Some None
      | inr snapshot =>
          if (char_count snapshot <=? max_chars)%nat then Some (Some snapshot)
          else let preview_len := Nat.max (max_chars - 128) 1 in
               shorten preview_len max_chars snapshot preview_len
      end
  end.

(** ** Keeping the stored secrets of an update *)

Fixpoint preserve_redacted_json_secrets (v : value) (existing_value : option value)
    : Result string value :=
  match v with
  | Object l =>
      let? l' := (fix go l := match l return Result string (list (string * value)) with
                  | [] => inr []
                  | (key, x) :: l' =>
                      let existing_child := existing_value ≫= fun e => get e key in
                      let? x' :=
                        (if is_secret_key key then
                           if bool_decide (as_str x = Some REDACTED_SECRET)
                           then some_or existing_child
                                  (String.append key " is redacted but no existing secret is stored")
                           else inr x
                         else preserve_redacted_json_secrets x existing_child) in
                      let? rest := go l' in
                      inr ((key, x') :: rest)
                  end) l in
      inr (Object l')
  | Array l =>
      let? l' := (fix go (index : nat) l := match l return Result string (list value) with
                  | [] => inr []
                  | x :: l' =>
                      let existing_child := (existing_value ≫= as_array) ≫= (fun items => items !! index) in
                      let? x' := preserve_redacted_json_secrets x existing_child in
                      let? rest := go (S index) l' in
                      inr (x' :: rest)
                  end) 0%nat l in
      inr (Array l')
  | v => inr v
  end.

Definition preserve_redacted_connector_config (config : string) (existing_config : option string)
    : Result string string :=
  let? v := parse_config config in
  let? existing_value :=
    match existing_config with
    | None => inr None
    | Some existing => let? e := with_prefix "existing connector config is not valid JSON: "
                                   (value_from_str existing) in inr (Some e)
    end in
  let? v := preserve_redacted_json_secrets v existing_value in
  print_config v.
End Redaction.
