(* ===== verification/SecretsSafety.v ===== *)
(** Properties of the secrets in connector configurations ([Secrets.v]): redaction
    reveals nothing about a secret, submitting a redacted configuration keeps the
    stored secrets, and encryption is undone by decryption. *)
From S2P Require Import Prelude Logic Text Schema Authn Values Config ConfigSafety Secrets.
From Stdlib Require Import Ascii.

Open Scope Z_scope.
Open Scope portal_scope.

(** ** Redaction *)

(** Two configurations that differ at most in the values of secret keys. *)
Inductive same_public : value -> value -> Prop :=
  | sp_null : same_public Null Null
  | sp_bool b : same_public (Bool b) (Bool b)
  | sp_number n : same_public (Number n) (Number n)
  | sp_str s : same_public (Str s) (Str s)
  | sp_array l l' : Forall2 same_public l l' -> same_public (Array l) (Array l')
  | sp_object l l' :
      Forall2 (fun e e' => fst e = fst e' /\
        (is_secret_key (fst e) = true \/ same_public (snd e) (snd e'))) l l' ->
      same_public (Object l) (Object l').

Definition redacted_entry (e : string * value) : string * value :=
  (fst e, if is_secret_key (fst e) then Str REDACTED_SECRET else redact_json_secrets (snd e)).

Lemma redact_object l : redact_json_secrets (Object l) = Object (map redacted_entry l).
Proof. reflexivity. Qed.

Lemma redact_same v w : redact_json_secrets v = redact_json_secrets w -> same_public v w.
Proof.
  revert w. induction v as [| | | |l IH|l IH] using value_induction; intros [] H;
    try discriminate H; try (injection H as ->; constructor); try constructor.
  - injection H as H. revert items H. induction IH as [|x l Hx _ IHl]; intros [|y l'] H; try done.
    injection H as H1 H2. constructor; auto.
  - rewrite !redact_object in H. injection H as H. rename map into l'. revert l' H.
    induction IH as [|e l He _ IHl]; intros [|e' l'] H; try done.
    simpl in H. injection H as H1 H2 H3.
    constructor; [|by apply IHl]. split; [done|].
    destruct (is_secret_key (fst e)) eqn:E; [by left|right]. rewrite <- H1, E in H2. by apply He.
Qed.

Lemma same_redact v w : same_public v w -> redact_json_secrets v = redact_json_secrets w.
Proof.
  revert w. induction v as [| | | |l IH|l IH] using value_induction; intros w H; inversion H; subst;
    try done.
  - simpl. f_equal. match goal with H : Forall2 _ _ _ |- _ => revert H end.
    clear H. revert l'. induction IH as [|x l Hx _ IHl]; intros l' H; inversion H; subst; [done|].
    simpl. f_equal; auto.
  - rewrite !redact_object. f_equal. match goal with H : Forall2 _ _ _ |- _ => revert H end.
    clear H. revert l'. induction IH as [|e l He _ IHl]; intros l' H; inversion H; subst; [done|].
    simpl. f_equal; [|by apply IHl].
    match goal with H : fst _ = fst _ /\ _ |- _ => destruct H as [Hk Hv] end.
    unfold redacted_entry. rewrite <- Hk. destruct (is_secret_key (fst e)); [done|].
    destruct Hv as [|Hv]; [done|]. by rewrite (He _ Hv).
Qed.

(** C31: what the API shows of a configuration is the same for two configurations
    exactly when they agree on everything but the values under secret keys: a
    reader learns nothing about a secret, not even whether it is set, and loses
    nothing else. *)
Theorem redaction_hides_exactly_secrets v w :
  redact_json_secrets v = redact_json_secrets w <-> same_public v w.
Proof. split; [apply redact_same|apply same_redact]. Qed.

(** ** Submitting a redacted configuration *)

(** The loops of [preserve_redacted_json_secrets], over entries and items. *)
Definition preserve_entries (existing : option value)
    : list (string * value) -> Result string (list (string * value)) :=
  fix go l :=
    match l with
    | [] => inr []
    | (key, x) :: l' =>
        let existing_child := existing ≫= fun e => get e key in
        let? x' := (if is_secret_key key then
                      if bool_decide (as_str x = Some REDACTED_SECRET)
                      then some_or existing_child
                             (String.append key " is redacted but no existing secret is stored")
                      else inr x
                    else preserve_redacted_json_secrets x existing_child) in
        let? rest := go l' in
        inr ((key, x') :: rest)
    end.

Definition preserve_items (existing : option value)
    : nat -> list value -> Result string (list value) :=
  fix go index l :=
    match l with
    | [] => inr []
    | x :: l' =>
        let? x' := preserve_redacted_json_secrets x
                     ((existing ≫= as_array) ≫= (fun items => items !! index)) in
        let? rest := go (S index) l' in
        inr (x' :: rest)
    end.

Lemma preserve_object l e :
  preserve_redacted_json_secrets (Object l) e = let? l' := preserve_entries e l in inr (Object l').
Proof. reflexivity. Qed.

Lemma preserve_array l e :
  preserve_redacted_json_secrets (Array l) e = let? l' := preserve_items e 0 l in inr (Array l').
Proof. reflexivity. Qed.

Lemma preserve_redacted v :
  distinct_keys v -> preserve_redacted_json_secrets (redact_json_secrets v) (Some v) = inr v.
Proof.
  induction v as [| | | |l IH|l IH] using value_induction; intros Hv; try done; inversion Hv as [| | | |? Hl|? Hn Hl]; subst.
  - simpl redact_json_secrets. rewrite preserve_array.
    assert (H : forall pre suf, l = pre ++ suf ->
      preserve_items (Some (Array l)) (length pre) (map redact_json_secrets suf) = inr suf);
      [|specialize (H [] l eq_refl); simpl length in H; by rewrite H].
    intros pre suf. revert pre. induction suf as [|x suf IHs]; intros pre ->; simpl; [done|].
    rewrite list_lookup_middle by done. rewrite Forall_app, Forall_cons in IH, Hl.
    destruct IH as (_ & IHx & _), Hl as (_ & Hx & _). rewrite (IHx Hx). simpl.
    specialize (IHs (pre ++ [x])). rewrite length_app, Nat.add_comm, <- app_assoc in IHs.
    simpl in IHs. by rewrite IHs.
  - rewrite redact_object, preserve_object.
    assert (H : forall suf, suf ⊆ l -> preserve_entries (Some (Object l)) (map redacted_entry suf) = inr suf);
      [|by rewrite (H l)].
    induction suf as [|[k x] suf IHs]; intros Hsub; simpl; [done|].
    rewrite (lookup_key_here k x l Hn) by (apply Hsub; left).
    rewrite IHs by (intros e He; apply Hsub; by right).
    assert (Hin : (k, x) ∈ l) by (apply Hsub; left).
    rewrite Forall_forall in IH, Hl. destruct (is_secret_key k); simpl; [done|].
    pose proof (IH _ Hin (Hl _ Hin)) as Hx. simpl in Hx. by rewrite Hx.
Qed.

(** ** Encryption *)

(** The loops of [walk]. *)
Definition walk_entries (leaf : value -> Rnd value) : list (string * value) -> Rnd (list (string * value)) :=
  fix go l :=
    match l with
    | [] => rnd_ret []
    | (k, x) :: l' =>
        rnd_bind (if is_secret_key k then leaf x else walk leaf x) (fun x' =>
        rnd_bind (go l') (fun l'' => rnd_ret ((k, x') :: l'')))
    end.

Definition walk_items (leaf : value -> Rnd value) : list value -> Rnd (list value) :=
  fix go l :=
    match l with
    | [] => rnd_ret []
    | x :: l' => rnd_bind (walk leaf x) (fun x' =>
                 rnd_bind (go l') (fun l'' => rnd_ret (x' :: l'')))
    end.

Lemma walk_object leaf l :
  walk leaf (Object l) = rnd_bind (walk_entries leaf l) (fun l' => rnd_ret (Object l')).
Proof. reflexivity. Qed.

Lemma walk_array leaf l :
  walk leaf (Array l) = rnd_bind (walk_items leaf l) (fun l' => rnd_ret (Array l')).
Proof. reflexivity. Qed.

(** Every value under a secret key, outside of secrets, is in [P]. *)
Inductive secrets_in (P : value -> Prop) : value -> Prop :=
  | si_null : secrets_in P Null
  | si_bool b : secrets_in P (Bool b)
  | si_number n : secrets_in P (Number n)
  | si_str s : secrets_in P (Str s)
  | si_array l : Forall (secrets_in P) l -> secrets_in P (Array l)
  | si_object l :
      Forall (fun e => (is_secret_key (fst e) = true -> P (snd e)) /\
                       (is_secret_key (fst e) = false -> secrets_in P (snd e))) l ->
      secrets_in P (Object l).

Lemma rnd_bind_inv {A B} (m : Rnd A) (k : A -> Rnd B) n b n' :
  rnd_bind m k n = (inr b, n') -> exists a n1, m n = (inr a, n1) /\ k a n1 = (inr b, n').
Proof. unfold rnd_bind. destruct (m n) as [[e|a] n1]; [done|]. intros H. by exists a, n1. Qed.

(** Walking back: if [back] undoes [leaf] on the secrets of [v], walking with
    [back] undoes walking with [leaf]. *)
Lemma walk_inverse (leaf back : value -> Rnd value) (P : value -> Prop) v :
  (forall x y n n' m, P x -> leaf x n = (inr y, n') -> back y m = (inr x, m)) ->
  secrets_in P v ->
  forall n w n' m, walk leaf v n = (inr w, n') -> walk back w m = (inr v, m).
Proof.
  intros Hleaf. induction v as [|b|num|str|l IH|l IH] using value_induction; intros Hv n w n' m Hw;
    try (injection Hw as <- _; reflexivity); inversion Hv as [| | | |? Hl|? Hl]; subst; clear Hv.
  - rewrite walk_array in Hw. apply rnd_bind_inv in Hw as (l' & n1 & Hw & [= <- _]).
    assert (H : walk_items back l' m = (inr l, m)); [|by rewrite walk_array; unfold rnd_bind; rewrite H].
    revert n l' n1 Hw. induction l as [|x l IHl]; intros n l' n1 Hw; [by injection Hw as <- _|].
    apply rnd_bind_inv in Hw as (x' & n2 & Hx & Hw). apply rnd_bind_inv in Hw as (l'' & n3 & Hr & [= <- _]).
    rewrite Forall_cons in IH, Hl. destruct IH as [IHx IH], Hl as [Hx' Hl].
    simpl. unfold rnd_bind at 1. rewrite (IHx Hx' _ _ _ m Hx). unfold rnd_bind.
    by rewrite (IHl IH Hl _ _ _ Hr).
  - rewrite walk_object in Hw. apply rnd_bind_inv in Hw as (l' & n1 & Hw & [= <- _]).
    assert (H : walk_entries back l' m = (inr l, m)); [|by rewrite walk_object; unfold rnd_bind; rewrite H].
    revert n l' n1 Hw. induction l as [|[k x] l IHl]; intros n l' n1 Hw; [by injection Hw as <- _|].
    apply rnd_bind_inv in Hw as (x' & n2 & Hx & Hw). apply rnd_bind_inv in Hw as (l'' & n3 & Hr & [= <- _]).
    rewrite Forall_cons in IH, Hl. destruct IH as [IHx IH], Hl as [Hx' Hl]. simpl in Hx', IHx.
    simpl. unfold rnd_bind at 1.
    assert ((if is_secret_key k then back x' else walk back x') m = (inr x, m)) as ->.
    { destruct Hx' as [Hs Hp]. destruct (is_secret_key k); [eapply Hleaf; [by apply Hs|exact Hx]|].
      eapply IHx; [by apply Hp|exact Hx]. }
    unfold rnd_bind. by rewrite (IHl IH Hl _ _ _ Hr).
Qed.

(** Two values that agree except under secret keys, where they are related by [R]. *)
Inductive secrets_related (R : value -> value -> Prop) : value -> value -> Prop :=
  | sr_null : secrets_related R Null Null
  | sr_bool b : secrets_related R (Bool b) (Bool b)
  | sr_number n : secrets_related R (Number n) (Number n)
  | sr_str s : secrets_related R (Str s) (Str s)
  | sr_array l l' : Forall2 (secrets_related R) l l' -> secrets_related R (Array l) (Array l')
  | sr_object l l' :
      Forall2 (fun e e' => fst e = fst e' /\
        ((is_secret_key (fst e) = true /\ R (snd e) (snd e')) \/
         (is_secret_key (fst e) = false /\ secrets_related R (snd e) (snd e')))) l l' ->
      secrets_related R (Object l) (Object l').

(** What [leaf] makes of the secrets ends up under the secret keys, and nothing else moves. *)
Lemma walk_result (leaf : value -> Rnd value) (P : value -> Prop) (R : value -> value -> Prop) v :
  (forall x n, P x -> exists y n', leaf x n = (inr y, n') /\ R x y) ->
  secrets_in P v -> forall n, exists w n', walk leaf v n = (inr w, n') /\ secrets_related R v w.
Proof.
  intros Hleaf. induction v as [|b|num|str|l IH|l IH] using value_induction; intros Hv n;
    try (by eexists _, _; split; [reflexivity|constructor]);
    inversion Hv as [| | | |? Hl|? Hl]; subst; clear Hv.
  - assert (H : exists l' n', walk_items leaf l n = (inr l', n') /\ Forall2 (secrets_related R) l l').
    { revert n. induction l as [|x l IHl]; intros n; [by exists [], n|].
      rewrite Forall_cons in IH, Hl. destruct IH as [IHx IH], Hl as [Hx Hl].
      destruct (IHx Hx n) as (y & n1 & Ey & Ry). destruct (IHl IH Hl n1) as (l' & n2 & El & Rl).
      exists (y :: l'), n2. simpl. unfold rnd_bind at 1. rewrite Ey. unfold rnd_bind. rewrite El.
      split; [done|by constructor]. }
    destruct H as (l' & n' & E & Hr). exists (Array l'), n'. rewrite walk_array.
    unfold rnd_bind. rewrite E. split; [done|by constructor].
  - assert (H : exists l' n', walk_entries leaf l n = (inr l', n') /\
       Forall2 (fun e e' => fst e = fst e' /\
         ((is_secret_key (fst e) = true /\ R (snd e) (snd e')) \/
          (is_secret_key (fst e) = false /\ secrets_related R (snd e) (snd e')))) l l').
    { revert n. induction l as [|[k x] l IHl]; intros n; [by exists [], n|].
      rewrite Forall_cons in IH, Hl. destruct IH as [IHx IH], Hl as [[Hs Hp] Hl]. simpl in Hs, Hp, IHx.
      assert (Hx : exists y n1, (if is_secret_key k then leaf x else walk leaf x) n = (inr y, n1) /\
         ((is_secret_key k = true /\ R x y) \/ (is_secret_key k = false /\ secrets_related R x y))).
      { destruct (is_secret_key k).
        - destruct (Hleaf x n (Hs eq_refl)) as (y & n1 & E & Ry). exists y, n1. auto.
        - destruct (IHx (Hp eq_refl) n) as (y & n1 & E & Ry). exists y, n1. auto. }
      destruct Hx as (y & n1 & Ey & Ry). destruct (IHl IH Hl n1) as (l' & n2 & El & Rl).
      exists ((k, y) :: l'), n2. simpl. unfold rnd_bind at 1. rewrite Ey. unfold rnd_bind. rewrite El.
      split; [done|by constructor]. }
    destruct H as (l' & n' & E & Hr). exists (Object l'), n'. rewrite walk_object.
    unfold rnd_bind. rewrite E. split; [done|by constructor].
Qed.

Lemma walk_fixpoint (leaf : value -> Rnd value) (P : value -> Prop) v :
  (forall x n, P x -> leaf x n = (inr x, n)) -> secrets_in P v -> forall n, walk leaf v n = (inr v, n).
Proof.
  intros Hleaf. induction v as [|b|num|str|l IH|l IH] using value_induction; intros Hv n; try done;
    inversion Hv as [| | | |? Hl|? Hl]; subst; clear Hv.
  - assert (H : forall n, walk_items leaf l n = (inr l, n)); [|by rewrite walk_array; unfold rnd_bind; rewrite H].
    clear n. induction l as [|x l IHl]; intros n; [done|].
    rewrite Forall_cons in IH, Hl. destruct IH as [IHx IH], Hl as [Hx Hl].
    simpl. unfold rnd_bind at 1. rewrite (IHx Hx). unfold rnd_bind. by rewrite (IHl IH Hl).
  - assert (H : forall n, walk_entries leaf l n = (inr l, n)); [|by rewrite walk_object; unfold rnd_bind; rewrite H].
    clear n. induction l as [|[k x] l IHl]; intros n; [done|].
    rewrite Forall_cons in IH, Hl. destruct IH as [IHx IH], Hl as [[Hs Hp] Hl]. simpl in Hs, Hp, IHx.
    simpl. unfold rnd_bind at 1.
    assert ((if is_secret_key k then leaf x else walk leaf x) n = (inr x, n)) as ->.
    { destruct (is_secret_key k); [by apply Hleaf, Hs|by apply IHx, Hp]. }
    unfold rnd_bind. by rewrite (IHl IH Hl).
Qed.

(** A stored secret text carries the encryption prefix or is empty. Encryption covers text only:
    values of other types are stored as they are. *)
Definition sealed (v : value) : Prop :=
  match v with Str s => starts_with s ENCRYPTED_PREFIX = true \/ s = "" | _ => True end.

(** A submitted secret: text that does not look encrypted, or no text. *)
Definition plain (v : value) : Prop :=
  match v with
  | Str s => utf8 (bytes s) = true /\ starts_with s ENCRYPTED_PREFIX = false
  | _ => True
  end.

Lemma str_app_nil_r s : String.append s "" = s.
Proof. induction s as [|a s IH]; [done|]. by rewrite str_app_cons, IH. Qed.

Lemma prefixed t : starts_with (String.append ENCRYPTED_PREFIX t) ENCRYPTED_PREFIX = true.
Proof.
  unfold starts_with, ENCRYPTED_PREFIX. rewrite !str_app_cons, str_app_nil. by destruct t.
Qed.

Section Laws.
Context {AG : Aes256Gcm} {B64 : Base64} {US : UuidSource} (env : Environ) (key : CipherKey).

(** AES-GCM decrypts what it encrypted under the same key and nonce, base64
    decodes what it encoded and has no colon in its alphabet, and a UUID has
    sixteen bytes. *)
Hypothesis aead_encrypts : forall n p, exists c, aead_encrypt key n p = Some c.
Hypothesis aead_inverse : forall n p c, aead_encrypt key n p = Some c -> aead_decrypt key n c = Some p.
Hypothesis base64_inverse : forall s, base64_decode (base64_encode s) = Some s.
Hypothesis base64_alphabet : forall s, all_chars (fun a => negb (Ascii.eqb a colon)) (base64_encode s) = true.
Hypothesis uuid_length : forall i, String.length (uuid_bytes i) = 16%nat.
Hypothesis cipher_ready : cipher env = inr key.

Lemma split_once_append s t :
  all_chars (fun a => negb (Ascii.eqb a colon)) s = true ->
  split_once colon (String.append s (String colon t)) = Some (s, t).
Proof.
  induction s as [|a s IH]; [done|]. rewrite str_app_cons. cbn [all_chars split_once].
  intros [Ha Hs]%andb_true_iff. apply negb_true_iff in Ha. rewrite Ha, (IH Hs). done.
Qed.

Lemma nonce_length i : byte_len (String.substring 0 12 (uuid_bytes i)) = 12.
Proof.
  specialize (uuid_length i). unfold byte_len. remember (uuid_bytes i) as u. clear Hequ.
  do 12 (destruct u as [|? u]; [simpl in uuid_length; lia|]). by destruct u.
Qed.

Lemma secret_round_trip s n :
  utf8 (bytes s) = true -> exists e, encrypt_secret env s n = (inr e, S n) /\
    starts_with e ENCRYPTED_PREFIX = true /\ decrypt_secret env e = inr s.
Proof.
  intros Hs. unfold encrypt_secret. rewrite cipher_ready.
  set (nonce := String.substring 0 12 (uuid_bytes n)).
  destruct (aead_encrypts nonce s) as [c Hc]. rewrite Hc. cbn [some_or and_then].
  eexists. split; [reflexivity|]. split; [apply prefixed|].
  unfold decrypt_secret.
  assert (Hstrip : forall t, str_strip_prefix ENCRYPTED_PREFIX (String.append ENCRYPTED_PREFIX t) = Some t) by reflexivity.
  cbn [concat_str foldr]. rewrite Hstrip. cbn [some_or and_then].
  change (String.append ":" (String.append (base64_encode c) ""))
    with (String colon (String.append (base64_encode c) "")).
  rewrite (split_once_append _ _ (base64_alphabet nonce)). cbn [some_or and_then fst snd].
  rewrite str_app_nil_r, !base64_inverse. cbn [some_or and_then].
  unfold nonce at 1. rewrite nonce_length, cipher_ready. cbn [Z.eqb some_or and_then].
  change (12 =? 12) with true. cbn iota. rewrite (aead_inverse _ _ _ Hc). cbn [some_or and_then]. by rewrite Hs.
Qed.

(** What encryption makes of the value [x] under a secret key: a non-empty text becomes a
    prefixed text that decrypts to it, everything else stays. *)
Definition encrypted (x y : value) : Prop :=
  match x with
  | Str s => if is_empty s then y = x
             else exists e, y = Str e /\ starts_with e ENCRYPTED_PREFIX = true /\ decrypt_secret env e = inr s
  | _ => y = x
  end.

Lemma sealing x n : plain x -> exists y n', encrypt_leaf env x n = (inr y, n') /\ encrypted x y.
Proof.
  destruct x as [| | |s| |]; intros Hx; try (by eexists _, _; split; [reflexivity|]).
  destruct Hx as [Hu Hp]. simpl. rewrite Hp. destruct (is_empty s) eqn:E; simpl; [by eexists _, _|].
  destruct (secret_round_trip s n Hu) as (e & He & Hs & Hd). unfold rnd_bind. rewrite He. by eauto 10.
Qed.

Lemma unsealing x y n n' m :
  plain x -> encrypt_leaf env x n = (inr y, n') -> decrypt_leaf env y m = (inr x, m).
Proof.
  destruct x as [| | |s| |]; intros Hx E; try (by injection E as <- <-).
  destruct Hx as [Hu Hp]. simpl in E. rewrite Hp in E. destruct (is_empty s) eqn:Es; simpl in E.
  - injection E as <- <-. simpl. by rewrite Hp.
  - destruct (secret_round_trip s n Hu) as (e & He & Hs & Hd). unfold rnd_bind in E. rewrite He in E.
    injection E as <- _. simpl. rewrite Hs. unfold rnd_bind, rnd_lift. by rewrite Hd.
Qed.

Lemma sealed_stays x n : sealed x -> encrypt_leaf env x n = (inr x, n).
Proof.
  destruct x as [| | |s| |]; intros Hx; try done. destruct Hx as [Hx| ->]; [|done].
  simpl. by rewrite Hx.
Qed.

(** C32: in a process whose key is available, encryption of a configuration whose secret texts
    are plain succeeds and is exact: each non-empty text under a secret key becomes a prefixed
    text that decrypts to it, and everything else (empty texts, numbers, lists and objects under
    secret keys, every value under other keys) is stored as it is; decrypting the stored
    configuration returns the submitted one. *)
Theorem encryption_round_trip v n m :
  secrets_in plain v ->
  exists w n', encrypt_json_secrets env v n = (inr w, n') /\ secrets_related encrypted v w /\
    decrypt_json_secrets env w m = (inr v, m).
Proof.
  intros Hv. destruct (walk_result (encrypt_leaf env) plain encrypted v sealing Hv n) as (w & n' & E & Hs).
  exists w, n'. split_and!; [done..|]. by apply (walk_inverse _ _ plain v unsealing Hv n w n' m).
Qed.
End Laws.

(** A cipher that keeps the text, an encoding in nibbles and constant UUIDs. *)
Definition nibble (n : nat) : ascii := ascii_of_nat (97 + n).
Definition of_nibble (a : ascii) : nat := nat_of_ascii a - 97.

Fixpoint to_nibbles (s : string) : string :=
  match s with
  | EmptyString => EmptyString
  | String a s' => String (nibble (nat_of_ascii a / 16)) (String (nibble (nat_of_ascii a mod 16)) (to_nibbles s'))
  end.

Fixpoint of_nibbles (s : string) : option string :=
  match s with
  | EmptyString => Some EmptyString
  | String a (String b s') => String (ascii_of_nat (16 * of_nibble a + of_nibble b)) <$> of_nibbles s'
  | _ => None
  end.

Lemma nibble_inverse a :
  ascii_of_nat (16 * of_nibble (nibble (nat_of_ascii a / 16)) + of_nibble (nibble (nat_of_ascii a mod 16))) = a.
Proof. destruct a as [[] [] [] [] [] [] [] []]; vm_compute; reflexivity. Qed.

Lemma nibbles_inverse s : of_nibbles (to_nibbles s) = Some s.
Proof.
  induction s as [|a s IH]; [done|]. cbn [to_nibbles of_nibbles]. rewrite IH, nibble_inverse. reflexivity.
Qed.

Lemma nibble_letter n a : (n < 16)%nat -> a = nibble n -> Ascii.eqb a colon = false.
Proof. intros Hn ->. do 16 (destruct n as [|n]; [reflexivity|]). lia. Qed.

Lemma nibbles_alphabet s : all_chars (fun a => negb (Ascii.eqb a colon)) (to_nibbles s) = true.
Proof.
  induction s as [|a s IH]; [done|]. cbn [to_nibbles all_chars]. rewrite IH.
  rewrite (nibble_letter (nat_of_ascii a / 16)), (nibble_letter (nat_of_ascii a mod 16)); try done.
  - apply Nat.mod_upper_bound. lia.
  - apply Nat.Div0.div_lt_upper_bound. pose proof (nat_ascii_bounded a). lia.
Qed.

Definition plain_cipher : Aes256Gcm :=
  {| CipherKey := unit; sha256_digest := id; new_from_slice := fun _ => Some tt;
     aead_encrypt := fun _ _ p => Some p; aead_decrypt := fun _ _ c => Some c |}.
Definition nibble_encoding : Base64 := {| base64_encode := to_nibbles; base64_decode := of_nibbles |}.
Definition constant_uuids : UuidSource := {| uuid_bytes := fun _ => "0123456789abcdef" |}.

Definition a_config : value :=
  Object [("adapter", Str "azure_devops"); ("pat", Str "s3cret"); ("timeout_seconds", Number (PosInt 15))].

Lemma a_config_plain : secrets_in plain a_config.
Proof. repeat constructor; intros; try done; vm_compute in *; try discriminate; constructor. Qed.

Lemma encryption_round_trip_witness :
  exists w n', @encrypt_json_secrets plain_cipher nibble_encoding constant_uuids (fun _ => NotPresent) a_config 0%nat
                 = (inr w, n') /\
    secrets_related (@encrypted plain_cipher nibble_encoding (fun _ => NotPresent)) a_config w /\
    @decrypt_json_secrets plain_cipher nibble_encoding (fun _ => NotPresent) w 5%nat = (inr a_config, 5%nat).
Proof.
  apply (@encryption_round_trip plain_cipher nibble_encoding constant_uuids (fun _ => NotPresent) tt).
  - intros n p. by exists p.
  - intros n p c [= ->]. reflexivity.
  - exact nibbles_inverse.
  - exact nibbles_alphabet.
  - reflexivity.
  - reflexivity.
  - exact a_config_plain.
Defined.

(** A secret that is no text is stored as it is. *)
Theorem other_secrets_stay_plain {AG : Aes256Gcm} {B64 : Base64} {US : UuidSource} env n :
  encrypt_json_secrets env (Object [("client_secret", Number (PosInt 123456)); ("secret", Object [("value", Str "x")])]) n =
  (inr (Object [("client_secret", Number (PosInt 123456)); ("secret", Object [("value", Str "x")])]), n).
Proof. reflexivity. Qed.

(** ** The stored configuration survives a redacted update *)

(** reading a stored configuration from the API and submitting it again
    stores the same text: the redacted secrets are taken from the stored
    configuration and stay encrypted as they are. *)
Theorem redacted_update_keeps_configuration {AG : Aes256Gcm} {B64 : Base64} {US : UuidSource}
    {SV : SerdeValue} env stored shown v n :
  value_from_str stored = inr v -> value_to_string v = inr stored ->
  value_to_string (redact_json_secrets v) = inr shown -> value_from_str shown = inr (redact_json_secrets v) ->
  distinct_keys v -> secrets_in sealed v ->
  redact_connector_config stored = shown /\
  preserve_redacted_connector_config shown (Some stored) = inr stored /\
  encrypt_connector_config env stored n = (inr stored, n).
Proof.
  intros Hp Hs Hr Hq Hd He. split_and!.
  - unfold redact_connector_config. by rewrite Hp, Hr.
  - unfold preserve_redacted_connector_config, parse_config, print_config. rewrite Hq, Hp.
    cbn [with_prefix and_then]. rewrite (preserve_redacted v Hd). cbn [and_then]. by rewrite Hs.
  - unfold encrypt_connector_config, parse_config, print_config, rnd_bind, rnd_lift. rewrite Hp.
    cbn [with_prefix]. unfold encrypt_json_secrets.
    rewrite (walk_fixpoint _ sealed v (sealed_stays env) He). by rewrite Hs.
Qed.

(** A printer and parser of the two configurations at hand. *)
Definition sealed_config (pat : string) : value := Object [("adapter", Str "erp"); ("pat", Str pat)].

Definition two_configs : SerdeValue := {|
  value_from_str := fun s => inr (sealed_config (if s =s "stored" then "enc:v1:abc:def" else REDACTED_SECRET));
  value_to_string := fun v => match get v "pat" with
                              | Some (Str s) => inr (if s =s REDACTED_SECRET then "shown" else "stored")
                              | _ => inl "unknown"
                              end
|}.

Lemma redacted_update_keeps_configuration_witness :
  @redact_connector_config two_configs "stored" = "shown" /\
  @preserve_redacted_connector_config two_configs "shown" (Some "stored") = inr "stored" /\
  @encrypt_connector_config plain_cipher nibble_encoding constant_uuids two_configs
    (fun _ => NotPresent) "stored" 3%nat = (inr "stored", 3%nat).
Proof.
  apply (@redacted_update_keeps_configuration plain_cipher nibble_encoding constant_uuids two_configs
    (fun _ => NotPresent) "stored" "shown" (sealed_config "enc:v1:abc:def")); try reflexivity.
  - repeat constructor; set_solver.
  - repeat constructor; intros; try done; vm_compute in *; try discriminate; try constructor; reflexivity.
Defined.

(** ** The key of a production process *)

(** A process that starts in production encrypts with the configured key, which
    has at least 32 bytes; the built-in key is never the fallback there. *)
Theorem production_key_is_configured {UP : UrlParser} {UU : UuidParser} env c :
  from_env env = inr c -> environment c = "production" ->
  exists k, env "CONNECTOR_SECRET_KEY" = Present k /\ connector_secret_key env = inr k /\ 32 <= byte_len k.
Proof.
  intros H Hp. apply accepted_environment in H.
  destruct (sc_production_key _ _ H Hp) as (k & Hk & Hb & Hl & _).
  exists k. split_and!; [done| |done]. unfold connector_secret_key. by rewrite Hk, Hb.
Qed.

(** The published development key is accepted in production: the check for
    placeholders does not know it. *)
Theorem production_accepts_development_key :
  exists env c, @from_env sample_urls sample_uuids env = inr c /\
    environment c = "production" /\ connector_secret_key env = inr DEV_SECRET_KEY.
Proof.
  exists (assignments [("APP_ENV", "production"); ("DATABASE_URL", "postgres://db/portal");
    ("AUTH_COOKIE_SECURE", "true"); ("CONNECTOR_SECRET_KEY", DEV_SECRET_KEY)]).
  eexists. split; [vm_compute; reflexivity|]. split; reflexivity.
Qed.

(** ** Snapshots *)

Section Snapshots.
Context {SV : SerdeValue}.

Lemma shorten_returns fuel max_chars snapshot preview_len :
  (preview_len <= fuel)%nat -> (1 <= preview_len)%nat ->
  exists r, shorten fuel max_chars snapshot preview_len = Some r /\
    forall text, r = Some text -> exists len, (1 <= len <= preview_len)%nat /\
      value_to_string (truncated max_chars (take_chars len snapshot)) = inr text /\
      ((char_count text <= max_chars)%nat \/ len = 1%nat).
Proof.
  revert preview_len. induction fuel as [|fuel IH]; intros preview_len Hf Hp; [lia|]. simpl.
  destruct (value_to_string _) as [e|wrapped] eqn:E; [by exists None|].
  destruct (_ || _) eqn:Hstop.
  - exists (Some wrapped). split; [done|]. intros text [= <-]. exists preview_len.
    split; [lia|]. split; [done|].
    apply orb_true_iff in Hstop as [H%Nat.leb_le|H%Nat.eqb_eq]; [by left|by right].
  - apply orb_false_iff in Hstop as [H%Nat.leb_gt H'%Nat.eqb_neq].
    destruct (IH (Nat.max (preview_len - (char_count wrapped - max_chars)) 1)) as (r & Er & Hr); [lia|lia|].
    exists r. split; [done|]. intros text ->. destruct (Hr text eq_refl) as (len & Hlen & ?).
    exists len. split; [lia|done].
Qed.
End Snapshots.

(** taking the snapshot of an item always ends, and a snapshot is the redacted
    item in full when it has at most [max_chars] characters, or else a wrapped
    preview of its beginning that fits into [max_chars] unless it is down to a
    single character. *)
Theorem snapshot_is_redacted_and_bounded {SV : SerdeValue} v max_chars :
  exists r, sanitized_json_snapshot (Some v) max_chars = Some r /\
    forall text, r = Some text -> exists full, value_to_string (redact_json_secrets v) = inr full /\
      if (char_count full <=? max_chars)%nat then text = full
      else exists len, (1 <= len)%nat /\
        value_to_string (truncated max_chars (take_chars len full)) = inr text /\
        ((char_count text <= max_chars)%nat \/ len = 1%nat).
Proof.
  unfold sanitized_json_snapshot. destruct (value_to_string _) as [e|full]; [by exists None|].
  destruct (char_count full <=? max_chars)%nat eqn:E.
  - exists (Some full). split; [done|]. intros text [= <-]. exists full. by rewrite E.
  - destruct (shorten_returns (Nat.max (max_chars - 128) 1) max_chars full (Nat.max (max_chars - 128) 1))
      as (r & Er & Hr); [lia|lia|].
    exists r. split; [done|]. intros text ->. exists full. rewrite E. split; [done|].
    destruct (Hr text eq_refl) as (len & Hlen & ?). exists len. split; [lia|done].
Qed.

(** ** Lists of entries *)

(** Two entries of a list, each with its own token. *)
Definition two_endpoints : value :=
  Object [("endpoints", Array [Object [("name", Str "a"); ("token", Str "enc:v1:A")];
                               Object [("name", Str "b"); ("token", Str "enc:v1:B")]])].

(** Stored secrets of list entries are found by position: submitting the redacted
    configuration without its first entry gives the second one the token of the
    first. *)
Theorem removed_entry_shifts_secrets :
  preserve_redacted_json_secrets
    (Object [("endpoints", Array [Object [("name", Str "b"); ("token", Str REDACTED_SECRET)]])])
    (Some two_endpoints) =
  inr (Object [("endpoints", Array [Object [("name", Str "b"); ("token", Str "enc:v1:A")]])]).
Proof. vm_compute. reflexivity. Qed.
