(* ===== verification/ConnectorConfigs.v ===== *)
(** The validation of connector configurations:
    [src/src/connector_config_validation.rs] and the [Validate] implementation of
    [ConnectorConfigUpdate] ([src/src/models.rs]). *)
From S2P Require Import Prelude Text Models Schema Api Validation Schedule Values.
From Stdlib Require Import Ascii.

Open Scope Z_scope.
Open Scope portal_scope.

(** ** Reading fields *)

Definition field_string (config : value) (fields : list string) : option string :=
  match trim <$> (first_field config fields ≫= as_str) with
  | Some v => if is_empty v then None else Some v
  | None => None
  end.

Definition has_non_empty (config : value) (field : string) : bool :=
  bool_decide (is_Some (field_string config [field])).

(** ** Checks *)

Definition config_violation (bad : bool) (parts : list string) : Check :=
  push_if bad "config" (concat_str parts).

Definition seq_checks (l : list Check) : Check := fun errors =>
  foldl (fun errors check => check errors) errors l.

Definition require_target (adapter target expected : string) : Check :=
  push_if (negb (target =s expected)) "target"
    (concat_str [adapter; " config requires target "; expected]).

Definition require_one_of_targets (adapter target : string) (expected : list string) : Check :=
  push_if (negb (one_of_texts target expected)) "target"
    (concat_str [adapter; " config requires target "; join " or " expected]).

Definition absolute_url (url : string) : bool :=
  starts_with url "http://" || starts_with url "https://".

Definition validate_url_fields (config : value) (fields : list string) : Check :=
  seq_checks (map (fun f =>
    match field_string config [f] with
    | None => id
    | Some url => config_violation (negb (absolute_url url)) [f; " must be an absolute HTTP URL"]
    end) fields).

Definition require_url_any (config : value) (fields : list string) : Check :=
  if negb (existsb (has_non_empty config) fields)
  then config_violation true ["must set one of "; join ", " fields]
  else validate_url_fields config fields.

Definition require_non_empty_when_missing_all (config : value) (field : string)
    (fallback_fields : list string) (message : string) : Check :=
  let all_fallbacks_present := forallb (has_non_empty config) fallback_fields in
  config_violation (negb all_fallbacks_present && negb (has_non_empty config field))
    [field; " "; message].

(** [match value.as_..() { Some(value) if good => {} _ => push }] on a field that is
    present. *)
Definition number_field (read : value -> option Z) (good : Z -> bool) (config : value)
    (field : string) (message : list string) : Check :=
  match get config field with
  | None => id
  | Some v => config_violation (match read v with Some n => negb (good n) | None => true end)
                (field :: message)
  end.

Definition in_range (min max n : Z) : bool := (min <=? n) && (n <=? max).

Definition validate_positive_i64 (config : value) (field : string) : Check :=
  number_field as_i64 (fun n => 0 <? n) config field [" must be a positive integer"].

Definition validate_positive_u64 (config : value) (field : string) : Check :=
  number_field as_u64 (fun n => 0 <? n) config field [" must be a positive integer"].

Definition validate_u64_range (config : value) (field : string) (min max : Z) : Check :=
  number_field as_u64 (in_range min max) config field
    [" must be an integer from "; int_to_string min; " to "; int_to_string max].

Definition validate_i64_range (config : value) (field : string) (min max : Z) : Check :=
  number_field as_i64 (in_range min max) config field
    [" must be an integer from "; int_to_string min; " to "; int_to_string max].

Definition validate_boolean (config : value) (field : string) : Check :=
  config_violation (match get config field with Some v => negb (is_boolean v) | None => false end)
    [field; " must be a boolean"].

(** The token characters of RFC 7230. *)
Definition header_byte (a : ascii) : bool :=
  is_ascii_alphanumeric a
  || one_of_texts (String a EmptyString)
       ["!"; "#"; "$"; "%"; "&"; "'"; "*"; "+"; "-"; "."; "^"; "_"; "`"; "|"; "~"].

Definition valid_header_name (v : string) : bool := all_chars header_byte v.

Definition validate_sample_array (target : string) (config : value) (field : string)
    (targets : list string) : Check :=
  seq_checks
    [ require_one_of_targets "sample notification adapter" target targets;
      config_violation (match get config field with Some v => negb (is_array v) | None => false end)
        [field; " must be an array when provided"] ].

(** ** Adapters *)

Definition validate_azure_due_date_field (config : value) : Check :=
  match get config "due_date_field" with
  | None => id
  | Some v =>
      match trim <$> as_str v with
      | Some field =>
          if is_empty field
          then config_violation true ["due_date_field must be a non-empty string when provided"]
          else config_violation (128 <? byte_len field)
                 ["due_date_field must be at most 128 characters"]
      | None => config_violation true ["due_date_field must be a non-empty string when provided"]
      end
  end.

Definition validate_assignee_mapping (entry : string * value) : Check :=
  let '(descriptor, user_id) := entry in
  seq_checks
    [ config_violation (is_empty (trim descriptor) || (512 <? byte_len descriptor))
        ["assignee_user_mappings keys must be non-empty source descriptors of at most 512 characters"];
      config_violation (match as_i64 user_id with Some v => negb (in_range 1 i32_max v) | None => true end)
        ["assignee_user_mappings values must be positive portal user ids"] ].

Definition validate_azure_assignee_mappings (config : value) : Check :=
  match get config "assignee_user_mappings" with
  | None => id
  | Some v =>
      match as_object v with
      | None => config_violation true
          ["assignee_user_mappings must be an object of source descriptors to portal user ids"]
      | Some mappings => seq_checks (map validate_assignee_mapping mappings)
      end
  end.

Definition validate_azure_devops (target : string) (config : value) : Check :=
  let missing := "must be set when wiql_url and work_items_url are not both provided" in
  seq_checks
    [ require_target "azure_devops" target "work_cards";
      require_non_empty_when_missing_all config "organization" ["wiql_url"; "work_items_url"] missing;
      require_non_empty_when_missing_all config "project" ["wiql_url"; "work_items_url"] missing;
      validate_url_fields config ["wiql_url"; "work_items_url"; "base_url"; "web_url_base"];
      validate_positive_u64 config "timeout_seconds";
      validate_u64_range config "max_items" 1 10000;
      validate_azure_due_date_field config;
      validate_azure_assignee_mappings config ].

Definition validate_monitoring (target : string) (config : value) : Check :=
  seq_checks
    [ require_target "monitoring" target "service_health";
      require_url_any config ["url"];
      validate_positive_i64 config "default_maintainer_id";
      validate_positive_u64 config "timeout_seconds" ].

Definition validate_graph_calendar (target : string) (config : value) : Check :=
  seq_checks
    [ require_one_of_targets "microsoft_graph_calendar" target ["calendar_events"; "notifications"];
      validate_url_fields config ["calendar_view_url"; "base_url"; "token_url"; "authorization_url"];
      validate_positive_u64 config "timeout_seconds";
      validate_u64_range config "top" 1 50;
      validate_i64_range config "lookahead_hours" 1 168;
      validate_u64_range config "max_pages" 1 100;
      validate_u64_range config "max_items" 1 10000 ].

Definition validate_graph_mail (target : string) (config : value) : Check :=
  seq_checks
    [ require_target "microsoft_graph_mail" target "notifications";
      validate_url_fields config
        ["messages_url"; "mail_messages_url"; "base_url"; "token_url"; "authorization_url"];
      validate_positive_u64 config "timeout_seconds";
      validate_u64_range config "top" 1 50;
      validate_i64_range config "lookback_hours" 1 720;
      validate_u64_range config "max_pages" 1 100;
      validate_u64_range config "max_items" 1 10000 ].

Definition validate_erp_private_messages (target : string) (config : value) : Check :=
  seq_checks
    [ require_target "erp_private_messages" target "notifications";
      require_url_any config ["messages_url"; "private_messages_url"; "url"];
      validate_positive_u64 config "timeout_seconds";
      validate_u64_range config "top" 1 100;
      validate_u64_range config "limit" 1 100;
      validate_i64_range config "lookback_hours" 1 720;
      validate_boolean config "snapshot_complete";
      match field_string config ["api_key_header"] with
      | Some header => config_violation (negb (valid_header_name header))
                         ["api_key_header must be a valid HTTP header name"]
      | None => id
      end ].

(** The name of the adapter, or the violation of its field. *)
Definition adapter_name (config : value) : Check * option string :=
  match get config "adapter" with
  | None => (id, None)
  | Some adapter =>
      match as_str adapter with
      | None => (config_violation true ["adapter must be a string"], None)
      | Some adapter =>
          let adapter := trim adapter in
          if is_empty adapter then (config_violation true ["adapter must not be empty"], None)
          else (id, Some adapter)
      end
  end.

Definition validate_adapter (adapter target : string) (config : value) : Check :=
  if one_of_texts adapter ["azure_devops"] then validate_azure_devops target config
  else if one_of_texts adapter ["monitoring"] then validate_monitoring target config
  else if one_of_texts adapter ["microsoft_graph_calendar"; "graph_calendar"; "outlook_calendar"]
  then validate_graph_calendar target config
  else if one_of_texts adapter ["microsoft_graph_mail"; "graph_mail"; "outlook_mail"]
  then validate_graph_mail target config
  else if one_of_texts adapter ["erp_private_messages"; "erp_messages_http"; "erp_http"]
  then validate_erp_private_messages target config
  else if one_of_texts adapter ["calendar_sample"; "calendar"]
  then validate_sample_array target config "events" ["calendar_events"; "notifications"]
  else if one_of_texts adapter ["outlook_mail_sample"; "outlook"]
  then validate_sample_array target config "messages" ["notifications"]
  else if one_of_texts adapter ["erp_messages_sample"; "erp_messages"; "erp"]
  then validate_sample_array target config "messages" ["notifications"]
  else config_violation true ["adapter "; adapter; " is not supported"].

Definition validate_connector_config_adapter (target : string) (config : value) : Check :=
  if negb (is_object config) then config_violation true ["must be a JSON object"]
  else
    match adapter_name config with
    | (check, None) => check
    | (check, Some adapter) => seq_checks [check; validate_adapter adapter target config]
    end.

(** ** The request *)

Definition validate_schedule (schedule_cron : option string) : Check :=
  match schedule_cron with
  | None => id
  | Some s =>
      match schedule_interval_seconds s with
      | Some seconds => push_if (seconds <? MIN_CONNECTOR_SCHEDULE_INTERVAL_SECONDS) "schedule_cron"
                          "must run no more often than once every 60 seconds"
      | None => push_if true "schedule_cron"
                  "must be @every <n>s, @every <n>m, @every <n>h, @hourly, or @daily"
      end
  end.

Definition TARGETS : list string :=
  ["service_health"; "work_cards"; "notifications"; "calendar_events"].

#[export] Instance validate_config_update {SV : SerdeValue}
    : Validate ConfigUpdate.ConnectorConfigUpdate := fun r =>
  run_checks
    [ required "target" (ConfigUpdate.target r);
      max_len "target" (ConfigUpdate.target r) 64;
      one_of "target" (ConfigUpdate.target r) TARGETS;
      max_optional_len "schedule_cron" (ConfigUpdate.schedule_cron r) 128;
      validate_schedule (ConfigUpdate.schedule_cron r);
      required "config" (ConfigUpdate.config r);
      max_len "config" (ConfigUpdate.config r) 65535;
      required "sample_payload" (ConfigUpdate.sample_payload r);
      max_len "sample_payload" (ConfigUpdate.sample_payload r) 1000000;
      match value_from_str (ConfigUpdate.config r) with
      | inr config => validate_connector_config_adapter (ConfigUpdate.target r) config
      | inl _ => push_if true "config" "must be valid JSON"
      end;
      match value_from_str (ConfigUpdate.sample_payload r) with
      | inr v => push_if (negb (bool_decide (is_Some (get v "items" ≫= as_array)))) "sample_payload"
                   "must include an items array"
      | inl _ => push_if true "sample_payload" "must be valid JSON"
      end ].

(** ** Properties *)

#[export] Instance id_pushes : Pushes (id : Check).
Proof. intros e. by rewrite app_nil_r. Qed.

#[export] Instance config_violation_pushes b parts : Pushes (config_violation b parts).
Proof. apply push_if_pushes. Qed.

Lemma seq_pushes l : Forall Pushes l -> Pushes (seq_checks l).
Proof.
  intros Hl e. revert e. induction Hl as [|c l Hc Hl IH]; intros e.
  - by rewrite app_nil_r.
  - unfold seq_checks in *. simpl. rewrite IH, (IH (c [])), (pushes (Pushes:=Hc) e). by rewrite app_assoc.
Qed.

Lemma seq_passes l : Forall Pushes l -> passes (seq_checks l) <-> Forall passes l.
Proof. apply run_checks_nil. Qed.

Lemma map_pushes {A} (f : A -> Check) l : (forall x, Pushes (f x)) -> Forall Pushes (map f l).
Proof. intros Hf. induction l; constructor; auto. Qed.

#[export] Instance number_pushes read good config f m : Pushes (number_field read good config f m).
Proof. unfold number_field. destruct (get config f); apply _. Qed.

#[export] Instance url_fields_pushes config fields : Pushes (validate_url_fields config fields).
Proof. apply seq_pushes, map_pushes. intros f. destruct (field_string config [f]); apply _. Qed.

#[export] Instance url_any_pushes config fields : Pushes (require_url_any config fields).
Proof. unfold require_url_any. destruct (negb _); apply _. Qed.

#[export] Instance due_date_pushes config : Pushes (validate_azure_due_date_field config).
Proof.
  unfold validate_azure_due_date_field. destruct (get _ _) as [v|]; [|apply _].
  destruct (trim <$> as_str v) as [s|]; [destruct (is_empty s)|]; apply _.
Qed.

#[export] Instance mapping_pushes e : Pushes (validate_assignee_mapping e).
Proof. destruct e. apply seq_pushes. repeat (constructor; [apply _|]). constructor. Qed.

#[export] Instance mappings_pushes config : Pushes (validate_azure_assignee_mappings config).
Proof.
  unfold validate_azure_assignee_mappings. destruct (get _ _) as [v|]; [|apply _].
  destruct (as_object v); [apply seq_pushes, map_pushes; apply _|apply _].
Qed.

#[export] Instance header_pushes config : Pushes (match field_string config ["api_key_header"] with
  | Some header => config_violation (negb (valid_header_name header))
                     ["api_key_header must be a valid HTTP header name"]
  | None => id
  end).
Proof. destruct (field_string _ _); apply _. Qed.

Ltac all_push := repeat first [apply List.Forall_nil | apply List.Forall_cons; [apply _|]].

#[export] Instance azure_pushes t c : Pushes (validate_azure_devops t c).
Proof. apply seq_pushes. all_push. Qed.
#[export] Instance monitoring_pushes t c : Pushes (validate_monitoring t c).
Proof. apply seq_pushes. all_push. Qed.
#[export] Instance calendar_pushes t c : Pushes (validate_graph_calendar t c).
Proof. apply seq_pushes. all_push. Qed.
#[export] Instance mail_pushes t c : Pushes (validate_graph_mail t c).
Proof. apply seq_pushes. all_push. Qed.
#[export] Instance erp_pushes t c : Pushes (validate_erp_private_messages t c).
Proof. apply seq_pushes. all_push. Qed.
#[export] Instance sample_pushes t c f ts : Pushes (validate_sample_array t c f ts).
Proof. apply seq_pushes. all_push. Qed.

#[local] Opaque validate_azure_devops validate_monitoring validate_graph_calendar
  validate_graph_mail validate_erp_private_messages validate_sample_array.

#[export] Instance adapter_pushes a t c : Pushes (validate_adapter a t c).
Proof.
  unfold validate_adapter.
  repeat match goal with |- Pushes (if ?b then _ else _) =>
    destruct b; [first [apply azure_pushes | apply monitoring_pushes | apply calendar_pushes
      | apply mail_pushes | apply erp_pushes | apply sample_pushes]|] end.
  apply config_violation_pushes.
Qed.

#[local] Transparent validate_azure_devops validate_monitoring validate_graph_calendar
  validate_graph_mail validate_erp_private_messages validate_sample_array.

#[export] Instance config_pushes t c : Pushes (validate_connector_config_adapter t c).
Proof.
  unfold validate_connector_config_adapter. destruct (negb _); [apply _|].
  unfold adapter_name. destruct (get c "adapter") as [v|]; [|apply _].
  destruct (as_str v) as [a|]; [|apply _]. simpl. destruct (is_empty (trim a)); [apply _|].
  apply seq_pushes. all_push.
Qed.

#[export] Instance schedule_pushes s : Pushes (validate_schedule s).
Proof.
  destruct s as [s|]; [|apply _]. simpl. destruct (schedule_interval_seconds s); apply _.
Qed.

(** The targets an adapter delivers to, and its integer settings with their
    bounds. *)
Definition adapter_targets (a : string) : list string :=
  if one_of_texts a ["azure_devops"] then ["work_cards"]
  else if one_of_texts a ["monitoring"] then ["service_health"]
  else if one_of_texts a ["microsoft_graph_calendar"; "graph_calendar"; "outlook_calendar";
                          "calendar_sample"; "calendar"] then ["calendar_events"; "notifications"]
  else if one_of_texts a ["microsoft_graph_mail"; "graph_mail"; "outlook_mail";
                          "erp_private_messages"; "erp_messages_http"; "erp_http";
                          "outlook_mail_sample"; "outlook"; "erp_messages_sample"; "erp_messages";
                          "erp"] then ["notifications"]
  else [].

Definition adapter_limits (a : string) : list (string * Z * Z) :=
  if one_of_texts a ["azure_devops"] then [("max_items", 1, 10000)]
  else if one_of_texts a ["microsoft_graph_calendar"; "graph_calendar"; "outlook_calendar"]
  then [("top", 1, 50); ("lookahead_hours", 1, 168); ("max_pages", 1, 100); ("max_items", 1, 10000)]
  else if one_of_texts a ["microsoft_graph_mail"; "graph_mail"; "outlook_mail"]
  then [("top", 1, 50); ("lookback_hours", 1, 720); ("max_pages", 1, 100); ("max_items", 1, 10000)]
  else if one_of_texts a ["erp_private_messages"; "erp_messages_http"; "erp_http"]
  then [("top", 1, 100); ("limit", 1, 100); ("lookback_hours", 1, 720)]
  else [].

(** What an accepted configuration guarantees the runtime. *)
Record runnable_config {SV : SerdeValue} (r : ConfigUpdate.ConnectorConfigUpdate) : Prop := {
  rc_target : ConfigUpdate.target r ∈ TARGETS;
  rc_schedule : forall s, ConfigUpdate.schedule_cron r = Some s ->
    exists n, schedule_interval_seconds s = Some n /\
      effective_schedule_interval_seconds s = Some n /\ 60 <= n;
  rc_config : exists entries, value_from_str (ConfigUpdate.config r) = inr (Object entries);
  rc_adapter : forall v x, value_from_str (ConfigUpdate.config r) = inr v -> get v "adapter" = Some x ->
    exists a, as_str x = Some a /\ ConfigUpdate.target r ∈ adapter_targets (trim a) /\
      forall f lo hi y, (f, lo, hi) ∈ adapter_limits (trim a) -> get v f = Some y ->
        exists n, (as_u64 y = Some n \/ as_i64 y = Some n) /\ lo <= n <= hi;
  rc_sample : exists v items, value_from_str (ConfigUpdate.sample_payload r) = inr v /\
    get v "items" = Some (Array items)
}.

Lemma number_field_ok read good config f m :
  passes (number_field read good config f m) <->
  forall v, get config f = Some v -> exists n, read v = Some n /\ good n = true.
Proof.
  unfold number_field. destruct (get config f) as [v|]; [|by split; intros].
  unfold config_violation. rewrite passes_push_if. destruct (read v) as [n|] eqn:E.
  - rewrite negb_false_iff. split; [intros Hg ? [= <-]; eauto|].
    intros Hg. destruct (Hg v eq_refl) as (? & Hr & ?). congruence.
  - split; [done|]. intros Hg. destruct (Hg v eq_refl) as (? & Hr & ?). congruence.
Qed.

(** Splits an accepted sequence of checks. *)
Ltac passed H :=
  rewrite seq_passes in H by all_push;
  repeat match goal with H : Forall passes (_ :: _) |- _ => apply Forall_cons in H as [? H] end.

Lemma limit_ok read config f lo hi m y :
  (read = as_u64 \/ read = as_i64) -> passes (number_field read (in_range lo hi) config f m) ->
  get config f = Some y -> exists n, (as_u64 y = Some n \/ as_i64 y = Some n) /\ lo <= n <= hi.
Proof.
  intros Hr H Hy. rewrite number_field_ok in H. destruct (H y Hy) as (n & Hn & Hg).
  unfold in_range in Hg. exists n. split; [destruct Hr as [-> | ->]; auto|lia].
Qed.

Lemma target_ok a t e : passes (require_target a t e) -> t ∈ [e].
Proof.
  unfold require_target. rewrite passes_push_if, negb_false_iff, str_eqb_eq. intros ->. left.
Qed.

Lemma targets_ok a t es : passes (require_one_of_targets a t es) -> t ∈ es.
Proof. unfold require_one_of_targets. by rewrite passes_push_if, negb_false_iff, one_of_texts_elem. Qed.

(** The checks of one adapter establish its row of the tables. *)
Ltac adapter_row H :=
  unfold validate_azure_devops, validate_monitoring, validate_graph_calendar, validate_graph_mail,
    validate_erp_private_messages, validate_sample_array in H;
  passed H;
  repeat match goal with
  | H : passes (require_target _ _ _) |- _ => apply target_ok in H
  | H : passes (require_one_of_targets _ _ _) |- _ => apply targets_ok in H
  end;
  match goal with |- context [adapter_limits ?a] =>
    let l := eval vm_compute in (adapter_limits a) in change (adapter_limits a) with l;
    let t := eval vm_compute in (adapter_targets a) in change (adapter_targets a) with t
  end;
  split; [assumption|];
  intros ? ? ? ? Hin Hget;
  repeat (apply elem_of_cons in Hin as [Hin|Hin];
          [injection Hin as -> -> ->; eapply limit_ok; [| |exact Hget]; [|eassumption]; auto|]);
  by apply elem_of_nil in Hin.

Lemma adapter_ok a target config :
  passes (validate_adapter a target config) ->
  target ∈ adapter_targets a /\
  forall f lo hi y, (f, lo, hi) ∈ adapter_limits a -> get config f = Some y ->
    exists n, (as_u64 y = Some n \/ as_i64 y = Some n) /\ lo <= n <= hi.
Proof.
  intros H. unfold validate_adapter in H.
  repeat match type of H with passes (if one_of_texts a ?l then _ else _) =>
    destruct (one_of_texts a l) eqn:E;
    [ apply one_of_texts_elem in E; rewrite !elem_of_cons, elem_of_nil in E;
      destruct_or! E; try done; subst a; adapter_row H
    | clear E ] end.
  discriminate H.
Qed.

Lemma accepted_config {SV : SerdeValue} (r : ConfigUpdate.ConnectorConfigUpdate) :
  validate r = [] -> runnable_config r.
Proof.
  intros H. unfold validate, validate_config_update in H.
  rewrite run_checks_nil in H.
  2:{ repeat first [apply List.Forall_nil | apply List.Forall_cons; [|]]; try apply _.
      all: match goal with |- Pushes (match ?x with _ => _ end) => destruct x; apply _ end. }
  repeat match goal with H : Forall passes (_ :: _) |- _ => apply Forall_cons in H as [? H] end.
  rename H0 into Ht, H2 into Hin, H4 into Hs, H9 into Hc, H10 into Hp.
  split.
  - by apply one_of_texts_elem, (passes_one_of "target").
  - intros s Es. rewrite Es in Hs. simpl in Hs. unfold effective_schedule_interval_seconds.
    destruct (schedule_interval_seconds s) as [n|]; [|done]. apply passes_push_if in Hs.
    unfold MIN_CONNECTOR_SCHEDULE_INTERVAL_SECONDS in *. exists n. simpl. split; [done|].
    split; [f_equal; lia|lia].
  - destruct (value_from_str (ConfigUpdate.config r)) as [e|v]; [done|].
    unfold validate_connector_config_adapter in Hc. destruct v; try done. eauto.
  - intros v x Ev Ex. rewrite Ev in Hc. unfold validate_connector_config_adapter in Hc.
    destruct (negb (is_object v)); [done|]. unfold adapter_name in Hc. rewrite Ex in Hc.
    destruct (as_str x) as [a|]; [|done]. cbn zeta in Hc. destruct (is_empty (trim a)); [done|].
    passed Hc. exists a. split; [done|]. by apply adapter_ok.
  - destruct (value_from_str (ConfigUpdate.sample_payload r)) as [e|v]; [done|].
    apply passes_push_if, negb_false_iff, bool_decide_eq_true in Hp as [items Hp].
    exists v, items. split; [done|]. destruct (get v "items") as [x|]; [|done].
    simpl in Hp. destruct x; try done. by injection Hp as ->.
Qed.

(** an accepted connector configuration can be run: it is a JSON object for a
    known adapter that delivers to the requested target, the integer settings of
    the adapter are within their bounds, an accepted schedule is used as written,
    and the sample payload has its items. *)
Theorem accepted_config_is_runnable {SV : SerdeValue} (r : ConfigUpdate.ConnectorConfigUpdate) :
  validate r = [] -> runnable_config r.
Proof. apply accepted_config. Qed.

(** A parser of the two texts of a request. *)
Definition two_texts : SerdeValue := {|
  value_from_str := fun s =>
    inr (if s =s "config" then Object [("adapter", Str " monitoring"); ("url", Str "https://status.example")]
         else Object [("items", Array [])]);
  value_to_string := fun _ => inr "config"
|}.

Definition padded_request : ConfigUpdate.ConnectorConfigUpdate :=
  ConfigUpdate.mkConnectorConfigUpdate "service_health" true (Some "@every 5m") "config" "sample".

Lemma accepted_config_is_runnable_witness :
  @validate _ (@validate_config_update two_texts) padded_request = [] /\
  @runnable_config two_texts padded_request.
Proof.
  split; [vm_compute; reflexivity|].
  apply (@accepted_config_is_runnable two_texts padded_request). vm_compute. reflexivity.
Defined.
