(* ===== verification/ConnectorRoutes.v ===== *)
(** The connector API: the handlers of
    [src/src/rocket_routes/connectors/routes.rs] with their request and response
    types ([types.rs]). *)
From S2P Require Import Prelude Logic Text Models Schema Api Validation Access Accounts AuditLogs.
From S2P Require Import Runs Records Connections Runtime Config ConnectorWorkers Catalog Values.
From S2P Require Import Secrets ConnectorConfigs.

Open Scope Z_scope.
Open Scope portal_scope.

(** ** Types *)

Record ConnectorRunDetail := mkConnectorRunDetail {
  rd_run : Run.ConnectorRun;
  rd_items : list RunItem.ConnectorRunItem;
  rd_item_errors : list ItemError.ConnectorRunItemError;
  rd_health_checks : list Check.ServiceHealthCheck
}.

Record ConnectorWorkerStatus := mkConnectorWorkerStatus {
  ws_id : Z;
  ws_worker_id : string;
  ws_status : string;
  ws_scheduler_enabled : bool;
  ws_retention_enabled : bool;
  ws_current_run_id : option Z;
  ws_last_error : option string;
  ws_started_at : Z;
  ws_last_seen_at : Z;
  ws_updated_at : Z;
  seconds_since_last_seen : Z;
  is_stale : bool
}.

Definition from_worker (worker : Worker.ConnectorWorker) (now stale_after_seconds : Z)
    : ConnectorWorkerStatus :=
  let seconds := Z.max (num_seconds (now - Worker.last_seen_at worker)) 0 in
  mkConnectorWorkerStatus (Worker.id worker) (Worker.worker_id worker) (Worker.status worker)
    (Worker.scheduler_enabled worker) (Worker.retention_enabled worker)
    (Worker.current_run_id worker) (Worker.last_error worker) (Worker.started_at worker)
    (Worker.last_seen_at worker) (Worker.updated_at worker) seconds (stale_after_seconds <? seconds).

Record ConnectorOperationsResponse := mkConnectorOperationsResponse {
  op_stale_after_seconds : Z;
  op_workers : list ConnectorWorkerStatus;
  op_maintenance_runs : list Maintenance.MaintenanceRun
}.

Record ConnectorConfigResponse := mkConnectorConfigResponse {
  cr_id : Z;
  cr_source : string;
  cr_target : string;
  cr_enabled : bool;
  cr_schedule_cron : option string;
  cr_config : string;
  cr_sample_payload : string;
  cr_created_at : Z;
  cr_updated_at : Z;
  cr_last_scheduled_at : option Z;
  cr_next_run_at : option Z;
  cr_last_scheduled_run_id : option Z
}.

Definition config_response {SV : SerdeValue} (c : Config.ConnectorConfig) : ConnectorConfigResponse :=
  mkConnectorConfigResponse (Config.id c) (Config.source c) (Config.target c) (Config.enabled c)
    (Config.schedule_cron c) (redact_connector_config (Config.config c)) (Config.sample_payload c)
    (Config.created_at c) (Config.updated_at c) (Config.last_scheduled_at c) (Config.next_run_at c)
    (Config.last_scheduled_run_id c).

Record ManualConnectorRunRequest := mkManualConnectorRunRequest {
  mode : string;
  req_target : option string;
  payload : option value
}.

#[export] Instance validate_manual_run : Validate ManualConnectorRunRequest := fun r =>
  run_checks
    [ required "mode" (mode r);
      max_len "mode" (mode r) 32;
      one_of "mode" (mode r) ["execute"; "queue"];
      match req_target r with Some t => max_len "target" t 64 | None => id end;
      match req_target r with Some t => one_of "target" t TARGETS | None => id end ].

(** The compact [Display] text of a JSON value. *)
Class ValueDisplay := { value_text : value -> string }.

(** ** Reading *)

Definition get_connectors {C : Collation} (auth : AuthenticatedUser)
    : Handler (list Connectors.Connector) :=
  access <- record_access_scope auth ;;
  query (ConnectorRepository.find_multiple_for_access 100 access).

Definition get_connector_operations (env : Environ) (auth : AuthenticatedUser)
    : Handler ConnectorOperationsResponse :=
  require_admin auth ;;;
  now <- utc_now ;;
  let stale_after_seconds := connector_worker_stale_after_seconds env in
  workers <- query (ConnectorWorkerRepository.find_recent 20) ;;
  maintenance_runs <- query (MaintenanceRunRepository.find_recent 20 (Some "retention_cleanup")) ;;
  ret (mkConnectorOperationsResponse stale_after_seconds
         (map (fun w => from_worker w now stale_after_seconds) workers) maintenance_runs).

Definition view_connector (auth : AuthenticatedUser) (source : string)
    : Handler Connectors.Connector :=
  source <- validate_source source ;;
  connector <- query (ConnectorRepository.find_by_source source) ;;
  access <- record_access_scope auth ;;
  if negb (allows access (Connectors.owner_user_id connector) (Connectors.maintainer_id connector))
  then fail NotFound else ret connector.

Definition get_connector_config {SV : SerdeValue} (auth : AuthenticatedUser) (source : string)
    : Handler ConnectorConfigResponse :=
  require_admin auth ;;;
  source <- validate_source source ;;
  config <- query (ConnectorConfigRepository.find_by_source source) ;;
  ret (config_response config).

Definition opt_validate (check : string -> Handler string) (o : option string)
    : Handler (option string) :=
  match o with Some s => s <- check s ;; ret (Some s) | None => ret None end.

Definition get_connector_runs (auth : AuthenticatedUser) (source target : option string)
    : Handler (list Run.ConnectorRun) :=
  require_admin auth ;;;
  source <- opt_validate validate_source source ;;
  target <- opt_validate validate_target target ;;
  query (ConnectorRunRepository.find_multiple_runs 100 source target).

Definition get_connector_run (auth : AuthenticatedUser) (id : Z) : Handler ConnectorRunDetail :=
  require_admin auth ;;;
  run <- query (ConnectorRunRepository.find_run id) ;;
  items <- query (find_items_by_run id) ;;
  item_errors <- query (find_errors_by_run id) ;;
  health_checks <- query (ServiceHealthCheckRepository.find_by_run id) ;;
  ret (mkConnectorRunDetail run items item_errors health_checks).

(** ** Connectors *)

Section Writing.
Context {SJ : SerdeJson} {U : Unicode}.

(** The owner a scope names must exist. *)
Definition check_scope_owner (scope_type : string) (owner_user_id maintainer_id : option Z)
    : Handler unit :=
  if scope_type =s "user" then
    id <- ok_or BadRequest owner_user_id ;;
    query (UserRepository.find id) ;;; ret tt
  else if scope_type =s "maintainer" then
    id <- ok_or BadRequest maintainer_id ;;
    query (MaintainerRepository.find id) ;;; ret tt
  else ret tt.

Definition create_connector (auth : AuthenticatedUser) (n : NewConn.NewConnector)
    : Handler Connectors.Connector :=
  require_admin auth ;;;
  n <- validate_request n ;;
  check_scope_owner (NewConn.scope_type n) (NewConn.owner_user_id n) (NewConn.maintainer_id n) ;;;
  connector <- query (ConnectorRepository.create n) ;;
  record_audit_log auth "create" "connector" (Connectors.source connector)
    (JObj [("kind", JStr (Connectors.kind connector)); ("status", JStr (Connectors.status connector));
           ("scope_type", JStr (Connectors.scope_type connector));
           ("owner_user_id", json_int (Connectors.owner_user_id connector));
           ("maintainer_id", json_int (Connectors.maintainer_id connector))]) ;;;
  ret connector.

Definition update_connector (auth : AuthenticatedUser) (source : string)
    (u : ConnUpdate.ConnectorUpdate) : Handler Connectors.Connector :=
  require_admin auth ;;;
  source <- validate_source source ;;
  u <- validate_request u ;;
  connector <- query (ConnectorRepository.update_by_source source u) ;;
  record_audit_log auth "update" "connector" (Connectors.source connector)
    (JObj [("kind", JStr (Connectors.kind connector)); ("status", JStr (Connectors.status connector))]) ;;;
  ret connector.

Definition scope_json (k : Connectors.Connector) : Json :=
  JObj [("scope_type", JStr (Connectors.scope_type k));
        ("owner_user_id", json_int (Connectors.owner_user_id k));
        ("maintainer_id", json_int (Connectors.maintainer_id k))].

Definition update_connector_scope (auth : AuthenticatedUser) (source : string)
    (scope : ScopeUpdate.ConnectorScopeUpdate) : Handler Connectors.Connector :=
  require_admin auth ;;;
  source <- validate_source source ;;
  scope <- validate_request scope ;;
  check_scope_owner (ScopeUpdate.scope_type scope) (ScopeUpdate.owner_user_id scope)
    (ScopeUpdate.maintainer_id scope) ;;;
  previous <- query (ConnectorRepository.find_by_source source) ;;
  connector <- query (ConnectorRepository.update_scope source (ScopeUpdate.scope_type scope)
                 (ScopeUpdate.owner_user_id scope) (ScopeUpdate.maintainer_id scope)) ;;
  record_audit_log auth "update_scope" "connector" (Connectors.source connector)
    (JObj [("previous", scope_json previous); ("current", scope_json connector)]) ;;;
  ret connector.

Definition delete_connector (auth : AuthenticatedUser) (source : string) : Handler unit :=
  require_admin auth ;;;
  source <- validate_source source ;;
  query (ConnectorRepository.delete_by_source source) ;;;
  record_audit_log auth "delete" "connector" source (JObj []).

(** ** Configurations *)

(** [.map_err(|error| validation_error_dynamic("config", error))?] *)
Definition config_result {A} (r : Result string A) : Handler A :=
  match r with inr a => ret a | inl error => fail (validation_error "config" error) end.

(** [uuids] is the number of UUIDs drawn before the request. *)
Definition upsert_connector_config {AG : Aes256Gcm} {B64 : Base64} {US : UuidSource}
    {SV : SerdeValue} (env : Environ) (uuids : nat) (auth : AuthenticatedUser) (source : string)
    (config : ConfigUpdate.ConnectorConfigUpdate) : Handler ConnectorConfigResponse :=
  require_admin auth ;;;
  source <- validate_source source ;;
  query (ConnectorRepository.find_by_source source) ;;;
  existing_config <- catch (ConnectorConfigRepository.find_by_source source) (fun r =>
    match r with
    | inr config => ret (Some config)
    | inl DNotFound => ret None
    | inl error => fail (from_diesel error)
    end) ;;
  config <- validate_request config ;;
  text <- config_result (preserve_redacted_connector_config (ConfigUpdate.config config)
            (Config.config <$> existing_config)) ;;
  text <- config_result (fst (encrypt_connector_config env text uuids)) ;;
  config <- query (ConnectorConfigRepository.upsert_by_source source
              (config <| ConfigUpdate.config := text |>)) ;;
  record_audit_log auth "upsert_config" "connector" source
    (JObj [("target", JStr (Config.target config)); ("enabled", JBool (Config.enabled config));
           ("schedule_cron", json_str (Config.schedule_cron config))]) ;;;
  ret (config_response config).

(** ** Runs *)

Definition connector_run_is_retryable (status : string) : bool :=
  one_of_texts status ["failed"; "partial_success"; "cancelled"].

Definition queued_response (source target : string) (run : Run.ConnectorRun)
    : ConnectorRunExecutionResponse :=
  mkConnectorRunExecutionResponse source target 0 0 run [] [] [] [].

Definition retry_connector_run (env : Environ) (auth : AuthenticatedUser) (id : Z)
    : Handler ConnectorRunExecutionResponse :=
  require_admin auth ;;;
  original <- query (ConnectorRunRepository.find_run id) ;;
  (if negb (connector_run_is_retryable (Run.status original))
   then fail (validation_error "status" "must be failed, partial_success, or cancelled")
   else ret tt) ;;;
  connector <- query (ConnectorRepository.find_by_source (Run.source original)) ;;
  (if Connectors.status connector =s "paused" then fail (validation_error "status" "is paused")
   else ret tt) ;;;
  match Run.payload original with
  | None =>
      config <- query (ConnectorConfigRepository.find_by_source (Run.source original)) ;;
      if negb (Config.enabled config) then fail (validation_error "enabled" "must be true") else ret tt
  | Some _ => ret tt
  end ;;;
  run <- create_queued_retry_run (max_attempts_var env) (Run.source original) (Run.target original)
           (Run.payload original) (Run.id original) ;;
  record_audit_log auth "retry" "connector_run" (int_to_string (Run.id run))
    (JObj [("source", JStr (Run.source run)); ("target", JStr (Run.target run));
           ("original_run_id", JInt (Run.id original))]) ;;;
  ret (queued_response (Run.source run) (Run.target run) run).

Definition cancel_connector_run (auth : AuthenticatedUser) (id : Z) : Handler Run.ConnectorRun :=
  require_admin auth ;;;
  run <- query (ConnectorRunRepository.find_run id) ;;
  (if negb (one_of_texts (Run.status run) ["queued"; "running"])
   then fail (validation_error "status" "must be queued or running") else ret tt) ;;;
  cancelled <- query (ConnectorRunRepository.request_cancel id) ;;
  run <- ok_or (validation_error "status" "must still be queued or running") cancelled ;;
  record_audit_log auth "cancel" "connector_run" (int_to_string (Run.id run))
    (JObj [("source", JStr (Run.source run)); ("target", JStr (Run.target run));
           ("status", JStr (Run.status run));
           ("cancel_requested_at", json_time (Run.cancel_requested_at run))]) ;;;
  ret run.

Context {DD : DieselDisplay} {RI : RawItems}.

Definition json_bool (o : option bool) : Json := match o with Some b => JBool b | None => JNull end.

Definition result_metadata (r : ConnectorRunExecutionResponse) : list (string * Json) :=
  [("source", JStr (rs_source r)); ("target", JStr (rs_target r));
   ("status", JStr (Run.status (rs_run r)));
   ("success_count", JInt (Run.success_count (rs_run r)));
   ("failure_count", JInt (Run.failure_count (rs_run r)))].

Definition snapshot_metadata (r : ConnectorRunExecutionResponse) : list (string * Json) :=
  result_metadata r ++ [("snapshot_complete", json_bool (Run.snapshot_complete (rs_run r)));
                        ("archived_count", JInt (Run.archived_count (rs_run r)))].

Definition run_connector {PL : Payloads} {AD : Adapters} {VD : ValueDisplay} (env : Environ)
    (auth : AuthenticatedUser) (source : string) (request : ManualConnectorRunRequest)
    : Handler ConnectorRunExecutionResponse :=
  require_admin auth ;;;
  source <- validate_source source ;;
  connector <- query (ConnectorRepository.find_by_source source) ;;
  config <- query (ConnectorConfigRepository.find_by_source source) ;;
  request <- validate_request request ;;
  target <- match req_target request with
            | Some target => validate_target target
            | None => ret (Config.target config)
            end ;;
  if Connectors.status connector =s "paused" then fail (validation_error "status" "is paused")
  else if negb (Config.enabled config) then fail (validation_error "enabled" "must be true")
  else if mode request =s "queue" then
    run <- create_queued_run (max_attempts_var env) source target "manual"
             (value_text <$> payload request) ;;
    record_audit_log auth "queue_run" "connector_run" (int_to_string (Run.id run))
      (JObj [("source", JStr source); ("target", JStr target); ("trigger", JStr "manual")]) ;;;
    ret (queued_response source target run)
  else
    run <- create_running_run source target "manual" (value_text <$> payload request) ;;
    response <- execute_claimed_connector_run run ;;
    record_audit_log auth "run" "connector_run" (int_to_string (Run.id (rs_run response)))
      (JObj (result_metadata response)) ;;;
    ret response.

(** ** Imports *)

(** The transaction of an import and what follows its failure: the shared part of
    the four import handlers. *)
Definition import_transaction (source target : string) (run : Run.ConnectorRun)
    (execute : Z -> Handler ConnectorExecution) : Handler ConnectorRunExecutionResponse :=
  catch (api_transaction (
      execution <- execute (Run.id run) ;;
      finish_connector_run source target run execution)) (fun r =>
    match r with
    | inr response => ret response
    | inl error =>
        requested <- query (ConnectorRunRepository.cancellation_requested (Run.id run)) ;;
        if requested : bool then settle_cancelled_connector_run (Run.id run) else fail error
    end).

Definition import (auth : AuthenticatedUser) (source target : string)
    (execute : string -> Z -> Handler ConnectorExecution)
    (metadata : ConnectorRunExecutionResponse -> list (string * Json))
    : Handler ConnectorRunExecutionResponse :=
  require_admin auth ;;;
  source <- validate_source source ;;
  run <- create_running_run source target "import" None ;;
  response <- import_transaction source target run (execute source) ;;
  record_audit_log auth "import" "connector_run" (int_to_string (Run.id (rs_run response)))
    (JObj (metadata response)) ;;;
  ret response.

Definition import_calendar_events (auth : AuthenticatedUser) (source : string)
    (request : CalendarEventImport.CalendarEventImportRequest)
    : Handler ConnectorRunExecutionResponse :=
  import auth source "calendar_events" (fun source run_id =>
    execute_calendar_event_items source run_id (CalendarEventImport.items request)
      (CalendarEventImport.snapshot_complete request)) snapshot_metadata.

Definition import_work_cards (auth : AuthenticatedUser) (source : string)
    (request : WorkCardImport.WorkCardImportRequest) : Handler ConnectorRunExecutionResponse :=
  import auth source "work_cards" (fun source run_id =>
    execute_work_card_items source run_id (WorkCardImport.items request)
      (WorkCardImport.snapshot_complete request)) snapshot_metadata.

Definition import_notifications (auth : AuthenticatedUser) (source : string)
    (request : NotificationImport.NotificationImportRequest)
    : Handler ConnectorRunExecutionResponse :=
  import auth source "notifications" (fun source run_id =>
    execute_notification_items source run_id (NotificationImport.items request)
      (NotificationImport.snapshot_complete request)) snapshot_metadata.

Definition import_service_health (auth : AuthenticatedUser) (source : string)
    (request : ServiceHealthImport.ServiceHealthImportRequest)
    : Handler ConnectorRunExecutionResponse :=
  import auth source "service_health" (fun source run_id =>
    execute_service_health_items source run_id (ServiceHealthImport.items request)) result_metadata.
End Writing.
