(* ===== verification/ConnectorRouteSafety.v ===== *)
(** Properties of the connector API of [ConnectorRoutes.v]: who may use it, that it
    stores no plain secret, and what a failed import leaves behind. *)
From S2P Require Import Prelude Logic Text Models Schema Api Validation Access Accounts AuditLogs.
From S2P Require Import Runs Records Connections Runtime Config ConnectorWorkers Catalog Values.
From S2P Require Import Secrets SecretsSafety ConnectorConfigs ConnectorRoutes CatalogSafety.
From S2P Require Import RuntimeSafety WorkerSafety.

Open Scope Z_scope.
Open Scope portal_scope.

(** ** Admins only *)

(** The requests of the connector API that are reserved to admins. *)
Inductive AdminRequest :=
  | Operations
  | CreateConnector (n : NewConn.NewConnector)
  | UpdateConnector (source : string) (u : ConnUpdate.ConnectorUpdate)
  | UpdateConnectorScope (source : string) (scope : ScopeUpdate.ConnectorScopeUpdate)
  | DeleteConnector (source : string)
  | GetConnectorConfig (source : string)
  | UpsertConnectorConfig (source : string) (config : ConfigUpdate.ConnectorConfigUpdate)
  | GetConnectorRuns (source target : option string)
  | GetConnectorRun (id : Z)
  | RetryConnectorRun (id : Z)
  | CancelConnectorRun (id : Z)
  | RunConnector (source : string) (request : ManualConnectorRunRequest)
  | ImportCalendarEvents (source : string) (request : CalendarEventImport.CalendarEventImportRequest)
  | ImportWorkCards (source : string) (request : WorkCardImport.WorkCardImportRequest)
  | ImportNotifications (source : string) (request : NotificationImport.NotificationImportRequest)
  | ImportServiceHealth (source : string) (request : ServiceHealthImport.ServiceHealthImportRequest).

Section Serve.
Context {SJ : SerdeJson} {U : Unicode} {DD : DieselDisplay} {RI : RawItems} {PL : Payloads}
  {AD : Adapters} {VD : ValueDisplay} {AG : Aes256Gcm} {B64 : Base64} {US : UuidSource}
  {SV : SerdeValue} (env : Environ) (uuids : nat).

Definition serve_admin (auth : AuthenticatedUser) (r : AdminRequest) : Handler unit :=
  match r with
  | Operations => discard (get_connector_operations env auth)
  | CreateConnector n => discard (create_connector auth n)
  | UpdateConnector source u => discard (update_connector auth source u)
  | UpdateConnectorScope source scope => discard (update_connector_scope auth source scope)
  | DeleteConnector source => delete_connector auth source
  | GetConnectorConfig source => discard (get_connector_config auth source)
  | UpsertConnectorConfig source config => discard (upsert_connector_config env uuids auth source config)
  | GetConnectorRuns source target => discard (get_connector_runs auth source target)
  | GetConnectorRun id => discard (get_connector_run auth id)
  | RetryConnectorRun id => discard (retry_connector_run env auth id)
  | CancelConnectorRun id => discard (cancel_connector_run auth id)
  | RunConnector source request => discard (run_connector env auth source request)
  | ImportCalendarEvents source request => discard (import_calendar_events auth source request)
  | ImportWorkCards source request => discard (import_work_cards auth source request)
  | ImportNotifications source request => discard (import_notifications auth source request)
  | ImportServiceHealth source request => discard (import_service_health auth source request)
  end.

(** anyone but an admin is refused by every one of these requests before the
    database is touched at all. *)
Theorem connector_api_refuses_others auth r (c : Conn Db) :
  auth_is_admin auth = false -> serve_admin auth r c = (Err Forbidden, c).
Proof.
  intros H. assert (Hg : forall A (k : Handler A), bind (require_admin auth) (fun _ => k) c = (Err Forbidden, c)).
  { intros A k. unfold require_admin. by rewrite H. }
  destruct r; unfold serve_admin, discard; try apply Hg; unfold bind at 1;
    match goal with |- context [?h c] => assert (h c = (Err Forbidden, c)) as -> by apply Hg end; done.
Qed.
End Serve.

Lemma connector_api_refuses_others_witness :
  let c := calm empty_db 0 [] 1 in
  serve_admin (SJ:=no_json) (U:=Authn.ascii_unicode) (DD:=RuntimeSafety.plain_display)
    (RI:=no_raw) (PL:=plain_payloads) (AD:=plain_adapters) (VD:={| value_text := fun _ => "" |})
    (AG:=plain_cipher) (B64:=nibble_encoding) (US:=constant_uuids) (SV:=two_configs)
    (fun _ => NotPresent) 0 (plain_user 7) (DeleteConnector "jira") c = (Err Forbidden, c).
Proof. apply connector_api_refuses_others. reflexivity. Defined.

(** ** Stored configurations *)

(** Whatever is under a secret key of a walked value came from [leaf]. *)
Lemma walk_leaves (leaf : value -> Rnd value) (Q : value -> Prop) v :
  (forall x n y n', leaf x n = (inr y, n') -> Q y) ->
  forall n w n', walk leaf v n = (inr w, n') -> secrets_in Q w.
Proof.
  intros Hleaf. induction v as [|b|num|str|l IH|l IH] using value_induction; intros n w n' Hw;
    try (injection Hw as <- _; constructor).
  - rewrite walk_array in Hw. apply rnd_bind_inv in Hw as (l' & n1 & Hw & [= <- _]). constructor.
    revert n l' n1 Hw. induction IH as [|x l Hx _ IHl]; intros n l' n1 Hw; [by injection Hw as <- _|].
    apply rnd_bind_inv in Hw as (x' & n2 & Ex & Hw). apply rnd_bind_inv in Hw as (l'' & n3 & Er & [= <- _]).
    constructor; eauto.
  - rewrite walk_object in Hw. apply rnd_bind_inv in Hw as (l' & n1 & Hw & [= <- _]). constructor.
    revert n l' n1 Hw. induction IH as [|[k x] l Hx _ IHl]; intros n l' n1 Hw; [by injection Hw as <- _|].
    apply rnd_bind_inv in Hw as (x' & n2 & Ex & Hw). apply rnd_bind_inv in Hw as (l'' & n3 & Er & [= <- _]).
    constructor; [|eauto]. simpl in *. split; intros E; rewrite E in Ex; eauto.
Qed.

Section Stored.
Context {SJ : SerdeJson} {AG : Aes256Gcm} {B64 : Base64} {US : UuidSource} {SV : SerdeValue}.

(** The text of a configuration in which every secret is encrypted or empty. *)
Definition sealed_text (text : string) : Prop :=
  exists v, value_to_string v = inr text /\ secrets_in sealed v.

Definition configs_sealed (d : Db) : Prop :=
  forall k, k ∈ connector_configs d -> sealed_text (Config.config k).

Lemma encrypt_secret_sealed env s n e n' :
  encrypt_secret env s n = (inr e, n') -> starts_with e ENCRYPTED_PREFIX = true.
Proof.
  unfold encrypt_secret. destruct (cipher env) as [m|key]; [done|].
  destruct (aead_encrypt _ _ _); [|done]. intros [= <- _]. apply prefixed.
Qed.

Lemma encrypt_leaf_sealed env x n y n' : encrypt_leaf env x n = (inr y, n') -> sealed y.
Proof.
  destruct x as [| | |s| |]; simpl; try (by intros [= <- _]).
  destruct (starts_with s ENCRYPTED_PREFIX) eqn:E1; simpl; [intros [= <- _]; by left|].
  destruct (is_empty s) eqn:E2; simpl.
  - intros [= <- _]. right. by apply str_eqb_eq.
  - intros H. apply rnd_bind_inv in H as (e & n1 & He & [= <- _]). left. by eapply encrypt_secret_sealed.
Qed.

Lemma encrypted_config_sealed env text n sealed_config :
  fst (encrypt_connector_config env text n) = inr sealed_config -> sealed_text sealed_config.
Proof.
  destruct (encrypt_connector_config env text n) as [r n'] eqn:E. simpl. intros ->.
  apply rnd_bind_inv in E as (v & n1 & _ & E). apply rnd_bind_inv in E as (w & n2 & Hw & Hp).
  exists w. split.
  - unfold rnd_lift, print_config in Hp. destruct (value_to_string w); [done|]. by injection Hp as ->.
  - eapply walk_leaves; [apply encrypt_leaf_sealed|exact Hw].
Qed.

Lemma upsert_keeps_sealed source u :
  sealed_text (ConfigUpdate.config u) ->
  preserves configs_sealed (ConnectorConfigRepository.upsert_by_source source u).
Proof.
  intros Hu. unfold ConnectorConfigRepository.upsert_by_source. apply preserves_bind; [preserve|].
  intros next. apply preserves_exec. intros now n d n' a d' Hd [[_ ->]| ->]%sql_upsert_inv; intros k Hk.
  - simpl in Hk. apply elem_of_app in Hk as [Hk|Hk]; [by apply Hd|].
    by apply list_elem_of_singleton in Hk as ->.
  - simpl in Hk. apply list_elem_of_fmap in Hk as (x & -> & Hx).
    destruct (ConnectorConfigRepository.from_source source x); [done|by apply Hd].
Qed.

Lemma preserves_config_result {A B} I (r : Result string A) (k : A -> Handler B) :
  (forall a, r = inr a -> preserves I (k a)) -> preserves I (bind (config_result r) k).
Proof. intros H. destruct r as [e|a]; [by intros c Hc|]. intros c Hc. by apply (H a). Qed.

(** no plain secret is ever stored: if in every stored configuration the
    secrets are encrypted or empty, this still holds after any request to store a
    configuration, whatever it contains and however it ends. *)
Theorem configurations_stay_sealed env uuids auth source config :
  preserves configs_sealed (upsert_connector_config env uuids auth source config).
Proof.
  unfold upsert_connector_config.
  apply preserves_bind; [unfold require_admin; preserve|intros _].
  apply preserves_bind; [unfold validate_source; preserve|intros s].
  apply preserves_bind; [preserve|intros _].
  apply preserves_bind; [preserve|intros existing].
  apply preserves_bind; [unfold validate_request; preserve|intros request].
  apply preserves_config_result. intros text _. apply preserves_config_result. intros sealed_config E.
  apply preserves_bind; [apply preserves_map_err, upsert_keeps_sealed; by eapply encrypted_config_sealed|].
  intros k. apply preserves_bind; [unfold record_audit_log, AuditLogRepository.create; preserve_writes|preserve].
Qed.
End Stored.

(** ** Failed imports *)

(** An import of one card that is assigned to an account which does not exist. *)
Definition dangling_request : WorkCardImport.WorkCardImportRequest :=
  WorkCardImport.mkWorkCardImportRequest [dangling_item] None.

Definition import_cards (request : WorkCardImport.WorkCardImportRequest) :=
  import_work_cards (SJ:=no_json) (DD:=plain_display) (RI:=no_raw) admin_user "jira" request.

(** an import whose transaction fails answers with the error and leaves its
    run running, without worker and lease. From then on every import of that
    source and target is refused, whatever it contains. *)
Theorem failed_import_blocks_source :
  exists e c1 r,
    import_cards dangling_request (calm empty_db 100 [] 1) = (Err e, c1) /\
    connector_runs (db c1) = [r] /\ Run.status r = "running" /\
    Run.worker_id r = None /\ Run.lease_expires_at r = None /\
    forall request, exists c2, import_cards request c1 =
      (Err (validation_error "status" "an active run already exists for source and target"), c2).
Proof.
  eexists _, _, _. split; [vm_compute; reflexivity|].
  split; [reflexivity|]. split_and!; try reflexivity.
  intros request. eexists. vm_compute. reflexivity.
Qed.
