(* ===== verification/AdapterValues.v ===== *)
(** What the adapters share: [src/src/connector_adapters/shared.rs]. Reading the
    fields of a foreign JSON item, normalizing texts, times and severities, slugs
    and URLs. The texts of chrono and the lower-case mapping of one character are
    parameters. *)
From S2P Require Import Prelude Text Schema Config Values.
From Stdlib Require Import Ascii.

Open Scope Z_scope.
Open Scope portal_scope.

(** chrono: [parse_from_rfc3339] and [NaiveDateTime::parse_from_str], each followed
    by [to_rfc3339_opts(AutoSi, true)] in UTC; the instants they denote; and the two
    ways an instant is printed with whole seconds. *)
Class ChronoText := {
  reprint_rfc3339 : string -> option string;
  reprint_naive : string -> string -> option string;
  rfc3339_instant : string -> option Z;
  naive_instant : string -> string -> option Z;
  format_seconds : Z -> string;
  rfc3339_seconds : Z -> string
}.

(** [char::to_lowercase]: the characters one character is mapped to. *)
Class CharLower := { char_to_lowercase : string -> list string }.

(** ** Enumerations *)

Definition normalize_notification_severity (v default : string) : string :=
  let s := to_ascii_lowercase (trim v) in
  if one_of_texts s ["critical"; "urgent"; "blocker"; "error"; "failed"; "failure"] then "critical"
  else if one_of_texts s ["warning"; "warn"; "high"; "medium"; "normal"] then "warning"
  else if one_of_texts s ["info"; "low"; "ok"; "success"; "none"] then "info"
  else default.

Definition normalize_lifecycle (status : string) : string :=
  let s := to_ascii_lowercase status in
  if s =s "deprecated" then "deprecated"
  else if one_of_texts s ["archived"; "inactive"; "retired"; "decommissioned"] then "archived"
  else "active".

(** ** URLs *)

Definition is_unreserved (a : ascii) : bool :=
  is_ascii_alphanumeric a ||
  existsb (Ascii.eqb a) ["-"%char; "_"%char; "."%char; "~"%char].

(** [{byte:02X}] *)
Definition hex_upper (n : nat) : ascii :=
  if (n <? 10)%nat then ascii_of_nat (48 + n) else ascii_of_nat (55 + n).

Definition percent_byte (a : ascii) : string :=
  let n := nat_of_ascii a in
  String "%" (String (hex_upper (n / 16)) (String (hex_upper (n mod 16)) "")).

Fixpoint encode_url_component (v : string) : string :=
  match v with
  | EmptyString => EmptyString
  | String a v' =>
      String.append (if is_unreserved a then String a "" else percent_byte a) (encode_url_component v')
  end.

Definition ends_with_char (x : ascii) (s : string) : bool :=
  bool_decide (is_Some (strip_suffix_char x s)).

Fixpoint push_params (url separator : string) (params : list (string * string)) : string :=
  match params with
  | [] => url
  | (key, v) :: params' =>
      push_params (concat_str [url; separator; encode_url_component key; "="; encode_url_component v])
        "&" params'
  end.

Definition append_query_params (base_url : string) (params : list (string * string)) : string :=
  push_params base_url
    (if contains base_url "?" then
       if ends_with_char "?" base_url || ends_with_char "&" base_url then "" else "&"
     else "?") params.

Definition is_http_url (url : string) : bool :=
  starts_with url "http://" || starts_with url "https://".

Definition require_url (field url : string) : Result string unit :=
  if is_http_url url then inr tt else inl (concat_str [field; " must be an absolute HTTP URL"]).

(** ** Fields of an item *)

Definition number_text (n : number) : string :=
  match n with PosInt z | NegInt z => int_to_string z | Float t => t end.

Definition scalar_to_string (v : value) : option string :=
  match v with
  | Str s => Some s
  | Number n => Some (number_text n)
  | _ => None
  end.

Definition non_empty (o : option string) : option string :=
  keep_if (fun v => negb (is_empty v)) o.

(** [.map(str::trim).filter(|v| !v.is_empty())] *)
Definition trimmed_non_empty (o : option string) : option string := non_empty (trim <$> o).

Definition field_string (item : value) (names : list string) : option string :=
  trimmed_non_empty (first_field item names ≫= scalar_to_string).

Definition field_url (item : value) (names : list string) : option string :=
  keep_if is_http_url (field_string item names).

Definition field_i32 (item : value) (names : list string) : option Z :=
  in_range i32_min i32_max (first_field item names ≫= as_i64).

Definition field_bool (item : value) (names : list string) : option bool :=
  first_field item names ≫= fun v =>
    match v with
    | Bool b => Some b
    | Number _ => (fun n => negb (n =? 0)) <$> as_i64 v
    | Str s =>
        let s := to_ascii_lowercase (trim s) in
        if one_of_texts s ["true"; "yes"; "1"] then Some true
        else if one_of_texts s ["false"; "no"; "0"] then Some false
        else None
    | _ => None
    end.

(** [a.or_else(|| b)] *)
Definition or_else {A} (a b : option A) : option A := match a with Some _ => a | None => b end.

Definition person_display (item : value) (names : list string) : option string :=
  first_field item names ≫= fun v =>
    or_else (scalar_to_string v)
      (or_else (field_string v ["display_name"; "displayName"; "name"; "email"; "address"])
         (get v "emailAddress" ≫= fun email => field_string email ["name"; "address"])).

(** ** Slugs *)

(** [trim_start_matches(c)] and [trim_end_matches(c)]. *)
Fixpoint trim_start_char (x : ascii) (s : string) : string :=
  match s with
  | String a s' => if Ascii.eqb a x then trim_start_char x s' else s
  | EmptyString => EmptyString
  end.

Fixpoint trim_end_char (x : ascii) (s : string) : string :=
  match s with
  | EmptyString => EmptyString
  | String a s' =>
      match trim_end_char x s' with
      | EmptyString => if Ascii.eqb a x then EmptyString else String a EmptyString
      | t => String a t
      end
  end.

(** A character of one byte that is an ASCII letter or digit. *)
Definition alphanumeric_char (c : string) : bool :=
  match c with String a EmptyString => is_ascii_alphanumeric a | _ => false end.

Fixpoint slug_loop (cs : list string) (slug : string) (last_was_dash : bool) : string :=
  match cs with
  | [] => slug
  | c :: cs' =>
      if alphanumeric_char c then slug_loop cs' (String.append slug c) false
      else if negb last_was_dash && negb (is_empty slug) then slug_loop cs' (String.append slug "-") true
      else slug_loop cs' slug last_was_dash
  end.

Section Slugs.
Context {CL : CharLower}.

Definition slugify (v : string) : string :=
  trim_start_char "-" (trim_end_char "-"
    (slug_loop (flat_map char_to_lowercase (chars v)) "" false)).

(** [{byte:02x}] of the first twelve bytes. *)
Definition hex_lower (n : nat) : ascii :=
  if (n <? 10)%nat then ascii_of_nat (48 + n) else ascii_of_nat (87 + n).

Fixpoint hex_prefix (n : nat) (s : string) : string :=
  match n, s with
  | S n', String a s' =>
      String (hex_lower (nat_of_ascii a / 16)) (String (hex_lower (nat_of_ascii a mod 16)) (hex_prefix n' s'))
  | _, _ => EmptyString
  end.

Definition stable_slug (preferred : option string) (fallbacks : list string) : string :=
  match List.find (fun slug => negb (is_empty slug)) (map slugify (option_list preferred ++ fallbacks)) with
  | Some slug => slug
  | None => String.append "service-" (hex_prefix 12 (default "service" (head fallbacks)))
  end.

Definition notification_external_id (prefix : string) (item : value) (id_fields : list string)
    (title : string) : string :=
  match field_string item id_fields with
  | Some id => id
  | None => concat_str [prefix; "-"; stable_slug None [title]]
  end.
End Slugs.

(** ** Times *)

Section Times.
Context {CT : ChronoText}.

Definition NAIVE_FORMATS : list string :=
  ["%Y-%m-%dT%H:%M:%S%.f"; "%Y-%m-%dT%H:%M:%S"; "%Y-%m-%d %H:%M:%S%.f"; "%Y-%m-%d %H:%M:%S"].

Fixpoint first_some {A B} (f : A -> option B) (l : list A) : option B :=
  match l with
  | [] => None
  | x :: l' => match f x with Some y => Some y | None => first_some f l' end
  end.

Definition normalize_naive_datetime (v : string) : option string :=
  let v := trim v in
  if is_empty v then None
  else match reprint_rfc3339 v with
       | Some text => Some text
       | None => first_some (fun format => reprint_naive format v) NAIVE_FORMATS
       end.

Definition normalized_time_field (item : value) (names : list string) : option string :=
  (fun v => default v (normalize_naive_datetime v)) <$> field_string item names.

Definition format_graph_datetime (t : Z) : string := format_seconds t.
End Times.
