(* ===== verification/Http.v ===== *)
(** Outgoing HTTP as the adapters use it through the reqwest crate: a request is
    a value, a client sends it and gets a response or an error text. The peer may
    answer each request as it likes, depending on everything sent before. *)
From S2P Require Import Prelude Text Config Values.

Open Scope Z_scope.
Open Scope portal_scope.

Inductive Auth :=
  | NoAuth
  | BearerAuth (token : string)
  | BasicAuth (username password : string).

Inductive Body :=
  | NoBody
  | JsonBody (v : value)
  | FormBody (fields : list (string * string)).

Record Request := mkRequest {
  rq_method : string;
  rq_url : string;
  rq_auth : Auth;
  rq_headers : list (string * string);
  rq_body : Body
}.

#[export] Instance eta_Request : Eta Request := fun r =>
  mkRequest (rq_method r) (rq_url r) (rq_auth r) (rq_headers r) (rq_body r).

Definition http_get (url : string) : Request := mkRequest "GET" url NoAuth [] NoBody.
Definition http_post (url : string) (body : Body) : Request := mkRequest "POST" url NoAuth [] body.

(** A response: the status with its [Display] text, [text().await.unwrap_or_default()]
    and [json::<Value>().await]. *)
Record Response := mkResponse {
  rs_status : Z;
  rs_status_text : string;
  rs_text : string;
  rs_json : Result string value
}.

Definition is_success (r : Response) : bool := (200 <=? rs_status r) && (rs_status r <=? 299).

(** The network as the process sees it. *)
Record Net := mkNet {
  sent : list Request;
  reply : list Request -> Request -> Result string Response
}.

#[export] Instance eta_Net : Eta Net := fun n => mkNet (sent n) (reply n).

(** Computations of an adapter: they send requests, read the clock, and may fail
    with a message or panic. *)
Definition Fetch (A : Type) : Type := M Net string A.

Definition lift {D E A} (r : Result E A) : M D E A :=
  match r with inl e => fail e | inr a => ret a end.

(** [.map_err(|error| format!("{prefix}{error}"))] *)
Definition with_context {A} (prefix : list string) (m : Fetch A) : Fetch A :=
  map_err (fun e => concat_str (prefix ++ [e])) m.

(** One call of [send()]: the request the program issues and the answer it gets in the end.
    Redirects that the client follows meanwhile are not issued by the program; what they may
    carry where is stated in [GraphSafety.v]. *)
Definition send (r : Request) : Fetch Response := fun c =>
  let answer := reply (db c) (sent (db c)) r in
  let c' := c <| db := (db c) <| sent := sent (db c) ++ [r] |> |> in
  match answer with inl e => (Err e, c') | inr x => (Ok x, c') end.

(** [Client::builder().timeout(..).build()]: the error of building the client, if
    any. *)
Class Reqwest := { client_error : Z -> option string }.

Definition build_client {RQ : Reqwest} (timeout_seconds : option Z) : Fetch unit :=
  match client_error (Z.max 1 (default 15 timeout_seconds)) with
  | Some e => fail e
  | None => ret tt
  end.

(** [serde_json::from_str::<T>]: the code the derive macro generates for [T]. *)
Class Deserialize (T : Type) := { from_str : string -> Result string T }.

(** [reqwest::Url]. [with_query_pairs] is [set_query(None)] followed by one
    [append_pair] per pair. *)
Class Urls := {
  WebUrl : Type;
  parse_url : string -> Result string WebUrl;
  join_url : WebUrl -> string -> Result string WebUrl;
  without_fragment : WebUrl -> WebUrl;
  url_text : WebUrl -> string;
  url_scheme : WebUrl -> string;
  url_host : WebUrl -> option string;
  url_port : WebUrl -> option Z;
  query_pairs : WebUrl -> list (string * string);
  with_query_pairs : WebUrl -> list (string * string) -> WebUrl
}.

(** ** Successful computations *)

Section Inversion.
Context {D E : Type}.

Lemma bind_ok {A B} (m : M D E A) (k : A -> M D E B) c b c' :
  bind m k c = (Ok b, c') -> exists a c1, m c = (Ok a, c1) /\ k a c1 = (Ok b, c').
Proof. unfold bind. destruct (m c) as [[a|e|] c1]; naive_solver. Qed.

Lemma map_err_ok {F A} (f : E -> F) (m : M D E A) c a c' :
  map_err f m c = (Ok a, c') -> m c = (Ok a, c').
Proof. unfold map_err, catch. destruct (m c) as [[x|e|] c1]; by intros [= <- <-]. Qed.

Lemma lift_ok {A} (r : Result E A) (c : Conn D) a c' : lift r c = (Ok a, c') -> r = inr a /\ c' = c.
Proof. destruct r; by intros [= <- <-]. Qed.

Lemma ok_or_ok {A} (e : E) (o : option A) (c : Conn D) a c' :
  ok_or e o c = (Ok a, c') -> o = Some a /\ c' = c.
Proof. destruct o; by intros [= <- <-]. Qed.

Lemma or_panic_ok {A} (o : option A) (c : Conn D) a c' :
  or_panic (E:=E) o c = (Ok a, c') -> o = Some a /\ c' = c.
Proof. destruct o; by intros [= <- <-]. Qed.
End Inversion.

(** One step of a computation that returned: [H] becomes the rest of it. *)
Ltac step_ok H a H1 :=
  let c1 := fresh "c" in
  apply bind_ok in H as (a & c1 & H1 & H);
  try (unfold with_context in H1; apply map_err_ok in H1);
  try first [apply lift_ok in H1 as [H1 ->] | apply ok_or_ok in H1 as [H1 ->] | apply or_panic_ok in H1 as [H1 ->]].

(** ** What a computation sends *)

(** [sends Q m]: every request [m] adds satisfies [Q], whatever the answers. *)
Definition sends {A} (Q : Request -> Prop) (m : Fetch A) : Prop := forall c,
  reply (db (snd (m c))) = reply (db c) /\
  exists l, sent (db (snd (m c))) = sent (db c) ++ l /\ Forall Q l.

Section Sends.
Context {Q : Request -> Prop}.

Lemma sends_nothing {A} (m : Fetch A) : (forall c, db (snd (m c)) = db c) -> sends Q m.
Proof. intros H c. rewrite H. split; [done|]. exists []. by rewrite app_nil_r. Qed.

Lemma sends_ret {A} (a : A) : sends Q (ret a).
Proof. by apply sends_nothing. Qed.

Lemma sends_fail {A} e : sends (A:=A) Q (fail e).
Proof. by apply sends_nothing. Qed.

Lemma sends_now : sends Q utc_now.
Proof. by apply sends_nothing. Qed.

Lemma sends_lift {A} (r : Result string A) : sends Q (lift r).
Proof. destruct r; [apply sends_fail|apply sends_ret]. Qed.

Lemma sends_or_panic {A} (o : option A) : sends Q (or_panic o).
Proof. apply sends_nothing. intros c. by destruct o. Qed.

Lemma sends_send r : Q r -> sends Q (send r).
Proof.
  intros Hr c. unfold send. destruct (reply (db c) (sent (db c)) r); (split; [done|]); exists [r]; auto.
Qed.

Lemma sends_chain {A B} (m : Fetch A) (k : outcome string A -> Fetch B) :
  sends Q m -> (forall r, sends Q (k r)) -> sends Q (fun c => let (r, c') := m c in k r c').
Proof.
  intros Hm Hk c. pose proof (Hm c) as [Hr (l & Hl & Fl)]. destruct (m c) as [r c']. cbn [snd] in *.
  destruct (Hk r c') as [Hr' (l' & Hl' & Fl')]. rewrite Hr', Hl', Hr, Hl. split; [done|].
  exists (l ++ l'). rewrite app_assoc. split; [done|]. by apply Forall_app.
Qed.

Lemma sends_bind {A B} (m : Fetch A) (k : A -> Fetch B) :
  sends Q m -> (forall a, sends Q (k a)) -> sends Q (bind m k).
Proof.
  intros Hm Hk.
  pose proof (sends_chain m (fun r => match r with Ok a => k a | Err e => fail e | Panic => panic end) Hm) as H.
  assert (forall r, sends Q (match r with Ok a => k a | Err e => fail e | Panic => panic end)) as Hk'.
  { intros [a|e|]; [apply Hk|apply sends_fail|by apply sends_nothing]. }
  intros c. specialize (H Hk' c). cbv beta in H. unfold bind. revert H. destruct (m c) as [[a|e|] c']; exact (fun H => H).
Qed.

Lemma sends_catch {A B} (m : Fetch A) (k : string + A -> Fetch B) :
  sends Q m -> (forall a, sends Q (k a)) -> sends Q (catch m k).
Proof.
  intros Hm Hk.
  pose proof (sends_chain m (fun r => match r with Ok a => k (inr a) | Err e => k (inl e) | Panic => panic end) Hm) as H.
  assert (forall r, sends Q (match r with Ok a => k (inr a) | Err e => k (inl e) | Panic => panic end)) as Hk'.
  { intros [a|e|]; [apply Hk..|by apply sends_nothing]. }
  intros c. specialize (H Hk' c). cbv beta in H. unfold catch. revert H. destruct (m c) as [[a|e|] c']; exact (fun H => H).
Qed.

Lemma sends_map_err {A} f (m : Fetch A) : sends Q m -> sends Q (map_err f m).
Proof. intros Hm. apply sends_catch; [done|]. intros [e|a]; [apply sends_fail|apply sends_ret]. Qed.

Lemma sends_context {A} prefix (m : Fetch A) : sends Q m -> sends Q (with_context prefix m).
Proof. apply sends_map_err. Qed.

Lemma sends_client {RQ : Reqwest} t : sends Q (build_client t).
Proof. unfold build_client. destruct (client_error _); [apply sends_fail|apply sends_ret]. Qed.

Lemma sends_for_each {A S} (l : list A) (s : S) body :
  (forall s x, sends Q (body s x)) -> sends Q (for_each l s body).
Proof.
  intros H. revert s. induction l as [|x l IH]; intros s; [apply sends_ret|].
  apply sends_bind; [apply H|]. intros s'. apply IH.
Qed.
End Sends.

Create HintDb sends.

#[export] Hint Resolve sends_ret sends_fail sends_now sends_lift sends_or_panic sends_send
  sends_map_err sends_context sends_client sends_for_each : sends.

(** Splits a computation into its steps. *)
Ltac sends_steps :=
  repeat first
    [ progress (intros; cbv beta zeta)
    | apply sends_bind
    | apply sends_context
    | apply sends_map_err
    | apply sends_ret | apply sends_fail | apply sends_now | apply sends_lift
    | apply sends_or_panic | apply sends_client | apply sends_for_each
    | match goal with |- sends _ (match ?x with _ => _ end) => destruct x end ].
