(* ===== verification/MonitoringAdapter.v ===== *)
(** The monitoring adapter: [src/src/connector_adapters/monitoring.rs]. *)
From S2P Require Import Prelude Text Schema Config Values AdapterValues Http.

Open Scope Z_scope.
Open Scope portal_scope.

Record MonitoringConfig := mkMonitoringConfig {
  mc_adapter : option string;
  mc_url : option string;
  mc_default_maintainer_id : option Z;
  mc_bearer_token : option string;
  mc_token : option string;
  mc_api_key : option string;
  mc_timeout_seconds : option Z
}.

(** ** Requests *)

(** [Some(token) if !token.trim().is_empty() => ..] *)
Definition if_present (o : option string) (f : string -> Request -> Request) (r : Request) : Request :=
  match o with
  | Some v => if is_empty (trim v) then r else f v r
  | None => r
  end.

Definition bearer_auth (token : string) (r : Request) : Request := r <| rq_auth := BearerAuth token |>.

Definition with_header (name v : string) (r : Request) : Request :=
  r <| rq_headers := rq_headers r ++ [(name, v)] |>.

(** What follows [send] in the three adapters that read a JSON answer. *)
Definition json_response (name : string) (request : Request) : Fetch value :=
  response <- with_context [name; " request failed: "] (send request) ;;
  if negb (is_success response) then
    fail (concat_str [name; " request returned "; rs_status_text response; ": "; rs_text response])
  else with_context [name; " response was not valid JSON: "] (lift (rs_json response)).

Definition send_monitoring_request (request : Request) (bearer_token api_key : option string)
    : Fetch value :=
  let request := if_present bearer_token bearer_auth request in
  let request := if_present api_key (with_header "x-api-key") request in
  json_response "monitoring" request.

(** ** Items *)

Definition monitoring_items (response : value) : list value :=
  default [] (or_else (get response "items") (get response "services") ≫= as_array)
  ++ default [] (as_array response).

Definition normalize_monitoring_health (status : string) : string :=
  let s := to_ascii_lowercase status in
  if one_of_texts s ["ok"; "up"; "green"; "healthy"; "passing"; "available"] then "healthy"
  else if one_of_texts s ["warn"; "warning"; "yellow"; "degraded"; "unstable"] then "degraded"
  else if one_of_texts s ["critical"; "down"; "red"; "error"; "failed"; "failing"; "offline";
                          "unhealthy"] then "down"
  else "unknown".

(** The JSON of an [i32] or [i64]. *)
Definition int_value (z : Z) : value := Number (if 0 <=? z then PosInt z else NegInt z).

Section Monitoring.
Context {CT : ChronoText} {CL : CharLower} {RQ : Reqwest} {DM : Deserialize MonitoringConfig}.

Definition normalize_monitoring_service (item : value) (default_maintainer_id : option Z) : value :=
  let external_id := default "unknown-service" (field_string item ["external_id"; "id"; "slug"; "name"]) in
  let name := default external_id (field_string item ["name"; "display_name"; "service"]) in
  let slug := stable_slug (field_string item ["slug"]) [external_id; name] in
  let maintainer_id := or_else (field_i32 item ["maintainer_id"]) default_maintainer_id in
  let health_status :=
    default "unknown" (normalize_monitoring_health <$>
      field_string item ["health_status"; "status"; "health"; "state"]) in
  let lifecycle_status :=
    default "active" (normalize_lifecycle <$> field_string item ["lifecycle_status"; "lifecycle"]) in
  json_object
    [ ("external_id", Str external_id);
      ("maintainer_id", int_value (default 0 maintainer_id));
      ("slug", Str slug);
      ("name", Str name);
      ("lifecycle_status", Str lifecycle_status);
      ("health_status", Str health_status);
      ("description", opt_value Str (field_string item ["description"; "summary"]));
      ("repository_url", opt_value Str (field_string item ["repository_url"; "repo_url"; "repository"]));
      ("dashboard_url", opt_value Str (field_string item ["dashboard_url"; "dashboard"; "url"]));
      ("runbook_url", opt_value Str (field_string item ["runbook_url"; "runbook"]));
      ("last_checked_at",
        opt_value Str (field_string item ["last_checked_at"; "checked_at"; "updated_at"]
                         ≫= normalize_naive_datetime)) ].

Definition fetch_monitoring_service_health (config_json : string) : Fetch value :=
  config <- with_context ["monitoring config is not valid JSON: "] (lift (from_str config_json)) ;;
  if negb (bool_decide (mc_adapter config = Some "monitoring")) then
    fail "monitoring config must set adapter to monitoring"
  else
    url <- ok_or "monitoring config must set url" (mc_url config) ;;
    lift (require_url "url" url) ;;;
    with_context ["monitoring HTTP client could not be built: "]
      (build_client (mc_timeout_seconds config)) ;;;
    response <- send_monitoring_request (http_get url)
                  (or_else (mc_bearer_token config) (mc_token config)) (mc_api_key config) ;;
    let items := map (fun item => normalize_monitoring_service item (mc_default_maintainer_id config))
                   (monitoring_items response) in
    ret (json_object [("items", Array items)]).
End Monitoring.
