(* ===== verification/ErpAdapter.v ===== *)
(** ERP messages and the built-in samples: [src/src/connector_adapters/erp.rs] and
    [samples.rs]. *)
From S2P Require Import Prelude Text Schema Config Values AdapterValues Http MonitoringAdapter.

Open Scope Z_scope.
Open Scope portal_scope.

Record ErpPrivateMessagesConfig := mkErpPrivateMessagesConfig {
  ec_adapter : option string;
  ec_messages_url : option string;
  ec_private_messages_url : option string;
  ec_url : option string;
  ec_bearer_token : option string;
  ec_token : option string;
  ec_api_key : option string;
  ec_x_api_key : option string;
  ec_api_key_header : option string;
  ec_since : option string;
  ec_updated_after : option string;
  ec_received_after : option string;
  ec_lookback_hours : option Z;
  ec_unread_only : option bool;
  ec_top : option Z;
  ec_limit : option Z;
  ec_timeout_seconds : option Z;
  ec_snapshot_complete : option bool
}.

(** [reqwest::header::HeaderName::from_bytes], which lower-cases the name. *)
Class HeaderNames := { header_name : string -> option string }.

Definition bool_text (b : bool) : string := if b then "true" else "false".

(** [(!details.is_empty()).then(|| details.join(" | "))] *)
Definition joined_details (details : list string) : option string :=
  match details with [] => None | _ => Some (join " | " details) end.

(** [if let Some(x) = o { details.push(format!("{label}{x}")) }] *)
Definition detail (label : string) (o : option string) : list string :=
  match o with Some x => [String.append label x] | None => [] end.

Section Erp.
Context {CT : ChronoText} {CL : CharLower} {RQ : Reqwest} {HN : HeaderNames}
        {DE : Deserialize ErpPrivateMessagesConfig}.

(** ** The request *)

Definition erp_since (config : ErpPrivateMessagesConfig) : Fetch (option string) :=
  match trimmed_non_empty (or_else (ec_since config)
          (or_else (ec_updated_after config) (ec_received_after config))) with
  | Some since => ret (Some since)
  | None =>
      match ec_lookback_hours config with
      | Some hours =>
          now <- utc_now ;;
          t <- or_panic (datetime_add now (- (clamp 1 720 hours * 3600 * second))) ;;
          ret (Some (format_graph_datetime t))
      | None => ret None
      end
  end.

Definition erp_private_messages_query_params (config : ErpPrivateMessagesConfig)
    : Fetch (list (string * string)) :=
  since <- erp_since config ;;
  ret (match since with Some since => [("since", since)] | None => [] end
       ++ match ec_unread_only config with Some b => [("unread_only", bool_text b)] | None => [] end
       ++ match or_else (ec_limit config) (ec_top config) with
          | Some limit => [("limit", int_to_string (clamp 1 100 limit))]
          | None => []
          end).

Definition erp_private_messages_url (config : ErpPrivateMessagesConfig) : Fetch string :=
  base_url <- ok_or "erp_private_messages config must set messages_url, private_messages_url, or url"
                (trimmed_non_empty (or_else (ec_messages_url config)
                   (or_else (ec_private_messages_url config) (ec_url config)))) ;;
  lift (require_url "messages_url" base_url) ;;;
  params <- erp_private_messages_query_params config ;;
  ret (append_query_params base_url params).

Definition with_api_key (api_key api_key_header : option string) (request : Request) : Fetch Request :=
  match api_key with
  | Some key =>
      if is_empty (trim key) then ret request
      else
        name <- ok_or "api_key_header must be a valid HTTP header name"
                  (header_name (default "x-api-key" (trimmed_non_empty api_key_header))) ;;
        ret (with_header name key request)
  | None => ret request
  end.

Definition send_erp_private_messages_request (request : Request)
    (bearer_token api_key api_key_header : option string) : Fetch value :=
  request <- with_api_key api_key api_key_header (if_present bearer_token bearer_auth request) ;;
  json_response "erp_private_messages" request.

(** ** Items *)

Definition erp_message_body (item : value) : option string :=
  joined_details
    (detail "" (field_string item ["body"; "message"; "description"; "preview"])
     ++ detail "From: " (person_display item ["requester"; "sender"; "from"; "owner"])
     ++ detail "Status: " (field_string item ["status"; "state"])
     ++ detail "Due: " (normalized_time_field item ["due_at"; "dueAt"; "deadline"; "expires_at"; "expiresAt"])).

(** The severity a status implies, if any. *)
Definition erp_status_severity (status : string) : option string :=
  let s := to_ascii_lowercase (trim status) in
  if one_of_texts s ["critical"; "urgent"; "blocked"; "overdue"; "failed"; "failure"; "escalated"]
  then Some "critical"
  else if one_of_texts s ["pending"; "waiting"; "waiting_approval"; "requires_action"; "submitted"; "open"]
  then Some "warning"
  else if one_of_texts s ["closed"; "done"; "approved"; "completed"; "resolved"] then Some "info"
  else None.

Definition erp_message_severity (item : value) : string :=
  match field_string item ["severity"] with
  | Some severity => normalize_notification_severity severity "warning"
  | None =>
      match field_string item ["priority"; "importance"] with
      | Some priority => normalize_notification_severity priority "warning"
      | None =>
          match field_string item ["status"; "state"] ≫= erp_status_severity with
          | Some severity => severity
          | None =>
              if default false (field_bool item ["requires_approval"; "approval_required"; "is_pending"])
              then "warning" else "info"
          end
      end
  end.

Definition normalize_erp_message_notification (item : value) : value :=
  let title := default "ERP message"
    (field_string item ["title"; "subject"; "summary"; "type"; "request_type"; "requestType"]) in
  let external_id := notification_external_id "erp" item
    ["external_id"; "id"; "message_id"; "messageId"; "request_id"; "requestId"; "approval_id";
     "approvalId"; "task_id"; "ticket_id"] title in
  json_object
    [ ("external_id", Str external_id);
      ("title", Str title);
      ("body", opt_value Str (erp_message_body item));
      ("severity", Str (erp_message_severity item));
      ("is_read", Bool (default false (field_bool item ["is_read"; "isRead"; "read"; "seen"])));
      ("url", opt_value Str (field_url item ["url"; "web_url"; "web_link"; "webLink"])) ].

Definition ERP_PATHS : list (string * list string) :=
  [ ("/items", ["items"]); ("/messages", ["messages"]); ("/private_messages", ["private_messages"]);
    ("/privateMessages", ["privateMessages"]); ("/data/items", ["data"; "items"]);
    ("/data/messages", ["data"; "messages"]); ("/data/private_messages", ["data"; "private_messages"]);
    ("/data/privateMessages", ["data"; "privateMessages"]); ("/data", ["data"]) ].

Definition erp_message_items (response : value) : Result string (list value) :=
  match as_array response with
  | Some items => inr items
  | None =>
      match first_some (fun p => (fun v => (fst p, v)) <$> pointer response (snd p)) ERP_PATHS with
      | Some (path, v) =>
          some_or (as_array v)
            (concat_str ["erp_private_messages response field "; path; " must be an array"])
      | None => inl "erp_private_messages response must include an explicit message collection array"
      end
  end.

Definition fetch_erp_private_messages (config_json : string) : Fetch value :=
  config <- with_context ["erp_private_messages config is not valid JSON: "] (lift (from_str config_json)) ;;
  if negb (match ec_adapter config with
           | Some a => one_of_texts a ["erp_private_messages"; "erp_messages_http"; "erp_http"]
           | None => false
           end) then fail "erp_private_messages config must set adapter to erp_private_messages"
  else
    request_url <- erp_private_messages_url config ;;
    with_context ["erp_private_messages HTTP client could not be built: "]
      (build_client (ec_timeout_seconds config)) ;;;
    response <- send_erp_private_messages_request (http_get request_url)
                  (or_else (ec_bearer_token config) (ec_token config))
                  (or_else (ec_api_key config) (ec_x_api_key config)) (ec_api_key_header config) ;;
    items <- lift (erp_message_items response) ;;
    ret (json_object
           [ ("items", Array (map normalize_erp_message_notification items));
             ("snapshot_complete", Bool (default false (ec_snapshot_complete config))) ]).

(** ** Samples *)

Inductive SampleNotificationKind := Calendar | OutlookMail | ErpMessages.

Definition sample_adapter_name (kind : SampleNotificationKind) : string :=
  match kind with
  | Calendar => "calendar_sample"
  | OutlookMail => "outlook_mail_sample"
  | ErpMessages => "erp_messages_sample"
  end.

Definition item_keys (kind : SampleNotificationKind) : list string :=
  match kind with
  | Calendar => ["items"; "events"; "meetings"]
  | OutlookMail => ["items"; "messages"; "mail"]
  | ErpMessages => ["items"; "messages"; "private_messages"]
  end.

Definition sample_notification_items (config : value) (kind : SampleNotificationKind)
    : option (list value) :=
  first_some (fun key => get config key ≫= as_array) (item_keys kind).

Definition calendar_body (item : value) : option string :=
  or_else (field_string item ["body"; "description"; "preview"])
    (joined_details
      (detail "Organizer: " (person_display item ["organizer"; "organizer_name"; "from"])
       ++ detail "Location: " (field_string item ["location"; "room"])
       ++ detail "Starts: " (normalized_time_field item ["starts_at"; "start_at"; "start_time"; "start"])
       ++ detail "Ends: " (normalized_time_field item ["ends_at"; "end_at"; "end_time"; "end"]))).

Definition mail_body (item : value) : option string :=
  let preview := field_string item ["body"; "body_preview"; "bodyPreview"; "preview"; "summary"] in
  let sender := person_display item ["from"; "sender"] in
  match sender, preview with
  | Some sender, Some preview => Some (concat_str ["From: "; sender; " | "; preview])
  | Some sender, None => Some (concat_str ["From: "; sender])
  | None, Some preview => Some preview
  | None, None => None
  end.

Definition sample_severity (item : value) : string :=
  default "info" ((fun v => normalize_notification_severity v "info")
                    <$> field_string item ["severity"; "importance"; "priority"]).

Definition normalize_calendar_notification (item : value) : value :=
  let title := default "Calendar event" (field_string item ["title"; "subject"; "summary"; "name"]) in
  let external_id := notification_external_id "calendar" item
    ["external_id"; "id"; "event_id"; "uid"; "ical_uid"] title in
  json_object
    [ ("external_id", Str external_id);
      ("title", Str title);
      ("body", opt_value Str (calendar_body item));
      ("severity", Str (sample_severity item));
      ("is_read", Bool (default false (field_bool item ["is_read"; "read"; "seen"])));
      ("url", opt_value Str (field_url item
         ["url"; "web_url"; "web_link"; "webLink"; "join_url"; "online_meeting_url"]));
      ("organizer", opt_value Str (person_display item ["organizer"; "organizer_name"; "from"]));
      ("location", opt_value Str (field_string item ["location"; "room"]));
      ("starts_at", opt_value Str (normalized_time_field item ["starts_at"; "start_at"; "start_time"; "start"]));
      ("ends_at", opt_value Str (normalized_time_field item ["ends_at"; "end_at"; "end_time"; "end"]));
      ("time_zone", opt_value Str (field_string item ["time_zone"; "timeZone"]));
      ("is_all_day", Bool (default false (field_bool item ["is_all_day"; "isAllDay"])));
      ("is_cancelled", Bool (default false (field_bool item ["is_cancelled"; "isCancelled"])));
      ("web_url", opt_value Str (field_url item ["url"; "web_url"; "web_link"; "webLink"]));
      ("join_url", opt_value Str (field_url item ["join_url"; "online_meeting_url"])) ].

Definition normalize_outlook_mail_notification (item : value) : value :=
  let title := default "Outlook mail message" (field_string item ["title"; "subject"]) in
  let external_id := notification_external_id "mail" item
    ["external_id"; "id"; "message_id"; "internet_message_id"] title in
  json_object
    [ ("external_id", Str external_id);
      ("title", Str title);
      ("body", opt_value Str (mail_body item));
      ("severity", Str (sample_severity item));
      ("is_read", Bool (default false (field_bool item ["is_read"; "isRead"; "read"; "seen"])));
      ("url", opt_value Str (field_url item ["url"; "web_url"; "web_link"; "webLink"])) ].

Definition normalize_sample_notification (kind : SampleNotificationKind) (item : value) : value :=
  match kind with
  | Calendar => normalize_calendar_notification item
  | OutlookMail => normalize_outlook_mail_notification item
  | ErpMessages => normalize_erp_message_notification item
  end.

Definition default_sample_notifications (kind : SampleNotificationKind) : Fetch (list value) :=
  match kind with
  | Calendar =>
      now <- utc_now ;;
      starts_at <- or_panic (datetime_add now (15 * 60 * second)) ;;
      ends_at <- or_panic (datetime_add starts_at (30 * 60 * second)) ;;
      ret [json_object
        [ ("external_id", Str "calendar-platform-standup");
          ("title", Str "Calendar: Platform standup");
          ("body", Str "Organizer: Taylor Lin | Location: Teams");
          ("severity", Str "info");
          ("is_read", Bool false);
          ("url", Str "https://calendar.example.test/events/platform-standup");
          ("organizer", Str "Taylor Lin");
          ("location", Str "Teams");
          ("starts_at", Str (rfc3339_seconds starts_at));
          ("ends_at", Str (rfc3339_seconds ends_at));
          ("time_zone", Str "UTC");
          ("is_all_day", Bool false);
          ("is_cancelled", Bool false);
          ("web_url", Str "https://calendar.example.test/events/platform-standup");
          ("join_url", Str "https://teams.example.test/platform-standup") ]]
  | OutlookMail =>
      ret [json_object
        [ ("external_id", Str "mail-release-brief");
          ("title", Str "Mail: Release brief ready for review");
          ("body", Str "From: release-bot@example.test | API deploy window moved to 15:30.");
          ("severity", Str "warning");
          ("is_read", Bool false);
          ("url", Str "https://outlook.example.test/mail/release-brief") ]]
  | ErpMessages =>
      ret [json_object
        [ ("external_id", Str "erp-access-approval");
          ("title", Str "ERP: Deployment access approval waiting");
          ("body", Str "Sample ERP private message. Configure erp_private_messages for a real HTTP endpoint.");
          ("severity", Str "warning");
          ("is_read", Bool false);
          ("url", Null) ]]
  end.

Definition fetch_sample_notifications {SV : SerdeValue} (config_json : string)
    (kind : SampleNotificationKind) : Fetch value :=
  config <- with_context [sample_adapter_name kind; " config is not valid JSON: "]
              (lift (value_from_str config_json)) ;;
  items <- match sample_notification_items config kind with
           | Some items => ret (map (normalize_sample_notification kind) items)
           | None => default_sample_notifications kind
           end ;;
  ret (json_object [("items", Array items); ("snapshot_complete", Bool true)]).
End Erp.
