(* ===== verification/AzureDevOps.v ===== *)
(** The Azure DevOps adapter: [src/src/connector_adapters/azure_devops.rs]. A WIQL
    query gives the ids of work items, which are then read in batches. *)
From S2P Require Import Prelude Text Schema Config Values AdapterValues Http MonitoringAdapter.
From Stdlib Require Import Ascii.

Open Scope Z_scope.
Open Scope portal_scope.

Definition WORK_ITEMS_BATCH_SIZE : nat := 200.
Definition DEFAULT_MAX_ITEMS : Z := 1000.
Definition MAX_ALLOWED_ITEMS : Z := 10000.

Record AzureDevOpsConfig := mkAzureDevOpsConfig {
  ac_adapter : option string;
  ac_wiql_url : option string;
  ac_work_items_url : option string;
  ac_base_url : option string;
  ac_organization : option string;
  ac_project : option string;
  ac_api_version : option string;
  ac_personal_access_token : option string;
  ac_pat : option string;
  ac_wiql : option string;
  ac_web_url_base : option string;
  ac_due_date_field : option string;
  ac_assignee_user_mappings : gmap string Z;
  ac_max_items : option Z;
  ac_timeout_seconds : option Z
}.

(** ** Settings *)

Definition azure_max_items (v : option Z) : Result string nat :=
  let v := default DEFAULT_MAX_ITEMS v in
  if (1 <=? v) && (v <=? MAX_ALLOWED_ITEMS) then inr (Z.to_nat v)
  else inl (concat_str ["azure_devops config max_items must be an integer from 1 to ";
                        int_to_string MAX_ALLOWED_ITEMS]).

Definition azure_devops_url (base_url organization project path api_version : string) : string :=
  let base := trim_end_char "/"%char base_url in
  let path := trim_start_char "/"%char path in
  concat_str [base; "/"; organization; "/"; project; "/"; path; "?api-version="; api_version].

Definition default_wiql : string :=
  "SELECT [System.Id] FROM WorkItems WHERE [System.TeamProject] = @project ORDER BY [System.ChangedDate] DESC".

Definition endpoint_url (configured : option string) (path : string) (config : AzureDevOpsConfig) : string :=
  match configured with
  | Some url => url
  | None =>
      azure_devops_url (default "https://dev.azure.com" (ac_base_url config))
        (default "" (ac_organization config)) (default "" (ac_project config)) path
        (default "7.1" (ac_api_version config))
  end.

Definition wiql_url_with_max_items {UR : Urls} (url : string) (max_items : nat) : Result string string :=
  match parse_url url with
  | inl error => inl (concat_str ["azure_devops wiql_url is invalid: "; error])
  | inr url =>
      let existing_pairs := List.filter (fun p => negb (fst p =s "$top")) (query_pairs url) in
      inr (url_text (with_query_pairs url
             (existing_pairs ++ [("$top", int_to_string (Z.of_nat max_items))])))
  end.

Definition requested_fields (due_date_field : option string) : list string :=
  let fields :=
    ["System.Id"; "System.Title"; "System.State"; "System.AssignedTo"; "System.TeamProject";
     "System.WorkItemType"; "System.ChangedDate"; "System.BoardLane"; "Microsoft.VSTS.Common.Priority"] in
  match trimmed_non_empty due_date_field with
  | Some field => if one_of_texts field fields then fields else fields ++ [field]
  | None => fields
  end.

Definition send_azure_request (request : Request) (token : option string) : Fetch value :=
  json_response "azure_devops"
    (if_present token (fun t r => r <| rq_auth := BasicAuth "" t |>) request).

(** ** One work item *)

Definition assignee_display_name (v : value) : option string :=
  or_else (get v "displayName" ≫= as_str) (as_str v).

Definition assignee_source_descriptor (v : value) : option string :=
  first_some (fun field => trimmed_non_empty (get v field ≫= as_str)) ["descriptor"; "id"].

Definition normalize_azure_state (state : string) : string :=
  let s := to_ascii_lowercase state in
  if one_of_texts s ["done"; "closed"; "removed"] then "done"
  else if s =s "blocked" then "blocked"
  else if one_of_texts s ["active"; "committed"; "in progress"; "resolved"] then "in_progress"
  else "todo".

Definition normalize_azure_priority (priority : option Z) : string :=
  match priority with
  | Some 1 => "urgent"
  | Some 2 => "high"
  | Some 3 => "medium"
  | _ => "low"
  end.

Definition normalize_azure_work_item (item : value) (web_url_base due_date_field : option string)
    (assignee_user_mappings : gmap string Z) : value :=
  let id := default 0 (get item "id" ≫= as_i64) in
  let fields := default Null (get item "fields") in
  let title := default "Untitled work item" (get fields "System.Title" ≫= as_str) in
  let state := default "New" (get fields "System.State" ≫= as_str) in
  let board_lane := get fields "System.BoardLane" ≫= as_str in
  let blocked := match board_lane with Some lane => eq_ignore_ascii_case lane "blocked" | None => false end in
  let normalized_status := if blocked then "blocked" else normalize_azure_state state in
  let priority := get fields "Microsoft.VSTS.Common.Priority" ≫= as_i64 in
  let assignee := get fields "System.AssignedTo" ≫= assignee_display_name in
  let assignee_source_id := get fields "System.AssignedTo" ≫= assignee_source_descriptor in
  let assignee_user_id := assignee_source_id ≫= fun d => assignee_user_mappings !! d in
  let due_at := trimmed_non_empty due_date_field ≫= fun field => get fields field ≫= as_str in
  let url :=
    or_else (pointer item ["_links"; "html"; "href"] ≫= as_str)
      ((fun base => concat_str [trim_end_char "/"%char base; "/"; int_to_string id]) <$> web_url_base) in
  json_object
    [ ("external_id", Str (int_to_string id));
      ("title", Str title);
      ("status", Str normalized_status);
      ("priority", Str (normalize_azure_priority priority));
      ("assignee", opt_value Str assignee);
      ("project", opt_value Str (get fields "System.TeamProject" ≫= as_str));
      ("work_item_type", opt_value Str (get fields "System.WorkItemType" ≫= as_str));
      ("assignee_source_id", opt_value Str assignee_source_id);
      ("assignee_user_id", opt_value int_value assignee_user_id);
      ("due_at", opt_value Str due_at);
      ("source_updated_at", opt_value Str (get fields "System.ChangedDate" ≫= as_str));
      ("url", opt_value Str url) ].

(** ** The ids of the query *)

(** The loop over [workItems]: [index] counts from zero. *)
Fixpoint wiql_ids (max_items index : nat) (work_items : list value) (seen_ids : gset Z) (ids : list Z)
    : Result string (list Z) :=
  match work_items with
  | [] => inr ids
  | item :: work_items' =>
      let? id := some_or (get item "id" ≫= as_i64)
        (concat_str ["azure_devops WIQL response workItems item "; int_to_string (Z.of_nat (index + 1));
                     " must include a numeric id"]) in
      let fresh := negb (bool_decide (id ∈ seen_ids)) in
      wiql_ids max_items (S index) work_items' ({[id]} ∪ seen_ids)
        (if fresh && (length ids <? max_items)%nat then ids ++ [id] else ids)
  end.

Definition wiql_work_items (response : value) : Result string (list value) :=
  let? v := some_or (get response "workItems")
              "azure_devops WIQL response must include an explicit workItems array" in
  some_or (as_array v) "azure_devops WIQL response field workItems must be an array".

(** ** Batches *)

(** [slice::chunks]; one unit of fuel per element is enough, since a chunk takes at
    least one. *)
Fixpoint chunks_from {A} (fuel n : nat) (l : list A) : list (list A) :=
  match fuel, l with
  | S fuel', _ :: _ => take n l :: chunks_from fuel' n (drop n l)
  | _, _ => []
  end.

Definition chunks {A} (n : nat) (l : list A) : list (list A) := chunks_from (length l) n l.

(** [ids.len().div_ceil(WORK_ITEMS_BATCH_SIZE)] *)
Definition batch_total (n : nat) : nat := (n + WORK_ITEMS_BATCH_SIZE - 1) / WORK_ITEMS_BATCH_SIZE.

Definition batch_name (batch_index batch_count : nat) : list string :=
  ["azure_devops work item batch "; int_to_string (Z.of_nat (batch_index + 1)); "/";
   int_to_string (Z.of_nat batch_count)].

(** The answered items by id; a later one replaces an earlier one. *)
Fixpoint response_map (name : list string) (index : nat) (values : list value) (m : gmap Z value)
    : Result string (gmap Z value) :=
  match values with
  | [] => inr m
  | item :: values' =>
      let? id := some_or (get item "id" ≫= as_i64)
        (concat_str (name ++ [" response item "; int_to_string (Z.of_nat (index + 1));
                              " must include a numeric id"])) in
      response_map name (S index) values' (<[id := item]> m)
  end.

(** The requested items in the requested order. *)
Fixpoint take_requested (name : list string) (ids : list Z) (m : gmap Z value) : Result string (list value) :=
  match ids with
  | [] => inr []
  | id :: ids' =>
      let? item := some_or (m !! id)
        (concat_str (name ++ [" did not return requested work item id "; int_to_string id])) in
      let? items := take_requested name ids' (delete id m) in
      inr (item :: items)
  end.

Definition batch_items (name : list string) (response : value) (batch_ids : list Z)
    : Result string (list value) :=
  let? v := some_or (get response "value")
              (concat_str (name ++ [" response must include an explicit value array"])) in
  let? values := some_or (as_array v)
                   (concat_str (name ++ [" response field value must be an array"])) in
  let? m := response_map name 0 values ∅ in
  take_requested name batch_ids m.

Definition batch_request (work_items_url : string) (batch_ids : list Z) (fields : list string) : Request :=
  http_post work_items_url
    (JsonBody (json_object [("ids", Array (map int_value batch_ids)); ("fields", Array (map Str fields))])).

Section Fetching.
Context {RQ : Reqwest} {UR : Urls} {DA : Deserialize AzureDevOpsConfig}.

Definition fetch_batch (config : AzureDevOpsConfig) (work_items_url : string) (token : option string)
    (batch_count : nat) (items : list value) (batch : nat * list Z) : Fetch (list value) :=
  let name := batch_name (fst batch) batch_count in
  response <- with_context (name ++ [" failed: "])
    (send_azure_request (batch_request work_items_url (snd batch)
                           (requested_fields (ac_due_date_field config))) token) ;;
  batch_values <- lift (batch_items name response (snd batch)) ;;
  ret (items ++ map (fun item => normalize_azure_work_item item (ac_web_url_base config)
                      (ac_due_date_field config) (ac_assignee_user_mappings config)) batch_values).

Definition azure_payload (items : list value) (snapshot_complete : bool) : value :=
  json_object [("items", Array items); ("snapshot_complete", Bool snapshot_complete)].

Definition fetch_azure_devops_work_cards (config_json : string) : Fetch value :=
  config <- with_context ["azure_devops config is not valid JSON: "] (lift (from_str config_json)) ;;
  if negb (bool_decide (ac_adapter config = Some "azure_devops")) then
    fail "azure_devops config must set adapter to azure_devops"
  else
    let wiql_url := endpoint_url (ac_wiql_url config) "_apis/wit/wiql" config in
    let work_items_url := endpoint_url (ac_work_items_url config) "_apis/wit/workitemsbatch" config in
    let token := or_else (ac_personal_access_token config) (ac_pat config) in
    lift (require_url "wiql_url" wiql_url) ;;;
    lift (require_url "work_items_url" work_items_url) ;;;
    max_items <- lift (azure_max_items (ac_max_items config)) ;;
    wiql_url <- lift (wiql_url_with_max_items wiql_url max_items) ;;
    with_context ["azure_devops HTTP client could not be built: "]
      (build_client (ac_timeout_seconds config)) ;;;
    wiql_response <- with_context ["azure_devops WIQL request failed: "]
      (send_azure_request (http_post wiql_url
         (JsonBody (json_object [("query", Str (default default_wiql (ac_wiql config)))]))) token) ;;
    work_items <- lift (wiql_work_items wiql_response) ;;
    let snapshot_complete := (length work_items <? max_items)%nat in
    ids <- lift (wiql_ids max_items 0 work_items ∅ []) ;;
    match ids with
    | [] => ret (azure_payload [] snapshot_complete)
    | _ =>
        let batches := chunks WORK_ITEMS_BATCH_SIZE ids in
        items <- for_each (imap pair batches) []
                   (fetch_batch config work_items_url token (batch_total (length ids))) ;;
        ret (azure_payload items snapshot_complete)
    end.
End Fetching.
