(* ===== verification/GraphAdapter.v ===== *)
(** The Microsoft Graph adapters: [src/src/connector_adapters/graph.rs] and
    [graph/oauth.rs], [graph/mail.rs] and [graph/calendar.rs]. *)
From S2P Require Import Prelude Text Schema Config Values AdapterValues Http MonitoringAdapter ErpAdapter.
From Stdlib Require Import Ascii.

Open Scope Z_scope.
Open Scope portal_scope.

Definition DEFAULT_MAX_PAGES : Z := 20.
Definition DEFAULT_MAX_ITEMS : Z := 1000.
Definition MAX_ALLOWED_PAGES : Z := 100.
Definition MAX_ALLOWED_ITEMS : Z := 10000.

Record ConnectorAdapterResult := mkConnectorAdapterResult {
  payload : option value;
  updated_config : option string
}.

Record GraphCollection := mkGraphCollection {
  gc_items : list value;
  gc_snapshot_complete : bool
}.

Definition graph_pagination_limits (adapter : string) (max_pages max_items : option Z)
    : Result string (nat * nat) :=
  let max_pages := default DEFAULT_MAX_PAGES max_pages in
  let max_items := default DEFAULT_MAX_ITEMS max_items in
  guard? (1 <=? max_pages) && (max_pages <=? MAX_ALLOWED_PAGES)
    else concat_str [adapter; " config max_pages must be an integer from 1 to ";
                     int_to_string MAX_ALLOWED_PAGES] in
  guard? (1 <=? max_items) && (max_items <=? MAX_ALLOWED_ITEMS)
    else concat_str [adapter; " config max_items must be an integer from 1 to ";
                     int_to_string MAX_ALLOWED_ITEMS] in
  inr (Z.to_nat max_pages, Z.to_nat max_items).

(** ** Pages *)

Definition graph_collection_items (response : value) (adapter : string) (page_number : nat)
    : Result string (list value) :=
  match as_array response with
  | Some items => inr items
  | None =>
      match first_some (fun field => (fun v => (field, v)) <$> get response field)
              ["value"; "items"; "events"; "messages"] with
      | Some (field, v) =>
          some_or (as_array v)
            (concat_str [adapter; " page "; int_to_string (Z.of_nat page_number); " response field ";
                         field; " must be an array"])
      | None =>
          inl (concat_str [adapter; " page "; int_to_string (Z.of_nat page_number);
            " response must include an explicit collection array in value, items, events, or messages"])
      end
  end.

Section Pages.
Context {UR : Urls} {SV : SerdeValue}.

Definition same_origin (left right : WebUrl) : bool :=
  (url_scheme left =s url_scheme right)
  && bool_decide (url_host left = url_host right)
  && bool_decide (url_port left = url_port right).

Definition url_origin (url : WebUrl) : string :=
  let host := default "<missing-host>" (url_host url) in
  match url_port url with
  | Some port => concat_str [url_scheme url; "://"; host; ":"; int_to_string port]
  | None => concat_str [url_scheme url; "://"; host]
  end.

Definition canonical_url (url : WebUrl) : string := url_text (without_fragment url).

Definition graph_next_link (response : value) (current_url initial_url : WebUrl) (adapter : string)
    : Result string (option WebUrl) :=
  match first_field response ["@odata.nextLink"; "odata.nextLink"; "nextLink"] with
  | None => inr None
  | Some Null => inr None
  | Some next_link =>
      let invalid := concat_str [adapter; " pagination nextLink must be a non-empty URL string"] in
      let? next_link := some_or (trim <$> as_str next_link) invalid in
      guard? negb (is_empty next_link) else invalid in
      let? next_url :=
        match join_url current_url next_link with
        | inl error => inl (concat_str [adapter; " pagination nextLink is not a valid URL: "; error])
        | inr url => inr (without_fragment url)
        end in
      guard? same_origin initial_url next_url
        else concat_str [adapter; " pagination nextLink origin "; url_origin next_url;
                         " does not match initial request origin "; url_origin initial_url] in
      inr (Some next_url)
  end.

Definition page_request (url : WebUrl) (token : string) (prefer : option string) : Request :=
  let request := bearer_auth token (http_get (url_text url)) in
  match prefer with Some prefer => with_header "Prefer" prefer request | None => request end.

Definition pagination_loop (adapter : string) (url : WebUrl) : string :=
  concat_str [adapter; " pagination loop detected at "; url_text url].

(** The body of the page loop up to the parsed answer. *)
Definition fetch_page (adapter token : string) (prefer : option string) (page_number : nat)
    (url : WebUrl) : Fetch value :=
  let page := [adapter; " page "; int_to_string (Z.of_nat page_number)] in
  response <- with_context (page ++ [" request failed: "]) (send (page_request url token prefer)) ;;
  if negb (is_success response) then
    fail (concat_str (page ++ [" request returned "; rs_status_text response; ": "; rs_text response]))
  else with_context (page ++ [" response was not valid JSON: "]) (lift (value_from_str (rs_text response))).

(** The [for] loop over the pages: [remaining] pages from [page_number] on. *)
Fixpoint fetch_pages (adapter token : string) (prefer : option string) (initial_url : WebUrl)
    (max_pages max_items : nat) (remaining page_number : nat) (current_url : WebUrl)
    (visited : gset string) (items : list value) : Fetch GraphCollection :=
  match remaining with
  | O => ret (mkGraphCollection items false)
  | S remaining' =>
      let canonical := canonical_url current_url in
      if bool_decide (canonical ∈ visited) then fail (pagination_loop adapter current_url)
      else
        let visited := {[canonical]} ∪ visited in
        response <- fetch_page adapter token prefer page_number current_url ;;
        page_items <- lift (graph_collection_items response adapter page_number) ;;
        let room := (max_items - length items)%nat in
        let page_was_truncated := (room <? length page_items)%nat in
        let items := items ++ take room page_items in
        next_url <- lift (graph_next_link response current_url initial_url adapter) ;;
        match next_url with
        | Some next_url =>
            if bool_decide (canonical_url next_url ∈ visited) then
              fail (pagination_loop adapter next_url)
            else if page_was_truncated then ret (mkGraphCollection items false)
            else if (max_items <=? length items)%nat || (max_pages <=? page_number)%nat then
              ret (mkGraphCollection items false)
            else
              fetch_pages adapter token prefer initial_url max_pages max_items remaining'
                (S page_number) next_url visited items
        | None => ret (mkGraphCollection items (negb page_was_truncated))
        end
  end.

Definition fetch_graph_collection (initial_url token : string) (prefer : option string)
    (adapter : string) (max_pages max_items : nat) : Fetch GraphCollection :=
  initial_url <- with_context [adapter; " request URL is invalid: "] (lift (parse_url initial_url)) ;;
  fetch_pages adapter token prefer initial_url max_pages max_items max_pages 1 initial_url ∅ [].
End Pages.

(** ** Access tokens *)

Record GraphTokenResponse := mkGraphTokenResponse {
  tr_access_token : option string;
  tr_token_type : option string;
  tr_expires_in : option Z;
  tr_refresh_token : option string;
  tr_scope : option string;
  tr_error : option string;
  tr_error_description : option string
}.

Record GraphAccessToken := mkGraphAccessToken {
  ga_token : string;
  ga_updated_config : option string
}.

Definition graph_token_url (config : value) : string :=
  match field_string config ["token_url"; "oauth_token_url"] with
  | Some url => url
  | None =>
      let tenant := default "organizations" (field_string config ["tenant_id"; "tenant"; "directory_id"]) in
      concat_str ["https://login.microsoftonline.com/"; encode_url_component tenant; "/oauth2/v2.0/token"]
  end.

(** The texts of a JSON array of scopes, joined. *)
Definition joined_scopes (items : list value) : string :=
  join " " (List.filter (fun v => negb (is_empty v)) (map trim (omap as_str items))).

Definition graph_scope (config : value) : option string :=
  or_else (field_string config ["scope"; "scopes"])
    (non_empty (joined_scopes <$> (get config "scopes" ≫= as_array))).

Definition insert_text (k : string) (o : option string) (l : list (string * value)) : list (string * value) :=
  match o with Some v => insert_key k (Str v) l | None => l end.

Section Tokens.
Context {CT : ChronoText} {SV : SerdeValue} {DT : Deserialize GraphTokenResponse}.

Definition parse_graph_token_expires_at (v : string) : option Z :=
  or_else (rfc3339_instant v) (naive_instant "%Y-%m-%dT%H:%M:%S" (trim v)).

Definition graph_access_token_needs_refresh (config : value) (access_token : option string) : Fetch bool :=
  match trimmed_non_empty access_token with
  | None => ret true
  | Some _ =>
      match field_string config ["access_token_expires_at"; "token_expires_at"; "expires_at"] with
      | None => ret true
      | Some expires_at =>
          match parse_graph_token_expires_at expires_at with
          | None => ret true
          | Some expires_at =>
              now <- utc_now ;;
              limit <- or_panic (datetime_add now (5 * 60 * second)) ;;
              ret (expires_at <=? limit)
          end
      end
  end.

(** The form of a refresh request. *)
Definition refresh_form (client_id refresh_token scope : string) (client_secret : option string)
    : list (string * string) :=
  [("client_id", client_id); ("grant_type", "refresh_token"); ("refresh_token", refresh_token);
   ("scope", scope)]
  ++ match client_secret with Some s => [("client_secret", s)] | None => [] end.

(** The error a token endpoint reports in a successful answer. *)
Definition token_error (error description : option string) : option (string * string) :=
  (fun e => (e, default "no error description" (trimmed_non_empty description)))
    <$> trimmed_non_empty error.

Definition refreshed_config (l : list (string * value)) (access_token expires_at refreshed_at : string)
    (t : GraphTokenResponse) : list (string * value) :=
  insert_text "scope" (trimmed_non_empty (tr_scope t))
    (insert_text "refresh_token" (trimmed_non_empty (tr_refresh_token t))
      (insert_text "token_type" (trimmed_non_empty (tr_token_type t))
        (insert_key "token_refreshed_at" (Str refreshed_at)
          (insert_key "access_token_expires_at" (Str expires_at)
            (insert_key "access_token" (Str access_token) l))))).

Definition refresh_graph_access_token (config : value) (adapter_name default_scope refresh_token : string)
    : Fetch GraphAccessToken :=
  let token_url := graph_token_url config in
  lift (require_url "token_url" token_url) ;;;
  client_id <- ok_or (concat_str [adapter_name; " config must set client_id for token refresh"])
                 (field_string config ["client_id"; "application_id"; "app_id"]) ;;
  let form := refresh_form client_id refresh_token (default default_scope (graph_scope config))
                (field_string config ["client_secret"]) in
  response <- with_context [adapter_name; " OAuth token refresh failed: "]
                (send (http_post token_url (FormBody form))) ;;
  if negb (is_success response) then
    fail (concat_str [adapter_name; " OAuth token refresh returned "; rs_status_text response; ": ";
                      rs_text response])
  else
    token_response <- with_context [adapter_name; " OAuth token response was not valid JSON: "]
                        (lift (from_str (rs_text response))) ;;
    match token_error (tr_error token_response) (tr_error_description token_response) with
    | Some (error, description) =>
        fail (concat_str [adapter_name; " OAuth token refresh returned "; error; ": "; description])
    | None =>
        access_token <- ok_or (concat_str [adapter_name; " OAuth token response did not include access_token"])
                          (trimmed_non_empty (tr_access_token token_response)) ;;
        let expires_in := Z.max 60 (default 3600 (tr_expires_in token_response)) in
        now <- utc_now ;;
        duration <- or_panic (duration_seconds expires_in) ;;
        expires <- or_panic (datetime_add now duration) ;;
        refreshed <- utc_now ;;
        entries <- ok_or (concat_str [adapter_name; " config must be a JSON object"]) (as_object config) ;;
        text <- with_context [adapter_name; " refreshed config could not be encoded: "]
                  (lift (value_to_string (Object (refreshed_config entries access_token
                     (format_graph_datetime expires) (format_graph_datetime refreshed) token_response)))) ;;
        ret (mkGraphAccessToken access_token (Some text))
    end.

Definition graph_access_token (config : value) (adapter_name default_scope : string)
    : Fetch GraphAccessToken :=
  let access_token := field_string config ["access_token"; "bearer_token"; "token"] in
  let refresh_token := field_string config ["refresh_token"] in
  let refresh_disabled :=
    match field_bool config ["refresh_access_token"] with Some enabled => negb enabled | None => false end in
  must_refresh <- match refresh_token with
                  | Some _ =>
                      if refresh_disabled then ret false
                      else graph_access_token_needs_refresh config access_token
                  | None => ret false
                  end ;;
  match refresh_token, (must_refresh : bool), access_token with
  | Some refresh_token, true, _ =>
      refresh_graph_access_token config adapter_name default_scope refresh_token
  | _, _, Some token => ret (mkGraphAccessToken token None)
  | Some refresh_token, _, None =>
      refresh_graph_access_token config adapter_name default_scope refresh_token
  | None, _, None =>
      fail (concat_str [adapter_name;
              " config must set access_token or OAuth refresh_token credentials"])
  end.
End Tokens.

(** ** Mail *)

Record MicrosoftGraphMailConfig := mkMicrosoftGraphMailConfig {
  gm_adapter : option string;
  gm_messages_url : option string;
  gm_mail_messages_url : option string;
  gm_base_url : option string;
  gm_user_id : option string;
  gm_mail_folder_id : option string;
  gm_folder_id : option string;
  gm_folder : option string;
  gm_received_after : option string;
  gm_lookback_hours : option Z;
  gm_unread_only : option bool;
  gm_filter : option string;
  gm_orderby : option string;
  gm_top : option Z;
  gm_max_pages : option Z;
  gm_max_items : option Z;
  gm_timeout_seconds : option Z
}.

Definition graph_base_url (base_url : option string) : string :=
  trim_end_char "/"%char (default "https://graph.microsoft.com/v1.0" base_url).

(** The URL of the mailbox or calendar owner. *)
Definition graph_user_url (base_url user_id : option string) : string :=
  let user_id := default "me" (trimmed_non_empty user_id) in
  if eq_ignore_ascii_case user_id "me" then concat_str [graph_base_url base_url; "/me"]
  else concat_str [graph_base_url base_url; "/users/"; encode_url_component user_id].

Definition microsoft_graph_mail_messages_url (config : MicrosoftGraphMailConfig) : string :=
  match trimmed_non_empty (or_else (gm_messages_url config) (gm_mail_messages_url config)) with
  | Some url => url
  | None =>
      let mailbox_root := graph_user_url (gm_base_url config) (gm_user_id config) in
      match trimmed_non_empty (or_else (gm_mail_folder_id config)
              (or_else (gm_folder_id config) (gm_folder config))) with
      | Some folder =>
          concat_str [mailbox_root; "/mailFolders/"; encode_url_component folder; "/messages"]
      | None => concat_str [mailbox_root; "/messages"]
      end
  end.

Definition graph_mail_url (item : value) : option string :=
  field_url item ["webLink"; "web_link"; "web_url"; "url"].

Definition is_critical_word (s : string) : bool :=
  one_of_texts s ["critical"; "urgent"; "blocker"; "error"; "failed"; "failure"].
Definition is_warning_word (s : string) : bool := one_of_texts s ["high"; "warning"; "warn"; "medium"].

Definition word_severity (item : value) : string :=
  match (fun v => to_ascii_lowercase (trim v)) <$> field_string item ["severity"; "importance"; "priority"] with
  | Some s => if is_critical_word s then "critical" else if is_warning_word s then "warning" else "info"
  | None => "info"
  end.

Definition graph_mail_severity (item : value) : string :=
  let flagged :=
    match trimmed_non_empty (pointer item ["flag"; "flagStatus"] ≫= as_str) with
    | Some flag_status => negb (eq_ignore_ascii_case flag_status "notFlagged")
    | None => false
    end in
  if flagged then "warning" else word_severity item.

Section Mail.
Context {CT : ChronoText} {CL : CharLower} {RQ : Reqwest} {UR : Urls} {SV : SerdeValue}
        {DT : Deserialize GraphTokenResponse} {DG : Deserialize MicrosoftGraphMailConfig}.

Definition graph_mail_filter (config : MicrosoftGraphMailConfig) : Fetch string :=
  match trimmed_non_empty (gm_filter config) with
  | Some filter => ret filter
  | None =>
      received_after <- match trimmed_non_empty (gm_received_after config) with
        | Some v => ret v
        | None =>
            let lookback_hours := clamp 1 720 (default 24 (gm_lookback_hours config)) in
            now <- utc_now ;;
            t <- or_panic (datetime_add now (- (lookback_hours * 3600 * second))) ;;
            ret (format_graph_datetime t)
        end ;;
      ret (join " and " (concat_str ["receivedDateTime ge "; received_after]
             :: (if default true (gm_unread_only config) then ["isRead eq false"] else [])))
  end.

Definition graph_mail_query_params (config : MicrosoftGraphMailConfig) : Fetch (list (string * string)) :=
  filter <- graph_mail_filter config ;;
  ret ([ ("$select", "id,subject,bodyPreview,importance,isRead,webLink,from,sender,receivedDateTime,internetMessageId,flag");
         ("$top", int_to_string (clamp 1 50 (default 25 (gm_top config))));
         ("$orderby", default "receivedDateTime desc" (trimmed_non_empty (gm_orderby config))) ]
       ++ (if is_empty filter then [] else [("$filter", filter)])).

Definition graph_mail_body (item : value) : option string :=
  joined_details
    (detail "From: " (person_display item ["from"; "sender"])
     ++ detail "Received: " ((fun v => default v (normalize_naive_datetime v))
                               <$> field_string item ["receivedDateTime"; "received_at"])
     ++ detail "Preview: " (field_string item ["bodyPreview"; "body_preview"; "preview"; "summary"; "body"])).

(** [format!("{prefix} {subject}")] unless the subject has the prefix. *)
Definition prefixed_title (prefix label subject : string) : string :=
  if starts_with (to_ascii_lowercase subject) prefix then subject else String.append label subject.

Definition normalize_graph_mail_message (item : value) : value :=
  let subject := default "Outlook mail message" (field_string item ["subject"; "title"]) in
  let external_id := notification_external_id "mail" item
    ["external_id"; "id"; "message_id"; "internetMessageId"; "internet_message_id"] subject in
  json_object
    [ ("external_id", Str external_id);
      ("title", Str (prefixed_title "mail:" "Mail: " subject));
      ("body", opt_value Str (graph_mail_body item));
      ("severity", Str (graph_mail_severity item));
      ("is_read", Bool (default false (field_bool item ["isRead"; "is_read"; "read"; "seen"])));
      ("url", opt_value Str (graph_mail_url item)) ].

(** The part the two Graph adapters share after their request URL is known. *)
Definition graph_result (adapter scope request_url : string) (config_value : value)
    (max_pages max_items : nat) (normalize : value -> value) : Fetch ConnectorAdapterResult :=
  access_token <- graph_access_token config_value adapter scope ;;
  collection <- fetch_graph_collection request_url (ga_token access_token) None adapter
                  max_pages max_items ;;
  ret (mkConnectorAdapterResult
         (Some (json_object [ ("items", Array (map normalize (gc_items collection)));
                              ("snapshot_complete", Bool (gc_snapshot_complete collection)) ]))
         (ga_updated_config access_token)).

Definition fetch_microsoft_graph_mail_messages (config_json : string) : Fetch ConnectorAdapterResult :=
  config_value <- with_context ["microsoft_graph_mail config is not valid JSON: "]
                    (lift (value_from_str config_json)) ;;
  config <- with_context ["microsoft_graph_mail config is not valid JSON: "] (lift (from_str config_json)) ;;
  if negb (match gm_adapter config with
           | Some a => one_of_texts a ["microsoft_graph_mail"; "graph_mail"; "outlook_mail"]
           | None => false
           end) then fail "microsoft_graph_mail config must set adapter to microsoft_graph_mail"
  else
    let messages_url := microsoft_graph_mail_messages_url config in
    lift (require_url "messages_url" messages_url) ;;;
    limits <- lift (graph_pagination_limits "microsoft_graph_mail" (gm_max_pages config)
                      (gm_max_items config)) ;;
    params <- graph_mail_query_params config ;;
    let request_url := append_query_params messages_url params in
    with_context ["microsoft_graph_mail HTTP client could not be built: "]
      (build_client (gm_timeout_seconds config)) ;;;
    graph_result "microsoft_graph_mail" "https://graph.microsoft.com/Mail.Read offline_access"
      request_url config_value (fst limits) (snd limits) normalize_graph_mail_message.
End Mail.

(** ** Calendar *)

Record MicrosoftGraphCalendarConfig := mkMicrosoftGraphCalendarConfig {
  gd_adapter : option string;
  gd_calendar_view_url : option string;
  gd_base_url : option string;
  gd_user_id : option string;
  gd_start_at : option string;
  gd_end_at : option string;
  gd_lookahead_hours : option Z;
  gd_top : option Z;
  gd_max_pages : option Z;
  gd_max_items : option Z;
  gd_timeout_seconds : option Z
}.

Definition microsoft_graph_calendar_view_url (config : MicrosoftGraphCalendarConfig) : string :=
  match trimmed_non_empty (gd_calendar_view_url config) with
  | Some url => url
  | None => concat_str [graph_user_url (gd_base_url config) (gd_user_id config); "/calendarView"]
  end.

Definition graph_event_location (item : value) : option string :=
  or_else (get item "location" ≫= fun location =>
             field_string location ["displayName"; "display_name"; "locationUri"; "location_uri";
                                    "uniqueId"; "unique_id"])
    (field_string item ["location"; "room"]).

Definition graph_event_time_zone (item : value) : option string :=
  or_else (field_string item ["originalStartTimeZone"; "original_start_time_zone";
                              "originalEndTimeZone"; "original_end_time_zone"])
    (first_some (fun field_name => get item field_name ≫= fun v =>
                   field_string v ["timeZone"; "time_zone"]) ["start"; "end"]).

Definition graph_calendar_web_url (item : value) : option string :=
  field_url item ["webLink"; "web_link"; "web_url"; "url"].

Definition graph_calendar_join_url (item : value) : option string :=
  or_else (field_url item ["onlineMeetingUrl"; "online_meeting_url"; "join_url"])
    (keep_if is_http_url (trim <$> (pointer item ["onlineMeeting"; "joinUrl"] ≫= as_str))).

Definition graph_calendar_url (item : value) : option string :=
  or_else (graph_calendar_web_url item) (graph_calendar_join_url item).

Definition graph_calendar_severity (item : value) : string :=
  if default false (field_bool item ["isCancelled"; "is_cancelled"]) then "warning"
  else word_severity item.

Section CalendarEvents.
Context {CT : ChronoText} {CL : CharLower} {RQ : Reqwest} {UR : Urls} {SV : SerdeValue}
        {DT : Deserialize GraphTokenResponse} {DG : Deserialize MicrosoftGraphCalendarConfig}.

Definition graph_event_datetime (item : value) (field_name : string) : option string :=
  v ← get item field_name;
  datetime ← field_string v ["dateTime"; "date_time"];
  let datetime := default datetime (normalize_naive_datetime datetime) in
  match graph_event_time_zone item with
  | Some time_zone => Some (concat_str [datetime; " "; time_zone])
  | None => Some datetime
  end.

Definition graph_event_datetime_value (item : value) (field_name : string) : option string :=
  (get item field_name ≫= fun v => field_string v ["dateTime"; "date_time"]) ≫= normalize_naive_datetime.

Definition graph_calendar_body (item : value) : option string :=
  joined_details
    (detail "Organizer: " (person_display item ["organizer"])
     ++ detail "Location: " (graph_event_location item)
     ++ detail "Starts: " (graph_event_datetime item "start")
     ++ detail "Ends: " (graph_event_datetime item "end")
     ++ detail "Preview: " (field_string item ["bodyPreview"; "body_preview"; "preview"])).

Definition normalize_graph_calendar_event (item : value) : value :=
  let subject := default "Calendar event" (field_string item ["subject"; "title"]) in
  let external_id := notification_external_id "calendar" item
    ["external_id"; "id"; "event_id"; "uid"; "iCalUId"; "ical_uid"] subject in
  json_object
    [ ("external_id", Str external_id);
      ("title", Str (prefixed_title "calendar:" "Calendar: " subject));
      ("body", opt_value Str (graph_calendar_body item));
      ("severity", Str (graph_calendar_severity item));
      ("is_read", Bool false);
      ("url", opt_value Str (graph_calendar_url item));
      ("organizer", opt_value Str (person_display item ["organizer"]));
      ("location", opt_value Str (graph_event_location item));
      ("starts_at", opt_value Str (graph_event_datetime_value item "start"));
      ("ends_at", opt_value Str (graph_event_datetime_value item "end"));
      ("time_zone", opt_value Str (graph_event_time_zone item));
      ("is_all_day", Bool (default false (field_bool item ["isAllDay"; "is_all_day"])));
      ("is_cancelled", Bool (default false (field_bool item ["isCancelled"; "is_cancelled"])));
      ("web_url", opt_value Str (graph_calendar_web_url item));
      ("join_url", opt_value Str (graph_calendar_join_url item)) ].

Definition graph_calendar_time_window (config : MicrosoftGraphCalendarConfig) : Fetch (string * string) :=
  now <- utc_now ;;
  let start_at := default (format_graph_datetime now) (trimmed_non_empty (gd_start_at config)) in
  match trimmed_non_empty (gd_end_at config) with
  | Some end_at => ret (start_at, end_at)
  | None =>
      let lookahead_hours := clamp 1 168 (default 24 (gd_lookahead_hours config)) in
      let start := default now (rfc3339_instant start_at) in
      t <- or_panic (datetime_add start (lookahead_hours * 3600 * second)) ;;
      ret (start_at, format_graph_datetime t)
  end.

Definition fetch_microsoft_graph_calendar_events (config_json : string) : Fetch ConnectorAdapterResult :=
  config_value <- with_context ["microsoft_graph_calendar config is not valid JSON: "]
                    (lift (value_from_str config_json)) ;;
  config <- with_context ["microsoft_graph_calendar config is not valid JSON: "] (lift (from_str config_json)) ;;
  if negb (match gd_adapter config with
           | Some a => one_of_texts a ["microsoft_graph_calendar"; "graph_calendar"; "outlook_calendar"]
           | None => false
           end) then fail "microsoft_graph_calendar config must set adapter to microsoft_graph_calendar"
  else
    let calendar_view_url := microsoft_graph_calendar_view_url config in
    lift (require_url "calendar_view_url" calendar_view_url) ;;;
    limits <- lift (graph_pagination_limits "microsoft_graph_calendar" (gd_max_pages config)
                      (gd_max_items config)) ;;
    window <- graph_calendar_time_window config ;;
    let request_url := append_query_params calendar_view_url
      [ ("startDateTime", fst window); ("endDateTime", snd window);
        ("$select", "id,subject,bodyPreview,importance,isAllDay,isCancelled,showAs,webLink,organizer,location,start,end,originalStartTimeZone,originalEndTimeZone,onlineMeetingUrl,onlineMeeting");
        ("$orderby", "start/dateTime");
        ("$top", int_to_string (clamp 1 50 (default 25 (gd_top config)))) ] in
    with_context ["microsoft_graph_calendar HTTP client could not be built: "]
      (build_client (gd_timeout_seconds config)) ;;;
    graph_result "microsoft_graph_calendar" "https://graph.microsoft.com/Calendars.Read offline_access"
      request_url config_value (fst limits) (snd limits) normalize_graph_calendar_event.
End CalendarEvents.
