(* ===== verification/GraphSafety.v ===== *)
(** The guarantees of the Graph adapters: which pages are requested, with which
    credentials, and what a collected snapshot holds. *)
From S2P Require Import Prelude Text Schema Config Values AdapterValues Http MonitoringAdapter ErpAdapter GraphAdapter.
From Stdlib Require Import Ascii.

Open Scope Z_scope.
Open Scope portal_scope.

Section Paging.
Context {UR : Urls} {SV : SerdeValue}.
Variables (adapter token : string) (prefer : option string) (initial_url : WebUrl).
Variables (max_pages max_items : nat).

(** ** One page *)

(** The answer of the peer to the request of a page, as a JSON value. *)
Definition page_answer (answer : list Request -> Request -> Result string Response)
    (hist : list Request) (url : WebUrl) : option value :=
  match answer hist (page_request url token prefer) with
  | inr response =>
      if is_success response then
        match value_from_str (rs_text response) with inr v => Some v | inl _ => None end
      else None
  | inl _ => None
  end.

Lemma fetch_page_steps n url c r c' :
  fetch_page adapter token prefer n url c = (r, c') ->
  reply (db c') = reply (db c) /\ sent (db c') = sent (db c) ++ [page_request url token prefer] /\
  match r with
  | Ok v => page_answer (reply (db c)) (sent (db c)) url = Some v
  | Err _ => True
  | Panic => False
  end.
Proof.
  unfold fetch_page, with_context, map_err, catch, bind, send, page_answer.
  destruct (reply (db c) _ _) as [e|x]; [by intros [= <- <-]|]. cbn [ret fail lift].
  unfold ret. destruct (is_success x); cbn [negb]; [|by intros [= <- <-]].
  destruct (value_from_str (rs_text x)); cbn [lift]; by intros [= <- <-].
Qed.

Lemma page_items_any_number v n m l :
  graph_collection_items v adapter n = inr l -> graph_collection_items v adapter m = inr l.
Proof.
  unfold graph_collection_items. destruct (as_array v); [done|].
  destruct (first_some _ _) as [[f w]|]; [|done]. by destruct (as_array w).
Qed.

Lemma next_link_origin v url u :
  graph_next_link v url initial_url adapter = inr (Some u) -> same_origin initial_url u = true.
Proof.
  unfold graph_next_link. intros H. repeat case_match; simplify_eq/=; try done;
    repeat (unfold and_then, some_or in *; case_match; simplify_eq/=; try done).
Qed.

(** ** A chain of pages *)

(** Following next links from [url]: the items of each page and the next link of
    the last one. *)
Inductive collected (answer : list Request -> Request -> Result string Response)
    : list Request -> WebUrl -> list WebUrl -> list (list value) -> option WebUrl -> Prop :=
  | collected_last hist url v items next :
      page_answer answer hist url = Some v ->
      graph_collection_items v adapter 1 = inr items ->
      graph_next_link v url initial_url adapter = inr next ->
      collected answer hist url [url] [items] next
  | collected_more hist url v items url' urls pages next :
      page_answer answer hist url = Some v ->
      graph_collection_items v adapter 1 = inr items ->
      graph_next_link v url initial_url adapter = inr (Some url') ->
      collected answer (hist ++ [page_request url token prefer]) url' urls pages next ->
      collected answer hist url (url :: urls) (items :: pages) next.

Definition requests_of (urls : list WebUrl) : list Request :=
  map (fun u => page_request u token prefer) urls.

(** What one call of the loop guarantees from [url] on. *)
Record pages_ok (c : Conn Net) (url : WebUrl) (remaining : nat) (visited : gset string)
    (items : list value) (r : outcome string GraphCollection) (c' : Conn Net) (urls : list WebUrl) : Prop := {
  po_sent : sent (db c') = sent (db c) ++ requests_of urls;
  po_count : (length urls <= remaining)%nat;
  po_distinct : NoDup (map canonical_url urls);
  po_fresh : forall u, u ∈ urls -> canonical_url u ∉ visited;
  po_origin : forall u, u ∈ urls -> u = url \/ same_origin initial_url u = true;
  po_first : urls = [] \/ exists rest, urls = url :: rest;
  po_result : match r with
    | Ok col => exists pages next,
        collected (reply (db c)) (sent (db c)) url urls pages next /\
        gc_items col = take max_items (items ++ concat pages) /\
        (gc_snapshot_complete col = true <->
           next = None /\ (length (items ++ concat pages) <= max_items)%nat)
    | Err _ => True
    | Panic => False
    end
}.

(** A page that ends the loop, by an error or with a result. *)
Lemma one_page c url remaining visited items r c' :
  sent (db c') = sent (db c) ++ [page_request url token prefer] ->
  canonical_url url ∉ visited ->
  match r with
  | Ok col => exists page next, collected (reply (db c)) (sent (db c)) url [url] [page] next /\
      gc_items col = take max_items (items ++ page) /\
      (gc_snapshot_complete col = true <-> next = None /\ (length (items ++ page) <= max_items)%nat)
  | Err _ => True
  | Panic => False
  end ->
  pages_ok c url (S remaining) visited items r c' [url].
Proof.
  intros Hs Hv Hr. split; [done|simpl; lia| | | |by right; exists []|].
  - apply NoDup_singleton.
  - intros u ->%list_elem_of_singleton. done.
  - intros u ->%list_elem_of_singleton. by left.
  - destruct r as [col|e|]; [|done..]. destruct Hr as (page & next & Hc & Hi & Hn).
    exists [page], next. simpl. by rewrite app_nil_r.
Qed.

(** A page followed by the rest of the loop. *)
Lemma more_pages c c1 url url' remaining visited items page r c' urls :
  sent (db c1) = sent (db c) ++ [page_request url token prefer] -> reply (db c1) = reply (db c) ->
  canonical_url url ∉ visited -> same_origin initial_url url' = true ->
  (forall urls pages next, collected (reply (db c)) (sent (db c1)) url' urls pages next ->
     collected (reply (db c)) (sent (db c)) url (url :: urls) (page :: pages) next) ->
  pages_ok c1 url' remaining ({[canonical_url url]} ∪ visited) (items ++ page) r c' urls ->
  pages_ok c url (S remaining) visited items r c' (url :: urls).
Proof.
  intros Hs Hr Hv Ho Hmore [H1 H2 H3 H4 H5 H6 H7]. split.
  - rewrite H1, Hs. unfold requests_of. by rewrite <- app_assoc.
  - simpl. lia.
  - apply NoDup_cons. split; [|done]. intros (u & Hu & Hin)%list_elem_of_fmap.
    apply (H4 u Hin). rewrite <- Hu. set_solver.
  - intros u [->|Hin]%elem_of_cons; [done|]. pose proof (H4 u Hin). set_solver.
  - intros u [->|Hin]%elem_of_cons; [by left|]. right. by destruct (H5 u Hin) as [->|?].
  - right. by exists urls.
  - destruct r as [col|e|]; [|done..]. destruct H7 as (pages & next & Hc & Hi & Hn).
    exists (page :: pages), next. simpl. rewrite app_assoc. split; [|done].
    apply Hmore. by rewrite <- Hr.
Qed.

(** What is kept of a page. *)
Lemma kept_items (items page : list value) : (length items <= max_items)%nat ->
  items ++ take (max_items - length items) page = take max_items (items ++ page).
Proof. intros H. rewrite take_app. by rewrite (take_ge items) by lia. Qed.

Lemma fetch_pages_ok remaining page_number url visited items c r c' :
  fetch_pages adapter token prefer initial_url max_pages max_items remaining page_number url
    visited items c = (r, c') ->
  (remaining + page_number = S max_pages)%nat -> (0 < remaining)%nat ->
  (length items <= max_items)%nat ->
  exists urls, pages_ok c url remaining visited items r c' urls.
Proof.
  revert page_number url visited items c.
  induction remaining as [|remaining IH]; intros n url visited items c E Hn Hr Hi; [lia|].
  cbn [fetch_pages] in E. case_bool_decide as Hv.
  { injection E as <- <-. exists []. split; simpl; rewrite ?app_nil_r; try done; try lia;
      [apply NoDup_nil_2|by intros u ?%elem_of_nil|by intros u ?%elem_of_nil|by left]. }
  unfold bind at 1 in E. destruct (fetch_page _ _ _ n url c) as [r1 c1] eqn:Ep.
  apply fetch_page_steps in Ep as (Hreply & Hsent & Hv1).
  destruct r1 as [v|e|]; [|injection E as <- <-; exists [url]; by apply one_page|done].
  unfold bind at 1 in E. destruct (graph_collection_items v adapter n) as [e|page] eqn:Eg.
  { injection E as <- <-. exists [url]. by apply one_page. }
  cbn [lift] in E. unfold ret at 1 in E. cbv beta iota in E. unfold bind at 1 in E.
  apply (page_items_any_number v n 1) in Eg.
  destruct (graph_next_link v url initial_url adapter) as [e|next] eqn:El.
  { injection E as <- <-. exists [url]. by apply one_page. }
  cbn [lift] in E. unfold ret at 1 in E. cbv beta iota in E. rewrite kept_items in E by done.
  pose proof (collected_last _ _ _ _ _ _ Hv1 Eg El) as Hlast.
  assert (length (take max_items (items ++ page)) = (length (items ++ page) `min` max_items)%nat) as Hlen
    by (rewrite length_take; lia). rewrite length_app in Hlen.
  destruct next as [next|]; [|injection E as <- <-; exists [url]; apply one_page; [done..|]].
  - case_bool_decide as Hloop; [injection E as <- <-; exists [url]; by apply one_page|].
    destruct (max_items - length items <? length page)%nat eqn:Et.
    { injection E as <- <-. exists [url]. apply one_page; [done..|]. exists page, (Some next). naive_solver. }
    apply Nat.ltb_ge in Et.
    destruct (_ || _) eqn:Estop.
    { injection E as <- <-. exists [url]. apply one_page; [done..|]. exists page, (Some next). naive_solver. }
    apply orb_false_iff in Estop as [Ef%Nat.leb_gt Eq%Nat.leb_gt].
    rewrite take_ge in E, Ef by (rewrite length_app; lia).
    destruct (IH _ _ _ _ _ E) as [urls Hok]; [lia|lia|rewrite length_app; lia|].
    exists (url :: urls). eapply more_pages; [exact Hsent|exact Hreply|done|by eapply next_link_origin| |exact Hok].
    intros us ps nx Hc. rewrite Hsent in Hc. by econstructor.
  - exists page, None. split; [done|]. split; [done|]. cbn [gc_snapshot_complete]. rewrite length_app.
    destruct (max_items - length items <? length page)%nat eqn:Et; simpl;
      [apply Nat.ltb_lt in Et|apply Nat.ltb_ge in Et]; split; try done; intros; try (split; [done|lia]); lia.
Qed.
End Paging.

(** ** The collection *)

Lemma same_origin_refl {UR : Urls} u : same_origin u u = true.
Proof. unfold same_origin. by rewrite str_eqb_refl, !bool_decide_eq_true_2. Qed.

Section Collection.
Context {UR : Urls} {SV : SerdeValue}.

Lemma collection_parsed initial i token prefer adapter pages max_items c :
  parse_url initial = inr i ->
  fetch_graph_collection initial token prefer adapter pages max_items c
  = fetch_pages adapter token prefer i pages max_items pages 1 i ∅ [] c.
Proof. intros Hp. unfold fetch_graph_collection, with_context, map_err, catch. by rewrite Hp. Qed.

Lemma collection_invalid initial e token prefer adapter pages max_items c :
  parse_url initial = inl e ->
  fetch_graph_collection initial token prefer adapter pages max_items c
  = (Err (concat_str [adapter; " request URL is invalid: "; e]), c).
Proof. intros Hp. unfold fetch_graph_collection, with_context, map_err, catch. by rewrite Hp. Qed.

Lemma collection_ok initial i token prefer adapter pages max_items c r c' :
  parse_url initial = inr i ->
  fetch_graph_collection initial token prefer adapter (S pages) max_items c = (r, c') ->
  exists urls, pages_ok adapter token prefer i max_items c i (S pages) ∅ [] r c' urls.
Proof.
  intros Hp. rewrite (collection_parsed _ _ _ _ _ _ _ _ Hp). intros E. eapply fetch_pages_ok; [exact E|lia|lia|simpl; lia].
Qed.

(** What one collection issues. *)
Lemma collection_requests initial token prefer adapter max_pages max_items c r c' :
  fetch_graph_collection initial token prefer adapter max_pages max_items c = (r, c') ->
  r <> Panic /\
  exists urls, sent (db c') = sent (db c) ++ requests_of token prefer urls /\
    (length urls <= max_pages)%nat /\ NoDup (map canonical_url urls) /\
    forall u, u ∈ urls -> exists i, parse_url initial = inr i /\ same_origin i u = true.
Proof.
  intros E.
  assert (r <> Panic -> c' = c -> r <> Panic /\ exists urls, sent (db c') = sent (db c) ++ requests_of token prefer urls /\
    (length urls <= max_pages)%nat /\ NoDup (map canonical_url urls) /\
    forall u, u ∈ urls -> exists i, parse_url initial = inr i /\ same_origin i u = true) as Hnone.
  { intros Hr ->. split; [done|]. exists []. simpl. rewrite app_nil_r.
    split_and!; [done|lia|apply NoDup_nil_2|by intros u ?%elem_of_nil]. }
  destruct (parse_url initial) as [e|i] eqn:Hp;
    [rewrite (collection_invalid _ _ _ _ _ _ _ _ Hp) in E; injection E as <- <-; by apply Hnone|].
  destruct max_pages as [|pages];
    [rewrite (collection_parsed _ _ _ _ _ _ _ _ Hp) in E; injection E as <- <-; by apply Hnone|].
  destruct (collection_ok _ _ _ _ _ _ _ _ _ _ Hp E) as [urls [H1 H2 H3 H4 H5 H6 H7]].
  split; [by intros ->|]. exists urls. split_and!; [done..|].
  intros u Hu. exists i. split; [done|]. destruct (H5 u Hu) as [->|]; [apply same_origin_refl|done].
Qed.

(** *** Redirects *)

(** The Graph clients keep reqwest's default redirect policy: a request that is answered with a
    redirect is sent again, to the target, before [send] returns. [redirects before r] are the
    requests that follow the request [r], which the adapter issued after those of [before]. *)
Variable redirects : list Request -> Request -> list Request.

(** [keeps_credentials p q]: the redirect from [p] to [q] stays at one host and port and carries
    the credentials of [p]. *)
Definition keeps_credentials (p q : Request) : Prop :=
  rq_auth q = rq_auth p /\ exists up uq, parse_url (rq_url p) = inr up /\ parse_url (rq_url q) = inr uq /\
    url_host uq = url_host up /\ url_port uq = url_port up.

(** Each request of a chain follows the one before it and carries no credentials unless it stays
    at its host and port. *)
Fixpoint redirect_chain (p : Request) (l : list Request) : Prop :=
  match l with
  | [] => True
  | q :: l => (rq_auth q <> NoAuth -> keeps_credentials p q) /\ redirect_chain q l
  end.

(** reqwest follows at most ten redirects and removes the credentials when a redirect leaves the
    host or the port; and the text of a URL parses to that URL. *)
Hypothesis redirects_limited : forall before r, (length (redirects before r) <= 10)%nat.
Hypothesis redirects_sensitive : forall before r, redirect_chain r (redirects before r).
Hypothesis url_text_parses : forall u, parse_url (url_text u) = inr u.

(** The requests on the wire when the adapter issues [l] after [before]. *)
Fixpoint on_wire (before l : list Request) : list Request :=
  match l with
  | [] => []
  | r :: l => r :: redirects before r ++ on_wire (before ++ [r]) l
  end.

(** [q] goes to the host and port of [i]. *)
Definition at_host (i : WebUrl) (q : Request) : Prop :=
  exists u, parse_url (rq_url q) = inr u /\ url_host u = url_host i /\ url_port u = url_port i.

Lemma chain_at_host i p l q :
  at_host i p -> redirect_chain p l -> q ∈ l -> rq_auth q <> NoAuth -> at_host i q.
Proof.
  intros Hp Hc Hq Ha. assert (rq_auth p <> NoAuth -> at_host i p) as Hp' by done. clear Hp. revert p Hp' Hc.
  induction l as [|x l IH]; intros p Hp; [by apply elem_of_nil in Hq|]. intros [Hx Hc].
  assert (rq_auth x <> NoAuth -> at_host i x) as Hx'.
  { intros Hax. destruct (Hx Hax) as (Ea & up & uq & Hup & Huq & Eh & Ep).
    destruct (Hp ltac:(congruence)) as (u & Hu & Hh & Hport). rewrite Hup in Hu. injection Hu as <-.
    exists uq. split_and!; congruence. }
  apply elem_of_cons in Hq as [->|Hq]; [by apply Hx'|by apply (IH Hq x)].
Qed.

Lemma wire_length before l : (length (on_wire before l) <= 11 * length l)%nat.
Proof.
  revert before. induction l as [|r l IH]; intros before; simpl; [lia|]. rewrite length_app.
  specialize (IH (before ++ [r])). pose proof (redirects_limited before r). lia.
Qed.

Lemma wire_at_host i before l q :
  (forall r, r ∈ l -> at_host i r) -> q ∈ on_wire before l -> rq_auth q <> NoAuth -> at_host i q.
Proof.
  revert before. induction l as [|r l IH]; intros before Hl Hq Ha; simpl in Hq; [by apply elem_of_nil in Hq|].
  apply elem_of_cons in Hq as [->|[Hq|Hq]%elem_of_app]; [apply Hl; left|..].
  - eapply chain_at_host; [apply Hl; left|apply redirects_sensitive|done..].
  - eapply IH; [|done..]. intros x Hx. apply Hl. by right.
Qed.

(** C13: The access token stays with the configured host. The adapter issues at most [max_pages]
    requests, all of them to the origin (scheme, host and port) of the configured URL and none for
    a page that it requested before; no answer of the peer, however it links its pages, makes it
    issue more or panic. With the redirects that reqwest follows there are at most eleven times
    as many requests on the wire, and whatever the redirects, each of them that carries
    credentials goes to the host and port of the configured URL. *)
Theorem graph_token_stays_at_origin initial token prefer adapter max_pages max_items c :
  let '(r, c') := fetch_graph_collection initial token prefer adapter max_pages max_items c in
  r <> Panic /\
  exists urls, sent (db c') = sent (db c) ++ requests_of token prefer urls /\
    (length urls <= max_pages)%nat /\ NoDup (map canonical_url urls) /\
    (forall u, u ∈ urls -> exists i, parse_url initial = inr i /\ same_origin i u = true) /\
    (length (on_wire (sent (db c)) (requests_of token prefer urls)) <= 11 * max_pages)%nat /\
    forall q, q ∈ on_wire (sent (db c)) (requests_of token prefer urls) -> rq_auth q <> NoAuth ->
      exists i, parse_url initial = inr i /\ at_host i q.
Proof.
  destruct (fetch_graph_collection _ _ _ _ _ _ c) as [r c'] eqn:E.
  destruct (collection_requests _ _ _ _ _ _ _ _ _ E) as [Hr (urls & Hs & Hn & Hd & Ho)].
  split; [done|]. exists urls. split_and!; try done.
  - etrans; [apply wire_length|]. unfold requests_of. rewrite length_map. lia.
  - intros q Hq Ha. destruct urls as [|u urls]; [by apply elem_of_nil in Hq|].
    destruct (Ho u ltac:(left)) as (i & Hi & _). exists i. split; [done|].
    eapply wire_at_host; [|exact Hq|done]. intros x (v & -> & Hv)%list_elem_of_fmap.
    destruct (Ho v Hv) as (i' & Hi' & Hsame). rewrite Hi in Hi'. injection Hi' as <-.
    unfold same_origin in Hsame. apply andb_prop in Hsame as [[_ Hh]%andb_prop Hp].
    apply bool_decide_eq_true in Hh, Hp. exists v.
    split_and!; [by destruct prefer; apply url_text_parses|done..].
Qed.

(** C33: A collected snapshot holds the items of the pages in the order of
    the next links, cut at [max_items], and is declared complete exactly when the
    last page had no next link and nothing was cut off. *)
Theorem graph_snapshot_is_exact initial token prefer adapter pages max_items c :
  match fetch_graph_collection initial token prefer adapter (S pages) max_items c with
  | (Ok col, _) => exists i urls lists next,
      parse_url initial = inr i /\
      collected adapter token prefer i (reply (db c)) (sent (db c)) i urls lists next /\
      gc_items col = take max_items (concat lists) /\
      (gc_snapshot_complete col = true <-> next = None /\ (length (concat lists) <= max_items)%nat)
  | (Err _, _) => True
  | (Panic, _) => False
  end.
Proof.
  destruct (fetch_graph_collection _ _ _ _ _ _ c) as [r c'] eqn:E.
  destruct (parse_url initial) as [e|i] eqn:Hp.
  { rewrite (collection_invalid _ _ _ _ _ _ _ _ Hp) in E. by injection E as <- <-. }
  destruct (collection_ok _ _ _ _ _ _ _ _ _ _ Hp E) as [urls [_ _ _ _ _ _ H]].
  destruct r as [col|e|]; [|done..]. destruct H as (lists & next & ?). by exists i, urls, lists, next.
Qed.
End Collection.

(** Two pages at one origin, of which the second exceeds a limit of two items: a
    URL is its own text and the bodies are the numbers of the pages. *)
Definition text_urls : Urls := {|
  WebUrl := string;
  parse_url := fun s => inr s;
  join_url := fun _ s => inr s;
  without_fragment := fun s => s;
  url_text := fun s => s;
  url_scheme := fun s => if starts_with s "https:" then "https" else "http";
  url_host := fun s => Some (take_chars 12 s);
  url_port := fun _ => None;
  query_pairs := fun _ => [];
  with_query_pairs := fun s _ => s
|}.

Definition two_pages : SerdeValue := {|
  value_from_str := fun s =>
    if s =s "1" then inr (Object [("@odata.nextLink", Str "https://graph/2"); ("value", Array [Str "a"])])
    else if s =s "2" then inr (Object [("value", Array [Str "b"; Str "c"])])
    else inr (Object [("@odata.nextLink", Str "https://other/2"); ("value", Array [Str "a"])]);
  value_to_string := fun _ => inr "{}"
|}.

Definition page_server : list Request -> Request -> Result string Response := fun _ r =>
  inr (mkResponse 200 "200 OK" (if rq_url r =s "https://graph/1" then "1"
                                else if rq_url r =s "https://graph/2" then "2" else "3") (inr Null)).

Definition on_net (reply : list Request -> Request -> Result string Response) : Conn Net :=
  mkConn (mkNet [] reply) 0 0 false 0 [] 1 [].

Example two_pages_collected :
  let fetch url := fst (fetch_graph_collection (UR:=text_urls) (SV:=two_pages) url "t" None "graph" 5 2
                          (on_net page_server)) in
  fetch "https://graph/1" = Ok (mkGraphCollection [Str "a"; Str "b"] false) /\
  fetch "https://graph/2" = Ok (mkGraphCollection [Str "b"; Str "c"] true) /\
  exists e, fetch "https://graph/3" = Err e.
Proof. split_and!; [reflexivity..|]. eexists. vm_compute. reflexivity. Qed.

(** The first page is answered through two redirects: one at the same host, with the token, and one
    to another host, without it. *)
Definition two_redirects (before : list Request) (r : Request) : list Request :=
  if rq_url r =s "https://graph/1"
  then [r <| rq_url := "https://graph/moved" |>; r <| rq_url := "https://other/1" |> <| rq_auth := NoAuth |>]
  else [].

Lemma graph_token_stays_at_origin_witness :
  exists c', fetch_graph_collection (UR:=text_urls) (SV:=two_pages) "https://graph/1" "t" None "graph" 5 2
               (on_net page_server) = (Ok (mkGraphCollection [Str "a"; Str "b"] false), c') /\
    exists urls, sent (db c') = requests_of (UR:=text_urls) "t" None urls /\ (length urls <= 5)%nat /\
      (length (on_wire two_redirects [] (requests_of (UR:=text_urls) "t" None urls)) <= 55)%nat.
Proof.
  assert (H := graph_token_stays_at_origin (UR:=text_urls) (SV:=two_pages) two_redirects).
  specialize (H ltac:(intros before r; unfold two_redirects; destruct (rq_url r =s _); simpl; lia)).
  specialize (H ltac:(intros before r; unfold two_redirects; destruct (str_eqb_spec (rq_url r) "https://graph/1") as [E|];
    [|exact I]; simpl; split; [intros _; split; [reflexivity|]; rewrite E; do 2 eexists; split_and!; reflexivity|];
    split; [intros []; reflexivity|exact I])).
  specialize (H (fun _ => eq_refl) "https://graph/1" "t" None "graph" 5%nat 2%nat (on_net page_server)).
  destruct (fetch_graph_collection (UR:=text_urls) (SV:=two_pages) "https://graph/1" "t" None "graph" 5 2
    (on_net page_server)) as [r c'] eqn:E.
  exists c'. split; [f_equal; apply (f_equal fst) in E; vm_compute in E; symmetry; exact E|].
  destruct H as (_ & urls & Hs & Hn & _ & _ & Hw & _). exists urls. split_and!; [exact Hs|exact Hn|exact Hw].
Defined.

(** ** Access tokens *)

Lemma trimmed_again o s : trimmed_non_empty o = Some s -> trimmed_non_empty (Some s) = Some s.
Proof.
  unfold trimmed_non_empty, non_empty. destruct o as [t|]; [|done]. simpl.
  destruct (is_empty (trim t)) eqn:E; [done|]. intros [= <-]. rewrite trim_trim. by rewrite E.
Qed.

Section Reuse.
Context {CT : ChronoText} {SV : SerdeValue} {DT : Deserialize GraphTokenResponse}.

Lemma refresh_inv config name scope rt c t c' :
  refresh_graph_access_token config name scope rt c = (Ok t, c') ->
  exists l answer token expires refreshed text,
    config = Object l /\ t = mkGraphAccessToken token (Some text) /\
    trimmed_non_empty (tr_access_token answer) = Some token /\
    value_to_string (Object (refreshed_config l token (format_graph_datetime expires)
      (format_graph_datetime refreshed) answer)) = inr text.
Proof.
  unfold refresh_graph_access_token. intros H. step_ok H u Hu. step_ok H client Hc. step_ok H response Hr.
  destruct (is_success response); [|done]. cbn [negb] in H. step_ok H answer Ha.
  destruct (token_error _ _) as [[e d]|]; [done|]. step_ok H token Ht. step_ok H now Hnow.
  step_ok H duration Hd. step_ok H expires He. step_ok H refreshed Hf. step_ok H l Hl. step_ok H text Hx.
  injection H as <- _. destruct config; try done. injection Hl as ->.
  by exists l, answer, token, expires, refreshed, text.
Qed.

(** Which entries a refresh writes. *)
Definition token_keys : list string :=
  ["access_token"; "access_token_expires_at"; "token_refreshed_at"; "token_type"; "refresh_token"; "scope"].

Lemma lookup_insert_text k k' o l : k <> k' -> lookup_key k' (insert_text k o l) = lookup_key k' l.
Proof. destruct o; [|done]. apply lookup_insert_key_ne. Qed.

Lemma refreshed_lookup l token expires refreshed answer k :
  lookup_key "access_token" (refreshed_config l token expires refreshed answer) = Some (Str token) /\
  lookup_key "access_token_expires_at" (refreshed_config l token expires refreshed answer) = Some (Str expires) /\
  (k ∉ token_keys -> lookup_key k (refreshed_config l token expires refreshed answer) = lookup_key k l).
Proof.
  unfold refreshed_config. split_and!.
  - rewrite !lookup_insert_text, 2!lookup_insert_key_ne by done. apply lookup_insert_key.
  - rewrite !lookup_insert_text, lookup_insert_key_ne by done. apply lookup_insert_key.
  - intros Hk. unfold token_keys in Hk. rewrite !lookup_insert_text, !lookup_insert_key_ne; set_solver.
Qed.

(** The instants chrono prints with four-digit years. *)
Definition printable (t : Z) : Prop := 0 <= t <= 253402300799 * second.

(** serde_json reads back what it printed, and chrono the second it printed. *)
Hypothesis printed_value : forall v text, value_to_string v = inr text -> value_from_str text = inr v.
Hypothesis printed_instant : forall t, printable t ->
  trimmed_non_empty (Some (format_seconds t)) = Some (format_seconds t) /\
  rfc3339_instant (format_seconds t) = Some (t / second * second).

(** A refreshed access token is stored with its expiry and then used
    without another request until five minutes before it expires; a refresh changes
    no entry of the configuration but those of the token. *)
Theorem refreshed_token_is_reused config name scope c token text c1 :
  graph_access_token config name scope c = (Ok (mkGraphAccessToken token (Some text)), c1) ->
  exists stored expires, value_from_str text = inr stored /\
    (forall k, k ∉ token_keys -> get stored k = get config k) /\
    (printable expires -> forall name' scope' c2 now c3 limit,
       utc_now (E:=string) c2 = (Ok now, c3) -> datetime_add now (5 * 60 * second) = Some limit ->
       limit < expires / second * second ->
       exists c4, graph_access_token stored name' scope' c2 = (Ok (mkGraphAccessToken token None), c4) /\
         db c4 = db c2).
Proof.
  unfold graph_access_token. intros H. step_ok H must Hm.
  assert (exists rt, refresh_graph_access_token config name scope rt c0
                     = (Ok (mkGraphAccessToken token (Some text)), c1)) as [rt Hr].
  { destruct (field_string config ["refresh_token"]) as [rt|], must, (field_string config _) as [t|];
      try (by exists rt); unfold ret, fail in H; discriminate H. }
  apply refresh_inv in Hr as (l & answer & token' & expires & refreshed & text' & -> & [= <- <-] & Ht & Hp).
  apply trimmed_again in Ht. exists (Object (refreshed_config l token (format_graph_datetime expires)
      (format_graph_datetime refreshed) answer)), expires. split_and!.
  - by apply printed_value.
  - intros k Hk. by apply refreshed_lookup.
  - intros He name' scope' c2 now c3 limit Hnow Hlimit Hlate.
    destruct (printed_instant expires He) as [Htext Hinstant].
    set (stored := Object _).
    assert (get stored "access_token" = Some (Str token)) as Hg1 by (by apply refreshed_lookup).
    assert (get stored "access_token_expires_at" = Some (Str (format_seconds expires))) as Hg2
      by (by apply refreshed_lookup).
    assert (field_string stored ["access_token"; "bearer_token"; "token"] = Some token) as ->
      by (unfold field_string; cbn [first_field]; by rewrite Hg1).
    assert (exists c4, graph_access_token_needs_refresh stored (Some token) c2 = (Ok false, c4) /\ db c4 = db c2)
      as (c4 & Hn & Hdb).
    { unfold graph_access_token_needs_refresh. rewrite Ht.
      unfold field_string. cbn [first_field]. rewrite Hg2. cbn [mbind option_bind scalar_to_string].
      rewrite Htext. unfold parse_graph_token_expires_at. rewrite Hinstant. cbn [or_else].
      exists c3. unfold bind. rewrite Hnow, Hlimit. cbn [or_panic]. unfold ret.
      replace (expires / second * second <=? limit) with false by (symmetry; apply Z.leb_gt; lia).
      split; [done|]. by injection Hnow as _ <-. }
    unfold bind. destruct (field_string stored ["refresh_token"]) as [rt'|]; [|by exists c2].
    destruct (field_bool stored ["refresh_access_token"]) as [[]|]; simpl; rewrite ?Hn;
      first [by exists c4 | by exists c2].
Qed.
End Reuse.

(** Instants printed as a binary number of seconds between two letters, a token
    endpoint that grants "new" for an hour, and a printer for the refreshed
    configuration. *)
Fixpoint bits_text (p : positive) : string :=
  match p with xH => "z" | xO p' => String "0" (bits_text p') | xI p' => String "1" (bits_text p') end.

Fixpoint bits_value (s : string) : option positive :=
  match s with
  | String a s' =>
      if Ascii.eqb a "z" then Some xH
      else (if Ascii.eqb a "0" then xO else xI) <$> bits_value s'
  | EmptyString => None
  end.

Lemma bits_round_trip p : bits_value (bits_text p) = Some p.
Proof. induction p as [p IH|p IH|]; simpl; [by rewrite IH..|done]. Qed.

Lemma bits_shape p : exists s, bits_text p = String.append s "z" /\ all_chars lower_ascii s = true.
Proof.
  induction p as [p (s & E & Hs)|p (s & E & Hs)|];
    [exists (String "1" s)|exists (String "0" s)|by exists ""];
    simpl; rewrite E, Hs; done.
Qed.

Definition seconds_text (t : Z) : string := String "t" (bits_text (Z.to_pos (t / second + 1))).

Definition seconds_instant (s : string) : option Z :=
  match s with
  | String _ s' => (fun p => (Z.pos p - 1) * second) <$> bits_value s'
  | EmptyString => None
  end.

Definition seconds_chrono : ChronoText := {|
  reprint_rfc3339 := fun _ => None;
  reprint_naive := fun _ _ => None;
  rfc3339_instant := seconds_instant;
  naive_instant := fun _ _ => None;
  format_seconds := seconds_text;
  rfc3339_seconds := seconds_text
|}.

Definition granting : Deserialize GraphTokenResponse := {|
  from_str := fun _ => inr (mkGraphTokenResponse (Some " new") None None None None None None)
|}.

Definition texts_of (l : list (string * value)) : option (list (string * string)) :=
  mapM (fun e => (fun s => (fst e, s)) <$> as_str (snd e)) l.

Definition refreshed_texts : list (string * string) :=
  [("access_token", "new"); ("access_token_expires_at", seconds_text (3600 * second)); ("client_id", "portal");
   ("refresh_token", "r"); ("token_refreshed_at", seconds_text 0)].

Definition refreshed_printer : SerdeValue := {|
  value_from_str := fun s => inr (Object (map (fun e => (fst e, Str (snd e))) refreshed_texts));
  value_to_string := fun v =>
    match v with
    | Object l => if bool_decide (texts_of l = Some refreshed_texts) then inr "stored" else inl "other"
    | _ => inl "other"
    end
|}.

Lemma texts_of_inv l texts : texts_of l = Some texts -> l = map (fun e => (fst e, Str (snd e))) texts.
Proof.
  intros H. apply mapM_Some in H. induction H as [|[k v] [k' s] l texts Hx _ IH]; [done|].
  simpl in *. destruct v; try done. injection Hx as -> ->. by rewrite IH.
Qed.

Lemma refreshed_printer_law v text :
  value_to_string (SerdeValue:=refreshed_printer) v = inr text ->
  value_from_str (SerdeValue:=refreshed_printer) text = inr v.
Proof.
  destruct v; try done. simpl. case_bool_decide as H; [|done]. intros _.
  by rewrite (texts_of_inv _ _ H).
Qed.

Lemma seconds_text_law t : printable t ->
  trimmed_non_empty (Some (seconds_text t)) = Some (seconds_text t) /\
  seconds_instant (seconds_text t) = Some (t / second * second).
Proof.
  intros Ht. assert (0 < t / second + 1) as Hpos.
  { pose proof (Z.div_pos t second). unfold second, printable in *. lia. }
  split.
  - unfold trimmed_non_empty, non_empty. simpl. unfold seconds_text.
    destruct (bits_shape (Z.to_pos (t / second + 1))) as (s & -> & Hs). rewrite trim_id; [done| |done..].
    cbn [all_chars]. rewrite all_chars_app. by rewrite Hs.
  - unfold seconds_text, seconds_instant. rewrite bits_round_trip. simpl. f_equal. rewrite Z2Pos.id; lia.
Qed.

Definition token_server : list Request -> Request -> Result string Response := fun _ _ =>
  inr (mkResponse 200 "200 OK" "{}" (inr Null)).

Definition refreshing_config : value := Object [("client_id", Str "portal"); ("refresh_token", Str "r")].

Lemma refreshed_token_is_reused_witness :
  let CT := seconds_chrono in let SV := refreshed_printer in let DT := granting in
  exists c1 stored expires,
    graph_access_token refreshing_config "mail" "Mail.Read" (on_net token_server)
      = (Ok (mkGraphAccessToken "new" (Some "stored")), c1) /\
    value_from_str "stored" = inr stored /\
    get stored "client_id" = Some (Str "portal") /\
    (printable expires -> forall name' scope' c2 now c3 limit,
       utc_now (E:=string) c2 = (Ok now, c3) -> datetime_add now (5 * 60 * second) = Some limit ->
       limit < expires / second * second ->
       exists c4, graph_access_token stored name' scope' c2 = (Ok (mkGraphAccessToken "new" None), c4) /\
         db c4 = db c2).
Proof.
  intros CT SV DT.
  assert (exists c1, graph_access_token refreshing_config "mail" "Mail.Read" (on_net token_server)
            = (Ok (mkGraphAccessToken "new" (Some "stored")), c1)) as [c1 H].
  { eexists. rewrite (surjective_pairing (graph_access_token _ _ _ _)). f_equal. }
  destruct (refreshed_token_is_reused (CT:=seconds_chrono) (SV:=refreshed_printer) (DT:=granting) refreshed_printer_law seconds_text_law _ _ _ _ _ _ _ H)
    as (stored & expires & H1 & H2 & H3).
  exists c1, stored, expires. split; [exact H|]. split; [exact H1|]. split; [|exact H3].
  rewrite H2; [reflexivity|]. unfold token_keys. set_solver.
Defined.

(** The lifetime of a token is used as the endpoint states it: a lifetime beyond
    the range of chrono durations ends the run in a panic instead of an error. *)
Definition granting_forever : Deserialize GraphTokenResponse := {|
  from_str := fun _ => inr (mkGraphTokenResponse (Some "new") None (Some i64_max) None None None None)
|}.

Theorem endless_token_panics :
  fst (graph_access_token (CT:=seconds_chrono) (SV:=refreshed_printer) (DT:=granting_forever)
         refreshing_config "mail" "Mail.Read" (on_net token_server)) = Panic.
Proof. reflexivity. Qed.
