(* ===== verification/Dispatch.v ===== *)
(** Which adapter serves a run: [src/src/connector_adapters.rs], with the payload
    helpers of [src/src/rocket_routes/connectors/runtime.rs], and the interface the
    runtime uses, implemented by the adapters and the secrets. *)
From S2P Require Import Prelude Text Schema Config Values Secrets Runtime AdapterValues Http MonitoringAdapter ErpAdapter AzureDevOps GraphAdapter.

Open Scope Z_scope.
Open Scope portal_scope.

Record AdapterConfig := mkAdapterConfig { adapter : option string }.

Definition adapter_payload (v : value) : ConnectorAdapterResult := mkConnectorAdapterResult (Some v) None.

Definition unsupported_target {A} (name target : string) : Fetch A :=
  fail (concat_str [name; " adapter does not support target "; target]).

Section Dispatch.
Context {CT : ChronoText} {CL : CharLower} {RQ : Reqwest} {UR : Urls} {HN : HeaderNames} {SV : SerdeValue}
  {DA : Deserialize AdapterConfig} {DZ : Deserialize AzureDevOpsConfig} {DM : Deserialize MonitoringConfig}
  {DE : Deserialize ErpPrivateMessagesConfig} {DT : Deserialize GraphTokenResponse}
  {DG : Deserialize MicrosoftGraphMailConfig} {DC : Deserialize MicrosoftGraphCalendarConfig}.

(** [.map(adapter_payload)] *)
Definition as_payload (m : Fetch value) : Fetch ConnectorAdapterResult :=
  v <- m ;; ret (adapter_payload v).

Definition fetch_adapter (adapter target config_json : string) : Fetch ConnectorAdapterResult :=
  if adapter =s "azure_devops" then
    if target =s "work_cards" then as_payload (fetch_azure_devops_work_cards config_json)
    else unsupported_target "azure_devops" target
  else if adapter =s "monitoring" then
    if target =s "service_health" then as_payload (fetch_monitoring_service_health config_json)
    else unsupported_target "monitoring" target
  else if one_of_texts adapter ["microsoft_graph_calendar"; "graph_calendar"; "outlook_calendar"] then
    if one_of_texts target ["notifications"; "calendar_events"]
    then fetch_microsoft_graph_calendar_events config_json
    else unsupported_target "microsoft_graph_calendar" target
  else if one_of_texts adapter ["microsoft_graph_mail"; "graph_mail"; "outlook_mail"] then
    if target =s "notifications" then fetch_microsoft_graph_mail_messages config_json
    else unsupported_target "microsoft_graph_mail" target
  else if one_of_texts adapter ["erp_private_messages"; "erp_messages_http"; "erp_http"] then
    if target =s "notifications" then as_payload (fetch_erp_private_messages config_json)
    else unsupported_target "erp_private_messages" target
  else if one_of_texts adapter ["calendar_sample"; "calendar"] then
    if one_of_texts target ["notifications"; "calendar_events"]
    then as_payload (fetch_sample_notifications config_json Calendar)
    else unsupported_target "calendar_sample" target
  else if one_of_texts adapter ["outlook_mail_sample"; "outlook"] then
    if target =s "notifications" then as_payload (fetch_sample_notifications config_json OutlookMail)
    else unsupported_target "outlook_mail_sample" target
  else if one_of_texts adapter ["erp_messages_sample"; "erp_messages"; "erp"] then
    if target =s "notifications" then as_payload (fetch_sample_notifications config_json ErpMessages)
    else unsupported_target "erp_messages_sample" target
  else fail (concat_str ["connector adapter "; adapter; " is not supported"]).

Definition fetch_connector_payload (target config_json : string) : Fetch ConnectorAdapterResult :=
  config <- with_context ["connector config is not valid JSON: "] (lift (from_str config_json)) ;;
  match adapter config with
  | Some adapter => fetch_adapter adapter target config_json
  | None => ret (mkConnectorAdapterResult None None)
  end.

(** ** Payloads *)

Definition parse_json_payload (text : string) : value :=
  match value_from_str text with
  | inr v => v
  | inl error =>
      json_object [ ("items", Array []);
                    ("_runtime_error", Str (concat_str ["sample_payload could not be parsed: "; error])) ]
  end.

Definition normalize_legacy_utc_datetime (v : string) : option string :=
  let v := trim v in
  if is_empty v then None
  else match reprint_rfc3339 v with
       | Some text => Some text
       | None => first_some (fun format => reprint_naive format v) NAIVE_FORMATS
       end.

(** The fields of a target that older adapters stored without a time zone. *)
Definition legacy_fields (target : string) : list string :=
  if target =s "calendar_events" then ["starts_at"; "ends_at"]
  else if target =s "work_cards" then ["due_at"]
  else if target =s "service_health" then ["last_checked_at"]
  else [].

(** [*value = Value::String(normalized)] for one entry of an item. *)
Definition normalize_entry (fields : list string) (e : string * value) : string * value :=
  if one_of_texts (fst e) fields then
    match as_str (snd e) ≫= normalize_legacy_utc_datetime with
    | Some normalized => (fst e, Str normalized)
    | None => e
    end
  else e.

Definition normalize_item (fields : list string) (item : value) : value :=
  match item with Object l => Object (map (normalize_entry fields) l) | _ => item end.

Definition normalize_legacy_connector_payload_timestamps (target : string) (v : value) : value :=
  match v with
  | Object l =>
      Object (map (fun e =>
        match snd e with
        | Array items =>
            if fst e =s "items" then (fst e, Array (map (normalize_item (legacy_fields target)) items))
            else e
        | _ => e
        end) l)
  | _ => v
  end.

(** ** The interface of the runtime *)

(** [serde_json::from_value::<T>]. *)
Class DeserializeValue (T : Type) := { from_value : value -> Result string T }.

Context {VE : DeserializeValue CalendarEventImport.CalendarEventImportRequest}
  {VC : DeserializeValue WorkCardImport.WorkCardImportRequest}
  {VN : DeserializeValue NotificationImport.NotificationImportRequest}
  {VS : DeserializeValue ServiceHealthImport.ServiceHealthImportRequest}.

Definition portal_payloads : Payloads := {|
  Value := value;
  decode_events := from_value;
  decode_cards := from_value;
  decode_notifications := from_value;
  decode_services := from_value
|}.

(** The runtime with the code of this repository: [uuids] counts the UUIDs drawn
    before, [net] is the network and the clock the adapter meets. *)
Definition portal_adapters {AG : Aes256Gcm} {B64 : Base64} {US : UuidSource} (env : Environ)
    (uuids : nat) (net : Conn Net) : @Adapters portal_payloads := {|
  Runtime.parse_json_payload := (parse_json_payload : string -> @Value portal_payloads);
  Runtime.decrypt_connector_config := fun config => fst (Secrets.decrypt_connector_config env config uuids);
  Runtime.encrypt_connector_config := fun config => fst (Secrets.encrypt_connector_config env config uuids);
  Runtime.fetch_connector_payload := fun target config_json =>
    match fst (fetch_connector_payload target config_json net) with
    | Ok r => Ok (mkAdapterResult (payload r : option (@Value portal_payloads)) (updated_config r))
    | Err error => Err error
    | Panic => Panic
    end;
  Runtime.normalize_legacy_connector_payload_timestamps := normalize_legacy_connector_payload_timestamps
|}.
End Dispatch.
