(* ===== verification/AzureSafety.v ===== *)
(** Properties of the Azure DevOps adapter of [AzureDevOps.v]: which work items a
    snapshot holds, in which order, and how many requests it takes. *)
From S2P Require Import Prelude Text Schema Config Values AdapterValues Http MonitoringAdapter AzureDevOps GraphSafety.

Open Scope Z_scope.
Open Scope portal_scope.

(** ** Answers *)

Lemma json_response_ok name r c v c' :
  json_response name r c = (Ok v, c') ->
  (exists response, reply (db c) (sent (db c)) r = inr response /\ is_success response = true /\
     rs_json response = inr v) /\
  reply (db c') = reply (db c) /\ sent (db c') = sent (db c) ++ [r].
Proof.
  unfold json_response. intros H. step_ok H response Hr. unfold send in Hr.
  destruct (reply (db c) _ r) as [e|x] eqn:E; [done|]. injection Hr as <- <-.
  destruct (is_success x) eqn:Es; [|done]. cbn [negb] in H. unfold with_context in H.
  apply map_err_ok, lift_ok in H as [H ->]. simpl. split; [by exists x|done].
Qed.

(** The id of an item of an answer. *)
Definition item_id (item : value) : option Z := get item "id" ≫= as_i64.

(** ** The ids of the query *)

Fixpoint first_occurrences (seen : gset Z) (l : list Z) : list Z :=
  match l with
  | [] => []
  | x :: l' =>
      if bool_decide (x ∈ seen) then first_occurrences seen l'
      else x :: first_occurrences ({[x]} ∪ seen) l'
  end.

Lemma first_occurrences_elem seen l x : x ∈ first_occurrences seen l <-> x ∈ l /\ x ∉ seen.
Proof.
  revert seen. induction l as [|y l IH]; intros seen; simpl; [set_solver|].
  case_bool_decide; rewrite ?elem_of_cons, IH; destruct (decide (x = y)); set_solver.
Qed.

Lemma first_occurrences_distinct seen l : NoDup (first_occurrences seen l).
Proof.
  revert seen. induction l as [|y l IH]; intros seen; simpl; [apply NoDup_nil_2|].
  case_bool_decide; [apply IH|]. apply NoDup_cons. split; [|apply IH].
  rewrite first_occurrences_elem. set_solver.
Qed.

Lemma first_occurrences_seen x seen l : x ∈ seen -> first_occurrences ({[x]} ∪ seen) l = first_occurrences seen l.
Proof. intros H. by replace ({[x]} ∪ seen) with seen by set_solver. Qed.

Lemma wiql_ids_ok max index items seen ids r :
  wiql_ids max index items seen ids = inr r ->
  exists found, Forall2 (fun item id => item_id item = Some id) items found /\
    r = ids ++ take (max - length ids) (first_occurrences seen found).
Proof.
  revert index seen ids. induction items as [|item items IH]; intros index seen ids; simpl.
  { intros [= <-]. exists []. split; [done|]. simpl. by rewrite take_nil, app_nil_r. }
  destruct (get item "id" ≫= as_i64) as [id|] eqn:Ei; [|done]. simpl. intros H.
  destruct (IH _ _ _ H) as (found & Hf & ->). exists (id :: found). split; [by constructor|].
  simpl. clear H. case_bool_decide as Hs; simpl; [by rewrite first_occurrences_seen|].
  destruct (length ids <? max)%nat eqn:E.
  - apply Nat.ltb_lt in E. rewrite length_app, <- app_assoc. simpl.
    replace (max - length ids)%nat with (S (max - (length ids + 1))) by lia. done.
  - apply Nat.ltb_ge in E. replace (max - length ids)%nat with 0%nat by lia. done.
Qed.

(** ** Batches *)

Lemma chunks_concat {A} n fuel (l : list A) :
  (length l <= fuel)%nat -> (0 < n)%nat -> concat (chunks_from fuel n l) = l.
Proof.
  intros Hf Hn. revert l Hf. induction fuel as [|fuel IH]; intros l Hf; [by destruct l; simpl in Hf; [|lia]|].
  destruct l as [|x l]; [done|]. cbn [chunks_from concat]. rewrite IH; [apply take_drop|].
  rewrite length_drop. simpl in *. lia.
Qed.

Lemma chunks_small {A} n fuel (l : list A) : Forall (fun k => (length k <= n)%nat) (chunks_from fuel n l).
Proof.
  revert l. induction fuel as [|fuel IH]; intros l; [constructor|]. destruct l as [|x l]; [constructor|].
  constructor; [|apply IH]. rewrite length_take. lia.
Qed.

Lemma chunks_count {A} n fuel (l : list A) :
  (0 < n)%nat -> (length (chunks_from fuel n l) * n < length l + n)%nat.
Proof.
  intros Hn. revert l. induction fuel as [|fuel IH]; intros l; [simpl; lia|].
  destruct l as [|x l]; [simpl; lia|]. cbn [chunks_from length]. specialize (IH (drop n (x :: l))).
  rewrite length_drop in IH. simpl length in *. destruct (Nat.le_gt_cases n (S (length l))).
  - lia.
  - replace (S (length l) - n)%nat with 0%nat in IH by lia.
    assert (length (chunks_from fuel n (drop n (x :: l))) = 0)%nat as ->; [|lia].
    rewrite drop_ge by (simpl; lia). by destruct fuel.
Qed.

Lemma response_map_ok name index values m r :
  response_map name index values m = inr r ->
  map_Forall (fun id item => item_id item = Some id) m ->
  map_Forall (fun id item => item_id item = Some id) r.
Proof.
  revert index m. induction values as [|item values IH]; intros index m; simpl; [by intros [= <-]|].
  destruct (get item "id" ≫= as_i64) as [id|] eqn:E; [|done]. simpl. intros H Hm.
  eapply IH; [exact H|]. by apply map_Forall_insert_2.
Qed.

Lemma take_requested_ok name ids m r :
  take_requested name ids m = inr r ->
  map_Forall (fun id item => item_id item = Some id) m -> Forall2 (fun id item => item_id item = Some id) ids r.
Proof.
  revert m r. induction ids as [|id ids IH]; intros m r; simpl; [by intros [= <-]|].
  destruct (m !! id) as [item|] eqn:E; [|done]. simpl.
  destruct (take_requested name ids (delete id m)) as [e|l] eqn:El; [done|]. intros [= <-] Hm.
  constructor; [by apply Hm|]. eapply IH; [exact El|]. by apply map_Forall_delete.
Qed.

Lemma batch_items_ok name response ids r :
  batch_items name response ids = inr r -> Forall2 (fun id item => item_id item = Some id) ids r.
Proof.
  unfold batch_items. destruct (get response "value") as [v|]; [|done]. simpl.
  destruct (as_array v) as [values|]; [|done]. simpl.
  destruct (response_map name 0 values ∅) as [e|m] eqn:E; [done|]. simpl. intros H.
  eapply take_requested_ok; [exact H|]. eapply response_map_ok; [exact E|]. apply map_Forall_empty.
Qed.

(** ** The snapshot *)

Section Snapshot.
Context {RQ : Reqwest} {UR : Urls} {DA : Deserialize AzureDevOpsConfig}.

Lemma build_client_ok timeout c u c' :
  build_client timeout c = (Ok u, c') -> c' = c.
Proof. unfold build_client. destruct (client_error _); intros H; [discriminate H|by injection H as _ <-]. Qed.

(** The request with the token, as [send_azure_request] sends it. *)
Definition authorized (token : option string) (r : Request) : Request :=
  if_present token (fun t r => r <| rq_auth := BasicAuth "" t |>) r.

(** The card of a work item. *)
Definition card_of (id : Z) (card : value) : Prop := get card "external_id" = Some (Str (int_to_string id)).

Lemma fetch_batch_ok config url token total items i ids c r c' :
  fetch_batch config url token total items (i, ids) c = (Ok r, c') ->
  reply (db c') = reply (db c) /\
  sent (db c') = sent (db c) ++ [authorized token (batch_request url ids (requested_fields (ac_due_date_field config)))] /\
  exists cards, r = items ++ cards /\ Forall2 card_of ids cards.
Proof.
  unfold fetch_batch. intros H. step_ok H response Hr. apply json_response_ok in Hr as (_ & Hreply & Hsent).
  step_ok H values Hv. injection H as <- <-. split; [done|]. split; [done|]. eexists. split; [done|].
  apply batch_items_ok in Hv. apply Forall2_fmap_r. eapply Forall2_impl; [exact Hv|].
  intros id item Hid. unfold card_of. simpl. unfold item_id in Hid.
  by rewrite Hid.
Qed.

Lemma fetch_batches_ok config url token total batches k items c r c' :
  for_each (imap (fun i b => (k + i, b)%nat) batches) items (fetch_batch config url token total) c = (Ok r, c') ->
  sent (db c') = sent (db c) ++ map (fun ids => authorized token (batch_request url ids
                                    (requested_fields (ac_due_date_field config)))) batches /\
  exists cards, r = items ++ cards /\ Forall2 card_of (concat batches) cards.
Proof.
  revert k items c. induction batches as [|ids batches IH]; intros k items c H; simpl in H.
  - injection H as <- <-. simpl. rewrite app_nil_r. split; [done|]. exists []. by rewrite app_nil_r.
  - step_ok H items' Hb. apply fetch_batch_ok in Hb as (_ & Hsent & cards & -> & Hcards).
    assert (imap ((fun i b => (k + i, b)%nat) ∘ S) batches = imap (fun i b => (S k + i, b)%nat) batches) as E.
    { apply imap_ext. intros i b _. simpl. by rewrite Nat.add_succ_r. }
    rewrite E in H. apply IH in H as (Hsent' & more & -> & Hmore). split.
    + rewrite Hsent', Hsent. simpl. by rewrite <- app_assoc.
    + exists (cards ++ more). rewrite app_assoc. split; [done|]. simpl. by apply Forall2_app.
Qed.

(** What a fetched payload is, given the answers of the peer. *)
Definition exact_snapshot (config_json : string) (c : Conn Net) (payload : value) (c' : Conn Net) : Prop :=
  exists config max_items query response work_items found cards,
    from_str config_json = inr config /\ azure_max_items (ac_max_items config) = inr max_items /\
    reply (db c) (sent (db c)) query = inr response /\
    and_then (rs_json response) wiql_work_items = inr work_items /\
    Forall2 (fun item id => item_id item = Some id) work_items found /\
    let ids := take max_items (first_occurrences ∅ found) in
    payload = azure_payload cards (length found <? max_items)%nat /\
    Forall2 card_of ids cards /\ Z.of_nat (length ids) <= 10000 /\
    exists batches, sent (db c') = sent (db c) ++ query :: batches /\ (length batches <= 50)%nat.

(** C34: A snapshot of work items holds one card for each distinct id of the
    query, in the order of the query, up to the configured limit, and none when a
    batch fails or omits an item. It takes one request for the query and one for
    each two hundred items, and it is declared complete exactly when the query
    returned fewer ids than the limit. *)
Theorem azure_snapshot_is_exact config_json c payload c' :
  fetch_azure_devops_work_cards config_json c = (Ok payload, c') ->
  exact_snapshot config_json c payload c'.
Proof.
  unfold fetch_azure_devops_work_cards, exact_snapshot. intros H. step_ok H config Hc.
  destruct (negb _) in H; [done|]. step_ok H u1 Hu1. step_ok H u2 Hu2. step_ok H max_items Hm.
  step_ok H url Hurl. step_ok H u3 Hb. apply build_client_ok in Hb as ->.
  step_ok H answer Ha. apply json_response_ok in Ha as ((response & Hr & _ & Hj) & Hreply & Hsent).
  step_ok H work_items Hw. step_ok H ids Hids. apply wiql_ids_ok in Hids as (found & Hf & ->).
  rewrite Nat.sub_0_r, app_nil_l in H. pose proof (Forall2_length _ _ _ Hf) as Hlen.
  set (ids := take max_items (first_occurrences ∅ found)) in *.
  assert (length ids <= max_items)%nat as Hids by (unfold ids; rewrite length_take; lia).
  assert (Z.of_nat max_items <= 10000) as Hmax.
  { unfold azure_max_items, MAX_ALLOWED_ITEMS in Hm. cbv zeta in Hm.
    destruct (_ && _) eqn:E in Hm; [|done]. injection Hm as <-. lia. }
  exists config, max_items, (authorized (or_else (ac_personal_access_token config) (ac_pat config))
    (http_post url (JsonBody (json_object [("query", Str (default default_wiql (ac_wiql config)))])))),
    response, work_items, found.
  assert (exists cards batches, payload = azure_payload cards (length work_items <? max_items)%nat /\
    Forall2 card_of ids cards /\ sent (db c') = sent (db c0) ++ batches /\ (length batches <= 50)%nat)
    as (cards & batches & Hp & Hcards & Hs & Hbound).
  { destruct ids as [|id rest] eqn:Eids.
    - injection H as <- <-. exists [], []. rewrite app_nil_r. simpl. split_and!; [done..|lia].
    - rewrite <- Eids in *. step_ok H cards Hcards. injection H as <- <-.
      apply (fetch_batches_ok _ _ _ _ _ 0) in Hcards as (Hs & cards' & -> & Hall).
      rewrite app_nil_l in *. unfold chunks in Hall. rewrite chunks_concat in Hall by (unfold WORK_ITEMS_BATCH_SIZE; lia).
      exists cards'. eexists. split_and!; [done|done|exact Hs|]. rewrite length_map.
      pose proof (chunks_count WORK_ITEMS_BATCH_SIZE (length ids) ids) as Hcount.
      unfold chunks, WORK_ITEMS_BATCH_SIZE in *. lia. }
  exists cards. rewrite Hj. cbn [and_then]. cbv zeta. fold ids. split_and!; try done; [by rewrite <- Hlen|lia|].
  exists batches. split; [|done]. rewrite Hs, Hsent. by rewrite <- app_assoc.
Qed.
End Snapshot.

(** A project with the work items 7 and 9, of which the query names one twice. *)
Definition azure_config : Deserialize AzureDevOpsConfig := {|
  from_str := fun _ => inr (mkAzureDevOpsConfig (Some "azure_devops") (Some "https://dev/wiql") (Some "https://dev/batch")
    None None None None None (Some "pat") None None None ∅ None None)
|}.

Definition with_id (id : Z) : value := json_object [("id", Number (PosInt id))].

Definition azure_server : list Request -> Request -> Result string Response := fun _ r =>
  inr (mkResponse 200 "200 OK" "" (inr
    (if rq_url r =s "https://dev/batch" then json_object [("value", Array [with_id 9; with_id 7])]
     else json_object [("workItems", Array [with_id 7; with_id 9; with_id 7])]))).

Lemma azure_snapshot_is_exact_witness :
  let RQ := {| client_error := fun _ => None |} in let UR := text_urls in let DA := azure_config in
  exists payload c',
    fetch_azure_devops_work_cards "{}" (on_net azure_server) = (Ok payload, c') /\
    (exists cards, get payload "items" = Some (Array cards) /\ length cards = 2%nat) /\
    exact_snapshot "{}" (on_net azure_server) payload c'.
Proof.
  intros RQ UR DA.
  assert (exists payload c', fetch_azure_devops_work_cards "{}" (on_net azure_server) = (Ok payload, c') /\
    exists cards, get payload "items" = Some (Array cards) /\ length cards = 2%nat) as (payload & c' & H & Hi).
  { eexists _, _. split; [rewrite (surjective_pairing (fetch_azure_devops_work_cards _ _)); f_equal|].
    eexists. split; reflexivity. }
  exists payload, c'. split; [exact H|]. split; [exact Hi|]. exact (azure_snapshot_is_exact _ _ _ _ H).
Defined.
