(* ===== verification/AdapterSafety.v ===== *)
(** Properties of the adapters: the URLs they build say what was configured, the
    items they produce have the shape the import expects, an accepted configuration
    reaches its adapter, and refreshed tokens are stored encrypted. *)
From S2P Require Import Prelude Logic Text Models Schema Api Validation Schedule Access Runs Records Connections Runtime.
From S2P Require Import Config ConfigSafety Values Secrets SecretsSafety ConnectorConfigs ConnectorRoutes ConnectorRouteSafety.
From S2P Require Import AdapterValues Http MonitoringAdapter ErpAdapter AzureDevOps GraphAdapter GraphSafety Dispatch.
From Stdlib Require Import Ascii.

Open Scope Z_scope.
Open Scope portal_scope.

(** ** Query parameters *)

Lemma bytes_app s t : bytes (String.append s t) = bytes s ++ bytes t.
Proof. induction s as [|a s IH]; [done|]. rewrite str_app_cons. simpl. by rewrite IH. Qed.

Definition keeps (b : Z) : bool := is_unreserved (ascii_of_nat (Z.to_nat b)).

(** The bytes of an encoded component. *)
Lemma encoded_bytes v : bytes (encode_url_component v) = percent_encode keeps (bytes v).
Proof.
  induction v as [|a v IH]; [done|]. cbn [encode_url_component]. rewrite bytes_app, IH. clear IH. simpl.
  set (l := percent_encode keeps (bytes v)). clearbody l. clear v.
  by destruct a as [[][][][][][][][]].
Qed.

Lemma decoded_component v : utf8 (bytes v) = true -> percent_decode_utf8 (encode_url_component v) = Some v.
Proof.
  intros Hv. unfold percent_decode_utf8. rewrite encoded_bytes, percent_round_trip by apply bytes_range.
  by rewrite Hv, of_bytes_bytes.
Qed.

Definition encoded_char (a : ascii) : bool := is_unreserved a || Ascii.eqb a "%".

Lemma encoded_alphabet v : all_chars encoded_char (encode_url_component v) = true.
Proof.
  induction v as [|a v IH]; [done|]. cbn [encode_url_component]. rewrite all_chars_app, IH, andb_true_r.
  by destruct a as [[][][][][][][][]].
Qed.

(** Reading a query string: parameters separated by ampersands, name and value by
    the first equals sign, both percent-encoded. *)
Definition parse_pair (s : string) : option (string * string) :=
  p ← split_once "=" s;
  k ← percent_decode_utf8 (fst p);
  v ← percent_decode_utf8 (snd p);
  Some (k, v).

Definition parse_query (s : string) : option (list (string * string)) :=
  mapM parse_pair (split_on (fun a => Ascii.eqb a "&") s).

Definition pair_text (p : string * string) : string :=
  concat_str [encode_url_component (fst p); "="; encode_url_component (snd p)].

Lemma push_params_text url sep p params :
  push_params url sep (p :: params) = String.append url (String.append sep (join "&" (map pair_text (p :: params)))).
Proof.
  revert url sep p. induction params as [|q params IH]; intros url sep [k v].
  - simpl. unfold pair_text. simpl. by rewrite !str_app_empty.
  - change (push_params url sep ((k, v) :: q :: params))
      with (push_params (concat_str [url; sep; encode_url_component k; "="; encode_url_component v]) "&" (q :: params)).
    rewrite IH.
    change (join "&" (map pair_text ((k, v) :: q :: params)))
      with (String.append (pair_text (k, v)) (String.append "&" (join "&" (map pair_text (q :: params))))).
    generalize (join "&" (map pair_text (q :: params))). intros rest. unfold pair_text. simpl.
    rewrite !str_app_empty, ?str_app_assoc. simpl. by rewrite ?str_app_assoc.
Qed.

Lemma split_once_app x s t :
  all_chars (fun a => negb (Ascii.eqb a x)) s = true ->
  split_once x (String.append s (String x t)) = Some (s, t).
Proof.
  induction s as [|a s IH]; simpl; [by rewrite Ascii.eqb_refl|].
  intros [Ha%negb_true_iff Hs]%andb_prop. by rewrite Ha, (IH Hs).
Qed.

Lemma encoded_without x v : encoded_char x = false ->
  all_chars (fun a => negb (Ascii.eqb a x)) (encode_url_component v) = true.
Proof.
  intros Hx. eapply all_chars_impl; [|apply encoded_alphabet]. intros a Ha. apply negb_true_iff.
  destruct (Ascii.eqb_spec a x) as [->|]; [congruence|done].
Qed.

Lemma parse_pair_text k v : utf8 (bytes k) = true -> utf8 (bytes v) = true -> parse_pair (pair_text (k, v)) = Some (k, v).
Proof.
  intros Hk Hv. unfold parse_pair, pair_text. simpl. rewrite str_app_empty, str_app_cons, str_app_nil.
  rewrite split_once_app by (by apply encoded_without). simpl.
  by rewrite (decoded_component k Hk), (decoded_component v Hv).
Qed.

Lemma pair_text_plain p : all_chars (fun a => negb (Ascii.eqb a "&")) (pair_text p) = true.
Proof.
  destruct p as [k v]. unfold pair_text. simpl. rewrite str_app_empty, !all_chars_app.
  by rewrite !encoded_without.
Qed.

(** What is appended to a URL reads back as exactly the given parameters,
    in their order: no character of a value can end it, add a parameter or change
    the path. *)
Theorem query_params_round_trip base p params :
  Forall (fun q => utf8 (bytes (fst q)) = true /\ utf8 (bytes (snd q)) = true) (p :: params) ->
  exists separator query,
    append_query_params base (p :: params) = String.append base (String.append separator query) /\
    parse_query query = Some (p :: params) /\
    separator = (if contains base "?" then
                   if ends_with_char "?" base || ends_with_char "&" base then "" else "&"
                 else "?").
Proof.
  intros Hp. eexists _, (join "&" (map pair_text (p :: params))). split; [apply push_params_text|]. split; [|done].
  revert p Hp. induction params as [|q params IH]; intros [k v] [[Hk Hv] Hp]%Forall_cons_1; unfold parse_query.
  - simpl. rewrite split_on_none by apply pair_text_plain. simpl. by rewrite parse_pair_text.
  - change (join "&" (map pair_text ((k, v) :: q :: params)))
      with (String.append (pair_text (k, v)) (String "&" (join "&" (map pair_text (q :: params))))).
    rewrite split_on_app by (done || apply pair_text_plain). simpl mapM. rewrite parse_pair_text by done. simpl.
    pose proof (IH q Hp) as H. unfold parse_query in H. simpl in H. by rewrite H.
Qed.

Lemma query_params_round_trip_witness :
  exists separator query,
    append_query_params "https://erp/messages" [("since", "a&limit=9"); ("limit", "5")]
      = String.append "https://erp/messages" (String.append separator query) /\
    parse_query query = Some [("since", "a&limit=9"); ("limit", "5")].
Proof.
  destruct (query_params_round_trip "https://erp/messages" ("since", "a&limit=9") [("limit", "5")])
    as (separator & query & H1 & H2 & _); [repeat constructor|]. by exists separator, query.
Defined.

(** ** Dispatch *)

Section Reached.
Context {CT : ChronoText} {CL : CharLower} {RQ : Reqwest} {UR : Urls} {HN : HeaderNames} {SV : SerdeValue}
  {DA : Deserialize AdapterConfig} {DZ : Deserialize AzureDevOpsConfig} {DM : Deserialize MonitoringConfig}
  {DE : Deserialize ErpPrivateMessagesConfig} {DT : Deserialize GraphTokenResponse}
  {DG : Deserialize MicrosoftGraphMailConfig} {DC : Deserialize MicrosoftGraphCalendarConfig}.

(** The adapters by name. *)
Definition adapter_fetch (a config_json : string) : Fetch ConnectorAdapterResult :=
  if one_of_texts a ["azure_devops"] then as_payload (fetch_azure_devops_work_cards config_json)
  else if one_of_texts a ["monitoring"] then as_payload (fetch_monitoring_service_health config_json)
  else if one_of_texts a ["microsoft_graph_calendar"; "graph_calendar"; "outlook_calendar"]
  then fetch_microsoft_graph_calendar_events config_json
  else if one_of_texts a ["microsoft_graph_mail"; "graph_mail"; "outlook_mail"]
  then fetch_microsoft_graph_mail_messages config_json
  else if one_of_texts a ["erp_private_messages"; "erp_messages_http"; "erp_http"]
  then as_payload (fetch_erp_private_messages config_json)
  else as_payload (fetch_sample_notifications config_json
         (if one_of_texts a ["calendar_sample"; "calendar"] then Calendar
          else if one_of_texts a ["outlook_mail_sample"; "outlook"] then OutlookMail else ErpMessages)).

Lemma dispatched a target config_json :
  target ∈ adapter_targets a -> fetch_adapter a target config_json = adapter_fetch a config_json.
Proof.
  intros H. unfold adapter_targets in H.
  repeat match type of H with target ∈ (if one_of_texts a ?l then _ else _) =>
    destruct (one_of_texts a l) eqn:E;
    [ apply one_of_texts_elem in E; rewrite !elem_of_cons, elem_of_nil in E;
      rewrite ?elem_of_cons, elem_of_nil in H; destruct_or! E; try done; destruct_or! H; try done;
      subst; reflexivity
    | clear E ] end.
  by apply elem_of_nil in H.
Qed.

(** serde reads the field [adapter] of an object as the text the parser of values
    finds there. *)
Hypothesis reads_adapter : forall text v, value_from_str text = inr v -> is_object v = true ->
  (forall x, get v "adapter" = Some x -> is_Some (as_str x)) ->
  from_str text = inr (mkAdapterConfig (get v "adapter" ≫= as_str)).

(** A run of an accepted configuration always reaches an adapter: the one it
    names, or none when it names none. It holds for names without surrounding white
    space, which the validation strips and the dispatch does not. *)
Theorem accepted_config_reaches_adapter (r : ConfigUpdate.ConnectorConfigUpdate) v :
  validate r = [] -> value_from_str (ConfigUpdate.config r) = inr v ->
  (forall a, get v "adapter" = Some (Str a) -> trim a = a) ->
  forall c, fetch_connector_payload (ConfigUpdate.target r) (ConfigUpdate.config r) c =
    match get v "adapter" ≫= as_str with
    | Some a => adapter_fetch a (ConfigUpdate.config r) c
    | None => (Ok (mkConnectorAdapterResult None None), c)
    end.
Proof.
  intros Hr Hv Ht c. apply accepted_config in Hr as [_ _ [l Hl] Ha _]. rewrite Hv in Hl.
  injection Hl as ->. specialize (Ha (Object l)). specialize (fun x => Ha x Hv).
  unfold fetch_connector_payload, with_context, map_err, catch, bind.
  rewrite (reads_adapter _ _ Hv eq_refl); [|intros x Hx; destruct (Ha x Hx) as (a & -> & _); eauto].
  cbn [lift]. unfold ret at 1. cbv beta iota. cbn [adapter].
  destruct (get (Object l) "adapter") as [x|] eqn:Hx; [|done].
  destruct (Ha x eq_refl) as (a & Ea & Htarget & _). destruct x; try done. injection Ea as ->.
  rewrite (Ht a eq_refl) in Htarget. simpl. by rewrite dispatched.
Qed.
End Reached.

(** Parameters for the examples: serde decoding the adapter name from the parsed
    value and refusing everything else, one-byte lower-case letters. *)
Definition adapter_reader (SV : SerdeValue) : Deserialize AdapterConfig := {|
  from_str := fun text =>
    match value_from_str text with
    | inr v => inr (mkAdapterConfig (get v "adapter" ≫= as_str))
    | inl e => inl e
    end
|}.

Lemma adapter_reader_law (SV : SerdeValue) text v : value_from_str text = inr v ->
  from_str (Deserialize:=adapter_reader SV) text = inr (mkAdapterConfig (get v "adapter" ≫= as_str)).
Proof. intros Hv. simpl. by rewrite Hv. Qed.

Definition refusing (T : Type) : Deserialize T := {| from_str := fun _ => inl "refused" |}.
Definition byte_lower : CharLower := {| char_to_lowercase := fun c => [to_ascii_lowercase c] |}.
Definition any_client : Reqwest := {| client_error := fun _ => None |}.
Definition any_header : HeaderNames := {| header_name := Some |}.

Definition sample_fetch (SV : SerdeValue) (target config_json : string) : Fetch ConnectorAdapterResult :=
  fetch_connector_payload (CT:=seconds_chrono) (CL:=byte_lower) (RQ:=any_client) (UR:=text_urls) (HN:=any_header)
    (SV:=SV) (DA:=adapter_reader SV) (DZ:=refusing _) (DM:=refusing _) (DE:=refusing _) (DT:=refusing _)
    (DG:=refusing _) (DC:=refusing _) target config_json.

(** A configuration of the calendar sample. *)
Definition sample_texts : SerdeValue := {|
  value_from_str := fun s =>
    inr (if s =s "config" then Object [("adapter", Str "calendar"); ("events", Array [])]
         else Object [("items", Array [])]);
  value_to_string := fun _ => inr "config"
|}.

Definition sample_request : ConfigUpdate.ConnectorConfigUpdate :=
  ConfigUpdate.mkConnectorConfigUpdate "calendar_events" true None "config" "sample".

Lemma accepted_config_reaches_adapter_witness :
  @validate _ (@validate_config_update sample_texts) sample_request = [] /\
  sample_fetch sample_texts "calendar_events" "config" (on_net page_server) =
    as_payload (fetch_sample_notifications (CT:=seconds_chrono) (CL:=byte_lower) (SV:=sample_texts) "config" Calendar)
      (on_net page_server).
Proof.
  split; [vm_compute; reflexivity|].
  apply (accepted_config_reaches_adapter (CT:=seconds_chrono) (CL:=byte_lower) (RQ:=any_client) (UR:=text_urls)
    (HN:=any_header) (SV:=sample_texts) (DA:=adapter_reader sample_texts) (DZ:=refusing _) (DM:=refusing _)
    (DE:=refusing _) (DT:=refusing _) (DG:=refusing _) (DC:=refusing _))
    with (r:=sample_request) (v:=Object [("adapter", Str "calendar"); ("events", Array [])]).
  - intros text v Hv _ _. exact (adapter_reader_law sample_texts text v Hv).
  - vm_compute. reflexivity.
  - reflexivity.
  - intros a [= <-]. vm_compute. reflexivity.
Defined.

(** The validation accepts a name with surrounding white space and checks the
    configuration for the adapter it denotes; every run of it then fails, since the
    dispatch compares the name as it is written. *)
Theorem padded_adapter_never_runs :
  @validate _ (@validate_config_update two_texts) padded_request = [] /\
  forall c, sample_fetch two_texts (ConfigUpdate.target padded_request) (ConfigUpdate.config padded_request) c
    = (Err "connector adapter  monitoring is not supported", c).
Proof. split; [vm_compute; reflexivity|]. intros c. reflexivity. Qed.

(** ** The shape of imported items *)






















Section Shapes.
Context {CT : ChronoText} {CL : CharLower}.


(** ** Slugs *)









End Shapes.

(** ** Refreshed tokens are stored encrypted *)

Section Refreshed.
Context {AG : Aes256Gcm} {B64 : Base64} {US : UuidSource}.
Context {CT : ChronoText} {CL : CharLower} {RQ : Reqwest} {UR : Urls} {HN : HeaderNames} {SV : SerdeValue}
  {DA : Deserialize AdapterConfig} {DZ : Deserialize AzureDevOpsConfig} {DM : Deserialize MonitoringConfig}
  {DE : Deserialize ErpPrivateMessagesConfig} {DT : Deserialize GraphTokenResponse}
  {DG : Deserialize MicrosoftGraphMailConfig} {DC : Deserialize MicrosoftGraphCalendarConfig}
  {VE : DeserializeValue CalendarEventImport.CalendarEventImportRequest}
  {VC : DeserializeValue WorkCardImport.WorkCardImportRequest}
  {VN : DeserializeValue NotificationImport.NotificationImportRequest}
  {VS : DeserializeValue ServiceHealthImport.ServiceHealthImportRequest}.

Lemma update_keeps_sealed source text :
  sealed_text text -> preserves configs_sealed (ConnectorConfigRepository.update_config source text).
Proof.
  intros Ht. unfold ConnectorConfigRepository.update_config. apply preserves_first_row, preserves_exec.
  intros now n d n' a d' Hd (_ & -> & _)%sql_update_inv. intros k Hk. simpl in Hk.
  apply list_elem_of_fmap in Hk as (x & -> & Hx). case_match; [done|by apply Hd].
Qed.

(** Loading the payload of a run, with the adapters and the cipher of the
    portal, never stores a plain secret: when an adapter refreshes its tokens, the
    configuration is encrypted before it is written, whatever the peer answers and
    however the run ends. *)
Theorem refreshed_tokens_stay_sealed env uuids net run :
  preserves configs_sealed
    (load_payload_for_claimed_run (PL:=portal_payloads) (AD:=portal_adapters env uuids net) run).
Proof.
  unfold load_payload_for_claimed_run.
  apply preserves_bind; [preserve|intros connector]. apply preserves_bind; [preserve|intros config].
  destruct (Connectors.status connector =s "paused"); [apply preserves_fail|].
  destruct (negb (Config.enabled config)); [apply preserves_fail|].
  destruct (Run.payload run); [apply preserves_ret|].
  destruct (Runtime.decrypt_connector_config _) as [e|text]; [apply preserves_fail|].
  destruct (Runtime.fetch_connector_payload _ _) as [r|e|]; [|apply preserves_fail|apply preserves_panic].
  apply preserves_bind; [|intros; apply preserves_ret].
  destruct (ar_updated_config r) as [updated|]; [|apply preserves_ret].
  destruct (Runtime.encrypt_connector_config updated) as [e|sealed_config] eqn:E; [apply preserves_fail|].
  apply preserves_bind; [|intros; apply preserves_ret].
  apply preserves_map_err, update_keeps_sealed. exact (encrypted_config_sealed env updated uuids _ E).
Qed.
End Refreshed.
