(* ===== verification/MicrosoftOAuth.v ===== *)
(** Connecting a connector to Microsoft: the OAuth handlers of
    [src/src/rocket_routes/connectors/oauth.rs] with their request and response types
    ([types.rs]). The token endpoint, the UUIDs, the codec of the state and the texts
    of chrono are parameters. *)
From S2P Require Import Prelude Logic Text Models Schema Api Validation Access Accounts AuditLogs.
From S2P Require Import Runs Records Connections Runtime Config Values Secrets ConnectorRoutes.
From S2P Require Import AdapterValues Http GraphAdapter.
From Stdlib Require Import Ascii.

Open Scope Z_scope.
Open Scope portal_scope.

Definition MICROSOFT_GRAPH_CALENDAR_SCOPE : string := "https://graph.microsoft.com/Calendars.Read offline_access".
Definition MICROSOFT_GRAPH_MAIL_SCOPE : string := "https://graph.microsoft.com/Mail.Read offline_access".

(** ** Types *)

Record MicrosoftTokenResponse := mkMicrosoftTokenResponse {
  mt_access_token : option string;
  mt_token_type : option string;
  mt_expires_in : option Z;
  mt_refresh_token : option string;
  mt_scope : option string;
  mt_error : option string;
  mt_error_description : option string
}.

Record MicrosoftOAuthState := mkMicrosoftOAuthState {
  os_source : string;
  os_nonce : string;
  os_issued_at : string
}.

Record MicrosoftOAuthAuthorizeRequest := mkMicrosoftOAuthAuthorizeRequest {
  aq_redirect_uri : string;
  aq_prompt : option string
}.

Record MicrosoftOAuthAuthorizeResponse := mkMicrosoftOAuthAuthorizeResponse {
  ap_authorization_url : string;
  ap_state : string;
  ap_redirect_uri : string;
  ap_scope : string;
  ap_expires_at : Z
}.

Record MicrosoftOAuthCallbackRequest := mkMicrosoftOAuthCallbackRequest {
  cq_code : option string;
  cq_state : string;
  cq_redirect_uri : string;
  cq_error : option string;
  cq_error_description : option string
}.

Record MicrosoftOAuthCallbackResponse := mkMicrosoftOAuthCallbackResponse {
  cp_source : string;
  cp_config : ConnectorConfigResponse
}.

(** ** Validation *)

Definition absolute_redirect (uri : string) : Check :=
  push_if (negb (is_http_url uri)) "redirect_uri" "must be an absolute HTTP URL".

#[export] Instance validate_authorize : Validate MicrosoftOAuthAuthorizeRequest := fun r =>
  run_checks
    [ required "redirect_uri" (aq_redirect_uri r);
      max_len "redirect_uri" (aq_redirect_uri r) 512;
      absolute_redirect (aq_redirect_uri r);
      max_optional_len "prompt" (aq_prompt r) 64 ].

#[export] Instance validate_callback : Validate MicrosoftOAuthCallbackRequest := fun r =>
  run_checks
    [ required "state" (cq_state r);
      max_len "state" (cq_state r) 1024;
      required "redirect_uri" (cq_redirect_uri r);
      max_len "redirect_uri" (cq_redirect_uri r) 512;
      absolute_redirect (cq_redirect_uri r);
      max_optional_len "code" (cq_code r) 8192;
      max_optional_len "error" (cq_error r) 256;
      max_optional_len "error_description" (cq_error_description r) 2048 ].

(** ** Reading the configuration *)

Definition config_field (config : value) (names : list string) : option string :=
  non_empty (first_field config names ≫= fun v =>
    match v with
    | Str s => Some (trim s)
    | Number n => Some (number_text n)
    | _ => None
    end).

Definition require_http_url (field v : string) : Handler unit :=
  if is_http_url v then ret tt else fail (validation_error field "must be an absolute HTTP URL").

Definition graph_tenant (config : value) : string :=
  default "organizations" (config_field config ["tenant_id"; "tenant"; "directory_id"]).

Definition microsoft_authorization_url (config : value) : string :=
  match config_field config ["authorization_url"; "authorize_url"; "oauth_authorize_url"] with
  | Some url => url
  | None => concat_str ["https://login.microsoftonline.com/"; encode_url_component (graph_tenant config);
                        "/oauth2/v2.0/authorize"]
  end.

Definition microsoft_token_url (config : value) : string :=
  match config_field config ["token_url"; "oauth_token_url"] with
  | Some url => url
  | None => concat_str ["https://login.microsoftonline.com/"; encode_url_component (graph_tenant config);
                        "/oauth2/v2.0/token"]
  end.

Definition default_scope_for_adapter (adapter : string) : option string :=
  if one_of_texts adapter ["microsoft_graph_calendar"; "graph_calendar"; "outlook_calendar"]
  then Some MICROSOFT_GRAPH_CALENDAR_SCOPE
  else if one_of_texts adapter ["microsoft_graph_mail"; "graph_mail"; "outlook_mail"]
  then Some MICROSOFT_GRAPH_MAIL_SCOPE
  else None.

(** The copy of [graph_scope] in [oauth.rs] reads the fields with [config_field]. *)
Definition oauth_scope (config : value) : option string :=
  or_else (config_field config ["scope"; "scopes"])
    (non_empty (joined_scopes <$> (get config "scopes" ≫= as_array))).

(** The adapter of the configuration decides the default scope. *)
Definition requested_scope (config : value) : Handler string :=
  adapter_name <- ok_or (validation_error "config"
                           "must set adapter to microsoft_graph_calendar or microsoft_graph_mail")
                    (config_field config ["adapter"]) ;;
  default_scope <- ok_or (validation_error "config"
                            "adapter must be microsoft_graph_calendar or microsoft_graph_mail")
                     (default_scope_for_adapter adapter_name) ;;
  ret (default default_scope (oauth_scope config)).

Section OAuth.
Context {SJ : SerdeJson} {AG : Aes256Gcm} {B64 : Base64} {US : UuidSource} {SV : SerdeValue} {CT : ChronoText}
        {RQ : Reqwest} {DT : Deserialize MicrosoftTokenResponse}.

(** [Uuid::to_string] and [serde_json] on the state. *)
Class StateCodec := {
  uuid_text : nat -> string;
  state_to_vec : MicrosoftOAuthState -> Result string string;
  state_from_slice : string -> option MicrosoftOAuthState
}.

Context {SC : StateCodec} {UB : UrlSafeBase64} (env : Environ).

Definition format_oauth_datetime (t : Z) : string := rfc3339_seconds t.

Definition decrypt_config_json (uuids : nat) (config : string) : Handler value :=
  config <- config_result (fst (decrypt_connector_config env config uuids)) ;;
  config_result (value_from_str config).

Definition encrypt_connector_config_json (uuids : nat) (config : value) : Handler string :=
  text <- config_result (value_to_string config) ;;
  config_result (fst (encrypt_connector_config env text uuids)).

Definition encode_oauth_state (uuids : nat) (source : string) : Handler string :=
  now <- utc_now ;;
  let state := mkMicrosoftOAuthState source (uuid_text uuids) (format_oauth_datetime now) in
  match state_to_vec state with
  | inr encoded => ret (url_safe_encode encoded)
  | inl error => fail (validation_error "state" error)
  end.

Definition decode_oauth_state (state : string) : Handler MicrosoftOAuthState :=
  decoded <- ok_or (validation_error "state" "is invalid") (url_safe_decode state) ;;
  ok_or (validation_error "state" "is invalid") (state_from_slice decoded).

(** ** Starting *)

(** The entries of a pending connection. *)
Definition pending_config (l : list (string * value)) (state expires_at redirect_uri : string)
    : list (string * value) :=
  remove_key "oauth_last_error"
    (insert_key "oauth_redirect_uri" (Str redirect_uri)
      (insert_key "oauth_state_expires_at" (Str expires_at)
        (insert_key "oauth_state" (Str state)
          (insert_key "oauth_provider" (Str "microsoft") l)))).

Definition start_microsoft_oauth (uuids : nat) (auth : AuthenticatedUser) (source : string)
    (request : MicrosoftOAuthAuthorizeRequest) : Handler MicrosoftOAuthAuthorizeResponse :=
  require_admin auth ;;;
  source <- validate_source source ;;
  request <- validate_request request ;;
  query (ConnectorRepository.find_by_source source) ;;;
  config <- query (ConnectorConfigRepository.find_by_source source) ;;
  config_value <- decrypt_config_json uuids (Config.config config) ;;
  scope <- requested_scope config_value ;;
  client_id <- ok_or (validation_error "config" "must set client_id before OAuth connect")
                 (config_field config_value ["client_id"; "application_id"; "app_id"]) ;;
  let authorization_url := microsoft_authorization_url config_value in
  require_http_url "authorization_url" authorization_url ;;;
  state <- encode_oauth_state uuids source ;;
  now <- utc_now ;;
  expires_at <- or_panic (datetime_add now (10 * 60 * second)) ;;
  let prompt := default "select_account" (trimmed_non_empty (aq_prompt request)) in
  let authorization_url := append_query_params authorization_url
    [ ("client_id", client_id); ("response_type", "code"); ("redirect_uri", aq_redirect_uri request);
      ("response_mode", "query"); ("scope", scope); ("state", state); ("prompt", prompt) ] in
  entries <- ok_or (validation_error "config" "must be a JSON object") (as_object config_value) ;;
  encrypted_config <- encrypt_connector_config_json (S uuids)
    (Object (pending_config entries state (format_oauth_datetime expires_at) (aq_redirect_uri request))) ;;
  query (ConnectorConfigRepository.update_config source encrypted_config) ;;;
  record_audit_log auth "oauth_authorize" "connector" source
    (JObj [("provider", JStr "microsoft"); ("scope", JStr scope)]) ;;;
  ret (mkMicrosoftOAuthAuthorizeResponse authorization_url state (aq_redirect_uri request) scope expires_at).

(** ** Finishing *)

Definition validate_pending_oauth_state (config : value) (state redirect_uri : string) : Handler unit :=
  let no_match := validation_error "state" "does not match a pending OAuth connection" in
  stored_state <- ok_or no_match (config_field config ["oauth_state"]) ;;
  if negb (stored_state =s state) then fail no_match
  else
    let wrong_uri := validation_error "redirect_uri" "does not match pending OAuth state" in
    stored_redirect_uri <- ok_or wrong_uri (config_field config ["oauth_redirect_uri"]) ;;
    if negb (stored_redirect_uri =s redirect_uri) then fail wrong_uri
    else
      expires_at <- ok_or (validation_error "state" "is missing or has expired")
                      (config_field config ["oauth_state_expires_at"] ≫= rfc3339_instant) ;;
      now <- utc_now ;;
      if expires_at <=? now then fail (validation_error "state" "has expired") else ret tt.

(** The form of the code exchange. *)
Definition exchange_form (client_id code redirect_uri scope : string) (client_secret : option string)
    : list (string * string) :=
  [("client_id", client_id); ("grant_type", "authorization_code"); ("code", code);
   ("redirect_uri", redirect_uri); ("scope", scope)]
  ++ match client_secret with Some s => [("client_secret", s)] | None => [] end.

(** [peer] answers the one request of the exchange. *)
Definition exchange_authorization_code (peer : Request -> Result string Response)
    (token_url client_id : string) (client_secret : option string) (code redirect_uri scope : string)
    : Handler MicrosoftTokenResponse :=
  match client_error 15 with
  | Some error => fail (validation_error "oauth" error)
  | None =>
      match peer (http_post token_url
                    (FormBody (exchange_form client_id code redirect_uri scope client_secret))) with
      | inl error => fail (validation_error "oauth" error)
      | inr response =>
          if negb (is_success response) then
            fail (validation_error "oauth" (concat_str ["Microsoft token endpoint returned ";
                    rs_status_text response; ": "; rs_text response]))
          else
            match from_str (rs_text response) with
            | inl error => fail (validation_error "oauth"
                             (concat_str ["Microsoft token response was not valid JSON: "; error]))
            | inr token_response =>
                match token_error (mt_error token_response) (mt_error_description token_response) with
                | Some (error, description) =>
                    fail (validation_error "oauth"
                      (concat_str ["Microsoft token endpoint returned "; error; ": "; description]))
                | None => ret token_response
                end
            end
      end
  end.

(** The entries of a finished connection. *)
Definition connected_config (l : list (string * value)) (access_token refresh_token expires_at now : string)
    (t : MicrosoftTokenResponse) : list (string * value) :=
  remove_key "oauth_last_error" (remove_key "oauth_redirect_uri"
    (remove_key "oauth_state_expires_at" (remove_key "oauth_state"
      (insert_text "scope" (trimmed_non_empty (mt_scope t))
        (insert_text "token_type" (trimmed_non_empty (mt_token_type t))
          (insert_key "oauth_connected_at" (Str now)
            (insert_key "token_refreshed_at" (Str now)
              (insert_key "access_token_expires_at" (Str expires_at)
                (insert_key "refresh_token" (Str refresh_token)
                  (insert_key "access_token" (Str access_token) l)))))))))).

Definition apply_token_response (config : value) (t : MicrosoftTokenResponse) : Handler value :=
  access_token <- ok_or (validation_error "oauth" "token response did not include access_token")
                    (trimmed_non_empty (mt_access_token t)) ;;
  refresh_token <- ok_or (validation_error "oauth"
      "token response did not include refresh_token; confirm offline_access was consented")
                     (trimmed_non_empty (mt_refresh_token t)) ;;
  let expires_in := Z.max 60 (default 3600 (mt_expires_in t)) in
  now <- utc_now ;;
  duration <- or_panic (duration_seconds expires_in) ;;
  expires <- or_panic (datetime_add now duration) ;;
  entries <- ok_or (validation_error "config" "must be a JSON object") (as_object config) ;;
  ret (Object (connected_config entries access_token refresh_token (format_oauth_datetime expires)
                 (format_oauth_datetime now) t)).

Definition finish_microsoft_oauth (uuids : nat) (peer : Request -> Result string Response)
    (auth : AuthenticatedUser) (request : MicrosoftOAuthCallbackRequest)
    : Handler MicrosoftOAuthCallbackResponse :=
  require_admin auth ;;;
  request <- validate_request request ;;
  match token_error (cq_error request) (cq_error_description request) with
  | Some (error, description) =>
      fail (validation_error "oauth" (concat_str ["Microsoft OAuth returned "; error; ": "; description]))
  | None =>
      code <- ok_or (validation_error "code" "is required") (trimmed_non_empty (cq_code request)) ;;
      state <- decode_oauth_state (cq_state request) ;;
      source <- validate_source (os_source state) ;;
      query (ConnectorRepository.find_by_source source) ;;;
      config <- query (ConnectorConfigRepository.find_by_source source) ;;
      config_value <- decrypt_config_json uuids (Config.config config) ;;
      validate_pending_oauth_state config_value (cq_state request) (cq_redirect_uri request) ;;;
      client_id <- ok_or (validation_error "config" "must set client_id before OAuth callback")
                     (config_field config_value ["client_id"; "application_id"; "app_id"]) ;;
      let client_secret := config_field config_value ["client_secret"] in
      scope <- requested_scope config_value ;;
      let token_url := microsoft_token_url config_value in
      require_http_url "token_url" token_url ;;;
      token_response <- exchange_authorization_code peer token_url client_id client_secret code
                          (cq_redirect_uri request) scope ;;
      config_value <- apply_token_response config_value token_response ;;
      encrypted_config <- encrypt_connector_config_json uuids config_value ;;
      config <- query (ConnectorConfigRepository.update_config source encrypted_config) ;;
      record_audit_log auth "oauth_connect" "connector" source (JObj [("provider", JStr "microsoft")]) ;;;
      ret (mkMicrosoftOAuthCallbackResponse source (config_response config))
  end.
End OAuth.
