(* ===== verification/OAuthSafety.v ===== *)
(** Properties of the OAuth connection of [MicrosoftOAuth.v], and that no operation
    of the portal stores a secret text unencrypted. *)
From S2P Require Import Prelude Logic Text Models Schema Api Validation Access Accounts AuditLogs.
From S2P Require Import Runs Records Connections Runtime Config Values Secrets SecretsSafety ConnectorRoutes ConnectorRouteSafety.
From S2P Require Import CatalogSafety AdapterValues Http MonitoringAdapter ErpAdapter AzureDevOps GraphAdapter GraphSafety Dispatch AdapterSafety MicrosoftOAuth.

Open Scope Z_scope.
Open Scope portal_scope.

(** ** Keys survive encryption *)

Lemma lookup_key_none k l : lookup_key k l = None <-> k ∉ map fst l.
Proof.
  induction l as [|[k' v] l IH]; simpl; [set_solver|]. rewrite elem_of_cons.
  destruct (str_eqb_spec k' k) as [->|Hk]; [|rewrite IH; naive_solver]. split; [done|]. naive_solver.
Qed.

Lemma walk_keys leaf l n w n' :
  walk leaf (Object l) n = (inr w, n') -> exists l', w = Object l' /\ map fst l' = map fst l.
Proof.
  rewrite walk_object. intros H. apply rnd_bind_inv in H as (l' & n1 & H & [= <- _]). exists l'. split; [done|].
  revert n l' n1 H. induction l as [|[k x] l IH]; intros n l' n1 H; [by injection H as <- _|].
  apply rnd_bind_inv in H as (y & n2 & _ & H). apply rnd_bind_inv in H as (l'' & n3 & Er & [= <- _]).
  simpl. f_equal. by eapply IH.
Qed.

(** A walked object lacks the keys the object lacks. *)
Lemma walk_absent leaf v n w n' k :
  is_object v = true -> walk leaf v n = (inr w, n') -> get v k = None -> get w k = None.
Proof.
  destruct v as [| | | | |l]; try done. intros _ H. apply walk_keys in H as (l' & -> & Hl).
  cbn [get]. rewrite !lookup_key_none. by rewrite Hl.
Qed.

(** ** Queries that returned *)

Section Returned.
Context {D R : Type} {T : Table D R}.

Lemma exec_ok {A} (s : Stmt D A) c a c' :
  exec s c = (Ok a, c') ->
  (exists n n', s (sql_now c) n (db c) = (n', inr (a, db c'))) /\ clock c' = clock c /\ ticks c' = ticks c.
Proof.
  unfold exec. destruct (hd None (faults c)); [done|]. destruct (aborted c); [done|].
  destruct (s _ _ _) as [n [k|[b d]]] eqn:E; [done|]. intros [= <- <-]. simpl.
  split; [by exists (next_serial c), n|done].
Qed.

Lemma first_select_ok (P : R -> bool) c r c' :
  first_row (exec (sql_select P)) c = (Ok r, c') ->
  head (List.filter P (rows (db c))) = Some r /\ db c' = db c /\ clock c' = clock c /\ ticks c' = ticks c.
Proof.
  unfold first_row. intros H. apply bind_ok in H as (l & c1 & H1 & H).
  apply exec_ok in H1 as ((n & n' & H1) & Hc & Ht). injection H1 as _ <- Hd.
  destruct (List.filter P (rows (db c))) as [|x l]; [done|]. injection H as <- <-. done.
Qed.

Lemma first_update_ok (P : R -> bool) f c r c' :
  first_row (exec (sql_update P f)) c = (Ok r, c') ->
  exists now, List.filter P (rows (db c)) <> [] /\
    db c' = set_rows (map (fun x => if P x then f now x else x) (rows (db c))) (db c).
Proof.
  unfold first_row. intros H. apply bind_ok in H as (l & c1 & H1 & H).
  apply exec_ok in H1 as ((n & n' & H1) & _). apply sql_update_inv in H1 as (Hl & H1 & _).
  exists (sql_now c). destruct l; [done|]. injection H as _ <-. split; [|done].
  by destruct (List.filter P (rows (db c))).
Qed.
End Returned.

Lemma query_ok {A} (m : Query A) c a c' : query m c = (Ok a, c') -> m c = (Ok a, c').
Proof. apply map_err_ok. Qed.

Lemma config_result_ok {A} (r : Result string A) c a c' :
  config_result r c = (Ok a, c') -> r = inr a /\ c' = c.
Proof. destruct r; by intros [= <- <-]. Qed.

Section Once.
Context {SJ : SerdeJson} {AG : Aes256Gcm} {B64 : Base64} {US : UuidSource} {SV : SerdeValue} {CT : ChronoText}
        {RQ : Reqwest} {DT : Deserialize MicrosoftTokenResponse} {SC : StateCodec} {UB : UrlSafeBase64} (env : Environ).

(** [reads_config uuids d source v]: the first configuration of [source] decrypts
    to [v]. *)
Definition reads_config (uuids : nat) (d : Db) (source : string) (v : value) : Prop :=
  exists k text, head (List.filter (ConnectorConfigRepository.from_source source) (connector_configs d)) = Some k /\
    fst (decrypt_connector_config env (Config.config k) uuids) = inr text /\ value_from_str text = inr v.

Lemma decrypt_config_ok uuids text c v c' :
  decrypt_config_json env uuids text c = (Ok v, c') ->
  c' = c /\ exists plain, fst (decrypt_connector_config env text uuids) = inr plain /\ value_from_str plain = inr v.
Proof.
  unfold decrypt_config_json. intros H. apply bind_ok in H as (plain & c1 & H1 & H).
  apply config_result_ok in H1 as [H1 ->]. apply config_result_ok in H as [H ->]. eauto.
Qed.

Lemma encrypt_config_ok uuids v c text c' :
  encrypt_connector_config_json env uuids v c = (Ok text, c') ->
  c' = c /\ exists plain, value_to_string v = inr plain /\ fst (encrypt_connector_config env plain uuids) = inr text.
Proof.
  unfold encrypt_connector_config_json. intros H. apply bind_ok in H as (plain & c1 & H1 & H).
  apply config_result_ok in H1 as [H1 ->]. apply config_result_ok in H as [H ->]. eauto.
Qed.

(** What a pending connection must show. *)
Definition pending (v : value) (request : MicrosoftOAuthCallbackRequest) (now : Z) : Prop :=
  config_field v ["oauth_state"] = Some (cq_state request) /\
  config_field v ["oauth_redirect_uri"] = Some (cq_redirect_uri request) /\
  exists expires, (config_field v ["oauth_state_expires_at"] ≫= rfc3339_instant) = Some expires /\ now < expires.

Lemma pending_ok v request c u c' :
  validate_pending_oauth_state v (cq_state request) (cq_redirect_uri request) c = (Ok u, c') ->
  pending v request (clock c + hd 0 (ticks c)) /\ db c' = db c.
Proof.
  unfold validate_pending_oauth_state. intros H. step_ok H stored Hs.
  destruct (str_eqb_spec stored (cq_state request)) as [->|]; [|done]. cbn [negb] in H.
  step_ok H uri Hu. destruct (str_eqb_spec uri (cq_redirect_uri request)) as [->|]; [|done]. cbn [negb] in H.
  step_ok H expires He. step_ok H now Hn. injection Hn as Hn Hc. destruct (expires <=? now) eqn:E; [done|].
  injection H as _ <-. apply Z.leb_gt in E. subst now. split; [|by rewrite <- Hc].
  split; [done|]. split; [done|]. by exists expires.
Qed.

Lemma require_admin_ok auth (c : Conn Db) u c' : require_admin auth c = (Ok u, c') -> c' = c.
Proof. unfold require_admin. destruct (auth_is_admin auth); by intros [= <-]. Qed.

Lemma validate_request_ok {A} {V : Validate A} (r : A) (c : Conn Db) r' c' :
  validate_request r c = (Ok r', c') -> r' = r /\ c' = c.
Proof. unfold validate_request. cbv zeta. destruct (validate r); by intros [= <- <-]. Qed.

Lemma validate_source_ok s (c : Conn Db) r' c' : validate_source s c = (Ok r', c') -> r' = s /\ c' = c.
Proof. unfold validate_source. destruct (run_checks _); by intros [= <- <-]. Qed.

(** *** The connected configuration *)

Hypothesis printed_value : forall v text, value_to_string v = inr text -> value_from_str text = inr v.

Lemma with_prefix_ok {A} prefix (r : string + A) n a n' :
  rnd_lift (with_prefix prefix r) n = (inr a, n') -> r = inr a.
Proof. destruct r; [done|]. by intros [= ->]. Qed.

(** Rewriting the text of an object with [walk] keeps a key absent. *)
Lemma walked_text_absent leaf v k plain n w n' :
  is_object v = true -> get v k = None -> value_to_string v = inr plain ->
  rnd_bind (rnd_lift (parse_config plain)) (fun v =>
    rnd_bind (walk leaf v) (fun v => rnd_lift (print_config v))) n = (inr w, n') ->
  exists v', value_to_string v' = inr w /\ is_object v' = true /\ get v' k = None.
Proof.
  intros Ho Hk Hv H. apply rnd_bind_inv in H as (v0 & n1 & H1 & H). apply with_prefix_ok in H1.
  rewrite (printed_value _ _ Hv) in H1. injection H1 as <-.
  apply rnd_bind_inv in H as (v' & n2 & H2 & H). apply with_prefix_ok in H. exists v'. split; [done|].
  split; [|by eapply walk_absent].
  destruct v as [| | | | |l]; try done. by apply walk_keys in H2 as (l' & -> & _).
Qed.

Lemma sealed_absent v k plain uuids text uuids' shown v' :
  is_object v = true -> get v k = None -> value_to_string v = inr plain ->
  fst (encrypt_connector_config env plain uuids) = inr text ->
  fst (decrypt_connector_config env text uuids') = inr shown -> value_from_str shown = inr v' ->
  get v' k = None.
Proof.
  intros Ho Hk Hv He Hd Hs.
  destruct (encrypt_connector_config env plain uuids) as [a n1] eqn:E1. simpl in He. subst a.
  destruct (walked_text_absent _ _ _ _ _ _ _ Ho Hk Hv E1) as (v1 & Hv1 & Ho1 & Hk1).
  destruct (decrypt_connector_config env text uuids') as [b n2] eqn:E2. simpl in Hd. subst b.
  destruct (walked_text_absent _ _ _ _ _ _ _ Ho1 Hk1 Hv1 E2) as (v2 & Hv2 & _ & Hk2).
  apply printed_value in Hv2. rewrite Hv2 in Hs. by injection Hs as <-.
Qed.

Lemma connected_state l a r e n t : lookup_key "oauth_state" (connected_config l a r e n t) = None.
Proof. unfold connected_config. by rewrite !lookup_remove_key. Qed.

Lemma apply_token_ok v t c w c' :
  apply_token_response v t c = (Ok w, c') ->
  db c' = db c /\ is_object w = true /\ get w "oauth_state" = None.
Proof.
  unfold apply_token_response. intros H. step_ok H a Ha. step_ok H r Hr. step_ok H now Hn.
  injection Hn as _ <-. step_ok H d Hd. step_ok H e He. step_ok H l Hl. injection H as <- <-.
  split; [done|]. split; [done|]. apply connected_state.
Qed.

Lemma exchange_ok peer url id secret code uri scope c t c' :
  exchange_authorization_code peer url id secret code uri scope c = (Ok t, c') -> c' = c.
Proof. unfold exchange_authorization_code. repeat (case_match; try done). by intros [= _ <-]. Qed.

Lemma requested_scope_ok v c s c' : requested_scope v c = (Ok s, c') -> c' = c.
Proof. unfold requested_scope. intros H. step_ok H a Ha. step_ok H d Hd. by injection H as _ <-. Qed.

Lemma require_http_url_ok f v c u c' : require_http_url f v c = (Ok u, c') -> c' = c.
Proof. unfold require_http_url. destruct (is_http_url v); by intros [= _ <-]. Qed.

Lemma decode_state_ok s c st c' :
  decode_oauth_state s c = (Ok st, c') -> c' = c /\ (url_safe_decode s ≫= state_from_slice) = Some st.
Proof.
  unfold decode_oauth_state. intros H. step_ok H d Hd. apply ok_or_ok in H as [H ->]. by rewrite Hd.
Qed.

Lemma audit_keeps_configs auth a t i m c u c' :
  record_audit_log auth a t i m c = (Ok u, c') -> connector_configs (db c') = connector_configs (db c).
Proof.
  apply preserves_same. unfold record_audit_log, AuditLogRepository.create. preserve_writes.
Qed.

(** ** The two halves of the callback *)

(** Up to the encryption of the new configuration the handler only reads the database. *)
Definition prepare_connection (uuids : nat) (peer : Request -> Result string Response) (auth : AuthenticatedUser)
    (request : MicrosoftOAuthCallbackRequest) : Handler (string * string) :=
  require_admin auth ;;;
  request <- validate_request request ;;
  match token_error (cq_error request) (cq_error_description request) with
  | Some (error, description) =>
      fail (validation_error "oauth" (concat_str ["Microsoft OAuth returned "; error; ": "; description]))
  | None =>
      code <- ok_or (validation_error "code" "is required") (trimmed_non_empty (cq_code request)) ;;
      state <- decode_oauth_state (cq_state request) ;;
      source <- validate_source (os_source state) ;;
      query (ConnectorRepository.find_by_source source) ;;;
      config <- query (ConnectorConfigRepository.find_by_source source) ;;
      config_value <- decrypt_config_json env uuids (Config.config config) ;;
      validate_pending_oauth_state config_value (cq_state request) (cq_redirect_uri request) ;;;
      client_id <- ok_or (validation_error "config" "must set client_id before OAuth callback")
                     (config_field config_value ["client_id"; "application_id"; "app_id"]) ;;
      let client_secret := config_field config_value ["client_secret"] in
      scope <- requested_scope config_value ;;
      let token_url := microsoft_token_url config_value in
      require_http_url "token_url" token_url ;;;
      token_response <- exchange_authorization_code peer token_url client_id client_secret code
                          (cq_redirect_uri request) scope ;;
      config_value <- apply_token_response config_value token_response ;;
      encrypted_config <- encrypt_connector_config_json env uuids config_value ;;
      ret (source, encrypted_config)
  end.

(** Then it overwrites the configuration of the source. *)
Definition store_connection (auth : AuthenticatedUser) (prepared : string * string)
    : Handler MicrosoftOAuthCallbackResponse :=
  config <- query (ConnectorConfigRepository.update_config (fst prepared) (snd prepared)) ;;
  record_audit_log auth "oauth_connect" "connector" (fst prepared) (JObj [("provider", JStr "microsoft")]) ;;;
  ret (mkMicrosoftOAuthCallbackResponse (fst prepared) (config_response config)).

Lemma finish_in_halves uuids peer auth request c :
  finish_microsoft_oauth env uuids peer auth request c =
  bind (prepare_connection uuids peer auth request) (store_connection auth) c.
Proof.
  unfold finish_microsoft_oauth, prepare_connection, store_connection.
  unfold bind. repeat match goal with
    | |- (let (_, _) := ?x in _) = _ => destruct x as [[?|?|] ?]; try reflexivity
    | |- match ?x with _ => _ end _ = _ => destruct x as [[? ?]|]; try reflexivity
    end.
Qed.

(** The configuration text that a reader of [source] finds. *)
Definition stored_text (d : Db) (source : string) : option string :=
  Config.config <$> head (List.filter (ConnectorConfigRepository.from_source source) (connector_configs d)).

(** What the first half found, and that what it prepared is no longer pending. *)
Lemma prepare_ok uuids peer auth request c source text c' :
  prepare_connection uuids peer auth request c = (Ok (source, text), c') ->
  db c' = db c /\
  (exists v, reads_config uuids (db c) source v /\ pending v request (clock c + hd 0 (ticks c))) /\
  os_source <$> (url_safe_decode (cq_state request) ≫= state_from_slice) = Some source /\
  forall uuids' shown v', fst (decrypt_connector_config env text uuids') = inr shown -> value_from_str shown = inr v' ->
    get v' "oauth_state" = None.
Proof.
  unfold prepare_connection. intros H.
  step_ok H u Hu. apply require_admin_ok in Hu as ->.
  step_ok H q Hq. apply validate_request_ok in Hq as [-> ->].
  destruct (token_error _ _) as [[? ?]|]; [done|].
  step_ok H code Hc. step_ok H st Hst. apply decode_state_ok in Hst as [-> Hst].
  step_ok H source' Hs. apply validate_source_ok in Hs as [-> ->].
  step_ok H k0 Hk0. apply first_select_ok in Hk0 as (_ & Hd0 & Hcl0 & Ht0).
  step_ok H k Hk. apply first_select_ok in Hk as (Hk & Hd1 & Hcl1 & Ht1).
  step_ok H v Hv. apply decrypt_config_ok in Hv as (-> & plain & Hp & Hv).
  step_ok H u2 Hpend. apply pending_ok in Hpend as [Hpend Hd2].
  step_ok H client Hid. cbv zeta in H. step_ok H scope Hscope. apply requested_scope_ok in Hscope as ->.
  step_ok H u3 Hurl. apply require_http_url_ok in Hurl as ->.
  step_ok H t Ht. apply exchange_ok in Ht as ->.
  step_ok H w Hw. apply apply_token_ok in Hw as (Hd3 & Hobj & Hnone).
  step_ok H text' Htext. apply encrypt_config_ok in Htext as (-> & shown & Hshown & Htext).
  injection H as <- <- <-. split_and!.
  - by rewrite Hd3, Hd2, Hd1.
  - exists v. split; [|by rewrite <- Hcl0, <- Hcl1, <- Ht0, <- Ht1]. exists k, plain. by rewrite <- Hd0.
  - by rewrite Hst.
  - intros uuids' shown' v'. by eapply sealed_absent.
Qed.

(** Rewriting the text of the rows of one source. *)
Definition rewritten (source text : string) (now : Z) (k : Config.ConnectorConfig) : Config.ConnectorConfig :=
  if ConnectorConfigRepository.from_source source k
  then k <| Config.config := text |> <| Config.updated_at := now |> else k.

Lemma rewritten_key source text now other k :
  ConnectorConfigRepository.from_source other (rewritten source text now k) =
  ConnectorConfigRepository.from_source other k.
Proof. unfold rewritten. by case_match. Qed.

Lemma rewritten_text source text now l :
  List.filter (ConnectorConfigRepository.from_source source) l <> [] ->
  Config.config <$> head (List.filter (ConnectorConfigRepository.from_source source)
                            (map (rewritten source text now) l)) = Some text.
Proof.
  induction l as [|k l IH]; [done|]. cbn [map List.filter]. rewrite rewritten_key. case_match eqn:E; [|done].
  intros _. unfold rewritten. simpl. by rewrite E.
Qed.

Lemma other_source_text source text now other l :
  other <> source ->
  List.filter (ConnectorConfigRepository.from_source other) (map (rewritten source text now) l) =
  List.filter (ConnectorConfigRepository.from_source other) l.
Proof.
  intros Hne. induction l as [|k l IH]; [done|]. cbn [map List.filter]. rewrite rewritten_key, IH.
  case_match eqn:E; [|done]. unfold rewritten, ConnectorConfigRepository.from_source in *.
  apply str_eqb_eq in E. by destruct (str_eqb_spec (Config.source k) source); [congruence|].
Qed.

Lemma store_ok auth source text c r c' :
  store_connection auth (source, text) c = (Ok r, c') ->
  stored_text (db c') source = Some text /\ cp_source r = source /\
  forall other, other <> source -> stored_text (db c') other = stored_text (db c) other.
Proof.
  unfold store_connection, stored_text. intros H.
  step_ok H k Hk. apply first_update_ok in Hk as (now & Hsome & Hd). step_ok H u Haudit. apply audit_keeps_configs in Haudit.
  injection H as <- <-. rewrite Haudit, Hd. cbn in Hsome |- *.
  split_and!; [exact (rewritten_text source text now _ Hsome)|done|].
  intros other Hne. do 2 f_equal. exact (other_source_text source text now other _ Hne).
Qed.

(** C10: An OAuth connection is finished for a pending request only, and the state is used up.
    The callback reads the database up to the point where it stores the configuration it
    prepared, and other requests may come in between. Whoever gets that far presented the state
    and the redirect URI that were stored for the source when it read them, before they expired.
    Storing replaces the configuration of that source and no other; and for as long as that
    source still has the stored text, however everything else has changed, a callback with the
    same state fails, whoever sends it and whatever the token endpoint answers. *)
Theorem oauth_state_is_used_up uuids peer auth request c source text c1 :
  (forall c, finish_microsoft_oauth env uuids peer auth request c =
     bind (prepare_connection uuids peer auth request) (store_connection auth) c) /\
  (prepare_connection uuids peer auth request c = (Ok (source, text), c1) ->
   db c1 = db c /\
   (exists v, reads_config uuids (db c) source v /\ pending v request (clock c + hd 0 (ticks c))) /\
   (forall c2 r c3, store_connection auth (source, text) c2 = (Ok r, c3) ->
      stored_text (db c3) source = Some text /\
      forall other, other <> source -> stored_text (db c3) other = stored_text (db c2) other) /\
   (forall uuids' peer' auth' request' c2 r c3,
      cq_state request' = cq_state request -> stored_text (db c2) source = Some text ->
      finish_microsoft_oauth env uuids' peer' auth' request' c2 <> (Ok r, c3))).
Proof.
  split; [intros; apply finish_in_halves|]. intros H. apply prepare_ok in H as (Hd & Hpend & Hsrc & Hgone).
  split_and!; [done|done|by intros c2 r c3 (? & _ & ?)%store_ok|].
  intros uuids' peer' auth' request' c2 r c3 Hstate Htext H2. rewrite finish_in_halves in H2.
  apply bind_ok in H2 as ([source2 text2] & c4 & H2 & _).
  apply prepare_ok in H2 as (_ & (v & (k & shown & Hk & Hdec & Hfrom) & Hst & _) & Hsrc2 & _).
  rewrite Hstate, Hsrc in Hsrc2. injection Hsrc2 as <-. unfold stored_text in Htext. rewrite Hk in Htext.
  injection Htext as Htext. rewrite Htext in Hdec. unfold config_field in Hst. cbn [first_field] in Hst.
  by rewrite (Hgone _ _ _ Hdec Hfrom) in Hst.
Qed.
End Once.

(** ** Endless tokens *)

(** The lifetime of a granted token is used as the endpoint states it: beyond the range
    of chrono durations the callback panics. *)
Lemma endless_grant_panics {CT : ChronoText} v c :
  fst (apply_token_response v
         (mkMicrosoftTokenResponse (Some "at") None (Some i64_max) (Some "rt") None None None) c) = Panic.
Proof. reflexivity. Qed.

(** ** A connection that succeeds *)

(** A printer and parser of the listed texts. *)
Definition table_printer (table : list (string * value)) : SerdeValue := {|
  value_from_str := fun s => match lookup_key s table with Some v => inr v | None => inl "unknown" end;
  value_to_string := fun v => match List.find (fun e => bool_decide (snd e = v)) table with
                              | Some e => inr (fst e)
                              | None => inl "unknown"
                              end
|}.

Lemma table_printer_law table : NoDup (map fst table) -> forall v text,
  value_to_string (SerdeValue:=table_printer table) v = inr text ->
  value_from_str (SerdeValue:=table_printer table) text = inr v.
Proof.
  intros Hn v text. simpl. destruct (List.find _ table) as [[k w]|] eqn:E; [|done]. intros [= <-].
  apply find_some in E as [Hin Hw]. apply bool_decide_eq_true in Hw. simpl in Hw. subst w. simpl.
  by rewrite (lookup_key_here k v table Hn) by (by apply list_elem_of_In).
Qed.

Definition plain_state : StateCodec := {|
  uuid_text := fun _ => "nonce";
  state_to_vec := fun s => inr (os_source s);
  state_from_slice := fun s => Some (mkMicrosoftOAuthState s "nonce" "")
|}.

Definition plain_encoding : UrlSafeBase64 := {| url_safe_encode := id; url_safe_decode := Some |}.

Definition granting_code : Deserialize MicrosoftTokenResponse := {|
  from_str := fun _ => inr (mkMicrosoftTokenResponse (Some "at") None None (Some "rt") None None None)
|}.

Definition pending_entries : list (string * value) :=
  [("adapter", Str "graph_mail"); ("client_id", Str "portal"); ("oauth_redirect_uri", Str "https://portal/cb");
   ("oauth_state", Str "mail"); ("oauth_state_expires_at", Str (seconds_text (600 * second)))].

Definition connected_entries (access_token refresh_token : string) : list (string * value) :=
  [("access_token", Str access_token); ("access_token_expires_at", Str (seconds_text (3600 * second)));
   ("adapter", Str "graph_mail"); ("client_id", Str "portal"); ("oauth_connected_at", Str (seconds_text 0));
   ("refresh_token", Str refresh_token); ("token_refreshed_at", Str (seconds_text 0))].

Definition sealed_token (token : string) : string :=
  concat_str [ENCRYPTED_PREFIX; to_nibbles "0123456789ab"; ":"; to_nibbles token].

Definition connection_texts : list (string * value) :=
  [("pending", Object pending_entries); ("plain", Object (connected_entries "at" "rt"));
   ("sealed", Object (connected_entries (sealed_token "at") (sealed_token "rt")))].

Definition connecting_db : Db :=
  empty_db <| users := [Users.mkUser 1 "root" "" 0] |>
           <| connectors := [RunSafety.sample_connector "mail"] |>
           <| connector_configs := [Config.mkConnectorConfig 1 "mail" "notifications" true None "pending" "[]"
                                      0 0 None None None] |>.

Definition mail_callback : MicrosoftOAuthCallbackRequest :=
  mkMicrosoftOAuthCallbackRequest (Some "code") "mail" "https://portal/cb" None None.

Definition finish_mail (c : Conn Db) : outcome ApiError MicrosoftOAuthCallbackResponse * Conn Db :=
  @finish_microsoft_oauth no_json plain_cipher nibble_encoding constant_uuids
    (table_printer connection_texts) seconds_chrono {| client_error := fun _ => None |} granting_code plain_state
    plain_encoding (fun _ => NotPresent) 0 (token_server []) admin_user mail_callback c.

Definition prepare_mail (c : Conn Db) : outcome ApiError (string * string) * Conn Db :=
  @prepare_connection plain_cipher nibble_encoding constant_uuids
    (table_printer connection_texts) seconds_chrono {| client_error := fun _ => None |} granting_code plain_state
    plain_encoding (fun _ => NotPresent) 0 (token_server []) admin_user mail_callback c.

Lemma prepare_mail_sealed :
  fst (prepare_mail (calm connecting_db 0 [] 10)) = Ok ("mail", "sealed").
Proof. vm_compute. reflexivity. Qed.

Lemma connection_texts_distinct : NoDup (map fst connection_texts).
Proof. repeat constructor; set_solver. Qed.

(** The callback is prepared on the pending configuration; once its text is stored, the same
    callback fails. *)
Lemma oauth_state_is_used_up_witness :
  exists v, @reads_config plain_cipher nibble_encoding (table_printer connection_texts)
      (fun _ => NotPresent) 0 connecting_db "mail" v /\
    forall c2 r2 c3, stored_text (db c2) "mail" = Some "sealed" -> finish_mail c2 <> (Ok r2, c3).
Proof.
  generalize prepare_mail_sealed. destruct (prepare_mail (calm connecting_db 0 [] 10)) as [o c1] eqn:E.
  cbn [fst]. intros ->.
  destruct (proj2 (oauth_state_is_used_up (SJ:=no_json) _ (table_printer_law _ connection_texts_distinct) _ _ _ _ _ _ _ _) E)
    as (_ & (v & Hv & _) & _ & Hused).
  exists v. split; [exact Hv|]. intros c2 r2 c3 Hc2. exact (Hused _ _ _ _ _ _ _ eq_refl Hc2).
Defined.

(** The check and the write are separate statements: two callbacks with the same state that
    both checked before either stored both connect. *)
Theorem concurrent_callbacks_both_connect :
  match prepare_mail (calm connecting_db 0 [] 10) with
  | (Ok p1, c1) =>
      match prepare_mail (calm (db c1) 0 [] 10) with
      | (Ok p2, c2) =>
          match @store_connection no_json (table_printer connection_texts) admin_user p1 (calm (db c2) 0 [] 10) with
          | (Ok r1, c3) =>
              match @store_connection no_json (table_printer connection_texts) admin_user p2 (calm (db c3) 0 [] 20) with
              | (Ok r2, _) => (cp_source r1, cp_source r2) = ("mail", "mail")
              | _ => False
              end
          | _ => False
          end
      | _ => False
      end
  | _ => False
  end.
Proof. vm_compute. reflexivity. Qed.

(** ** Secret texts are stored encrypted *)

(** The requests and the step of a run that store a configuration. *)
Inductive ConfigWrite :=
  | SubmitConfig (uuids : nat) (auth : AuthenticatedUser) (source : string)
      (config : ConfigUpdate.ConnectorConfigUpdate)
  | StartConnection (uuids : nat) (auth : AuthenticatedUser) (source : string)
      (request : MicrosoftOAuthAuthorizeRequest)
  | FinishConnection (uuids : nat) (peer : Request -> Result string Response) (auth : AuthenticatedUser)
      (request : MicrosoftOAuthCallbackRequest)
  | LoadPayload (uuids : nat) (net : Conn Net) (run : Run.ConnectorRun).

Section Sealed.
Context {SJ : SerdeJson} {AG : Aes256Gcm} {B64 : Base64} {US : UuidSource}.
Context {CT : ChronoText} {CL : CharLower} {RQ : Reqwest} {UR : Urls} {HN : HeaderNames} {SV : SerdeValue}
  {DA : Deserialize AdapterConfig} {DZ : Deserialize AzureDevOpsConfig} {DM : Deserialize MonitoringConfig}
  {DE : Deserialize ErpPrivateMessagesConfig} {DT : Deserialize GraphTokenResponse}
  {DG : Deserialize MicrosoftGraphMailConfig} {DC : Deserialize MicrosoftGraphCalendarConfig}
  {VE : DeserializeValue CalendarEventImport.CalendarEventImportRequest}
  {VC : DeserializeValue WorkCardImport.WorkCardImportRequest}
  {VN : DeserializeValue NotificationImport.NotificationImportRequest}
  {VS : DeserializeValue ServiceHealthImport.ServiceHealthImportRequest}
  {DO : Deserialize MicrosoftTokenResponse} {SC : StateCodec} {UB : UrlSafeBase64} (env : Environ).

Definition write_config (w : ConfigWrite) : Handler unit :=
  match w with
  | SubmitConfig uuids auth source config => discard (upsert_connector_config env uuids auth source config)
  | StartConnection uuids auth source request => discard (start_microsoft_oauth env uuids auth source request)
  | FinishConnection uuids peer auth request => discard (finish_microsoft_oauth env uuids peer auth request)
  | LoadPayload uuids net run =>
      discard (load_payload_for_claimed_run (PL:=portal_payloads) (AD:=portal_adapters env uuids net) run)
  end.

Lemma encrypt_json_conn uuids v c : snd (encrypt_connector_config_json env uuids v c) = c.
Proof.
  unfold encrypt_connector_config_json, bind, config_result. destruct (value_to_string v); [done|].
  simpl. by destruct (fst _).
Qed.

Lemma encrypt_then_update {B} uuids v source (k : Config.ConnectorConfig -> Handler B) :
  (forall config, preserves configs_sealed (k config)) ->
  preserves configs_sealed (
    encrypted_config <- encrypt_connector_config_json env uuids v ;;
    config <- query (ConnectorConfigRepository.update_config source encrypted_config) ;;
    k config).
Proof.
  intros Hk c Hc. unfold bind at 1.
  destruct (encrypt_connector_config_json env uuids v c) as [[text|e|] c'] eqn:E.
  2-3: pose proof (encrypt_json_conn uuids v c) as Hs; rewrite E in Hs; by simpl in Hs; subst c'.
  apply encrypt_config_ok in E as (-> & plain & _ & E). revert c Hc. apply preserves_bind; [|apply Hk].
  apply preserves_map_err, update_keeps_sealed. by eapply encrypted_config_sealed.
Qed.

Lemma audit_keeps_sealed auth a t i m : preserves configs_sealed (record_audit_log auth a t i m).
Proof. unfold record_audit_log, AuditLogRepository.create. preserve_writes. Qed.

Lemma config_result_keeps {A} (I : Db -> Prop) (r : Result string A) : preserves I (config_result r).
Proof. destruct r; [apply preserves_fail|apply preserves_ret]. Qed.

Lemma start_keeps_sealed uuids auth source request :
  preserves configs_sealed (start_microsoft_oauth env uuids auth source request).
Proof.
  unfold start_microsoft_oauth.
  apply preserves_bind; [unfold require_admin; preserve|intros _].
  apply preserves_bind; [unfold validate_source; preserve|intros s].
  apply preserves_bind; [unfold validate_request; preserve|intros q].
  apply preserves_bind; [preserve|intros _]. apply preserves_bind; [preserve|intros config].
  apply preserves_bind; [unfold decrypt_config_json; apply preserves_bind; intros; apply config_result_keeps|intros v].
  apply preserves_bind; [unfold requested_scope; preserve|intros scope].
  apply preserves_bind; [preserve|intros client]. cbv zeta.
  apply preserves_bind; [unfold require_http_url; preserve|intros _].
  apply preserves_bind; [unfold encode_oauth_state; preserve|intros state].
  apply preserves_bind; [preserve|intros now]. apply preserves_bind; [preserve|intros expires].
  apply preserves_bind; [preserve|intros entries]. apply encrypt_then_update. intros k.
  apply preserves_bind; [apply audit_keeps_sealed|preserve].
Qed.

Lemma finish_keeps_sealed uuids peer auth request :
  preserves configs_sealed (finish_microsoft_oauth env uuids peer auth request).
Proof.
  unfold finish_microsoft_oauth.
  apply preserves_bind; [unfold require_admin; preserve|intros _].
  apply preserves_bind; [unfold validate_request; preserve|intros q].
  destruct (token_error _ _) as [[? ?]|]; [apply preserves_fail|].
  apply preserves_bind; [preserve|intros code].
  apply preserves_bind; [unfold decode_oauth_state; preserve|intros st].
  apply preserves_bind; [unfold validate_source; preserve|intros s].
  apply preserves_bind; [preserve|intros _]. apply preserves_bind; [preserve|intros config].
  apply preserves_bind; [unfold decrypt_config_json; apply preserves_bind; intros; apply config_result_keeps|intros v].
  apply preserves_bind; [unfold validate_pending_oauth_state; preserve|intros _].
  apply preserves_bind; [preserve|intros client]. cbv zeta.
  apply preserves_bind; [unfold requested_scope; preserve|intros scope].
  apply preserves_bind; [unfold require_http_url; preserve|intros _].
  apply preserves_bind; [unfold exchange_authorization_code; preserve|intros t].
  apply preserves_bind; [unfold apply_token_response; preserve|intros w].
  apply encrypt_then_update. intros k. apply preserves_bind; [apply audit_keeps_sealed|preserve].
Qed.

(** C9: Text secrets are stored sealed: if in every stored configuration each non-empty text
    under a secret key carries the encryption prefix, this still holds after a submitted
    configuration, after starting and finishing an OAuth connection, and after an adapter that
    refreshed its tokens, whatever they contain, whatever the foreign systems answer and however
    they end. Secrets of other JSON types are not encrypted and not covered. *)
Theorem secret_texts_stay_sealed w : preserves configs_sealed (write_config w).
Proof.
  destruct w; unfold write_config, discard; (apply preserves_bind; [|intros; apply preserves_ret]).
  - apply configurations_stay_sealed.
  - apply start_keeps_sealed.
  - apply finish_keeps_sealed.
  - apply refreshed_tokens_stay_sealed.
Qed.
End Sealed.
