(* ===== verification/EntraLogin.v ===== *)
(** Signing in with Microsoft Entra: [src/src/rocket_routes/entra_auth.rs]. The
    identity provider, the HTTP client, JSON Web Tokens, AES-GCM, SHA-256, argon2,
    base64, the url and uuid crates and the random bytes are parameters. *)
From S2P Require Import Prelude Logic Text Models Schema Api Validation Access Sessions Accounts AuditLogs.
From S2P Require Import SingleSignOn Config Values Secrets AdapterValues Http Authn.
From Stdlib Require Import Ascii.

Open Scope Z_scope.
Open Scope portal_scope.

Definition OIDC_COOKIE_NAME : string := "idp_oidc".
Definition OIDC_PRODUCTION_COOKIE_NAME : string := "__Host-idp_oidc".
Definition MAX_TOKEN_RESPONSE_BYTES : Z := 64 * 1024.
Definition MAX_JWKS_RESPONSE_BYTES : Z := 1024 * 1024.
Definition UNKNOWN_KID_REFRESH_COOLDOWN_SECONDS : Z := 30.
Definition MAX_PENDING_OIDC_TRANSACTIONS : Z := 10000.

Inductive EntraFlowError :=
  | AccessDenied
  | AccountNotAllowed
  | InvalidState
  | ProviderUnavailable
  | Configuration.

(** Computations on the database that fail with such an error. *)
Definition Flow (A : Type) : Type := M Db EntraFlowError A.

(** ** Types *)

Record PublicAuthConfig := mkPublicAuthConfig {
  password_login_enabled : bool;
  entra_login_enabled : bool
}.

Record TokenResponse := mkTokenResponse { id_token : string }.

Record Jwk := mkJwk {
  key_type : string;
  key_use : option string;
  algorithm : option string;
  key_id : string;
  modulus : string;
  exponent : string
}.

Record JwksDocument := mkJwksDocument { keys : list Jwk }.

(** Instants are microseconds of a clock that never goes back. *)
Record JwksCacheState := mkJwksCacheState {
  document : option JwksDocument;
  fetched_at : option Z;
  last_unknown_kid_refresh_at : option Z
}.

#[export] Instance eta_JwksCacheState : Eta JwksCacheState := fun s =>
  mkJwksCacheState (document s) (fetched_at s) (last_unknown_kid_refresh_at s).

Inductive AudienceClaim :=
  | One (value : string)
  | Many (values : list string).

Record EntraIdTokenClaims := mkEntraIdTokenClaims {
  ic_subject : string;
  ic_tenant_id : string;
  ic_object_id : string;
  ic_version : option string;
  ic_nonce : option string;
  ic_audience : AudienceClaim;
  ic_authorized_party : option string;
  ic_issued_at : option Z;
  ic_roles : list string;
  ic_preferred_username : option string;
  ic_display_name : option string;
  ic_email : option string
}.

Record ValidatedEntraClaims := mkValidatedEntraClaims {
  vc_subject : string;
  vc_tenant_id : string;
  vc_object_id : string;
  vc_preferred_username : option string;
  vc_display_name : option string;
  vc_email : option string
}.

Record EntraCallbackQuery := mkEntraCallbackQuery {
  eq_code : option string;
  eq_state : option string;
  eq_error : option string;
  eq_error_description : option string
}.

Definition is_multiple (audience : AudienceClaim) : bool :=
  match audience with
  | One _ => false
  | Many values => (1 <? length values)%nat
  end.

(** ** Return addresses *)

Definition fragment_char (c : string) : bool :=
  alphanumeric_char c || existsb (str_eqb c) ["/"; "?"; "&"; "="; "_"; "%"; "."; "+"; "-"].

Definition normalize_return_to (return_to : option string) : string :=
  let candidate := default "/#dashboard" return_to in
  let fragment := str_strip_prefix "/#" candidate in
  let safe := (byte_len candidate <=? 512)
    && match fragment with Some fragment => negb (is_empty fragment) | None => false end
    && match fragment with
       | Some fragment => negb (contains fragment "\" || contains fragment "#")
       | None => false
       end
    && negb (has_control candidate)
    && forallb fragment_char (chars (default "" fragment)) in
  if safe then candidate else "/#dashboard".

Definition result_marker (result : Result EntraFlowError unit) : string :=
  match result with
  | inr _ => "auth_result=entra"
  | inl AccessDenied => "auth_error=entra_access_denied"
  | inl AccountNotAllowed => "auth_error=entra_account_not_allowed"
  | inl InvalidState => "auth_error=entra_invalid_state"
  | inl ProviderUnavailable => "auth_error=entra_provider_unavailable"
  | inl Configuration => "auth_error=entra_configuration_error"
  end.

Definition callback_target (return_to : string) (result : Result EntraFlowError unit) : string :=
  let fragment := default "dashboard" (str_strip_prefix "/#" (normalize_return_to (Some return_to))) in
  concat_str ["/?"; result_marker result; "#"; fragment].

(** ** Response headers *)

(** [Response::set_header] replaces the header of that name. *)
Definition set_header (name v : string) (headers : list (string * string)) : list (string * string) :=
  List.filter (fun h => negb (eq_ignore_ascii_case (fst h) name)) headers ++ [(name, v)].

(** [NoStoreRedirect] around the headers of the redirect. *)
Definition no_store_redirect (headers : list (string * string)) : list (string * string) :=
  set_header "Referrer-Policy" "no-referrer"
    (set_header "Pragma" "no-cache" (set_header "Cache-Control" "no-store" headers)).

Definition no_store_auth_config (headers : list (string * string)) : list (string * string) :=
  set_header "Pragma" "no-cache" (set_header "Cache-Control" "no-store" headers).

(** The fairing [AuthSecurityHeaders]. *)
Definition on_response (path : string) (headers : list (string * string)) : list (string * string) :=
  let entra_path := starts_with path "/auth/entra/" in
  let connector_oauth_callback :=
    one_of_texts path ["/oauth/microsoft/callback"; "/connectors/oauth/microsoft/callback"] in
  let headers :=
    if (path =s "/auth/config") || entra_path || connector_oauth_callback
    then set_header "Expires" "0"
           (set_header "Pragma" "no-cache" (set_header "Cache-Control" "no-store" headers))
    else headers in
  if entra_path || connector_oauth_callback
  then set_header "Referrer-Policy" "no-referrer" headers else headers.

Definition auth_config (config : AppConfig) : PublicAuthConfig :=
  mkPublicAuthConfig (auth_password_login_enabled config)
    (match entra config with Some _ => true | None => false end).

(** ** The cookie of the browser *)

Definition oidc_cookie_name (config : AppConfig) : string :=
  if environment config =s "production" then OIDC_PRODUCTION_COOKIE_NAME else OIDC_COOKIE_NAME.

Definition oidc_cookie (browser_binding : string) (config : AppConfig) (e : EntraConfig) : Cookie :=
  mkCookie (oidc_cookie_name config) browser_binding "/" true (auth_cookie_secure config) "Lax"
    (Some (transaction_ttl_seconds e)).

(** The removal sets no [HttpOnly]. *)
Definition clear_oidc_cookie (config : AppConfig) : list CookieChange :=
  [RemoveCookie (mkCookie (oidc_cookie_name config) "" "/" false (auth_cookie_secure config) "Lax" None)].

(** ** Bounded answers *)

(** A response whose body arrives in chunks; [None] is an error of the transport. *)
Record StreamedResponse := mkStreamedResponse {
  sr_status : Z;
  sr_content_length : option Z;
  sr_chunks : list (option string)
}.

Definition stream_success (r : StreamedResponse) : bool := (200 <=? sr_status r) && (sr_status r <=? 299).

(** [usize::saturating_add]. *)
Definition usize_saturating_add (a b : Z) : Z := Z.min u64_max (a + b).

Fixpoint read_chunks (max_bytes : Z) (body : string) (chunks : list (option string))
    : Result EntraFlowError string :=
  match chunks with
  | [] => inr body
  | None :: _ => inl ProviderUnavailable
  | Some chunk :: chunks' =>
      if max_bytes <? usize_saturating_add (byte_len body) (byte_len chunk) then inl ProviderUnavailable
      else read_chunks max_bytes (String.append body chunk) chunks'
  end.

Definition read_bounded_json {T} {DT : Deserialize T} (response : StreamedResponse) (max_bytes : Z)
    : Result EntraFlowError T :=
  if match sr_content_length response with Some length => max_bytes <? length | None => false end
  then inl ProviderUnavailable
  else
    let? body := read_chunks max_bytes "" (sr_chunks response) in
    match from_str body with
    | inl _ => inl ProviderUnavailable
    | inr t => inr t
    end.

(** ** Keys *)

(** [JwksDocument::key]: the only key with this id. *)
Definition jwks_key (d : JwksDocument) (kid : string) : Result EntraFlowError Jwk :=
  match List.filter (fun key => key_id key =s kid) (keys d) with
  | [key] => inr key
  | _ => inl AccountNotAllowed
  end.

(** jsonwebtoken: the header of a token, and decoding it with a key and the
    requirements of a [Validation] at a time of the system clock. *)
Inductive Algorithm := RS256 | OtherAlgorithm (name : string).

#[export] Instance Algorithm_eq_dec : EqDecision Algorithm.
Proof. solve_decision. Defined.

Record JwtHeader := mkJwtHeader { jh_alg : Algorithm; jh_kid : option string }.

Record JwtValidation := mkJwtValidation {
  jv_algorithms : list Algorithm;
  jv_required_spec_claims : list string;
  jv_audience : list string;
  jv_issuer : list string;
  jv_leeway : Z;
  jv_validate_nbf : bool
}.

Class JsonWebToken := {
  DecodingKey : Type;
  from_rsa_components : string -> string -> option DecodingKey;
  decode_header : string -> option JwtHeader;
  decode_claims : string -> DecodingKey -> JwtValidation -> Z -> option EntraIdTokenClaims
}.

Section Keys.
Context {JW : JsonWebToken} {DJ : Deserialize JwksDocument}.

Definition decoding_key_from_jwk (jwk : Jwk) : Result EntraFlowError DecodingKey :=
  if negb (key_type jwk =s "RSA")
     || match algorithm jwk with Some algorithm => negb (algorithm =s "RS256") | None => false end
     || match key_use jwk with Some key_use => negb (key_use =s "sig") | None => false end
     || negb ((256 <=? byte_len (modulus jwk)) && (byte_len (modulus jwk) <=? 16 * 1024))
     || is_empty (exponent jwk)
     || (128 <? byte_len (exponent jwk))
  then inl AccountNotAllowed
  else some_or (from_rsa_components (modulus jwk) (exponent jwk)) AccountNotAllowed.

(** [peer] answers the request, [None] when it cannot be sent. *)
Definition fetch_jwks (peer : Http.Request -> option StreamedResponse) (config : EntraConfig)
    : Result EntraFlowError JwksDocument :=
  let? response := some_or (peer ((http_get (jwks_url config)) <| rq_headers := [("Accept", "application/json")] |>))
                     ProviderUnavailable in
  guard? stream_success response else ProviderUnavailable in
  let? document := read_bounded_json response MAX_JWKS_RESPONSE_BYTES in
  guard? negb ((length (keys document) =? 0) || (100 <? length (keys document)))%nat else ProviderUnavailable in
  inr document.

(** [now.duration_since(earlier)], which saturates at zero. *)
Definition elapsed (now earlier : Z) : Z := Z.max 0 (now - earlier).

Definition within_last (now : Z) (seconds : Z) (earlier : option Z) : bool :=
  match earlier with Some earlier => elapsed now earlier <? seconds * second | None => false end.

(** The key of a cached document: nothing when the document has no such key. *)
Definition cached_key (cache : JwksCacheState) (kid : string) : option (Result EntraFlowError DecodingKey) :=
  match document cache with
  | Some d => match jwks_key d kid with inr key => Some (decoding_key_from_jwk key) | inl _ => None end
  | None => None
  end.

(** Fetching the document, at [later], into the cache. *)
Definition refresh_key (peer : Http.Request -> option StreamedResponse) (config : EntraConfig) (kid : string)
    (later : Z) (cache : JwksCacheState) : Result EntraFlowError DecodingKey * JwksCacheState :=
  match fetch_jwks peer config with
  | inl e => (inl e, cache)
  | inr d => (let? key := jwks_key d kid in decoding_key_from_jwk key,
              cache <| document := Some d |> <| fetched_at := Some later |>)
  end.

(** The lock of the cache is held throughout. *)
Definition decoding_key (peer : Http.Request -> option StreamedResponse) (config : EntraConfig) (kid : string)
    (now later : Z) (cache : JwksCacheState) : Result EntraFlowError DecodingKey * JwksCacheState :=
  if within_last now (i64_as_u64 (jwks_cache_seconds config)) (fetched_at cache) then
    match cached_key cache kid with
    | Some key => (key, cache)
    | None =>
        if within_last now UNKNOWN_KID_REFRESH_COOLDOWN_SECONDS (last_unknown_kid_refresh_at cache)
        then (inl AccountNotAllowed, cache)
        else refresh_key peer config kid later (cache <| last_unknown_kid_refresh_at := Some now |>)
    end
  else refresh_key peer config kid later cache.
End Keys.

(** ** The transaction *)

(** [Aes256Gcm] on a [Payload] with associated data: key, nonce, message, data. *)
Class PayloadCipher {AG : Aes256Gcm} := {
  payload_encrypt : CipherKey -> string -> string -> string -> option string;
  payload_decrypt : CipherKey -> string -> string -> string -> option string
}.

(** [OsRng.fill_bytes]: the bytes of each draw, in order, for a number of bytes. *)
Class OsRandom := { random_bytes : nat -> nat -> string }.

(** argon2 with a generated salt. *)
Class PasswordHasher := {
  generate_salt : nat -> string;
  hash_password : string -> string -> option string
}.

(** [Url::parse], then [append_pair] for each pair, then the text. *)
Class UrlQuery := { append_pairs : string -> list (string * string) -> option string }.

Section Transactions.
Context {AG : Aes256Gcm} {PC : PayloadCipher} {UB : UrlSafeBase64} {OR : OsRandom}.

Definition transaction_cipher (transaction_key : string) : Result EntraFlowError CipherKey :=
  some_or (new_from_slice (sha256_digest transaction_key)) Configuration.

Definition random_urlsafe (draw byte_count : nat) : string := url_safe_encode (random_bytes draw byte_count).

Definition encrypt_transaction_secret (draw : nat) (plaintext state_hash transaction_key : string)
    : Result EntraFlowError string :=
  let? cipher := transaction_cipher transaction_key in
  let nonce := random_bytes draw 12 in
  let? ciphertext := some_or (payload_encrypt cipher nonce plaintext state_hash) Configuration in
  inr (concat_str ["v1."; url_safe_encode nonce; "."; url_safe_encode ciphertext]).

Definition dot : ascii := "."%char.

Definition decrypt_transaction_secret (encrypted state_hash transaction_key : string)
    : Result EntraFlowError string :=
  let parts := split_on (Ascii.eqb dot) encrypted in
  guard? bool_decide (parts !! 0%nat = Some "v1") else InvalidState in
  let? nonce := some_or (keep_if (fun v => byte_len v =? 12) ((parts !! 1%nat) ≫= url_safe_decode)) InvalidState in
  let? ciphertext := some_or (keep_if (fun v => negb (is_empty v)) ((parts !! 2%nat) ≫= url_safe_decode))
                       InvalidState in
  guard? bool_decide (parts !! 3%nat = None) else InvalidState in
  let? cipher := transaction_cipher transaction_key in
  let? plaintext := some_or (payload_decrypt cipher nonce ciphertext state_hash) InvalidState in
  guard? utf8 (bytes plaintext) else InvalidState in
  inr plaintext.

Definition random_password_hash {PH : PasswordHasher} (draw : nat) : Result EntraFlowError string :=
  let random_password := random_urlsafe draw 64 in
  some_or (hash_password random_password (generate_salt (S draw))) Configuration.

Definition build_authorization_url {UQ : UrlQuery} (config : EntraConfig) (state nonce pkce_verifier : string)
    : Result EntraFlowError string :=
  let challenge := url_safe_encode (sha256_digest pkce_verifier) in
  some_or (append_pairs (authorization_url config)
    [ ("client_id", client_id config); ("response_type", "code"); ("redirect_uri", redirect_uri config);
      ("response_mode", "query"); ("scope", "openid profile email"); ("state", state); ("nonce", nonce);
      ("code_challenge", challenge); ("code_challenge_method", "S256") ]) Configuration.

(** ** Starting *)

(** The address of the redirect with the changes to the cookies. The draws are those
    of the state, the binding, the nonce, the verifier and the nonce of the cipher. *)
Definition start_entra_login {H : Sha256} {UQ : UrlQuery} (draw : nat) (config : AppConfig) (return_to : option string)
    : Handler (string * list CookieChange) :=
  entra <- ok_or NotFound (entra config) ;;
  let state := random_urlsafe draw 32 in
  let browser_binding := random_urlsafe (draw + 1) 32 in
  let nonce := random_urlsafe (draw + 2) 32 in
  let pkce_verifier := random_urlsafe (draw + 3) 64 in
  let state_hash := sha256_hex state in
  let browser_binding_hash := sha256_hex browser_binding in
  pkce_verifier_ciphertext <-
    map_err (fun _ => Internal)
      (lift (encrypt_transaction_secret (draw + 4) pkce_verifier state_hash (transaction_key entra))) ;;
  let return_to := normalize_return_to return_to in
  now <- utc_now ;;
  ttl <- or_panic (duration_seconds (transaction_ttl_seconds entra)) ;;
  expires_at <- or_panic (datetime_add now ttl) ;;
  created <- query (OidcLoginTransactionRepository.create_bounded
    (NewOidc.mkNewOidcLoginTransaction state_hash browser_binding_hash nonce pkce_verifier_ciphertext
       return_to expires_at) now MAX_PENDING_OIDC_TRANSACTIONS) ;;
  match created with
  | None => fail (AuthenticationCapacityLimited 60)
  | Some _ =>
      authorization_url <- map_err (fun _ => Internal)
        (lift (build_authorization_url entra state nonce pkce_verifier)) ;;
      ret (authorization_url, [AddCookie (oidc_cookie browser_binding config entra)])
  end.
End Transactions.

(** ** The account *)

Definition bounded_optional (v : option string) (max_length : Z) : Result EntraFlowError (option string) :=
  match v with
  | Some value =>
      if (max_length <? byte_len value) || has_control value then inl AccountNotAllowed
      else if is_empty (trim value) then inr None
      else inr (Some value)
  | None => inr None
  end.

Definition canonical_uuid {UU : UuidParser} (v : string) : Result EntraFlowError string :=
  some_or (uuid_parse_str v) AccountNotAllowed.

(** [str::replace('-', "")]. *)
Fixpoint without_hyphens (s : string) : string :=
  match s with
  | EmptyString => EmptyString
  | String a s' => if Ascii.eqb a "-"%char then without_hyphens s' else String a (without_hyphens s')
  end.

Definition username_separator (c : string) : bool := existsb (str_eqb c) ["."; "_"; "-"].

(** [split('@').next()] *)
Definition before_at (s : string) : string := default "" (head (split_on (Ascii.eqb "@"%char) s)).

Definition jit_username (claims : ValidatedEntraClaims) : string :=
  let base := concat_str (map (fun c => if alphanumeric_char c || username_separator c then c else "-")
    (chars (to_ascii_lowercase (default "entra" (before_at <$> vc_preferred_username claims))))) in
  let base := concat_str (trimmed_chars username_separator (chars base)) in
  let base := if is_empty base then "entra" else base in
  let suffix := without_hyphens (vc_object_id claims) in
  let max_base_len := (64 - (String.length suffix + 1))%nat in
  let truncated := take_chars max_base_len base in
  concat_str [truncated; "-"; suffix].

Definition identity_write_error (error : DieselError) : EntraFlowError :=
  match error with
  | DNotFound => AccountNotAllowed
  | DDatabaseError UniqueViolation => AccountNotAllowed
  | _ => ProviderUnavailable
  end.

Section Accounts.
Context {JW : JsonWebToken} {UU : UuidParser} {U : Unicode} {SJ : SerdeJson} {UB : UrlSafeBase64} {OR : OsRandom}
        {PH : PasswordHasher}.

Definition id_token_validation (config : EntraConfig) : JwtValidation :=
  mkJwtValidation [RS256] ["exp"; "iss"; "aud"; "sub"] [client_id config] [issuer config]
    (i64_as_u64 (clock_skew_seconds config)) true.

(** The checks on decoded claims at the time [now]. *)
Definition check_claims (raw : EntraIdTokenClaims) (config : EntraConfig) (expected_nonce : string) (now : Z)
    : Result EntraFlowError ValidatedEntraClaims :=
  guard? bool_decide (ic_version raw = Some "2.0") && bool_decide (ic_nonce raw = Some expected_nonce)
         && negb (is_empty (ic_subject raw)) && (byte_len (ic_subject raw) <=? 255)
         && negb (has_control (ic_subject raw)) else AccountNotAllowed in
  let? issued_at := some_or (ic_issued_at raw) AccountNotAllowed in
  guard? (0 <? issued_at) && (issued_at <=? now / second + clock_skew_seconds config) else AccountNotAllowed in
  let? tenant := canonical_uuid (ic_tenant_id raw) in
  let? configured_tenant_id := canonical_uuid (tenant_id config) in
  guard? tenant =s configured_tenant_id else AccountNotAllowed in
  let? object_id := canonical_uuid (ic_object_id raw) in
  let authorized_party_is_wrong :=
    match ic_authorized_party raw with Some party => negb (party =s client_id config) | None => false end in
  guard? negb (authorized_party_is_wrong
               || (is_multiple (ic_audience raw) && bool_decide (ic_authorized_party raw = None)))
    else AccountNotAllowed in
  guard? match required_role config with
         | Some required_role => existsb (fun role => role =s required_role) (ic_roles raw)
         | None => true
         end else AccountNotAllowed in
  let? preferred_username := bounded_optional (ic_preferred_username raw) 320 in
  let? display_name := bounded_optional (ic_display_name raw) 256 in
  let? email := bounded_optional (ic_email raw) 320 in
  inr (mkValidatedEntraClaims (ic_subject raw) tenant object_id preferred_username display_name email).

(** [Utc::now] is read once the fields before it are accepted; reading it earlier
    changes no result. *)
Definition decode_and_validate_id_token (token : string) (key : DecodingKey) (config : EntraConfig)
    (expected_nonce : string) : Flow ValidatedEntraClaims :=
  decoded_at <- utc_now ;;
  raw <- ok_or AccountNotAllowed (decode_claims token key (id_token_validation config) decoded_at) ;;
  now <- utc_now ;;
  lift (check_claims raw config expected_nonce now).

(** A database error other than [NotFound] becomes [ProviderUnavailable]. *)
Definition found {A} (m : Query A) : Flow (option A) :=
  catch m (fun r =>
    match r with
    | inr a => ret (Some a)
    | inl DNotFound => ret None
    | inl _ => fail ProviderUnavailable
    end).

Definition provisioned_user (draw : nat) (config : EntraConfig) (claims : ValidatedEntraClaims)
    : Flow (Users.User * Identity.ExternalIdentity) :=
  if negb (jit_provisioning config) then fail AccountNotAllowed
  else
    let username := jit_username claims in
    password <- lift (random_password_hash draw) ;;
    now <- utc_now ;;
    provisioned <- map_err identity_write_error
      (ExternalIdentityRepository.find_or_create_jit_user (NewUsr.mkNewUser username password)
         (NewIdentity.mkNewExternalIdentity 0 "entra" (issuer config) (Some (vc_subject claims))
            (vc_tenant_id claims) (vc_object_id claims) (vc_preferred_username claims)
            (vc_display_name claims) (vc_email claims) (Some now))) ;;
    ret (jit_user provisioned, jit_identity provisioned).

Definition resolve_portal_user (draw : nat) (config : EntraConfig) (claims : ValidatedEntraClaims)
    : Flow Users.User :=
  existing <- found (ExternalIdentityRepository.find_by_entra_object (vc_tenant_id claims) (vc_object_id claims)) ;;
  account <- match existing with
             | Some identity =>
                 user <- found (UserRepository.find (Identity.user_id identity)) ;;
                 user <- ok_or AccountNotAllowed user ;;
                 ret (user, identity)
             | None => provisioned_user draw config claims
             end ;;
  let user := fst account in
  let identity := snd account in
  if negb (Identity.issuer identity =s issuer config)
     || match Identity.subject identity with Some subject => negb (subject =s vc_subject claims) | None => false end
  then fail AccountNotAllowed
  else
    now <- utc_now ;;
    map_err identity_write_error
      (ExternalIdentityRepository.update_login_profile (Identity.id identity)
         (mkExternalIdentityLoginProfile (issuer config) (vc_subject claims) (vc_preferred_username claims)
            (vc_display_name claims) (vc_email claims) now)) ;;;
    ret user.
End Accounts.

(** ** Finishing *)

(** How the environment of a callback answers: the two pool checkouts, the token and
    key endpoints, two readings of the monotonic clock, the first random draw and the
    token of a new session. *)
Record CallbackEnv := mkCallbackEnv {
  consume_checkout : bool;
  finish_checkout : bool;
  token_peer : Http.Request -> option StreamedResponse;
  jwks_peer : Http.Request -> option StreamedResponse;
  instant : Z;
  instant_later : Z;
  next_draw : nat;
  session_token : string
}.

Record EntraCallbackResponse := mkEntraCallbackResponse {
  er_location : string;
  er_cookies : list CookieChange;
  er_cache : JwksCacheState
}.

Section Callback.
Context {JW : JsonWebToken} {UU : UuidParser} {U : Unicode} {SJ : SerdeJson} {UB : UrlSafeBase64} {OR : OsRandom}
        {PH : PasswordHasher} {AG : Aes256Gcm} {PC : PayloadCipher} {H : Sha256}
        {DT : Deserialize TokenResponse} {DJ : Deserialize JwksDocument}.

Definition code_form (config : EntraConfig) (code pkce_verifier : string) : list (string * string) :=
  [("client_id", client_id config); ("grant_type", "authorization_code"); ("code", code);
   ("redirect_uri", redirect_uri config); ("code_verifier", pkce_verifier)]
  ++ match client_secret config with Some s => [("client_secret", s)] | None => [] end.

Definition exchange_code (peer : Http.Request -> option StreamedResponse) (config : EntraConfig)
    (code pkce_verifier : string) : Result EntraFlowError string :=
  let? response := some_or (peer ((http_post (token_url config) (FormBody (code_form config code pkce_verifier)))
                              <| rq_headers := [("Accept", "application/json")] |>)) ProviderUnavailable in
  guard? stream_success response else ProviderUnavailable in
  let? token := read_bounded_json response MAX_TOKEN_RESPONSE_BYTES in
  guard? (byte_len (id_token token) <=? 32 * 1024)
         && (length (split_on (Ascii.eqb dot) (id_token token)) =? 3)%nat else AccountNotAllowed in
  inr (id_token token).

(** The id token of a callback and the id of its key. *)
Definition callback_token (env : CallbackEnv) (e : EntraConfig) (transaction : Oidc.OidcLoginTransaction)
    (code : option string) : Result EntraFlowError (string * string) :=
  let? code := some_or (keep_if (fun v => negb (is_empty v) && (byte_len v <=? 8 * 1024)) code) InvalidState in
  let? pkce_verifier := decrypt_transaction_secret (Oidc.pkce_verifier_ciphertext transaction)
                          (Oidc.state_hash transaction) (transaction_key e) in
  let? id_token := exchange_code (token_peer env) e code pkce_verifier in
  let? header := some_or (decode_header id_token) AccountNotAllowed in
  guard? bool_decide (jh_alg header = RS256) else AccountNotAllowed in
  let? kid := some_or (keep_if (fun kid => negb (is_empty kid) && (byte_len kid <=? 256)) (jh_kid header))
                AccountNotAllowed in
  inr (id_token, kid).

(** What follows once the key is known: the changes to the cookies. *)
Definition sign_in (env : CallbackEnv) (config : AppConfig) (e : EntraConfig) (client : LoginClientContext)
    (transaction : Oidc.OidcLoginTransaction) (id_token : string) (key : Result EntraFlowError DecodingKey)
    : Flow (list CookieChange) :=
  key <- lift key ;;
  claims <- decode_and_validate_id_token id_token key e (Oidc.nonce transaction) ;;
  (if finish_checkout env then ret tt else fail ProviderUnavailable) ;;;
  user <- resolve_portal_user (next_draw env) e claims ;;
  session <- map_err (fun _ => ProviderUnavailable)
    (establish_session (Users.id user) "entra" client (session_token env) config) ;;
  ret (snd session).

(** The [async] block of the callback with the cache it leaves. *)
Definition callback_result (env : CallbackEnv) (config : AppConfig) (e : EntraConfig) (client : LoginClientContext)
    (transaction : Oidc.OidcLoginTransaction) (code : option string) (cache : JwksCacheState)
    : JwksCacheState * Flow (list CookieChange) :=
  match callback_token env e transaction code with
  | inl error => (cache, fail error)
  | inr (id_token, kid) =>
      let '(key, cache') := decoding_key (jwks_peer env) e kid (instant env) (instant_later env) cache in
      (cache', sign_in env config e client transaction id_token key)
  end.

Definition default_return_to : string := "/#dashboard".

(** Taking the stored transaction of the browser. *)
Definition take_transaction (env : CallbackEnv) (state browser_binding : string) : Flow Oidc.OidcLoginTransaction :=
  (if consume_checkout env then ret tt else fail ProviderUnavailable) ;;;
  now <- utc_now ;;
  map_err (fun error => match error with DNotFound => InvalidState | _ => ProviderUnavailable end)
    (OidcLoginTransactionRepository.consume (sha256_hex state) (sha256_hex browser_binding) now).

Definition finish_entra_login (env : CallbackEnv) (config : AppConfig) (request : Authn.Request)
    (client : LoginClientContext) (query : EntraCallbackQuery) (cache : JwksCacheState)
    : Flow EntraCallbackResponse :=
  let refused cookies error :=
    ret (mkEntraCallbackResponse (callback_target default_return_to (inl error)) cookies cache) in
  match entra config with
  | None => refused (clear_oidc_cookie config) Configuration
  | Some e =>
      let browser_binding := get_cookie request (oidc_cookie_name config) in
      match keep_if (fun v => byte_len v <=? 256) (eq_state query) with
      | None => refused [] InvalidState
      | Some state =>
          match keep_if (fun v => byte_len v <=? 256) browser_binding with
          | None => refused [] InvalidState
          | Some browser_binding =>
              catch (take_transaction env state browser_binding) (fun r =>
                match r with
                | inl error => refused [] error
                | inr transaction =>
                    let return_to := Oidc.return_to transaction in
                    let cleared := clear_oidc_cookie config in
                    match eq_error query with
                    | Some provider_error =>
                        let flow_error := if provider_error =s "access_denied" then AccessDenied
                                          else ProviderUnavailable in
                        ret (mkEntraCallbackResponse (callback_target return_to (inl flow_error)) cleared cache)
                    | None =>
                        let '(cache', result) :=
                          callback_result env config e client transaction (eq_code query) cache in
                        catch result (fun result =>
                          match result with
                          | inr cookies => ret (mkEntraCallbackResponse (callback_target return_to (inr tt))
                                                  (cleared ++ cookies) cache')
                          | inl error => ret (mkEntraCallbackResponse (callback_target return_to (inl error))
                                                cleared cache')
                          end)
                    end
                end)
          end
      end
  end.
End Callback.
