(* ===== verification/EntraSafety.v ===== *)
(** Properties of signing in with Microsoft Entra ([EntraLogin.v]). *)
From S2P Require Import Prelude Logic Text Models Schema Api Validation Access Sessions Accounts AuditLogs.
From S2P Require Import SingleSignOn Config Values Secrets AdapterValues Http Authn EntraLogin.
From Stdlib Require Import Ascii.
Import ExternalIdentityRepository.

Open Scope Z_scope.
Open Scope portal_scope.

(** ** What the pure steps accept *)

Lemma and_then_inv {E A B} (m : Result E A) (k : A -> Result E B) b :
  and_then m k = inr b -> exists a, m = inr a /\ k a = inr b.
Proof. destruct m; simpl; [done|eauto]. Qed.

Lemma some_or_inv {E A} (o : option A) (e : E) a : some_or o e = inr a -> o = Some a.
Proof. destruct o; by intros [= <-]. Qed.

Lemma keep_if_inv {A} (P : A -> bool) o a : keep_if P o = Some a -> o = Some a /\ P a = true.
Proof. destruct o as [x|]; simpl; [|done]. destruct (P x) eqn:E; by intros [= <-]. Qed.

(** One step of a pure computation that returned. *)
Ltac step_result H a Ha :=
  apply and_then_inv in H as (a & Ha & H); try apply some_or_inv in Ha.

Section Claims.
Context {UU : UuidParser}.

(** What the portal relies on in the claims of an id token. *)
Record trusted_claims (raw : EntraIdTokenClaims) (config : EntraConfig) (nonce : string) (now : Z)
    (claims : ValidatedEntraClaims) : Prop := {
  tc_version : ic_version raw = Some "2.0";
  tc_nonce : ic_nonce raw = Some nonce;
  tc_subject : ic_subject raw = vc_subject claims /\ vc_subject claims <> "" /\
               byte_len (vc_subject claims) <= 255 /\ has_control (vc_subject claims) = false;
  tc_issued : exists issued_at, ic_issued_at raw = Some issued_at /\
                0 < issued_at <= now / second + clock_skew_seconds config;
  tc_tenant : uuid_parse_str (ic_tenant_id raw) = Some (vc_tenant_id claims) /\
              uuid_parse_str (tenant_id config) = Some (vc_tenant_id claims);
  tc_object : uuid_parse_str (ic_object_id raw) = Some (vc_object_id claims);
  tc_party : match ic_authorized_party raw with
             | Some party => party = client_id config
             | None => is_multiple (ic_audience raw) = false
             end;
  tc_role : forall role, required_role config = Some role -> role ∈ ic_roles raw
}.

Lemma check_claims_trusted raw config nonce now claims :
  check_claims raw config nonce now = inr claims -> trusted_claims raw config nonce now claims.
Proof.
  unfold check_claims, canonical_uuid. intros H. case_match eqn:E1; [|done].
  step_result H issued Hi. case_match eqn:E2; [|done]. step_result H tenant Ht. step_result H own Ho.
  case_match eqn:E3; [|done]. apply str_eqb_eq in E3. subst own. step_result H object Hobj.
  case_match eqn:E4; [|done]. case_match eqn:E5; [|done].
  step_result H name Hn. step_result H display Hd. step_result H mail Hm. injection H as <-.
  rewrite !andb_true_iff, !bool_decide_eq_true, !negb_true_iff in E1. destruct E1 as [[[[Hv Hno] Hs] Hl] Hc].
  split; simpl; try done.
  - split_and!; try done; [|lia]. intros Hz. by rewrite Hz in Hs.
  - exists issued. split; [done|lia].
  - apply negb_true_iff, orb_false_iff in E4 as [Hp Hmulti]. destruct (ic_authorized_party raw) as [party|].
    + apply negb_false_iff in Hp. by apply str_eqb_eq.
    + by rewrite bool_decide_true, andb_true_r in Hmulti.
  - intros role Hr. rewrite Hr in E5. apply existsb_exists in E5 as (x & Hx & ->%str_eqb_eq).
    by apply list_elem_of_In.
Qed.
End Claims.

Section Tokens.
Context {JW : JsonWebToken} {DJ : Deserialize JwksDocument}.

(** The key with the id [kid] of [d]: the only one, for RSA signatures with SHA-256,
    of a sensible size. *)
Record trusted_jwk (d : JwksDocument) (kid : string) (jwk : Jwk) : Prop := {
  tk_only : List.filter (fun key => key_id key =s kid) (keys d) = [jwk];
  tk_type : key_type jwk = "RSA";
  tk_algorithm : algorithm jwk = None \/ algorithm jwk = Some "RS256";
  tk_use : key_use jwk = None \/ key_use jwk = Some "sig";
  tk_modulus : 256 <= byte_len (modulus jwk) <= 16 * 1024;
  tk_exponent : exponent jwk <> "" /\ byte_len (exponent jwk) <= 128
}.

Definition trusted_key (d : JwksDocument) (kid : string) (key : DecodingKey) : Prop :=
  exists jwk, trusted_jwk d kid jwk /\ from_rsa_components (modulus jwk) (exponent jwk) = Some key.

Lemma optional_text o s :
  match o with Some x => negb (x =s s) | None => false end = false -> o = None \/ o = Some s.
Proof. destruct o as [x|]; [|by left]. intros H%negb_false_iff%str_eqb_eq. right. by subst. Qed.

Lemma jwk_trusted d kid jwk key :
  jwks_key d kid = inr jwk -> decoding_key_from_jwk jwk = inr key -> trusted_key d kid key.
Proof.
  unfold jwks_key, decoding_key_from_jwk. intros Hk H. case_match eqn:E; [done|]. apply some_or_inv in H.
  rewrite !orb_false_iff in E. destruct E as [[[[[Ht Ha] Hu] Hm] He] Hl]. exists jwk. split; [|done].
  split.
  - destruct (List.filter _ (keys d)) as [|k [|k' l]]; try done. by injection Hk as ->.
  - by apply str_eqb_eq, negb_false_iff.
  - by apply optional_text.
  - by apply optional_text.
  - lia.
  - split; [|lia]. intros Hz. by rewrite Hz in He.
Qed.

(** A key comes from the document that is cached or from the one just fetched. *)
Lemma decoding_key_trusted peer config kid now later cache key cache' :
  decoding_key peer config kid now later cache = (inr key, cache') ->
  exists d, (document cache = Some d \/ fetch_jwks peer config = inr d) /\ document cache' = Some d /\
    trusted_key d kid key.
Proof.
  assert (Hr : forall cache, refresh_key peer config kid later cache = (inr key, cache') ->
    exists d, fetch_jwks peer config = inr d /\ document cache' = Some d /\ trusted_key d kid key).
  { intros cache0. unfold refresh_key. destruct (fetch_jwks peer config) as [e|d]; [done|]. intros [= H <-].
    step_result H jwk Hj. exists d. split_and!; try done. by eapply jwk_trusted. }
  unfold decoding_key. destruct (within_last now _ (fetched_at cache)); [|naive_solver].
  unfold cached_key. destruct (document cache) as [d|] eqn:Ed; [destruct (jwks_key d kid) as [e|jwk] eqn:Ej|].
  - destruct (within_last now _ _); [done|]. naive_solver.
  - intros [= H <-]. exists d. split_and!; auto. by eapply jwk_trusted.
  - destruct (within_last now _ _); [done|]. naive_solver.
Qed.
End Tokens.

(** ** The account *)

Section Resolve.
Context {UU : UuidParser} {U : Unicode} {SJ : SerdeJson} {UB : UrlSafeBase64} {OR : OsRandom} {PH : PasswordHasher}.

(** [u] is the account of the Entra object of [claims]: it was before, with this
    issuer and no other subject, or the object was unknown and accounts are
    provisioned; now its identity carries the subject. *)
Definition account_of (config : EntraConfig) (claims : ValidatedEntraClaims) (d0 : Db) (u : Users.User) (d : Db) : Prop :=
  let known := entra_object (vc_tenant_id claims) (vc_object_id claims) in
  ((exists i, i ∈ external_identities d0 /\ known i = true /\ Identity.user_id i = Users.id u /\ u ∈ users d0 /\
      Identity.issuer i = issuer config /\
      (Identity.subject i = None \/ Identity.subject i = Some (vc_subject claims))) \/
   (jit_provisioning config = true /\ forall i, i ∈ external_identities d0 -> known i = false)) /\
  exists i, i ∈ external_identities d /\ known i = true /\ Identity.user_id i = Users.id u /\
    Identity.issuer i = issuer config /\ Identity.subject i = Some (vc_subject claims).

Lemma found_spec {R} {T : Table Db R} (p : R -> bool) d0 :
  outer (fun d => d = d0) (found (first_row (exec (sql_select p))))
    (fun o d => d = d0 /\ match o with
                          | Some r => r ∈ rows d0 /\ p r = true
                          | None => List.filter p (rows d0) = []
                          end)
    (fun _ d => d = d0).
Proof.
  eapply outer_catch.
  - apply (outer_find p d0 (fun r d => d = d0 /\ r ∈ rows d0 /\ p r = true)
      (fun e d => d = d0 /\ (e = Some DNotFound -> List.filter p (rows d0) = []))); by auto.
  - intros r. by apply outer_ret.
  - intros e. destruct e; try (apply outer_fail; by intros d [-> _]). apply outer_ret. intros d [-> Hf]. auto.
  - by intros d [-> _].
Qed.

Lemma update_login_sessions id profile d0 :
  outer (fun d => d = d0) (update_login_profile id profile)
    (fun _ d => sessions d = sessions d0 /\ forall i, i ∈ external_identities d0 -> same_login id profile i = true ->
       exists now, i <| Identity.subject := Some (lp_subject profile) |>
         <| Identity.preferred_username := lp_preferred_username profile |>
         <| Identity.display_name := lp_display_name profile |>
         <| Identity.email := lp_email profile |>
         <| Identity.last_login_at := Some (lp_last_login_at profile) |>
         <| Identity.updated_at := now |> ∈ external_identities d)
    (fun _ d => sessions d = sessions d0).
Proof.
  apply outer_now. intros t. apply outer_first_row, outer_exec; [|by intros ? ? ->].
  intros now n d n' a d' -> (_ & -> & _)%sql_update_inv.
  destruct a; [done|]. split; [done|]. intros i Hi Hs. exists t. cbn.
  apply list_elem_of_fmap. exists i. by rewrite Hs.
Qed.

Lemma jit_spec new_user identity d0 :
  outer (fun d => d = d0) (find_or_create_jit_user new_user identity)
    (fun jit d => mapped_account new_user identity d0 jit d) (fun _ d => d = d0).
Proof.
  intros c Ht <-. pose proof (jit_mapped_account new_user identity c (proj2 Ht)) as H.
  assert (tops (find_or_create_jit_user new_user identity)) as Htop by (intros ? ?; by apply transaction_top).
  specialize (Htop c Ht). by destruct (find_or_create_jit_user new_user identity c) as [[jit|e|] c'].
Qed.

(** The row of an account before its profile is updated. *)
Definition account_row (config : EntraConfig) (claims : ValidatedEntraClaims) (d0 : Db)
    (a : Users.User * Identity.ExternalIdentity) (d : Db) : Prop :=
  let known := entra_object (vc_tenant_id claims) (vc_object_id claims) in
  sessions d = sessions d0 /\ snd a ∈ external_identities d /\ known (snd a) = true /\
  Identity.user_id (snd a) = Users.id (fst a) /\
  ((snd a ∈ external_identities d0 /\ fst a ∈ users d0) \/
   (jit_provisioning config = true /\ forall i, i ∈ external_identities d0 -> known i = false)).

Lemma provisioned_user_spec draw config claims d0 :
  List.filter (entra_object (vc_tenant_id claims) (vc_object_id claims)) (external_identities d0) = [] ->
  outer (fun d => d = d0) (provisioned_user draw config claims)
    (account_row config claims d0) (fun _ d => sessions d = sessions d0).
Proof.
  intros Hnone. unfold provisioned_user. destruct (jit_provisioning config) eqn:Ej; [|by apply outer_fail; intros ? ->].
  cbn [negb]. eapply (outer_bind _ _ _ (fun _ d => d = d0)).
  { destruct (random_password_hash draw); [apply outer_fail; by intros ? ->|by apply outer_ret]. }
  intros password. apply outer_now. intros now. eapply outer_bind.
  { apply outer_map_err. eapply outer_conseq; [apply (jit_spec _ _ d0)|by intros ? ->|intros jit d H; exact H|].
    by intros ? ? ->. }
  intros jit. apply outer_ret. intros d Hm. unfold mapped_account in Hm. cbn in Hm.
  assert (forall i, i ∈ external_identities d0 ->
            entra_object (vc_tenant_id claims) (vc_object_id claims) i = false) as Hno.
  { intros i Hi. by eapply filter_nil_inv_b. }
  destruct (jit_created jit); [|destruct Hm as (_ & Hi & Hk & _); rewrite (Hno _ Hi) in Hk; done].
  destruct Hm as [_ []]. split_and!; cbn [fst snd]; try done.
  - rewrite prov_identity. apply elem_of_app. right. left.
  - destruct prov_object as (Hp & Ht & Ho). unfold entra_object. rewrite Hp, Ht, Ho. cbn.
    by rewrite !str_eqb_refl.
  - by right.
Qed.

Lemma resolve_spec draw config claims d0 :
  outer (fun d => d = d0) (resolve_portal_user draw config claims)
    (fun u d => sessions d = sessions d0 /\ account_of config claims d0 u d)
    (fun _ d => sessions d = sessions d0).
Proof.
  unfold resolve_portal_user. eapply outer_bind.
  { eapply outer_conseq; [apply (found_spec _ d0)|done|intros o d H; exact H|by intros ? ? ->]. }
  intros existing. eapply (outer_bind _ _ _ (account_row config claims d0)).
  { apply outer_at. intros d [-> He]. destruct existing as [i|]; [|by apply provisioned_user_spec].
    destruct He as [Hi Hk]. eapply outer_bind.
    { eapply outer_conseq; [apply (found_spec _ d0)|done|intros o d H; exact H|by intros ? ? ->]. }
    intros [u|]; [|by apply outer_fail; intros ? [-> _]]. apply outer_ret. intros d (-> & Hu & Hid).
    apply Z.eqb_eq in Hid. split_and!; try done. by left. }
  intros [u i]. cbn [fst snd]. destruct (str_eqb_spec (Identity.issuer i) (issuer config)) as [Hiss|]; cbn [negb orb];
    [|apply outer_fail; by intros ? [? _]].
  case_match eqn:Es; [apply outer_fail; by intros ? [? _]|]. apply optional_text in Es.
  apply outer_now. intros now. apply outer_at. intros d1 (Hsess & Hi & Hk & Hu & Hb). cbn [fst snd] in *. eapply outer_bind.
  { apply outer_map_err. eapply outer_conseq; [apply (update_login_sessions _ _ d1)|done|intros r d H; exact H|].
    intros ? ? ->. done. }
  intros r. apply outer_ret. intros d [Hs Hupd]. split; [congruence|]. split.
  - destruct Hb as [[Hi0 Hu0]|]; [left|by right]. exists i. by split_and!.
  - destruct (Hupd i Hi) as [t Ht].
    + unfold same_login. cbn. rewrite Z.eqb_refl, Hiss, str_eqb_refl. cbn.
      destruct Es as [-> | ->]; [done|]. cbn. by rewrite str_eqb_refl.
    + eexists. split; [exact Ht|]. unfold entra_object in *. cbn. by split_and!.
Qed.
End Resolve.

(** ** The callback *)

Lemma outer_and {D E A} (P P' : D -> Prop) (m : M D E A) Q Q' X X' :
  outer P m Q X -> outer P' m Q' X' ->
  outer (fun d => P d /\ P' d) m (fun a d => Q a d /\ Q' a d) (fun e d => X e d /\ X' e d).
Proof.
  intros H H' c Ht [Hp Hp']. specialize (H c Ht Hp). specialize (H' c Ht Hp').
  destruct (m c) as [[a|e|] c']; naive_solver.
Qed.

Lemma outer_lift {D E A B} (r : Result E A) (P : D -> Prop) (k : A -> M D E B) Q X :
  (forall a, r = inr a -> outer P (k a) Q X) -> (forall e d, P d -> X (Some e) d) ->
  outer P (bind (lift r) k) Q X.
Proof. intros Hk HX. destruct r as [e|a]; [|by apply Hk]. intros c Ht Hc. split; auto. Qed.

Section Callback.
Context {JW : JsonWebToken} {UU : UuidParser} {U : Unicode} {SJ : SerdeJson} {UB : UrlSafeBase64} {OR : OsRandom}
        {PH : PasswordHasher} {AG : Aes256Gcm} {PC : PayloadCipher} {H : Sha256}
        {DT : Deserialize TokenResponse} {DJ : Deserialize JwksDocument}.

(** The id token decodes with the key under the requirements of the configuration, and
    its claims are trusted. *)
Definition verified_token (e : EntraConfig) (nonce token : string) (key : DecodingKey)
    (claims : ValidatedEntraClaims) : Prop :=
  exists decoded_at now raw, decode_claims token key (id_token_validation e) decoded_at = Some raw /\
    trusted_claims raw e nonce now claims.

Lemma establish_identities uid meth client token config ids :
  outer (fun d => external_identities d = ids) (establish_session uid meth client token config)
    (fun _ d => external_identities d = ids) (fun _ d => external_identities d = ids).
Proof.
  apply outer_preserves.
  - unfold establish_session, create_session. intros c Ht. apply (tops_bind utc_now); [by intros ??|..|done].
    intros t. apply tops_bind; [intros ? ?; destruct (duration_seconds _); done|]. intros ttl.
    apply tops_bind; [intros ? ?; destruct (datetime_add _ _); done|]. intros ex.
    apply tops_bind; [|by intros ? ? ?]. apply tops_map_err. destruct (negb _); [by intros ??|].
    intros ? ?. by apply transaction_top.
  - unfold establish_session, create_session, query_transaction, advisory_xact_lock. preserve.
    all: first [apply preserves_delete; [done|by intros ? ? ? ? [= <-]] | by apply preserves_insert].
Qed.

Lemma sign_in_spec env config e client t token key d0 :
  outer (fun d => d = d0) (sign_in env config e client t token key)
    (fun cookies d => AddCookie (session_cookie (session_token env) config) ∈ cookies /\
       exists k claims u s, key = inr k /\ verified_token e (Oidc.nonce t) token k claims /\
         account_of e claims d0 u d /\ s ∈ sessions d /\ Sess.user_id s = Users.id u /\
         Sess.token_hash s = session_token_hash (session_token env))
    (fun _ d => sessions d = sessions d0).
Proof.
  unfold sign_in. apply outer_lift; [|by intros ? ? ->]. intros k ->.
  eapply (outer_bind _ _ _ (fun claims d => d = d0 /\ verified_token e (Oidc.nonce t) token k claims)).
  { unfold decode_and_validate_id_token. apply outer_now. intros decoded_at.
    apply outer_ok_or; [|by intros ? ->]. intros raw Hraw. apply outer_now. intros now.
    destruct (check_claims raw e (Oidc.nonce t) now) as [er|claims] eqn:E; [apply outer_fail; by intros ? ->|].
    apply outer_ret. intros d ->. split; [done|]. exists decoded_at, now, raw. split; [done|].
    by apply check_claims_trusted. }
  intros claims. apply outer_at. intros d [-> Hv].
  apply outer_decides; [intros c; destruct (finish_checkout env); eauto| |by intros ? ? ->]. intros _.
  eapply outer_bind; [apply (resolve_spec _ e claims d0)|]. intros u. apply outer_at. intros d1 [Hs Ha].
  eapply outer_bind.
  { apply outer_map_err. eapply outer_conseq; [eapply outer_and;
      [apply (establish_session_spec (Users.id u) "entra" client (session_token env) config d1)
      |apply (establish_identities _ _ _ _ _ (external_identities d1))]|by intros ? ->|intros r d Hr; exact Hr|].
    intros ? ? [-> _]. done. }
  intros [[tok ex] changes]. apply outer_ret. intros d [[Hck (s & Hin & Hu & Hh & _)] Hids]. split; [done|].
  exists k, claims, u, s. split_and!; try done. unfold account_of in *. by rewrite Hids.
Qed.

Lemma consume_spec state binding now d0 :
  outer (fun d => d = d0) (OidcLoginTransactionRepository.consume state binding now)
    (fun t d => t ∈ oidc_login_transactions d0 /\ OidcLoginTransactionRepository.presented state binding now t = true /\
       d = d0 <| oidc_login_transactions := oidc_login_transactions d |>)
    (fun _ d => sessions d = sessions d0).
Proof.
  apply outer_first_row, outer_exec; [|by intros ? ? ->].
  intros ? ? d ? l d' -> (-> & [= <-])%sql_delete_inv. destruct (List.filter _ _) as [|t l] eqn:E; [done|].
  assert (t ∈ List.filter (OidcLoginTransactionRepository.presented state binding now) (oidc_login_transactions d0))
    as Ht by (setoid_rewrite E; left).
  apply elem_of_filter_b in Ht as [??]. done.
Qed.

Lemma take_spec env state binding c : top c ->
  match take_transaction env state binding c with
  | (Ok t, c') => top c' /\ t ∈ oidc_login_transactions (db c) /\
      OidcLoginTransactionRepository.presented (sha256_hex state) (sha256_hex binding) (reading c) t = true /\
      db c' = (db c) <| oidc_login_transactions := oidc_login_transactions (db c') |>
  | (Err _, c') => sessions (db c') = sessions (db c)
  | (Panic, c') => sessions (db c') = sessions (db c)
  end.
Proof.
  intros Ht. unfold take_transaction, bind at 1. destruct (consume_checkout env); [|done].
  change (ret () c) with (Ok (E:=EntraFlowError) tt, c). cbv beta iota.
  match goal with |- context [bind utc_now ?k c] =>
    pose proof (outer_at_reading k c _ _ Ht (outer_map_err _ _ _ _ (fun _ d => sessions d = sessions (db c))
      (consume_spec (sha256_hex state) (sha256_hex binding) (reading c) (db c)))) as Hr;
    destruct (bind utc_now k c) as [[t|e|] c'] end; naive_solver.
Qed.

(** The id token the token endpoint gave for the code of the callback and the verifier
    of the transaction, signed with RS256 by the key [kid]. *)
Definition exchanged_token (env : CallbackEnv) (e : EntraConfig) (t : Oidc.OidcLoginTransaction)
    (code : option string) (token kid : string) : Prop :=
  exists given verifier header, code = Some given /\ given <> "" /\
    decrypt_transaction_secret (Oidc.pkce_verifier_ciphertext t) (Oidc.state_hash t) (transaction_key e) = inr verifier /\
    exchange_code (token_peer env) e given verifier = inr token /\
    decode_header token = Some header /\ jh_alg header = RS256 /\ jh_kid header = Some kid /\ kid <> "".

Lemma callback_token_exchanged env e t code token kid :
  callback_token env e t code = inr (token, kid) -> exchanged_token env e t code token kid.
Proof.
  unfold callback_token. intros Hc. step_result Hc given Hg. apply keep_if_inv in Hg as [-> Hg].
  step_result Hc verifier Hv. step_result Hc token' Ht. step_result Hc header Hh.
  case_match eqn:Ha; [|done]. apply bool_decide_eq_true in Ha. step_result Hc kid' Hk.
  apply keep_if_inv in Hk as [Hk Hk']. injection Hc as <- <-. exists given, verifier, header.
  split_and!; try done; intros ->; done.
Qed.

(** What the sign-in of a browser rests on: the transaction the portal stored for this
    state and this browser, an id token from the token endpoint with a trusted key
    of the provider, verified claims with the nonce of the transaction, and the account
    of their Entra object. *)
Definition proven_login (env : CallbackEnv) (config : AppConfig) (request : Authn.Request)
    (query : EntraCallbackQuery) (cache cache' : JwksCacheState) (now : Z) (d d' : Db) : Prop :=
  exists e state binding t token kid doc key claims u s,
    entra config = Some e /\
    eq_state query = Some state /\ get_cookie request (oidc_cookie_name config) = Some binding /\
    t ∈ oidc_login_transactions d /\
    OidcLoginTransactionRepository.presented (sha256_hex state) (sha256_hex binding) now t = true /\
    eq_error query = None /\ exchanged_token env e t (eq_code query) token kid /\
    (document cache = Some doc \/ fetch_jwks (jwks_peer env) e = inr doc) /\ document cache' = Some doc /\
    trusted_key doc kid key /\ verified_token e (Oidc.nonce t) token key claims /\
    account_of e claims d u d' /\
    s ∈ sessions d' /\ Sess.user_id s = Users.id u /\ Sess.token_hash s = session_token_hash (session_token env).

Lemma cleared_adds_nothing config k : AddCookie k ∉ clear_oidc_cookie config.
Proof. unfold clear_oidc_cookie. set_solver. Qed.

(** C4: A callback from Microsoft Entra opens a session only for a verified account:
    the browser presented the state and the binding of a stored, unexpired transaction,
    the token endpoint returned an id token that a trusted key of the provider
    verifies for this client and issuer, its nonce, tenant and role are the expected
    ones, and the account is the one of its Entra object. In every other case the
    stored sessions are as before, no session cookie is set, and the browser is redirected. *)
Theorem entra_session_needs_verified_account env config request client query cache c :
  top c ->
  match finish_entra_login env config request client query cache c with
  | (Ok r, c') =>
      (proven_login env config request query cache (er_cache r) (reading c) (db c) (db c') /\
       AddCookie (session_cookie (session_token env) config) ∈ er_cookies r) \/
      (sessions (db c') = sessions (db c) /\ forall k, AddCookie k ∉ er_cookies r)
  | (Err _, _) => False
  | (Panic, c') => sessions (db c') = sessions (db c)
  end.
Proof.
  intros Ht. unfold finish_entra_login. cbv zeta. destruct (entra config) as [e|] eqn:He.
  2: { right. split; [done|]. intros k. apply cleared_adds_nothing. }
  destruct (keep_if _ (eq_state query)) as [state|] eqn:Hs; [|right; split; [done|set_solver]].
  destruct (keep_if _ (get_cookie request _)) as [binding|] eqn:Hb; [|right; split; [done|set_solver]].
  apply keep_if_inv in Hs as [Hs _]. apply keep_if_inv in Hb as [Hb _].
  pose proof (take_spec env state binding c Ht) as Htake. unfold catch at 1.
  destruct (take_transaction env state binding c) as [[t|er|] c1]; [|right; split; [done|set_solver]|done].
  destruct Htake as (Ht1 & Hin & Hp & Hd1). assert (sessions (db c1) = sessions (db c)) as Hs1 by (by rewrite Hd1).
  destruct (eq_error query) as [perr|] eqn:Herr.
  { right. split; [done|]. intros k. apply cleared_adds_nothing. }
  unfold callback_result. destruct (callback_token env e t (eq_code query)) as [er|[token kid]] eqn:Htok.
  { right. split; [done|]. intros k. apply cleared_adds_nothing. }
  destruct (decoding_key (jwks_peer env) e kid (instant env) (instant_later env) cache) as [key cache'] eqn:Hkey.
  unfold catch. pose proof (sign_in_spec env config e client t token key (db c1) c1 Ht1 eq_refl) as Hsign.
  destruct (sign_in env config e client t token key c1) as [[cookies|er|] c2].
  - left. destruct Hsign as (_ & Hck & k & claims & u & s & -> & Hv & Ha & Hsess).
    apply decoding_key_trusted in Hkey as (doc & Hdoc & Hdoc' & Hk). apply callback_token_exchanged in Htok. split.
    + exists e, state, binding, t, token, kid, doc, k, claims, u, s. split_and!; try done; try apply Hsess.
      unfold account_of in *. by rewrite Hd1 in Ha.
    + apply elem_of_app. by right.
  - right. destruct Hsign as [_ Hsign]. split; [congruence|]. intros k. apply cleared_adds_nothing.
  - congruence.
Qed.
End Callback.

(** ** A callback that signs in *)

Definition repeated (n : nat) : string := Nat.iter n (String "A"%char) EmptyString.

Definition entra_jwt : JsonWebToken := {|
  DecodingKey := unit;
  from_rsa_components := fun _ _ => Some tt;
  decode_header := fun _ => Some (mkJwtHeader RS256 (Some "k1"));
  decode_claims := fun _ _ _ _ => Some (mkEntraIdTokenClaims "sub" "tenant" "object" (Some "2.0") (Some "nonce")
    (One "portal") None (Some 50) ["Portal.Member"] (Some "ada@example.com") None None)
|}.

Definition any_uuid : UuidParser := {| uuid_parse_str := Some |}.
Definition entra_random : OsRandom := {| random_bytes := fun _ n => repeated n |}.
Definition entra_hasher : PasswordHasher := {| generate_salt := fun _ => ""; hash_password := fun _ _ => Some "hash" |}.
Definition plain_url_safe : UrlSafeBase64 := {| url_safe_encode := id; url_safe_decode := Some |}.
Definition entra_cipher : Aes256Gcm :=
  {| CipherKey := unit; sha256_digest := id; new_from_slice := fun _ => Some tt;
     aead_encrypt := fun _ _ p => Some p; aead_decrypt := fun _ _ c => Some c |}.
Definition entra_payloads : @PayloadCipher entra_cipher :=
  {| payload_encrypt := fun _ _ p _ => Some p; payload_decrypt := fun _ _ c _ => Some c |}.
Definition entra_tokens : Deserialize TokenResponse := {| from_str := fun s => inr (mkTokenResponse s) |}.
Definition entra_keys : Deserialize JwksDocument :=
  {| from_str := fun s => inr (mkJwksDocument [mkJwk "RSA" None None s (repeated 256) "AQAB"]) |}.

Definition entra_config : EntraConfig :=
  mkEntraConfig "tenant" "portal" None "key" "https://portal/cb" "issuer" "https://login/authorize"
    "https://login/token" "https://login/keys" true (Some "Portal.Member") 600 300 120.

Definition entra_app : AppConfig := mkAppConfig "development" 3600 10 false 5 50 900 900 false (Some entra_config).

Definition entra_env : CallbackEnv :=
  mkCallbackEnv true true (fun _ => Some (mkStreamedResponse 200 None [Some "a.b"; Some ".c"]))
    (fun _ => Some (mkStreamedResponse 200 (Some 2) [Some "k1"])) 0 0 0 "tok".

Definition entra_db : Db :=
  empty_db <| oidc_login_transactions :=
    [Oidc.mkOidcLoginTransaction "state" "browser" "nonce" "v1.AAAAAAAAAAAA.verifier" "/#work" (900 * second) 0] |>.

Definition finish_entra (c : Conn Db) : outcome EntraFlowError EntraCallbackResponse * Conn Db :=
  @finish_entra_login entra_jwt any_uuid ascii_unicode {| json_to_string := fun _ => None |} plain_url_safe entra_random
    entra_hasher entra_cipher entra_payloads plain_hash entra_tokens entra_keys entra_env entra_app
    (Authn.mkRequest Get [] [("idp_oidc", "browser")]) (mkLoginClientContext None None)
    (mkEntraCallbackQuery (Some "code") (Some "state") None None) (mkJwksCacheState None None None) c.

Definition entra_conn : Conn Db := calm entra_db (100 * second) [] 10.

Lemma finish_entra_signs_in :
  match finish_entra entra_conn with (Ok r, c') => (length (sessions (db c')) =? 1)%nat | _ => false end = true.
Proof. vm_compute. reflexivity. Qed.

Lemma entra_session_needs_verified_account_witness :
  exists r c', finish_entra entra_conn = (Ok r, c') /\
    AddCookie (session_cookie "tok" entra_app) ∈ er_cookies r /\
    exists claims u, account_of entra_config claims (db entra_conn) u (db c').
Proof.
  assert (Hp : forall c, top c -> match finish_entra c with
    | (Ok r, c') =>
        ((exists claims u, account_of entra_config claims (db c) u (db c')) /\
         AddCookie (session_cookie "tok" entra_app) ∈ er_cookies r) \/
        sessions (db c') = sessions (db c)
    | _ => True
    end).
  { intros c Ht. unfold finish_entra.
    match goal with |- match ?x with _ => _ end =>
      assert (Hx := @entra_session_needs_verified_account entra_jwt any_uuid ascii_unicode
        {| json_to_string := fun _ => None |} plain_url_safe entra_random entra_hasher entra_cipher entra_payloads
        plain_hash entra_tokens entra_keys entra_env entra_app (Authn.mkRequest Get [] [("idp_oidc", "browser")])
        (mkLoginClientContext None None) (mkEntraCallbackQuery (Some "code") (Some "state") None None)
        (mkJwksCacheState None None None) c Ht); destruct x as [[r|e|] c'] end; [|exact I..].
    destruct Hx as [[Hx Hck]|[Hno _]]; [left; split; [|exact Hck]|right; exact Hno].
    destruct Hx as (e & st & b & t & tk & kid & doc & key & claims & u & s & He & _ & _ & _ & _ & _ & _ & _ & _ & _ & _ & Ha & _).
    injection He as <-. exists claims, u. exact Ha. }
  specialize (Hp entra_conn (conj eq_refl eq_refl)). revert Hp. generalize finish_entra_signs_in.
  generalize (finish_entra entra_conn). intros [[r|e|] c'] Hs Hp; try discriminate Hs.
  destruct Hp as [[Ha Hck]|Hno]; [|rewrite Hno in Hs; discriminate Hs].
  exists r, c'. split; [reflexivity|]. split; [exact Hck|exact Ha].
Defined.
