(* ===== verification/EntraBounds.v ===== *)
(** Bounds and round trips of signing in with Microsoft Entra: answers of the
    provider, key refreshes, return addresses, provisioned names, and that a started
    sign-in can be finished. *)
From S2P Require Import Prelude Logic Text Models Schema Api Validation Access Sessions Accounts AuditLogs.
From S2P Require Import SingleSignOn Config Values Secrets SecretsSafety AdapterValues Http Authn EntraLogin EntraSafety.
From Stdlib Require Import Ascii.

Open Scope Z_scope.
Open Scope portal_scope.

(** ** Answers of the provider *)

Lemma byte_len_app s t : byte_len (String.append s t) = byte_len s + byte_len t.
Proof.
  unfold byte_len. induction s as [|a s IH]; [done|]. rewrite str_app_cons. cbn [String.length]. lia.
Qed.

Lemma byte_len_pos s : 0 <= byte_len s.
Proof. unfold byte_len. lia. Qed.

Lemma read_chunks_from max body chunks :
  max < u64_max -> byte_len body <= max ->
  read_chunks max body chunks =
  match mapM id chunks with
  | Some parts => let whole := String.append body (concat_str parts) in
                  if byte_len whole <=? max then inr whole else inl ProviderUnavailable
  | None => inl ProviderUnavailable
  end.
Proof.
  intros Hmax. revert body. induction chunks as [|[chunk|] chunks IH]; intros body Hb; simpl; [| |done].
  - rewrite str_app_empty. by rewrite (proj2 (Z.leb_le _ _) Hb).
  - unfold usize_saturating_add. pose proof (byte_len_pos chunk) as Hc.
    destruct (Z.ltb_spec max (Z.min u64_max (byte_len body + byte_len chunk))).
    + destruct (mapM id chunks) as [parts|]; simpl; [|done]. rewrite !byte_len_app.
      pose proof (byte_len_pos (concat_str parts)). rewrite (proj2 (Z.leb_gt _ _)); [done|lia].
    + rewrite IH by (rewrite byte_len_app; lia). destruct (mapM id chunks) as [parts|]; simpl; [|done].
      by rewrite str_app_assoc.
Qed.

(** Reading an answer of the provider in chunks gives the whole body when it
    arrives without an error and has at most [max_bytes] bytes, and an error otherwise,
    however the peer cuts it and whatever length it announces. *)
Theorem bounded_body_is_exact {T} {DT : Deserialize T} response max_bytes :
  0 <= max_bytes < u64_max ->
  read_bounded_json response max_bytes =
  match mapM id (sr_chunks response) with
  | Some parts =>
      if match sr_content_length response with Some n => n <=? max_bytes | None => true end
         && (byte_len (concat_str parts) <=? max_bytes)
      then match from_str (concat_str parts) with inr t => inr t | inl _ => inl ProviderUnavailable end
      else inl ProviderUnavailable
  | None => inl ProviderUnavailable
  end.
Proof.
  intros Hm. unfold read_bounded_json. rewrite read_chunks_from by (try apply Hm; done).
  destruct (mapM id (sr_chunks response)) as [parts|]; cbn [and_then].
  - cbv zeta. rewrite str_app_nil. destruct (sr_content_length response) as [n|]; cbn [andb].
    + rewrite Z.ltb_antisym. destruct (n <=? max_bytes); [|done]. cbn [negb andb].
      destruct (byte_len (concat_str parts) <=? max_bytes); [|done]. cbn. by destruct (from_str _).
    + destruct (byte_len (concat_str parts) <=? max_bytes); [|done]. cbn. by destruct (from_str _).
  - destruct (sr_content_length response) as [n|]; [by destruct (max_bytes <? n)|done].
Qed.

Lemma bounded_body_is_exact_witness :
  @read_bounded_json _ entra_tokens (mkStreamedResponse 200 None [Some "a."; Some "b.c"]) 5 = inr (mkTokenResponse "a.b.c") /\
  @read_bounded_json _ entra_tokens (mkStreamedResponse 200 None [Some "a."; Some "b.c"]) 4 = inl ProviderUnavailable.
Proof.
  split; (rewrite bounded_body_is_exact; [vm_compute; reflexivity|unfold u64_max; lia]).
Defined.

(** ** Return addresses *)

Definition safe_fragment (fragment : string) : Prop :=
  fragment <> "" /\ forallb fragment_char (chars fragment) = true /\ byte_len fragment <= 510.

Lemma strip_prefix_inv p s r : str_strip_prefix p s = Some r -> s = String.append p r.
Proof.
  revert s. induction p as [|a p IH]; intros s; simpl; [by intros [= ->]|]. destruct s as [|b s]; [done|].
  destruct (Ascii.eqb_spec a b) as [->|]; [|done]. intros H%IH. by subst.
Qed.

Lemma normalized_fragment return_to :
  exists fragment, normalize_return_to return_to = String.append "/#" fragment /\ safe_fragment fragment /\
    str_strip_prefix "/#" (normalize_return_to return_to) = Some fragment.
Proof.
  unfold normalize_return_to. cbv zeta. set (candidate := default "/#dashboard" return_to).
  destruct (str_strip_prefix "/#" candidate) as [fragment|] eqn:E.
  - case_match eqn:Hs; [|exists "dashboard"; by repeat split].
    rewrite !andb_true_iff in Hs. destruct Hs as [[[[Hl He] _] _] Hc]. exists fragment.
    split; [by apply strip_prefix_inv|]. split; [|done]. split; [intros Hz; by rewrite Hz in He|].
    split; [done|]. apply strip_prefix_inv in E. rewrite E, byte_len_app in Hl. change (byte_len "/#") with 2 in Hl. lia.
  - rewrite !andb_false_r. cbn [andb]. exists "dashboard". by repeat split.
Qed.

(** Normalizing a safe address keeps it. *)
Lemma normalize_twice return_to :
  normalize_return_to (Some (normalize_return_to return_to)) = normalize_return_to return_to.
Proof.
  unfold normalize_return_to at 2 3. cbv zeta. set (candidate := default "/#dashboard" return_to).
  case_match eqn:Hs; [|done]. unfold normalize_return_to. cbv zeta.
  change (default "/#dashboard" (Some candidate)) with candidate. by rewrite Hs.
Qed.

Lemma callback_target_shape return_to result :
  exists fragment, callback_target return_to result = concat_str ["/?"; result_marker result; "#"; fragment] /\
    safe_fragment fragment /\
    (normalize_return_to (Some return_to) = return_to -> return_to = String.append "/#" fragment).
Proof.
  destruct (normalized_fragment (Some return_to)) as (fragment & Hn & Hs & Hp). exists fragment.
  unfold callback_target. rewrite Hp. split_and!; try done. by intros <-.
Qed.

Section Redirects.
Context {JW : JsonWebToken} {UU : UuidParser} {U : Unicode} {SJ : SerdeJson} {UB : UrlSafeBase64} {OR : OsRandom}
        {PH : PasswordHasher} {AG : Aes256Gcm} {PC : PayloadCipher} {H : Sha256}
        {DT : Deserialize TokenResponse} {DJ : Deserialize JwksDocument}.

(** An address of the portal: its root with a marker and a harmless fragment, the one
    of the taken transaction when that stored a safe address. *)
Definition portal_location (env : CallbackEnv) (c : Conn Db) (location : string) : Prop :=
  exists result fragment,
    location = concat_str ["/?"; result_marker result; "#"; fragment] /\ safe_fragment fragment /\
    (fragment = "dashboard" \/ exists t c1 state binding,
       take_transaction env state binding c = (Ok t, c1) /\
       (normalize_return_to (Some (Oidc.return_to t)) = Oidc.return_to t ->
        Oidc.return_to t = String.append "/#" fragment)).

Lemma default_location env c result : portal_location env c (callback_target default_return_to result).
Proof. exists result, "dashboard". repeat split; try done. by left. Qed.

Lemma stored_location env c state binding t c1 result :
  take_transaction env state binding c = (Ok t, c1) -> portal_location env c (callback_target (Oidc.return_to t) result).
Proof.
  intros Ht. destruct (callback_target_shape (Oidc.return_to t) result) as (f & Hf & Hs & Hk).
  exists result, f. split_and!; try done. right. by exists t, c1, state, binding.
Qed.

(** C36: A callback never redirects away from the portal: whatever the query, the
    stored transaction and the provider say, the browser is sent to the root of the
    portal with one of six markers and a fragment of harmless characters, the stored one
    when the sign-in stored a safe address. *)
Theorem callback_stays_on_portal env config request client query cache c r c' :
  finish_entra_login env config request client query cache c = (Ok r, c') -> portal_location env c (er_location r).
Proof.
  unfold finish_entra_login. cbv zeta. intros Hf.
  destruct (entra config) as [e|]; [|injection Hf as <- _; apply default_location].
  destruct (keep_if _ (eq_state query)) as [state|]; [|injection Hf as <- _; apply default_location].
  destruct (keep_if _ (get_cookie request _)) as [binding|]; [|injection Hf as <- _; apply default_location].
  unfold catch at 1 in Hf. destruct (take_transaction env state binding c) as [[t|er|] c1] eqn:Ht;
    [|injection Hf as <- _; apply default_location|done].
  destruct (eq_error query); [injection Hf as <- _; by eapply stored_location|].
  destruct (callback_result _ _ _ _ _ _ _) as [cache' m]. unfold catch in Hf.
  destruct (m c1) as [[cookies|er|] c2]; [..|done]; injection Hf as <- _; by eapply stored_location.
Qed.
End Redirects.

Lemma callback_stays_on_portal_witness :
  exists r c', finish_entra entra_conn = (Ok r, c') /\
    exists result fragment, er_location r = concat_str ["/?"; result_marker result; "#"; fragment] /\ safe_fragment fragment.
Proof.
  assert (Hp : forall c r c', finish_entra c = (Ok r, c') ->
    exists result fragment, er_location r = concat_str ["/?"; result_marker result; "#"; fragment] /\ safe_fragment fragment).
  { intros c r c' Hf. apply callback_stays_on_portal in Hf as (result & fragment & Hl & Hs & _).
    exists result, fragment. split; [exact Hl|exact Hs]. }
  specialize (Hp entra_conn). revert Hp. generalize finish_entra_signs_in.
  generalize (finish_entra entra_conn). intros [[r|e|] c'] Hs Hp; try discriminate Hs.
  exists r, c'. split; [reflexivity|]. exact (Hp r c' eq_refl).
Defined.

(** ** Provisioned names *)

Definition name_char (a : ascii) : bool :=
  is_ascii_alphanumeric a || existsb (Ascii.eqb a) ["."%char; "_"%char; "-"%char].

Definition name_text (s : string) : bool := all_chars name_char s.

Lemma name_char_ascii a : name_char a = true -> ascii_char a = true.
Proof.
  unfold name_char, ascii_char, is_ascii_alphanumeric. rewrite Nat.ltb_lt. intros [Ha|Ha]%orb_true_iff.
  - rewrite !orb_true_iff, !andb_true_iff, !Nat.leb_le in Ha. lia.
  - apply existsb_exists in Ha as (x & Hx & ->%Ascii.eqb_eq). simpl in Hx.
    destruct Hx as [<-|[<-|[<-|[]]]]; by apply Nat.ltb_lt.
Qed.

Lemma concat_name l : Forall (fun c => name_text c = true) l -> name_text (concat_str l) = true.
Proof. induction 1 as [|c l Hc _ IH]; [done|]. simpl. unfold name_text in *. by rewrite all_chars_app, Hc, IH. Qed.

Lemma name_chars s : name_text s = true -> Forall (fun c => name_text c = true /\ byte_len c = 1) (chars s).
Proof.
  intros Hs. rewrite chars_of_ascii by (eapply all_chars_impl; [|exact Hs]; apply name_char_ascii).
  unfold name_text in *. induction s as [|a s IH]; [constructor|]. simpl in *. apply andb_prop in Hs as [Ha Hs].
  constructor; [split; [cbn; by rewrite Ha|done]|by apply IH].
Qed.

Lemma drop_while_elem {A} (P : A -> bool) l x : x ∈ drop_while P l -> x ∈ l.
Proof. destruct (drop_while_split P l) as [k Hk]. rewrite Hk at 2. set_solver. Qed.

Lemma trimmed_elem (P : string -> bool) l x : x ∈ trimmed_chars P l -> x ∈ l.
Proof.
  unfold trimmed_chars. rewrite list_elem_of_In, <- in_rev, <- list_elem_of_In. intros H%drop_while_elem.
  rewrite list_elem_of_In, <- in_rev, <- list_elem_of_In in H. by eapply drop_while_elem.
Qed.

Lemma mapped_name l :
  Forall (fun c => name_text c = true)
    (map (fun c => if alphanumeric_char c || username_separator c then c else "-") l).
Proof.
  apply Forall_forall. intros x (c & -> & _)%list_elem_of_fmap. case_match eqn:E; [|done].
  apply orb_prop in E as [E|E].
  - destruct c as [|a [|b c]]; try done. simpl in E. unfold name_text, name_char. simpl. by rewrite E.
  - apply existsb_exists in E as (y & Hy & ->%str_eqb_eq). simpl in Hy. by destruct Hy as [<-|[<-|[<-|[]]]].
Qed.

(** The part of a name before the object id. *)
Lemma jit_prefix claims : exists base, name_text base = true /\ base <> "" /\
  let suffix := without_hyphens (vc_object_id claims) in
  jit_username claims = String.append (take_chars (64 - (String.length suffix + 1)) base) (String "-" suffix).
Proof.
  set (base := concat_str (map (fun c => if alphanumeric_char c || username_separator c then c else "-")
    (chars (to_ascii_lowercase (default "entra" (before_at <$> vc_preferred_username claims)))))).
  set (trimmed := concat_str (trimmed_chars username_separator (chars base))).
  exists (if is_empty trimmed then "entra" else trimmed). split_and!.
  - destruct (is_empty trimmed); [done|]. apply concat_name, Forall_forall. intros c Hc%trimmed_elem.
    assert (name_text base = true) as Hb by apply concat_name, mapped_name.
    apply name_chars in Hb. rewrite Forall_forall in Hb. by apply Hb.
  - destruct (is_empty trimmed) eqn:E; [done|]. intros Hz. by rewrite Hz in E.
  - cbv zeta. rewrite <- (str_app_empty (without_hyphens _)) at 2. done.
Qed.

Lemma take_name_chars n s : name_text s = true ->
  name_text (take_chars n s) = true /\ byte_len (take_chars n s) <= Z.of_nat n.
Proof.
  intros Hs%name_chars. unfold take_chars. apply (Forall_take _ n) in Hs.
  pose proof (firstn_le_length n (chars s)) as Hn. revert Hs Hn. generalize (take n (chars s)). intros l Hl Hn.
  split; [apply concat_name; eapply Forall_impl; [exact Hl|]; by intros ? [? _]|].
  assert (byte_len (concat_str l) = Z.of_nat (length l)) as ->; [|lia].
  clear Hn. induction Hl as [|c l [_ Hc] _ IH]; [done|]. simpl. rewrite byte_len_app, Hc, IH. lia.
Qed.

Lemma without_hyphens_plain s : all_chars (fun a => negb (Ascii.eqb "-"%char a)) (without_hyphens s) = true.
Proof.
  induction s as [|a s IH]; [done|]. cbn [without_hyphens].
  destruct (Ascii.eqb_spec a "-"%char) as [|Ha]; [done|]. cbn [all_chars]. rewrite IH.
  destruct (Ascii.eqb_spec "-"%char a); [by subst|done].
Qed.

Lemma without_hyphens_text s :
  (name_text s = true -> name_text (without_hyphens s) = true) /\ byte_len (without_hyphens s) <= byte_len s.
Proof.
  unfold byte_len, name_text. induction s as [|a s [IH1 IH2]]; [done|]. simpl. split.
  - intros [Ha Hs]%andb_prop. destruct (Ascii.eqb a "-"%char); [auto|]. simpl. rewrite Ha. auto.
  - destruct (Ascii.eqb a "-"%char); cbn [String.length]; lia.
Qed.

(** The segment after the last separator. *)
Lemma split_last (P : ascii -> bool) s x t : P x = true -> all_chars (fun a => negb (P a)) t = true ->
  last (split_on P (String.append s (String x t))) = Some t.
Proof.
  intros Hx Ht. assert (exists segs, split_on P (String.append s (String x t)) = segs ++ [t] /\ segs <> []) as (segs & -> & _).
  { induction s as [|a s (segs & IH & Hn)].
    - exists [""]. rewrite str_app_nil. simpl. by rewrite Hx, split_on_none.
    - rewrite str_app_cons. simpl. rewrite IH. destruct (P a); [by exists ("" :: segs)|].
      destruct segs as [|y segs]; [done|]. by exists (String a y :: segs). }
  by rewrite last_snoc.
Qed.

(** The account provisioned for an Entra object gets a name that fits the portal:
    at most 64 characters, letters, digits, dots, underscores and hyphens, whatever
    the provider reports as the user's name; and two objects with different ids never
    get the same name. *)
Theorem provisioned_names_are_valid_and_distinct claims :
  name_text (vc_object_id claims) = true -> byte_len (vc_object_id claims) <= 63 ->
  name_text (jit_username claims) = true /\ 0 < byte_len (jit_username claims) <= 64 /\
  forall other, jit_username other = jit_username claims ->
    without_hyphens (vc_object_id other) = without_hyphens (vc_object_id claims).
Proof.
  intros Hid Hlen. destruct (jit_prefix claims) as (base & Hb & _ & Hshape). cbv zeta in Hshape.
  destruct (without_hyphens_text (vc_object_id claims)) as [Hsuf Hsl]. specialize (Hsuf Hid).
  set (n := (64 - (String.length (without_hyphens (vc_object_id claims)) + 1))%nat) in *.
  destruct (take_name_chars n base Hb) as [Ht Htl].
  split_and!.
  - rewrite Hshape. unfold name_text in *. rewrite all_chars_app, Ht. cbn [all_chars]. by rewrite Hsuf.
  - rewrite Hshape, byte_len_app. unfold byte_len. cbn [String.length]. lia.
  - rewrite Hshape, byte_len_app. unfold byte_len in *. cbn [String.length]. unfold n in *. lia.
  - intros other Ho. destruct (jit_prefix other) as (base' & _ & _ & Hname'). cbv zeta in Hname'.
    rewrite Hshape, Hname' in Ho.
    apply (f_equal (fun s => last (split_on (Ascii.eqb "-"%char) s))) in Ho.
    rewrite !split_last in Ho by (done || apply without_hyphens_plain). by injection Ho.
Qed.

Lemma provisioned_names_are_valid_and_distinct_witness :
  let claims := mkValidatedEntraClaims "sub" "tenant" "33333333-3333-4333-8333-333333333333"
                  (Some "Ada.Lovelace+portal@example.com") None None in
  jit_username claims = "ada.lovelace-portal-33333333333343338333333333333333" /\
  name_text (jit_username claims) = true.
Proof.
  split; [vm_compute; reflexivity|].
  apply provisioned_names_are_valid_and_distinct; [vm_compute; reflexivity|vm_compute; discriminate].
Defined.

(** ** Refreshing the keys of the provider *)

Section Refresh.
Context {JW : JsonWebToken} {DJ : Deserialize JwksDocument} (config : EntraConfig).

(** One use of the key cache, in the order in which the lock is taken. *)
Record KeyCall := mkKeyCall {
  kc_peer : Http.Request -> option StreamedResponse;
  kc_kid : string;
  kc_now : Z;
  kc_later : Z
}.

Definition key_call (call : KeyCall) (cache : JwksCacheState) : Result EntraFlowError DecodingKey * JwksCacheState :=
  decoding_key (kc_peer call) config (kc_kid call) (kc_now call) (kc_later call) cache.

Definition fresh (call : KeyCall) (cache : JwksCacheState) : bool :=
  within_last (kc_now call) (i64_as_u64 (jwks_cache_seconds config)) (fetched_at cache).

(** The call refreshes a fresh cache because its key is unknown. *)
Definition forced (call : KeyCall) (cache : JwksCacheState) : bool :=
  fresh call cache && bool_decide (cached_key cache (kc_kid call) = None)
  && negb (within_last (kc_now call) UNKNOWN_KID_REFRESH_COOLDOWN_SECONDS (last_unknown_kid_refresh_at cache)).

(** The times of the forced refreshes of a sequence of calls. *)
Fixpoint forced_refreshes (calls : list KeyCall) (cache : JwksCacheState) : list Z :=
  match calls with
  | [] => []
  | call :: calls' =>
      (if forced call cache then [kc_now call] else [])
      ++ forced_refreshes calls' (snd (key_call call cache))
  end.

Lemma refresh_key_refresh peer kid later cache :
  last_unknown_kid_refresh_at (snd (refresh_key peer config kid later cache)) = last_unknown_kid_refresh_at cache.
Proof. unfold refresh_key. by destruct (fetch_jwks peer config). Qed.

Definition cooldown : Z := UNKNOWN_KID_REFRESH_COOLDOWN_SECONDS * second.

Lemma key_call_refresh call cache :
  last_unknown_kid_refresh_at (snd (key_call call cache)) =
  if forced call cache then Some (kc_now call) else last_unknown_kid_refresh_at cache.
Proof.
  unfold key_call, decoding_key, forced, fresh. destruct (within_last _ _ (fetched_at cache)); cbn [andb].
  - destruct (cached_key cache (kc_kid call)) as [key|]; [by rewrite bool_decide_false|].
    rewrite bool_decide_true by done. cbn [andb]. destruct (within_last _ _ _); [done|].
    cbn [negb]. by rewrite refresh_key_refresh.
  - apply refresh_key_refresh.
Qed.

Lemma forced_after call cache last :
  forced call cache = true -> last_unknown_kid_refresh_at cache = Some last -> last + cooldown <= kc_now call.
Proof.
  unfold forced, cooldown. intros [_ H]%andb_prop Hl. rewrite Hl in H. apply negb_true_iff in H. simpl in H.
  unfold elapsed, UNKNOWN_KID_REFRESH_COOLDOWN_SECONDS, second in *. lia.
Qed.

Lemma forced_spread calls cache :
  StronglySorted (fun a b => a + cooldown <= b) (forced_refreshes calls cache) /\
  Forall (fun t => forall last, last_unknown_kid_refresh_at cache = Some last -> last + cooldown <= t)
    (forced_refreshes calls cache).
Proof.
  revert cache. induction calls as [|call calls IH]; intros cache; simpl; [by repeat constructor|].
  destruct (IH (snd (key_call call cache))) as [Hs Hf]. pose proof (key_call_refresh call cache) as Hr.
  destruct (forced call cache) eqn:E; simpl; [|by rewrite Hr in Hf].
  rewrite Hr in Hf.
  assert (Forall (fun t => kc_now call + cooldown <= t) (forced_refreshes calls (snd (key_call call cache)))) as Hn.
  { eapply Forall_impl; [exact Hf|]. auto. }
  split; [by constructor|]. constructor; [intros last; by apply forced_after|].
  eapply Forall_impl; [exact Hn|]. intros t Ht last Hl. pose proof (forced_after _ _ _ E Hl).
  unfold cooldown, UNKNOWN_KID_REFRESH_COOLDOWN_SECONDS, second in *. lia.
Qed.

(** Id tokens with unknown key ids cannot make the portal hammer the provider:
    whatever sequence of callbacks uses the key cache, the refreshes they force on a fresh
    cache are at least thirty seconds apart, and any other call on a fresh cache
    answers from the cache alone. *)
Theorem unknown_keys_refresh_rarely calls cache :
  StronglySorted (fun a b => a + cooldown <= b) (forced_refreshes calls cache) /\
  (forall call cache' peer, fresh call cache' = true -> forced call cache' = false ->
     decoding_key peer config (kc_kid call) (kc_now call) (kc_later call) cache' = key_call call cache' /\
     snd (key_call call cache') = cache').
Proof.
  split; [apply forced_spread|]. intros call cache' peer Hf Hn. unfold key_call, decoding_key, forced, fresh in *.
  rewrite Hf in *. cbn [andb] in Hn. destruct (cached_key cache' (kc_kid call)); [done|].
  rewrite bool_decide_true in Hn by done. cbn [andb] in Hn. apply negb_false_iff in Hn. by rewrite Hn.
Qed.
End Refresh.

(** ** A started sign-in can be finished *)

Definition url_safe_char (a : ascii) : bool := is_ascii_alphanumeric a || existsb (Ascii.eqb a) ["-"%char; "_"%char].

Lemma url_safe_name a : url_safe_char a = true -> name_char a = true.
Proof.
  unfold url_safe_char, name_char. destruct (is_ascii_alphanumeric a); [done|]. cbn [orb existsb].
  intros [->|[->|H]%orb_prop]%orb_prop; rewrite ?orb_true_r; done.
Qed.

Lemma ascii_utf8 s : all_chars ascii_char s = true -> utf8 (bytes s) = true.
Proof.
  induction s as [|a s IH]; [done|]. cbn [all_chars bytes utf8]. intros [Ha Hs]%andb_prop.
  assert (within 0 127 (byte_of a) = true) as ->; [|by apply IH].
  unfold within, byte_of, ascii_char in *. apply Nat.ltb_lt in Ha. apply andb_true_intro. lia.
Qed.

Section Started.
Context {UB : UrlSafeBase64} {OR : OsRandom} {AG : Aes256Gcm} {PC : PayloadCipher} {H : Sha256} {UQ : UrlQuery}.

(** Base64, the random source and AES-GCM: the alphabet and the inverse of the
    encoding, the number of random bytes, a ciphertext that carries its tag, and
    decryption with the same key, nonce and associated data. *)
Hypothesis url_safe_alphabet : forall s, all_chars url_safe_char (url_safe_encode s) = true.
Hypothesis url_safe_inverse : forall s, url_safe_decode (url_safe_encode s) = Some s.
Hypothesis random_length : forall draw n, byte_len (random_bytes draw n) = Z.of_nat n.
Hypothesis tagged : forall key nonce p aad ciphertext, payload_encrypt key nonce p aad = Some ciphertext -> ciphertext <> "".
Hypothesis authentic : forall key nonce p aad ciphertext,
  payload_encrypt key nonce p aad = Some ciphertext -> payload_decrypt key nonce ciphertext aad = Some p.

Lemma url_safe_without_dot s : all_chars (fun a => negb (Ascii.eqb dot a)) (url_safe_encode s) = true.
Proof.
  eapply all_chars_impl; [|apply url_safe_alphabet]. intros a Ha. apply negb_true_iff.
  destruct (Ascii.eqb_spec dot a) as [<-|]; [done|done].
Qed.

Lemma transaction_secret_round_trip draw plaintext state_hash key text :
  encrypt_transaction_secret draw plaintext state_hash key = inr text -> utf8 (bytes plaintext) = true ->
  decrypt_transaction_secret text state_hash key = inr plaintext.
Proof.
  unfold encrypt_transaction_secret. intros He Hu. step_result He ck Hc. step_result He ciphertext Hp.
  apply (inj inr) in He. subst text.
  assert (split_on (Ascii.eqb dot)
    (concat_str ["v1."; url_safe_encode (random_bytes draw 12); "."; url_safe_encode ciphertext]) =
    ["v1"; url_safe_encode (random_bytes draw 12); url_safe_encode ciphertext]) as Hsplit.
  { change (concat_str ["v1."; url_safe_encode (random_bytes draw 12); "."; url_safe_encode ciphertext])
      with (String.append "v1" (String dot (String.append (url_safe_encode (random_bytes draw 12))
              (String dot (String.append (url_safe_encode ciphertext) ""))))).
    rewrite str_app_empty, split_on_app, split_on_app, split_on_none by (done || apply url_safe_without_dot). done. }
  unfold decrypt_transaction_secret. cbv zeta. rewrite Hsplit. cbn [lookup list_lookup].
  rewrite bool_decide_true by done. cbn [mbind option_bind]. rewrite !url_safe_inverse. cbn [keep_if].
  rewrite random_length. cbn [and_then some_or]. change (Z.of_nat 12 =? 12) with true. cbn [and_then some_or].
  destruct (is_empty ciphertext) eqn:E; [apply str_eqb_eq in E; by apply tagged in Hp|].
  cbn [negb and_then some_or]. rewrite bool_decide_true by done. unfold transaction_cipher. rewrite Hc. cbn [and_then some_or].
  rewrite (authentic _ _ _ _ _ Hp). cbn [and_then some_or]. by rewrite Hu.
Qed.

Lemma create_bounded_stores t now max c t' c' : aborted c = false ->
  OidcLoginTransactionRepository.create_bounded t now max c = (Ok (Some t'), c') ->
  t' ∈ oidc_login_transactions (db c') /\
  exists stored_at i, t' = OidcLoginTransactionRepository.of_new t stored_at i.
Proof.
  intros Ha. unfold OidcLoginTransactionRepository.create_bounded, query_transaction.
  pose proof (transaction_effect id _ c _ Ha (create_bounded_effect t now max (db c))) as He.
  intros E. rewrite E in He. cbv zeta in He. destruct He as (_ & -> & He).
  split; [apply elem_of_app; right; left|done].
Qed.

(** C37: A sign-in the portal started can be finished by the browser that started it: the
    state in the authorization address and the binding in the cookie are those of the
    stored transaction, which is presented until it expires, its stored verifier
    decrypts to the one whose challenge the provider was given, and the return address is the
    normalized one. *)
Theorem started_login_can_be_finished draw config return_to c url cookies c1 :
  top c -> start_entra_login draw config return_to c = (Ok (url, cookies), c1) ->
  exists e state binding verifier t ttl,
    entra config = Some e /\ duration_seconds (transaction_ttl_seconds e) = Some ttl /\
    build_authorization_url e state (Oidc.nonce t) verifier = inr url /\
    cookies = [AddCookie (oidc_cookie binding config e)] /\
    t ∈ oidc_login_transactions (db c1) /\ Oidc.expires_at t = reading c + ttl /\
    (forall now, now < Oidc.expires_at t ->
       OidcLoginTransactionRepository.presented (sha256_hex state) (sha256_hex binding) now t = true) /\
    decrypt_transaction_secret (Oidc.pkce_verifier_ciphertext t) (Oidc.state_hash t) (transaction_key e) = inr verifier /\
    Oidc.return_to t = normalize_return_to return_to.
Proof.
  unfold start_entra_login. intros Ht Hs. step_ok Hs e He. cbv zeta in Hs.
  apply bind_ok in Hs as (text & c2 & Htext & Hs). apply map_err_ok, lift_ok in Htext as [Htext ->].
  step_ok Hs now Hn. injection Hn as <- <-. step_ok Hs ttl Httl. step_ok Hs expires Hexp.
  step_ok Hs created Hcr. destruct created as [t|]; [|done].
  apply bind_ok in Hs as (link & c3 & Hlink & Hs). apply map_err_ok, lift_ok in Hlink as [Hlink ->].
  injection Hs as <- <- <-. apply create_bounded_stores in Hcr as (Hin & at_ & i & ->); [|apply Ht].
  do 6 eexists. split_and!; try done; [exact Hlink|..].
  - unfold datetime_add in Hexp. cbn. case_match; [|done]. by injection Hexp as <-.
  - intros now Hnow. unfold OidcLoginTransactionRepository.presented, OidcLoginTransactionRepository.pending_at.
    cbn in *. rewrite !str_eqb_refl. cbn. lia.
  - cbn. eapply transaction_secret_round_trip; [exact Htext|]. apply ascii_utf8. unfold random_urlsafe.
    eapply all_chars_impl; [|apply url_safe_alphabet]. intros a Ha. by apply name_char_ascii, url_safe_name.
Qed.
End Started.

(** A cipher that adds a tag, with an encoding in letters. *)
Definition nibble_url_safe : UrlSafeBase64 := {| url_safe_encode := to_nibbles; url_safe_decode := of_nibbles |}.

Definition tagging_payloads : @PayloadCipher entra_cipher :=
  {| payload_encrypt := fun _ _ p _ => Some (String "T" p);
     payload_decrypt := fun _ _ c _ => match c with String _ p => Some p | EmptyString => None end |}.

Definition same_url : UrlQuery := {| append_pairs := fun url _ => Some url |}.

Lemma nibble_url_safe_char s : all_chars url_safe_char (to_nibbles s) = true.
Proof.
  assert (Hn : forall n, (n < 16)%nat -> url_safe_char (nibble n) = true).
  { intros n Hn. do 16 (destruct n as [|n]; [reflexivity|]). lia. }
  induction s as [|a s IH]; [done|]. cbn [to_nibbles all_chars]. rewrite IH, !Hn; [done|..].
  - apply Nat.mod_upper_bound. lia.
  - apply Nat.Div0.div_lt_upper_bound. pose proof (nat_ascii_bounded a). lia.
Qed.

Lemma repeated_length n : byte_len (repeated n) = Z.of_nat n.
Proof.
  unfold byte_len. f_equal. unfold repeated. induction n as [|n IH]; [done|]. cbn [Nat.iter nat_rect String.length].
  by f_equal.
Qed.

Definition start_entra (c : Conn Db) : outcome ApiError (string * list CookieChange) * Conn Db :=
  @start_entra_login entra_cipher tagging_payloads nibble_url_safe entra_random plain_hash same_url 0 entra_app
    (Some "/#work") c.

Lemma start_entra_starts :
  match fst (start_entra (calm empty_db 0 [] 1)) with Ok _ => true | _ => false end = true.
Proof. vm_compute. reflexivity. Qed.

Lemma started_login_can_be_finished_witness :
  exists url cookies c1, start_entra (calm empty_db 0 [] 1) = (Ok (url, cookies), c1) /\
    exists t, t ∈ oidc_login_transactions (db c1) /\ Oidc.return_to t = "/#work".
Proof.
  assert (Hp : forall c url cookies c1, top c -> start_entra c = (Ok (url, cookies), c1) ->
    exists t, t ∈ oidc_login_transactions (db c1) /\ Oidc.return_to t = "/#work").
  { intros c url cookies c1 Ht Hs. unfold start_entra in Hs.
    apply (@started_login_can_be_finished nibble_url_safe entra_random entra_cipher tagging_payloads plain_hash same_url
             nibble_url_safe_char nibbles_inverse (fun _ => repeated_length)
             ltac:(intros ? ? ? ? ? [= <-]; discriminate) ltac:(intros ? ? ? ? ? [= <-]; reflexivity)) in Hs
      as (e & state & binding & verifier & t & ttl & _ & _ & _ & _ & Hin & _ & _ & _ & Hr); [|exact Ht].
    exists t. split; [exact Hin|]. rewrite Hr. vm_compute. reflexivity. }
  specialize (Hp (calm empty_db 0 [] 1)). revert Hp. generalize start_entra_starts.
  generalize (start_entra (calm empty_db 0 [] 1)). intros [[[url cookies]|e|] c1] Hs Hp; try discriminate Hs.
  exists url, cookies, c1. split; [reflexivity|]. exact (Hp url cookies c1 (conj eq_refl eq_refl) eq_refl).
Defined.
