(* ===== verification/Commands.v ===== *)
(** The administrative commands: [src/src/commands.rs] (accounts) and
    [src/src/bin/cli.rs] (the arguments, and linking an account to an Entra identity).
    clap, the database connection, argon2 and what is printed are parameters. *)
From S2P Require Import Prelude Logic Text Models Schema Api Validation Access Sessions Accounts AuditLogs.
From S2P Require Import SingleSignOn Config Values AdapterValues Http Authn EntraLogin.
From Stdlib Require Import Ascii.

Open Scope Z_scope.
Open Scope portal_scope.

(** ** Commands on accounts *)

(** A command ends with a value or panics. *)
Definition Command (A : Type) : Type := M Db Empty_set A.

(** [Result::unwrap]. *)
Definition unwrap {A} (m : Query A) : Command A :=
  catch m (fun r => match r with inr a => ret a | inl _ => panic end).

(** [establish]: the database the URL leads to, with the answer to
    [SELECT current_database()]; the result is [None] when the command panics. *)
Definition load_db_connection {UP : UrlParser} (env : Environ) (establish : string -> option (option string))
    : option string :=
  match env "DATABASE_URL" with
  | Present database_url =>
      let environment := match env "APP_ENV" with Present v => v | _ => "development" end in
      match validate_test_database_url environment database_url "DATABASE_URL" with
      | inl _ => None
      | inr test_target =>
          match establish database_url with
          | None => None
          | Some actual =>
              match test_target with
              | Some target =>
                  match verify_test_database_connection actual target "DATABASE_URL" with
                  | inr _ => Some database_url
                  | inl _ => None
                  end
              | None => Some database_url
              end
          end
      end
  | _ => None
  end.

(** [slice::sort] and [Vec::dedup] on texts. *)
Definition text_leb : string -> string -> bool := lex_leb [fun s t => String.compare s t].

Fixpoint dedup_texts (l : list string) : list string :=
  match l with
  | [] => []
  | x :: l' => match dedup_texts l' with
               | y :: r => if x =s y then y :: r else x :: y :: r
               | [] => [x]
               end
  end.

Definition normalized_roles (role_codes : list string) : list string :=
  let roles := flat_map (fun role =>
    List.filter (fun role => negb (is_empty role)) (map trim (split_on (Ascii.eqb ","%char) role))) role_codes in
  let roles := match roles with [] => ["admin"; "member"] | _ => roles end in
  dedup_texts (order_by text_leb roles).

Definition role_codes_summary (roles : list Roles.Role) : string := join "," (map Roles.code roles).

Section Accounts.
Context {U : Unicode} {PH : PasswordHasher}.

(** [hash_password], with the draw of its salt; [None] is a panic. *)
Definition hash_password_with (draw : nat) (password : string) : option string :=
  hash_password password (generate_salt draw).

(** The line each command prints last holds the roles. *)
Definition create_user (draw : nat) (username password : string) (role_codes : list string)
    : Command (Users.User * string) :=
  let username := canonical_username username in
  password <- or_panic (hash_password_with draw password) ;;
  user <- unwrap (UserRepository.create (NewUsr.mkNewUser username password) role_codes) ;;
  roles <- unwrap (RoleRepository.find_by_user user) ;;
  ret (user, role_codes_summary roles).

Definition ensure_role (user_id : Z) (role_code : string) : Command unit :=
  role <- unwrap (RoleRepository.find_or_create_by_code role_code) ;;
  unwrap (UserRoleRepository.assign_if_missing user_id (Roles.id role)) ;;;
  ret tt.

Definition ensure_admin_user (draw : nat) (username password : string) (role_codes : list string)
    (reset_password : bool) : Command (Users.User * string) :=
  let username := canonical_username username in
  let role_codes := normalized_roles role_codes in
  user <- catch (UserRepository.find_by_username username) (fun r =>
    match r with
    | inr user =>
        if reset_password then
          password <- or_panic (hash_password_with draw password) ;;
          unwrap (UserRepository.update_password (Users.id user) password)
        else ret user
    | inl DNotFound =>
        password <- or_panic (hash_password_with draw password) ;;
        unwrap (UserRepository.create (NewUsr.mkNewUser username password) [])
    | inl _ => panic
    end) ;;
  for_each role_codes tt (fun _ role_code => ensure_role (Users.id user) role_code) ;;;
  roles <- unwrap (RoleRepository.find_by_user user) ;;
  ret (user, role_codes_summary roles).

(** One line per user. *)
Definition user_line (u : Users.User * list (URole.UserRole * Roles.Role)) : string :=
  concat_str ["id="; int_to_string (Users.id (fst u)); " username="; Users.username (fst u);
              " roles="; join "," (map (fun p => Roles.code (snd p)) (snd u))].

Definition list_users : Command (list string) :=
  users <- unwrap UserRepository.find_with_roles ;;
  ret (map user_line users).

Definition delete_user (id : Z) : Command unit :=
  unwrap (UserRepository.delete id) ;;;
  ret tt.

End Accounts.

(** The arguments of [users ensure-admin] with their defaults from the environment. *)
Record EnsureAdminMatches := mkEnsureAdminMatches {
  ea_username : option string;
  ea_password : option string;
  ea_roles : option (list string);
  ea_reset_password : bool
}.

Definition env_text (env : Environ) (name : string) : option string :=
  match env name with Present v => Some v | _ => None end.

Definition ensure_admin_arguments (env : Environ) (m : EnsureAdminMatches)
    : string * string * list string * bool :=
  (default "admin" (or_else (ea_username m) (env_text env "SEED_ADMIN_USERNAME")),
   default "admin123" (or_else (ea_password m) (env_text env "SEED_ADMIN_PASSWORD")),
   default ["admin"; "member"]
     (match ea_roles m with
      | Some roles => Some roles
      | None => (fun roles => [roles]) <$> env_text env "SEED_ADMIN_ROLES"
      end),
   ea_reset_password m || bool_decide (env_text env "SEED_ADMIN_RESET_PASSWORD" = Some "true")).

(** ** Linking an account to an Entra identity *)

Inductive LinkEntraError :=
  | LinkConfig (message : string)
  | LinkDatabaseConnection
  | LinkDatabase
  | LinkUserNotFound (message : string)
  | LinkConflict (message : string).

Definition link_error_text (e : LinkEntraError) : string :=
  match e with
  | LinkConfig message | LinkUserNotFound message | LinkConflict message => message
  | LinkDatabaseConnection => "cannot connect to Postgres"
  | LinkDatabase => "database operation failed"
  end.

Inductive UserSelector :=
  | ById (id : Z)
  | ByUsername (username : string).

Record CliUser := mkCliUser { cu_id : Z; cu_username : string }.

Record ExistingIdentity := mkExistingIdentity {
  xi_id : Z;
  xi_user_id : Z;
  xi_issuer : string;
  xi_subject : option string
}.

Inductive LinkOutcome := LinkCreated | SubjectAdded | AlreadyLinked.

Definition link_status (o : LinkOutcome) : string :=
  match o with
  | LinkCreated => "created"
  | SubjectAdded => "subject-added"
  | AlreadyLinked => "already-linked"
  end.

Definition parse_subject (v : string) : Result string string :=
  if is_empty v then inl "subject must not be empty"
  else if (255 <? char_count v)%nat then inl "subject must be at most 255 characters"
  else if has_control v then inl "subject must not contain control characters"
  else inr v.

(** The arguments clap accepted; [lm_object_id] is the hyphenated text of the UUID. *)
Record LinkMatches := mkLinkMatches {
  lm_user_id : option Z;
  lm_username : option string;
  lm_object_id : string;
  lm_subject : option string
}.

Definition Link (A : Type) : Type := M Db LinkEntraError A.

(** [From<diesel::result::Error>]. *)
Definition link {A} (m : Query A) : Link A := map_err (fun _ => LinkDatabase) m.

Definition cli_user (u : Users.User) : CliUser := mkCliUser (Users.id u) (Users.username u).

Definition existing_identity (i : Identity.ExternalIdentity) : ExistingIdentity :=
  mkExistingIdentity (Identity.id i) (Identity.user_id i) (Identity.issuer i) (Identity.subject i).

Section Linking.
Context {U : Unicode} {SJ : SerdeJson}.

Definition selected_user (m : LinkMatches) : Result LinkEntraError UserSelector :=
  match lm_user_id m with
  | Some id => inr (ById id)
  | None => match lm_username m with
            | Some username => inr (ByUsername (canonical_username username))
            | None => inl (LinkConfig "a user selector is required")
            end
  end.

Definition selects (s : UserSelector) (u : Users.User) : bool :=
  match s with
  | ById id => Users.id u =? id
  | ByUsername username => to_lowercase (Users.username u) =s canonical_username username
  end.

Definition find_cli_user (s : UserSelector) : Link CliUser :=
  u <- map_err (fun e => match e with
                         | DNotFound => LinkUserNotFound "target user does not exist"
                         | _ => LinkDatabase
                         end) (first_row (exec (sql_select (selects s)))) ;;
  ret (cli_user u).

Definition find_entra_identity (tenant_id object_id : string) : Link (option ExistingIdentity) :=
  i <- link (optional (first_row (exec (sql_select
         (ExternalIdentityRepository.entra_object tenant_id object_id))))) ;;
  ret (existing_identity <$> i).

Definition entra_subject (issuer subject : string) (i : Identity.ExternalIdentity) : bool :=
  (Identity.provider i =s "entra") && (Identity.issuer i =s issuer)
  && holds (eq_text (Identity.subject i) (Some subject)).

Definition find_entra_subject (issuer subject : string) : Link (option ExistingIdentity) :=
  i <- link (optional (first_row (exec (sql_select (entra_subject issuer subject))))) ;;
  ret (existing_identity <$> i).

(** [subject IS NULL OR subject = $1], of the row with this id. *)
Definition takes_subject (id : Z) (subject : string) (i : Identity.ExternalIdentity) : bool :=
  (Identity.id i =? id)
  && holds (tv_or (is_null (Identity.subject i)) (eq_text (Identity.subject i) (Some subject))).

Definition resolve_existing_identity (identity : ExistingIdentity) (user : CliUser) (issuer : string)
    (requested_subject : option string) : Link LinkOutcome :=
  if negb (xi_user_id identity =? cu_id user) then
    fail (LinkConflict (concat_str ["Entra identity is already linked to a different user (user_id=";
                                    int_to_string (xi_user_id identity); ")"]))
  else if negb (xi_issuer identity =s issuer) then
    fail (LinkConflict "Entra identity issuer does not match the enabled configuration")
  else
    match xi_subject identity, requested_subject with
    | Some existing, Some requested =>
        if negb (existing =s requested)
        then fail (LinkConflict "Entra identity is already linked with a different subject")
        else ret AlreadyLinked
    | None, Some subject =>
        other <- find_entra_subject issuer subject ;;
        match other with
        | Some _ => fail (LinkConflict "Entra subject is already linked to another identity")
        | None =>
            updated <- link (affected (exec (sql_update (takes_subject (xi_id identity) subject) (fun now i =>
                         i <| Identity.subject := Some subject |> <| Identity.updated_at := now |>)))) ;;
            if negb (updated =? 1)
            then fail (LinkConflict "Entra identity subject changed concurrently; no link was modified")
            else ret SubjectAdded
        end
    | _, None => ret AlreadyLinked
    end.

(** [ON CONFLICT DO NOTHING]: either unique key of the table. *)
Definition conflicts (issuer tenant_id object_id : string) (subject : option string)
    (i : Identity.ExternalIdentity) : bool :=
  ExternalIdentityRepository.entra_object tenant_id object_id i
  || match subject with Some subject => entra_subject issuer subject i | None => false end.

Definition linked_identity (user : CliUser) (issuer tenant_id object_id : string) (subject : option string)
    (now id : Z) : Identity.ExternalIdentity :=
  Identity.mkExternalIdentity id (cu_id user) "entra" issuer subject tenant_id object_id None None None None now now.

Definition create_entra_identity (user : CliUser) (issuer tenant_id object_id : string)
    (subject : option string) : Link LinkOutcome :=
  match subject with
  | Some subject =>
      other <- find_entra_subject issuer subject ;;
      match other with
      | Some _ => fail (LinkConflict "Entra subject is already linked to another identity")
      | None => ret tt
      end
  | None => ret tt
  end ;;;
  inserted <- link (exec (sql_insert_or_ignore (conflicts issuer tenant_id object_id subject)
                (linked_identity user issuer tenant_id object_id subject))) ;;
  if inserted =? 1 then ret LinkCreated
  else
    identity <- find_entra_identity tenant_id object_id ;;
    identity <- ok_or (LinkConflict "Entra issuer or subject is already linked to another identity") identity ;;
    resolve_existing_identity identity user issuer subject.

Definition write_link_audit (user : CliUser) (tenant_id object_id : string) (outcome : LinkOutcome) : Link unit :=
  let write action :=
    link (exec (sql_insert (fun now id =>
      Audit.mkAuditLog id None action "external_identity"
        (Some (concat_str ["entra:"; tenant_id; ":"; object_id]))
        (json_to_string (JObj [("operation", JStr (link_status outcome)); ("provider", JStr "entra");
           ("target_user_id", JInt (cu_id user)); ("target_username", JStr (cu_username user));
           ("tenant_id", JStr tenant_id); ("object_id", JStr object_id)])) now))) ;;;
    ret tt in
  match outcome with
  | LinkCreated => write "external_identity.linked"
  | SubjectAdded => write "external_identity.subject_added"
  | AlreadyLinked => ret tt
  end.

(** The transaction of [run_link_entra]. *)
Definition link_body (selector : UserSelector) (issuer tenant_id object_id : string) (subject : option string)
    : Link (CliUser * LinkOutcome) :=
  link advisory_xact_lock ;;;
  user <- find_cli_user selector ;;
  existing <- find_entra_identity tenant_id object_id ;;
  outcome <- match existing with
             | Some identity => resolve_existing_identity identity user issuer subject
             | None => create_entra_identity user issuer tenant_id object_id subject
             end ;;
  match outcome with
  | AlreadyLinked => ret tt
  | _ => write_link_audit user tenant_id object_id outcome
  end ;;;
  ret (user, outcome).

Definition link_transaction (selector : UserSelector) (issuer tenant_id object_id : string)
    (subject : option string) : Link (CliUser * LinkOutcome) :=
  transaction (fun _ => LinkDatabase) (link_body selector issuer tenant_id object_id subject).

(** The database is the one the checked URL leads to. *)
Definition run_link_entra {UP : UrlParser} {UU : UuidParser} (env : Environ)
    (establish : string -> option (option string)) (m : LinkMatches) : Link (CliUser * LinkOutcome) :=
  selector <- lift (selected_user m) ;;
  config <- lift (match Config.from_env env with
                  | inr config => inr config
                  | inl error => inl (LinkConfig (ce_message error))
                  end) ;;
  entra <- ok_or (LinkConfig "Entra authentication must be enabled before identities can be linked")
             (entra config) ;;
  database_url <- ok_or (LinkConfig "DATABASE_URL must be set") (env_text env "DATABASE_URL") ;;
  test_target <- lift (match validate_test_database_url (environment config) database_url "DATABASE_URL" with
                       | inr target => inr target
                       | inl error => inl (LinkConfig (ce_message error))
                       end) ;;
  actual <- ok_or LinkDatabaseConnection (establish database_url) ;;
  lift (match test_target with
        | Some target =>
            match verify_test_database_connection actual target "DATABASE_URL" with
            | inr _ => inr tt
            | inl error => inl (LinkConfig (ce_message error))
            end
        | None => inr tt
        end) ;;;
  link_transaction selector (issuer entra) (tenant_id entra) (lm_object_id m) (lm_subject m).
End Linking.
