(* ===== verification/CommandSafety.v ===== *)
(** Properties of the administrative commands of [Commands.v]. *)
From S2P Require Import Prelude Logic Text Models Schema Api Validation Access Sessions Accounts AuditLogs.
From S2P Require Import SingleSignOn Config Values AdapterValues Http Authn DashboardSafety EntraLogin Commands.
From Stdlib Require Import Ascii.
Import ExternalIdentityRepository.

Open Scope Z_scope.
Open Scope portal_scope.

(** ** Linking *)

Section Linking.
Context {U : Unicode} {SJ : SerdeJson}.

(** The exceptional outcomes of a transaction that is rolled back. *)
Definition any_error {E} (e : option E) (ab : bool) (d : Db) : Prop := True.

(** A selection that may find nothing. *)
Lemma find_row_spec {R} {T : Table Db R} (p : R -> bool) d0 :
  hoare (fun d => d = d0) (link (optional (first_row (exec (sql_select p)))))
    (fun o d => d = d0 /\ match o with
                          | Some r => r ∈ rows d0 /\ p r = true
                          | None => forall r, r ∈ rows d0 -> p r = false
                          end) any_error.
Proof.
  apply hoare_map_err, hoare_optional, hoare_first_row, hoare_select; [|done].
  destruct (List.filter p (rows d0)) as [|r l] eqn:E.
  - split; [done|]. split; [done|]. intros r Hr. by eapply filter_nil_inv_b.
  - assert (r ∈ List.filter p (rows d0)) as Hr by (rewrite E; left). by apply elem_of_filter_b in Hr.
Qed.

Lemma find_subject_spec issuer subject d0 :
  hoare (fun d => d = d0) (find_entra_subject issuer subject) (fun _ d => d = d0) any_error.
Proof. eapply hoare_bind; [apply find_row_spec|]. intros o. apply hoare_ret. by intros d [-> _]. Qed.

Lemma find_identity_spec tenant object d0 :
  hoare (fun d => d = d0) (find_entra_identity tenant object)
    (fun o d => d = d0 /\ forall x, o = Some x -> exists i, x = existing_identity i /\
       i ∈ external_identities d0 /\ entra_object tenant object i = true) any_error.
Proof.
  eapply hoare_bind; [apply find_row_spec|]. intros o. apply hoare_ret. intros d [-> Ho]. split; [done|].
  intros x Hx. destruct o as [i|]; [|done]. injection Hx as <-. by exists i.
Qed.

(** [i'] is [i], perhaps with the subject it did not have before. *)
Definition same_link (i i' : Identity.ExternalIdentity) : Prop :=
  Identity.id i' = Identity.id i /\ Identity.user_id i' = Identity.user_id i /\
  Identity.provider i' = Identity.provider i /\ Identity.issuer i' = Identity.issuer i /\
  Identity.tenant_id i' = Identity.tenant_id i /\ Identity.object_id i' = Identity.object_id i /\
  (Identity.subject i' = Identity.subject i \/ Identity.subject i = None).

Definition links_kept (d d' : Db) : Prop :=
  users d' = users d /\ audit_logs d' = audit_logs d /\
  forall i, i ∈ external_identities d -> exists i', i' ∈ external_identities d' /\ same_link i i'.

Lemma same_link_refl i : same_link i i.
Proof. unfold same_link. auto 10. Qed.

Lemma links_kept_refl d : links_kept d d.
Proof. split_and!; try done. intros i Hi. exists i. split; [done|apply same_link_refl]. Qed.

(** The identity of the object is linked to the user as requested. *)
Definition linked (user : CliUser) (issuer tenant object : string) (subject : option string) (d : Db) : Prop :=
  exists i, i ∈ external_identities d /\ entra_object tenant object i = true /\
    Identity.user_id i = cu_id user /\ Identity.issuer i = issuer /\
    forall s, subject = Some s -> Identity.subject i = Some s.

(** What linking did to the database before its audit entry. *)
Definition link_effect (user : CliUser) (issuer tenant object : string) (subject : option string) (d0 : Db)
    (o : LinkOutcome) (d : Db) : Prop :=
  links_kept d0 d /\ linked user issuer tenant object subject d /\ (o = AlreadyLinked -> d = d0).

Lemma resolve_existing_spec i user issuer tenant object subject d0 :
  i ∈ external_identities d0 -> entra_object tenant object i = true ->
  hoare (fun d => d = d0) (resolve_existing_identity (existing_identity i) user issuer subject)
    (link_effect user issuer tenant object subject d0) any_error.
Proof.
  intros Hi Hk. unfold resolve_existing_identity. cbn [existing_identity xi_user_id xi_issuer xi_subject xi_id].
  destruct (Z.eqb_spec (Identity.user_id i) (cu_id user)) as [Hu|]; cbn [negb]; [|by apply hoare_fail].
  destruct (str_eqb_spec (Identity.issuer i) issuer) as [Hs|]; cbn [negb]; [|by apply hoare_fail].
  assert (Halready : (forall s, subject = Some s -> Identity.subject i = Some s) ->
    hoare (fun d => d = d0) (ret (E:=LinkEntraError) AlreadyLinked) (link_effect user issuer tenant object subject d0) any_error).
  { intros Hsub. apply hoare_ret. intros d ->. split_and!; [apply links_kept_refl| |done]. exists i. split_and!; done. }
  destruct (Identity.subject i) as [existing|] eqn:Ei, subject as [s|]; try (by apply Halready).
  - destruct (str_eqb_spec existing s) as [->|]; cbn [negb]; [|by apply hoare_fail]. apply Halready. by intros ? [= <-].
  - eapply hoare_bind; [apply find_subject_spec|]. intros [other|]; [by apply hoare_fail|].
    eapply (hoare_bind _ _ _ (fun _ d => exists now, d = d0 <| external_identities :=
      map (fun r => if takes_subject (Identity.id i) s r
                    then r <| Identity.subject := Some s |> <| Identity.updated_at := now |> else r)
        (external_identities d0) |>)).
    { apply hoare_map_err, hoare_affected, hoare_update; [|done]. intros now d' -> _. by exists now. }
    intros updated. apply hoare_at. intros d [now ->]. destruct (negb _); [by apply hoare_fail|].
    apply hoare_ret. intros d ->. split_and!; [| |done].
    + split_and!; try done. intros x Hx. cbn. eexists. split; [apply list_elem_of_fmap; by exists x|].
      case_match eqn:Et; [|apply same_link_refl]. unfold takes_subject in Et. apply andb_prop in Et as [_ Et].
      unfold same_link. cbn. split_and!; try done. destruct (Identity.subject x) as [y|]; [|by right].
      left. unfold eq_text in Et. simpl in Et. destruct (str_eqb_spec y s) as [Hy|]; [by rewrite Hy|done].
    + cbn. exists (i <| Identity.subject := Some s |> <| Identity.updated_at := now |>). split_and!.
      * apply list_elem_of_fmap. exists i. split; [|done]. unfold takes_subject. by rewrite Z.eqb_refl, Ei.
      * unfold entra_object in *. by cbn.
      * done.
      * done.
      * by intros ? [= <-].
Qed.

Lemma create_identity_spec user issuer tenant object subject d0 :
  hoare (fun d => d = d0) (create_entra_identity user issuer tenant object subject)
    (link_effect user issuer tenant object subject d0) any_error.
Proof.
  unfold create_entra_identity. eapply (hoare_bind _ _ _ (fun _ d => d = d0)).
  { destruct subject as [s|]; [|by apply hoare_ret]. eapply hoare_bind; [apply find_subject_spec|].
    intros [other|]; [by apply hoare_fail|by apply hoare_ret]. }
  intros _. eapply (hoare_bind _ _ _ (fun n d =>
    if n =? 1 then exists now id, d = d0 <| external_identities :=
      external_identities d0 ++ [linked_identity user issuer tenant object subject now id] |> else d = d0)).
  { apply hoare_map_err, hoare_exec; [|done]. intros now n d n' a d' -> H. unfold sql_insert_or_ignore in H.
    destruct (List.filter _ _) as [|x l]; [|by injection H as _ <- <-].
    destruct (sql_insert _ _ _ _) as [m [e|[r d1]]] eqn:E; [done|].
    apply sql_insert_inv in E as (-> & _ & -> & _). injection H as _ <- <-. simpl. eauto. }
  intros n. destruct (n =? 1).
  - apply hoare_ret. intros d (now & id & ->). split_and!; [| |done].
    + split_and!; try done. intros x Hx. exists x. split; [cbn; apply elem_of_app; by left|apply same_link_refl].
    + exists (linked_identity user issuer tenant object subject now id). split_and!; try done.
      * cbn. apply elem_of_app. right. left.
      * unfold entra_object. cbn. by rewrite !str_eqb_refl.
  - eapply hoare_bind; [apply find_identity_spec|]. intros [x|]; [|by apply hoare_fail].
    apply hoare_at. intros d [-> Hx]. destruct (Hx x eq_refl) as (i & -> & Hi & Hk).
    by apply resolve_existing_spec.
Qed.

(** The audit entry of a change. *)
Definition link_audited (o : LinkOutcome) (user : CliUser) (tenant object : string) (d d' : Db) : Prop :=
  match o with
  | AlreadyLinked => d' = d
  | _ => exists entry, audit_logs d' = audit_logs d ++ [entry] /\
           Audit.resource_id entry = Some (concat_str ["entra:"; tenant; ":"; object])
  end.

Definition link_result (selector : UserSelector) (issuer tenant object : string) (subject : option string)
    (d : Db) (r : CliUser * LinkOutcome) (d' : Db) : Prop :=
  (exists u, u ∈ users d /\ selects selector u = true /\ fst r = cli_user u) /\
  linked (fst r) issuer tenant object subject d' /\
  (forall i, i ∈ external_identities d -> exists i', i' ∈ external_identities d' /\ same_link i i') /\
  link_audited (snd r) (fst r) tenant object d d'.

Lemma link_body_spec selector issuer tenant object subject d0 :
  hoare (fun d => d = d0) (link_body selector issuer tenant object subject)
    (link_result selector issuer tenant object subject d0) any_error.
Proof.
  unfold link_body.
  eapply (hoare_bind _ _ _ (fun _ d => d = d0)).
  { apply hoare_map_err. unfold advisory_xact_lock, control. apply hoare_exec; [|done]. by intros ?????? -> [= _ _ <-]. }
  intros _. eapply (hoare_bind _ _ _ (fun user d => d = d0 /\
    exists u, u ∈ users d0 /\ selects selector u = true /\ user = cli_user u)).
  { eapply (hoare_bind _ _ _ (fun u d => d = d0 /\ u ∈ users d0 /\ selects selector u = true)).
    - apply hoare_map_err, hoare_first_row, hoare_select; [|done].
      destruct (List.filter _ _) as [|u l] eqn:E; [done|].
      assert (u ∈ List.filter (selects selector) (users d0)) as Hu by (setoid_rewrite E; left).
      by apply elem_of_filter_b in Hu.
    - intros u. apply hoare_ret. intros d (-> & ? & ?). split; [done|]. by exists u. }
  intros user. apply hoare_at. intros d [-> Hu].
  eapply hoare_bind; [apply find_identity_spec|]. intros existing. apply hoare_at. intros d [-> Hex].
  eapply (hoare_bind _ _ _ (link_effect user issuer tenant object subject d0)).
  { destruct existing as [x|]; [|apply create_identity_spec]. destruct (Hex x eq_refl) as (i & -> & Hi & Hk).
    by apply resolve_existing_spec. }
  intros outcome. apply hoare_at. intros d1 ((Hus & Hau & Hkept) & Hl & Hsame).
  eapply (hoare_bind _ _ _ (fun _ d => external_identities d = external_identities d1 /\
    link_audited outcome user tenant object d0 d)).
  { destruct outcome; cbn [link_audited write_link_audit];
      [eapply (hoare_bind _ _ _ (fun _ d => external_identities d = external_identities d1 /\
         exists entry, audit_logs d = audit_logs d0 ++ [entry] /\
           Audit.resource_id entry = Some (concat_str ["entra:"; tenant; ":"; object])));
       [apply hoare_map_err, hoare_insert; [|done]; intros now n d' -> _; split; [done|]; rewrite <- Hau; eexists; by split
       |intros ?; by apply hoare_ret]..|].
    apply hoare_ret. intros d ->. split; [done|]. by apply Hsame. }
  intros _. apply hoare_ret. intros d [Hids Haud]. unfold link_result, linked. cbn [fst snd]. rewrite Hids. by split_and!.
Qed.

(** C38: Linking an account to an Entra identity never takes an identity away from
    anybody: on success the identity of the object belongs to the selected account under the
    configured issuer and has the requested subject, every stored identity keeps its
    account, issuer, object and subject, and each change is audited in the same
    transaction; a conflict or a failure changes nothing. *)
Theorem linking_never_moves_identities selector issuer tenant object subject c :
  aborted c = false ->
  match link_transaction selector issuer tenant object subject c with
  | (Ok r, c') => link_result selector issuer tenant object subject (db c) r (db c')
  | (_, c') => db c' = db c
  end.
Proof. intros Ha. apply transaction_effect; [done|]. apply link_body_spec. Qed.
End Linking.

(** ** Roles of the administrator *)

Definition text_lt (s t : string) : Prop := String.compare s t = Lt.

Lemma text_leb_cases s t : text_leb s t = true <-> s = t \/ text_lt s t.
Proof.
  unfold text_leb, text_lt. simpl. destruct (String.compare s t) eqn:E; split; try done.
  - intros _. left. by apply String.compare_eq_iff.
  - auto.
  - intros [->|H]; [|done]. pose proof (String.compare_antisym t t) as H. by rewrite E in H.
Qed.

Lemma dedup_texts_elem s l : s ∈ dedup_texts l <-> s ∈ l.
Proof.
  induction l as [|x l IH]; [done|]. cbn [dedup_texts]. rewrite elem_of_cons, <- IH.
  destruct (dedup_texts l) as [|y r]; [set_solver|]. destruct (str_eqb_spec x y) as [->|]; set_solver.
Qed.

Lemma dedup_texts_sorted l : StronglySorted (fun a b => text_leb a b = true) l -> StronglySorted text_lt (dedup_texts l).
Proof.
  induction 1 as [|x l Hs IH Hx]; [constructor|]. cbn [dedup_texts].
  pose proof (fun s => proj1 (dedup_texts_elem s l)) as Hin. destruct (dedup_texts l) as [|y r]; [repeat constructor|].
  destruct (str_eqb_spec x y) as [->|Hne]; [done|]. constructor; [done|].
  rewrite Forall_forall in Hx. assert (text_lt x y) as Hxy.
  { destruct (proj1 (text_leb_cases x y) (Hx y (Hin y ltac:(left)))); done. }
  constructor; [done|]. apply StronglySorted_inv in IH as [_ Hy]. eapply Forall_impl; [exact Hy|].
  intros z Hz. by eapply string_compare_trans.
Qed.

Definition given_roles (role_codes : list string) : list string :=
  flat_map (fun role => List.filter (fun role => negb (is_empty role))
    (map trim (split_on (Ascii.eqb ","%char) role))) role_codes.

(** The roles of [users ensure-admin] are the given ones, split at commas and
    trimmed, or [admin] and [member] when none is given: sorted, without duplicates
    and without empty codes. *)
Theorem normalized_roles_exact role_codes :
  StronglySorted text_lt (normalized_roles role_codes) /\
  (forall role, role ∈ normalized_roles role_codes <->
     role ∈ (match given_roles role_codes with [] => ["admin"; "member"] | given => given end)) /\
  "" ∉ normalized_roles role_codes /\ normalized_roles role_codes <> [].
Proof.
  unfold normalized_roles. fold (given_roles role_codes). set (roles := match given_roles role_codes with [] => _ | _ => _ end).
  assert (Hin : forall role, role ∈ dedup_texts (order_by text_leb roles) <-> role ∈ roles).
  { intros role. by rewrite dedup_texts_elem, elem_of_order_by. }
  split_and!.
  - apply dedup_texts_sorted, order_by_sorted; [apply lex_leb_total|apply lex_leb_trans]; repeat constructor; apply (text_key id).
  - intros role. rewrite Hin. unfold roles. by destruct (given_roles role_codes).
  - rewrite Hin. unfold roles. destruct (given_roles role_codes) as [|x l] eqn:E; [set_solver|]. rewrite <- E.
    unfold given_roles. rewrite list_elem_of_In, in_flat_map. intros (c & _ & Hc).
    apply filter_In in Hc as [_ Hc]. done.
  - intros Hz. assert (roles = []) as Hr.
    { destruct roles as [|x l] eqn:E; [done|]. pose proof (proj2 (Hin x) ltac:(left)) as Hx. rewrite Hz in Hx. set_solver. }
    unfold roles in Hr. by destruct (given_roles role_codes).
Qed.

(** ** A link that is made *)

Definition linking_db : Db := empty_db <| users := [Users.mkUser 7 "ada" "hash" 0] |>.

Definition link_ada (c : Conn Db) : outcome LinkEntraError (CliUser * LinkOutcome) * Conn Db :=
  @link_transaction ascii_unicode {| json_to_string := fun _ => None |} (ByUsername "ada") "issuer" "tenant" "object"
    (Some "sub") c.

Lemma link_ada_links :
  match fst (link_ada (calm linking_db 0 [] 1)) with Ok (_, LinkCreated) => true | _ => false end = true.
Proof. vm_compute. reflexivity. Qed.

Lemma linking_never_moves_identities_witness :
  exists r c', link_ada (calm linking_db 0 [] 1) = (Ok r, c') /\
    linked (fst r) "issuer" "tenant" "object" (Some "sub") (db c').
Proof.
  assert (Hp : forall c, aborted c = false -> match link_ada c with
    | (Ok r, c') => linked (fst r) "issuer" "tenant" "object" (Some "sub") (db c') | _ => True end).
  { intros c Ha. assert (Hl := linking_never_moves_identities (U:=ascii_unicode)
      (SJ:={| json_to_string := fun _ => None |}) (ByUsername "ada") "issuer" "tenant" "object" (Some "sub") c Ha).
    unfold link_ada. destruct (link_transaction _ _ _ _ _ c) as [[r|e|] c']; [apply Hl|exact I..]. }
  specialize (Hp (calm linking_db 0 [] 1) eq_refl). revert Hp. generalize link_ada_links.
  generalize (link_ada (calm linking_db 0 [] 1)). intros [[r|e|] c'] Hs Hp; try discriminate Hs.
  exists r, c'. split; [reflexivity|exact Hp].
Defined.
