(* ===== verification/DemoSeed.v ===== *)
(** The demonstration data: [seed_demo_data] of [src/src/commands.rs] with everything
    it calls. One transaction puts a team, four connectors with their configurations,
    packages, services, notifications, work cards, a calendar event and three finished
    runs into the database, or brings those of an earlier seeding up to date. *)
From S2P Require Import Prelude Logic Text Models Schema Api Access Accounts Runs Records Connections Catalog.
From S2P Require Import Config Values ConnectorRoutes AdapterValues MonitoringAdapter Commands.

Open Scope Z_scope.
Open Scope portal_scope.

Definition DEMO_SOURCE : string := "demo-workday".
Definition DEMO_CALENDAR_SOURCE : string := "demo-calendar".
Definition DEMO_OUTLOOK_SOURCE : string := "demo-outlook-mail".
Definition DEMO_ERP_SOURCE : string := "demo-erp-messages".
Definition DEMO_MAINTAINER_EMAIL : string := "platform-ops@example.test".

Record DemoSeedSummary := mkDemoSeedSummary {
  ds_maintainer_id : Z;
  ds_service_count : nat;
  ds_package_count : nat;
  ds_work_card_count : nat;
  ds_notification_count : nat;
  ds_calendar_event_count : nat;
  ds_connector_run_count : nat
}.

Record DemoProductConnectorSeed := mkDemoProductConnectorSeed {
  dp_source : string;
  dp_kind : string;
  dp_display_name : string;
  dp_target : string;
  dp_schedule_cron : string;
  dp_config : value;
  dp_sample_payload : value
}.

Record SeededRecord := mkSeededRecord {
  sr_record_id : option Z;
  sr_external_id : option string;
  sr_snapshot : option string
}.

(** ** Reading the items back *)

(** [item["key"]]: [Null] for a key that is missing. *)
Definition index (v : value) (k : string) : value := default Null (get v k).

(** [item["key"].as_str()], and the same with [unwrap]. *)
Definition text_at (v : value) (k : string) : option string := as_str (index v k).

Definition text_of {D E} (v : value) (k : string) : M D E string := or_panic (text_at v k).

(** [DateTime + Duration::minutes(n)], a panic outside the range of dates. *)
Definition plus_minutes {D E} (t n : Z) : M D E Z := or_panic (datetime_add t (n * 60 * second)).

Section Seeding.
Context {CT : ChronoText} {VD : ValueDisplay}.

(** [to_rfc3339_opts(SecondsFormat::Secs, true)] *)
Definition time_value (t : Z) : value := Str (rfc3339_seconds t).

(** [DateTime::parse_from_rfc3339(item["key"].as_str().unwrap()).map(..).ok()] *)
Definition time_of {D E} (v : value) (k : string) : M D E (option Z) :=
  s <- text_of v k ;; ret (rfc3339_instant s).

(** ** The team, the connectors and the packages *)

Definition demo_maintainer : NewMaint.NewMaintainer :=
  NewMaint.mkNewMaintainer "Platform Operations" DEMO_MAINTAINER_EMAIL.

Definition ensure_demo_maintainer : Query Maint.Maintainer :=
  existing <- optional (first_row (exec (sql_select (fun m => Maint.email m =s DEMO_MAINTAINER_EMAIL)))) ;;
  match existing with
  | Some maintainer => MaintainerRepository.update (Maint.id maintainer) demo_maintainer
  | None => MaintainerRepository.create demo_maintainer
  end.

(** One item of the health payload; [seed_demo_services] has the same three. *)
Definition service_item (maintainer_id : Z) (id name health_status description : string) (checked : Z) : value :=
  json_object
    [ ("external_id", Str id);
      ("maintainer_id", int_value maintainer_id);
      ("slug", Str id);
      ("name", Str name);
      ("lifecycle_status", Str "active");
      ("health_status", Str health_status);
      ("description", Str description);
      ("repository_url", Str (concat_str ["https://github.com/acme/"; id]));
      ("dashboard_url", Str (concat_str ["https://grafana.acme.test/d/"; id]));
      ("runbook_url", Str (concat_str ["https://docs.acme.test/runbooks/"; id]));
      ("last_checked_at", time_value checked) ].

Definition service_items {D E} (maintainer_id now : Z) : M D E (list value) :=
  checkout <- plus_minutes now (-8) ;;
  build <- plus_minutes now (-13) ;;
  erp <- plus_minutes now (-21) ;;
  ret [ service_item maintainer_id "checkout-api" "Checkout API" "degraded"
          "Handles internal purchase approvals and deployment entitlements." checkout;
        service_item maintainer_id "build-runner" "Build Runner Fleet" "healthy"
          "Ephemeral CI runner pool for backend and frontend builds." build;
        service_item maintainer_id "erp-bridge" "ERP Bridge" "down"
          "Synchronizes ERP approvals and private messages into engineering workflows." erp ].

Definition demo_service_health_payload {D E} (maintainer_id now : Z) : M D E value :=
  items <- service_items maintainer_id now ;;
  ret (json_object [("items", Array items)]).

(** The connector of a source: brought up to date, or created in the given scope. *)
Definition ensure_connector (source kind display_name scope_type : string) (maintainer_id : option Z) : Query unit :=
  catch (ConnectorRepository.find_by_source source) (fun r =>
    match r with
    | inr _ =>
        ConnectorRepository.update_by_source source (ConnUpdate.mkConnectorUpdate kind display_name "active") ;;;
        ret tt
    | inl DNotFound =>
        ConnectorRepository.create
          (NewConn.mkNewConnector source kind display_name "active" scope_type None maintainer_id) ;;;
        ret tt
    | inl error => fail error
    end).

(** [next_run_at] is set to a quarter of an hour from now. *)
Definition defer_first_run (source : string) : Query unit :=
  now <- utc_now ;;
  next_run_at <- plus_minutes now 15 ;;
  exec (sql_update (ConnectorConfigRepository.from_source source) (fun _ k =>
    k <| Config.next_run_at := Some next_run_at |>)) ;;;
  ret tt.

Definition ensure_demo_connector (maintainer_id : Z) : Query unit :=
  ensure_connector DEMO_SOURCE "demo" "Demo Workday Feed" "maintainer" (Some maintainer_id) ;;;
  ConnectorRepository.update_scope DEMO_SOURCE "maintainer" None (Some maintainer_id) ;;;
  now <- utc_now ;;
  payload <- demo_service_health_payload maintainer_id now ;;
  ConnectorConfigRepository.upsert_by_source DEMO_SOURCE
    (ConfigUpdate.mkConnectorConfigUpdate "service_health" true (Some "@every 15m") "{}" (value_text payload)) ;;;
  defer_first_run DEMO_SOURCE.

Definition ensure_demo_product_connector (seed : DemoProductConnectorSeed) : Query unit :=
  ensure_connector (dp_source seed) (dp_kind seed) (dp_display_name seed) "global" None ;;;
  ConnectorConfigRepository.upsert_by_source (dp_source seed)
    (ConfigUpdate.mkConnectorConfigUpdate (dp_target seed) true (Some (dp_schedule_cron seed))
       (value_text (dp_config seed)) (value_text (dp_sample_payload seed))) ;;;
  defer_first_run (dp_source seed).

(** [Utc::now() + Duration::minutes(n)] *)
Definition minutes_from_now {D E} (n : Z) : M D E Z := now <- utc_now ;; plus_minutes now n.

Definition calendar_seed {D E} : M D E DemoProductConnectorSeed :=
  starts_at <- minutes_from_now 30 ;;
  ends_at <- minutes_from_now 60 ;;
  let config := json_object
    [ ("adapter", Str "calendar_sample");
      ("events", Array [json_object
         [ ("id", Str "calendar-platform-standup");
           ("subject", Str "Calendar: Platform standup");
           ("organizer", Str "Taylor Lin");
           ("location", Str "Teams");
           ("starts_at", time_value starts_at);
           ("ends_at", time_value ends_at);
           ("web_link", Str "https://calendar.example.test/events/platform-standup") ]]) ] in
  starts_at <- minutes_from_now 30 ;;
  ends_at <- minutes_from_now 60 ;;
  let sample_payload := json_object
    [ ("items", Array [json_object
         [ ("external_id", Str "calendar-platform-standup");
           ("title", Str "Calendar: Platform standup");
           ("body", Str "Organizer: Taylor Lin | Location: Teams");
           ("organizer", Str "Taylor Lin");
           ("location", Str "Teams");
           ("starts_at", time_value starts_at);
           ("ends_at", time_value ends_at);
           ("time_zone", Str "UTC");
           ("is_all_day", Bool false);
           ("is_cancelled", Bool false);
           ("web_url", Str "https://calendar.example.test/events/platform-standup");
           ("join_url", Str "https://teams.example.test/platform-standup") ]]);
      ("snapshot_complete", Bool true) ] in
  ret (mkDemoProductConnectorSeed DEMO_CALENDAR_SOURCE "calendar" "Calendar Sample Feed" "calendar_events"
         "@every 30m" config sample_payload).

Definition outlook_seed : DemoProductConnectorSeed :=
  mkDemoProductConnectorSeed DEMO_OUTLOOK_SOURCE "outlook" "Outlook Mail Sample Feed" "notifications" "@every 15m"
    (json_object
       [ ("adapter", Str "outlook_mail_sample");
         ("messages", Array [json_object
            [ ("id", Str "release-brief");
              ("subject", Str "Mail: Release brief ready for review");
              ("from", Str "release-bot@example.test");
              ("body_preview", Str "API deploy window moved to 15:30.");
              ("importance", Str "high");
              ("web_link", Str "https://outlook.example.test/mail/release-brief") ]]) ])
    (json_object
       [ ("items", Array [json_object
            [ ("external_id", Str "release-brief");
              ("title", Str "Mail: Release brief ready for review");
              ("body", Str "From: release-bot@example.test | API deploy window moved to 15:30.");
              ("severity", Str "warning");
              ("is_read", Bool false);
              ("url", Str "https://outlook.example.test/mail/release-brief") ]]) ]).

Definition erp_seed : DemoProductConnectorSeed :=
  mkDemoProductConnectorSeed DEMO_ERP_SOURCE "erp" "ERP Messages Sample Feed" "notifications" "@every 15m"
    (json_object
       [ ("adapter", Str "erp_messages_sample");
         ("messages", Array [json_object
            [ ("id", Str "access-approval");
              ("title", Str "ERP: Deployment access approval waiting");
              ("message", Str "Sample ERP private message. Configure erp_private_messages for a real HTTP endpoint.");
              ("requires_approval", Bool true) ]]) ])
    (json_object
       [ ("items", Array [json_object
            [ ("external_id", Str "access-approval");
              ("title", Str "ERP: Deployment access approval waiting");
              ("body", Str "Sample ERP private message. Configure erp_private_messages for a real HTTP endpoint.");
              ("severity", Str "warning");
              ("is_read", Bool false);
              ("url", Null) ]]) ]).

Definition ensure_demo_product_connectors : Query unit :=
  calendar <- calendar_seed ;;
  ensure_demo_product_connector calendar ;;;
  ensure_demo_product_connector outlook_seed ;;;
  ensure_demo_product_connector erp_seed.

Definition seed_demo_calendar_events (now : Z) : Query (list Event.CalendarEvent) :=
  connector <- ConnectorRepository.find_by_source DEMO_CALENDAR_SOURCE ;;
  starts_at <- plus_minutes now 30 ;;
  ends_at <- plus_minutes now 60 ;;
  event <- CalendarEventRepository.upsert_from_connector
    (NewEvent.mkNewCalendarEvent DEMO_CALENDAR_SOURCE "calendar-platform-standup" "Platform standup"
       (Some "Daily engineering priorities and operational risks.") (Some "Taylor Lin") (Some "Teams")
       starts_at ends_at (Some "UTC") false false
       (Some "https://calendar.example.test/events/platform-standup")
       (Some "https://teams.example.test/platform-standup")
       (Some (Connectors.id connector)) (Connectors.owner_user_id connector) (Connectors.maintainer_id connector)
       (Some now) None None) ;;
  ret [event].

Definition package_of (maintainer_id : Z) (slug : string) (p : Pkg.Package) : bool :=
  (Pkg.maintainer_id p =? maintainer_id) && (Pkg.slug p =s slug).

Definition ensure_demo_package (maintainer_id : Z) (package : NewPkg.NewPackage) : Query Pkg.Package :=
  existing <- optional (first_row (exec (sql_select (package_of maintainer_id (NewPkg.slug package))))) ;;
  match existing with
  | Some existing => PackageRepository.update (Pkg.id existing) package
  | None => PackageRepository.create package
  end.

Definition identity_sdk (maintainer_id : Z) : NewPkg.NewPackage :=
  NewPkg.mkNewPackage maintainer_id "identity-sdk" "Identity SDK" "2.4.1" "active"
    (Some "Shared authentication client used by internal apps.")
    (Some "https://github.com/acme/identity-sdk") (Some "https://docs.acme.test/identity-sdk").

Definition deploy_orchestrator (maintainer_id : Z) : NewPkg.NewPackage :=
  NewPkg.mkNewPackage maintainer_id "deploy-orchestrator" "Deploy Orchestrator" "1.12.0" "active"
    (Some "Deployment automation library for service owners.")
    (Some "https://github.com/acme/deploy-orchestrator") (Some "https://docs.acme.test/deploy-orchestrator").

(** ** The runs *)

Definition demo_run_of (target trigger : string) (r : Run.ConnectorRun) : bool :=
  (Run.source r =s DEMO_SOURCE) && (Run.target r =s target) && (Run.trigger r =s trigger).

(** The columns [prepare_demo_run] sets on the run of an earlier seeding. *)
Definition restarted (started_at : Z) (r : Run.ConnectorRun) : Run.ConnectorRun :=
  r <| Run.status := "running" |> <| Run.success_count := 0 |> <| Run.failure_count := 0 |>
    <| Run.duration_ms := 0 |> <| Run.error_message := None |> <| Run.started_at := started_at |>
    <| Run.finished_at := None |> <| Run.payload := None |> <| Run.claimed_at := None |>
    <| Run.worker_id := None |> <| Run.attempt_count := 1 |> <| Run.max_attempts := 1 |>
    <| Run.next_attempt_at := started_at |> <| Run.lease_expires_at := None |>
    <| Run.heartbeat_at := None |> <| Run.cancel_requested_at := None |> <| Run.cancelled_at := None |>
    <| Run.parent_run_id := None |> <| Run.snapshot_complete := None |> <| Run.archived_count := 0 |>.

Definition prepare_demo_run (target trigger : string) (started_at : Z) : Query Run.ConnectorRun :=
  existing <- optional (first_row (exec (sql_select (demo_run_of target trigger)))) ;;
  match existing with
  | Some run =>
      first_row (exec (sql_update (ConnectorRunRepository.by_id (Run.id run)) (fun _ => restarted started_at)))
  | None =>
      ConnectorRunRepository.create_run
        (NewRun.mkNewConnectorRun DEMO_SOURCE target "running" 0 0 0 None started_at None trigger None None None
           1 1 started_at None None None None None None 0)
  end.

Definition clear_demo_run_artifacts (run_id : Z) (clear_health_checks : bool) : Query unit :=
  exec (sql_delete (fun e => ItemError.connector_run_id e =? run_id)) ;;;
  exec (sql_delete (fun i => RunItem.connector_run_id i =? run_id)) ;;;
  (if clear_health_checks then
     exec (sql_delete (fun h => holds (eq_int (Check.connector_run_id h) (Some run_id)))) ;;; ret tt
   else ret tt) ;;;
  ret tt.

Definition write_imported_run_items (run_id : Z) (target : string) (records : list SeededRecord) : Query unit :=
  create_many_items (map (fun record =>
    NewItem.mkNewConnectorRunItem run_id DEMO_SOURCE target (sr_record_id record) (sr_external_id record)
      "imported" (sr_snapshot record)) records) ;;;
  ret tt.

Definition finish_demo_run (run : Run.ConnectorRun) (status : string) (success_count failure_count : nat)
    (error_message : option string) (duration_ms : Z) : Query Run.ConnectorRun :=
  finished_at <- or_panic (datetime_add (Run.started_at run) (duration_ms * 1000)) ;;
  ConnectorRunRepository.update_state (Run.id run)
    (RunUpdate.mkConnectorRunStateUpdate status (usize_as_i32 (Z.of_nat success_count))
       (usize_as_i32 (Z.of_nat failure_count)) duration_ms error_message (Some finished_at) None 0).

(** ** The records *)

Definition seed_demo_service (maintainer_id run_id : Z) (item : value) : Query SeededRecord :=
  slug <- text_of item "slug" ;;
  name <- text_of item "name" ;;
  lifecycle_status <- text_of item "lifecycle_status" ;;
  health_status <- text_of item "health_status" ;;
  last_checked_at <- time_of item "last_checked_at" ;;
  service <- ServiceRepository.upsert_from_connector_with_health_check
    (NewSvc.mkNewService DEMO_SOURCE (text_at item "external_id") maintainer_id slug name lifecycle_status
       health_status (text_at item "description") (text_at item "repository_url") (text_at item "dashboard_url")
       (text_at item "runbook_url") last_checked_at)
    run_id (Some (value_text item)) ;;
  ret (mkSeededRecord (Some (Svc.id service)) (Svc.external_id service) (Some (value_text item))).

(** [for item in items { .. records.push(..) }] *)
Definition seed_each (seed : value -> Query SeededRecord) (items : list value) : Query (list SeededRecord) :=
  for_each items [] (fun records item => record <- seed item ;; ret (records ++ [record])).

Definition seed_demo_services (maintainer_id run_id now : Z) : Query (list SeededRecord) :=
  items <- service_items maintainer_id now ;;
  seed_each (seed_demo_service maintainer_id run_id) items.

Definition card_item (id title status priority assignee work_item_type : string) (assignee_user_id : option Z)
    (due_at now : Z) : value :=
  json_object
    [ ("external_id", Str id);
      ("title", Str title);
      ("status", Str status);
      ("priority", Str priority);
      ("assignee", Str assignee);
      ("project", Str "Developer Portal");
      ("work_item_type", Str work_item_type);
      ("assignee_source_id", opt_value (fun _ => Str "demo.portal-admin") assignee_user_id);
      ("assignee_user_id", opt_value int_value assignee_user_id);
      ("due_at", time_value due_at);
      ("source_updated_at", time_value now);
      ("url", Str (concat_str ["https://dev.azure.test/work-items/"; id])) ].

Definition card_items {D E} (now : Z) (assignee_user_id : option Z) : M D E (list value) :=
  soon <- plus_minutes now (4 * 60) ;;
  tomorrow <- plus_minutes now (24 * 60) ;;
  ret [ card_item "DP-104" "Investigate Checkout API latency spike" "in_progress" "urgent" "platform-team" "Bug"
          assignee_user_id soon now;
        card_item "DP-118" "Review ERP Bridge deployment exception" "blocked" "high" "release-captain" "Task"
          assignee_user_id tomorrow now ].

Definition seed_demo_work_card (connector : Connectors.Connector) (item : value) : Query SeededRecord :=
  title <- text_of item "title" ;;
  status <- text_of item "status" ;;
  priority <- text_of item "priority" ;;
  due_at <- time_of item "due_at" ;;
  source_updated_at <- time_of item "source_updated_at" ;;
  card <- WorkCardRepository.upsert_from_connector
    (NewCard.mkNewWorkCard DEMO_SOURCE (text_at item "external_id") title status priority
       (text_at item "assignee") (text_at item "project") (text_at item "work_item_type")
       (text_at item "assignee_source_id")
       (Text.in_range i32_min i32_max (as_i64 (index item "assignee_user_id")))
       due_at (text_at item "url") (Some (Connectors.id connector)) (Connectors.owner_user_id connector)
       (Connectors.maintainer_id connector) source_updated_at None None) ;;
  ret (mkSeededRecord (Some (Card.id card)) (Card.external_id card) (Some (value_text item))).

Definition seed_demo_work_cards (now : Z) (assignee_user_id : option Z) : Query (list SeededRecord) :=
  connector <- ConnectorRepository.find_by_source DEMO_SOURCE ;;
  items <- card_items now assignee_user_id ;;
  seed_each (seed_demo_work_card connector) items.

Definition notification_item (id title body severity : string) (is_read : bool) (url : string) : value :=
  json_object
    [ ("external_id", Str id);
      ("title", Str title);
      ("body", Str body);
      ("severity", Str severity);
      ("is_read", Bool is_read);
      ("url", Str url) ].

Definition notification_items : list value :=
  [ notification_item "OUTLOOK-9001" "Incident review starts in 30 minutes"
      "Checkout API latency review is on the team calendar." "critical" false
      "https://outlook.office.test/mail/OUTLOOK-9001";
    notification_item "ERP-4217" "ERP access request needs approval"
      "A deployment exception for ERP Bridge is waiting for owner review." "warning" false
      "https://erp.acme.test/messages/4217";
    notification_item "MON-2048" "Build Runner capacity recovered"
      "Runner queue depth is back under the daily threshold." "info" true
      "https://monitoring.acme.test/events/2048" ].

Definition seed_demo_notification (connector : Connectors.Connector) (source_updated_at : Z) (item : value)
    : Query SeededRecord :=
  title <- text_of item "title" ;;
  severity <- text_of item "severity" ;;
  notification <- NotificationRepository.upsert_from_connector
    (NewNotif.mkNewNotification DEMO_SOURCE (text_at item "external_id") title (text_at item "body") severity
       (default false (as_bool (index item "is_read"))) (text_at item "url")
       (Some (Connectors.id connector)) (Connectors.owner_user_id connector) (Connectors.maintainer_id connector)
       (Some source_updated_at) None None) ;;
  ret (mkSeededRecord (Some (Notif.id notification)) (Notif.external_id notification) (Some (value_text item))).

Definition seed_demo_notifications : Query (list SeededRecord) :=
  connector <- ConnectorRepository.find_by_source DEMO_SOURCE ;;
  source_updated_at <- utc_now ;;
  seed_each (seed_demo_notification connector source_updated_at) notification_items.

(** The item the demonstration shows as rejected. *)
Definition malformed_item : value :=
  json_object
    [ ("external_id", Str "DP-119");
      ("title", Str "Import malformed backlog item");
      ("status", Str "todo");
      ("priority", Str "not-a-priority") ].

(** ** The whole seeding *)

Definition seed_demo_packages (maintainer_id : Z) : Query (list Pkg.Package) :=
  identity <- ensure_demo_package maintainer_id (identity_sdk maintainer_id) ;;
  deploy <- ensure_demo_package maintainer_id (deploy_orchestrator maintainer_id) ;;
  ret [identity; deploy].

Definition seed_health_run (maintainer_id now : Z) : Query (list SeededRecord) :=
  health_run <- prepare_demo_run "service_health" "import" now ;;
  clear_demo_run_artifacts (Run.id health_run) true ;;;
  services <- seed_demo_services maintainer_id (Run.id health_run) now ;;
  write_imported_run_items (Run.id health_run) "service_health" services ;;;
  finish_demo_run health_run "success" (length services) 0 None 82 ;;;
  ConnectorRepository.touch_run_state DEMO_SOURCE "monitoring" "success" now ;;;
  ret services.

Definition seed_notification_run (now : Z) : Query (list SeededRecord) :=
  notification_run <- prepare_demo_run "notifications" "import" now ;;
  clear_demo_run_artifacts (Run.id notification_run) false ;;;
  notifications <- seed_demo_notifications ;;
  write_imported_run_items (Run.id notification_run) "notifications" notifications ;;;
  finish_demo_run notification_run "success" (length notifications) 0 None 34 ;;;
  ConnectorRepository.touch_run_state DEMO_SOURCE "custom" "success" now ;;;
  ret notifications.

Definition seed_work_run (now : Z) (assignee_user_id : option Z) : Query (list SeededRecord) :=
  work_run <- prepare_demo_run "work_cards" "import" now ;;
  clear_demo_run_artifacts (Run.id work_run) false ;;;
  work_cards <- seed_demo_work_cards now assignee_user_id ;;
  write_imported_run_items (Run.id work_run) "work_cards" work_cards ;;;
  create_many_errors
    [NewItemError.mkNewConnectorRunItemError (Run.id work_run) DEMO_SOURCE "work_cards" (Some "DP-119")
       "priority is not supported" (Some (value_text malformed_item))] ;;;
  create_many_items
    [NewItem.mkNewConnectorRunItem (Run.id work_run) DEMO_SOURCE "work_cards" None (Some "DP-119") "failed"
       (Some (value_text malformed_item))] ;;;
  finish_demo_run work_run "partial_success" (length work_cards) 1
    (Some "DP-119: priority is not supported") 57 ;;;
  ConnectorRepository.touch_run_state DEMO_SOURCE "custom" "partial_success" now ;;;
  ret work_cards.

Section Accounts.
Context {U : Unicode}.

Definition seed_demo_data_transaction (admin_username : string) : Query DemoSeedSummary :=
  now <- utc_now ;;
  maintainer <- ensure_demo_maintainer ;;
  let maintainer_id := Maint.id maintainer in
  admin <- optional (UserRepository.find_by_username admin_username) ;;
  match admin with
  | Some admin =>
      MaintainerMemberRepository.upsert
        (NewMember.mkNewMaintainerMember maintainer_id (Users.id admin) "owner") ;;; ret tt
  | None => ret tt
  end ;;;
  ensure_demo_connector maintainer_id ;;;
  ensure_demo_product_connectors ;;;
  calendar_events <- seed_demo_calendar_events now ;;
  packages <- seed_demo_packages maintainer_id ;;
  services <- seed_health_run maintainer_id now ;;
  notifications <- seed_notification_run now ;;
  work_cards <- seed_work_run now (Users.id <$> admin) ;;
  ret (mkDemoSeedSummary maintainer_id (length services) (length packages) (length work_cards)
         (length notifications) (length calendar_events) 3).

(** The command, with the user name of the arguments; what it prints is the summary. *)
Definition seed_demo_data (env : Environ) (admin_username : option string) : Command DemoSeedSummary :=
  let admin_username := default "admin" (or_else admin_username (env_text env "SEED_ADMIN_USERNAME")) in
  unwrap (query_transaction (seed_demo_data_transaction admin_username)).
End Accounts.
End Seeding.
