(* ===== verification/DemoSafety.v ===== *)
(** Properties of the demonstration data of [DemoSeed.v]: what seeding may touch. *)
From S2P Require Import Prelude Logic Text Models Schema Api Access Accounts Runs Records Connections Catalog.
From S2P Require Import Config Values ConnectorRoutes AdapterValues MonitoringAdapter Commands Authn GraphSafety DemoSeed.

Open Scope Z_scope.
Open Scope portal_scope.

(** ** Rows outside of a change *)

Section Outside.
Context {A : Type} (keep : A -> bool).

Lemma outside_insert l new :
  (forall r, r ∈ new -> keep r = false) -> List.filter keep (l ++ new) = List.filter keep l.
Proof. intros H. rewrite List.filter_app, (filter_none_b keep new H). apply app_nil_r. Qed.

Lemma outside_update (P : A -> bool) f l :
  (forall r, r ∈ l -> P r = true -> keep r = false /\ keep (f r) = false) ->
  List.filter keep (map (fun r => if P r then f r else r) l) = List.filter keep l.
Proof.
  induction l as [|r l IH]; simpl; [done|]. intros H. rewrite IH by (intros; apply H; [by right|done]).
  destruct (P r) eqn:E; [|done]. by destruct (H r ltac:(left) E) as [-> ->].
Qed.

Lemma outside_delete (P : A -> bool) l :
  (forall r, r ∈ l -> P r = true -> keep r = false) ->
  List.filter keep (List.filter (fun r => negb (P r)) l) = List.filter keep l.
Proof.
  intros H. rewrite filter_filter_b. apply filter_ext_b. intros r Hr.
  destruct (P r) eqn:E; [|done]. by rewrite (H r Hr E).
Qed.

(** Fewer rows are outside of a larger change. *)
Lemma outside_trans (keep' : A -> bool) l1 l2 l3 :
  (forall r, keep' r = true -> keep r = true) ->
  List.filter keep l2 = List.filter keep l1 -> List.filter keep' l3 = List.filter keep' l2 ->
  List.filter keep' l3 = List.filter keep' l1.
Proof.
  intros Hk H12 H23. rewrite H23.
  assert (He : forall l, List.filter keep' l = List.filter keep' (List.filter keep l)).
  { intros l. rewrite filter_filter_b. apply filter_ext_b. intros r _.
    destruct (keep' r) eqn:E; [by rewrite (Hk r E)|by rewrite andb_false_r]. }
  by rewrite (He l2), (He l1), H12.
Qed.
End Outside.

(** ** Tables with a primary key *)

Class Keyed (R : Type) {T : Table Db R} := {
  key : R -> Z;
  key_unique : forall d r, violated d r = None -> unique (fun x => key x =? key r) (rows d) = true
}.

(** Reads the last constraint of a table. *)
Ltac keyed := intros d r H; simpl in H; match type of H with ?v _ _ = _ => unfold v in H end;
  constraints H; assumption.

#[export] Program Instance maintainers_keyed : Keyed Maint.Maintainer := {| key := Maint.id |}.
Next Obligation. keyed. Qed.
#[export] Program Instance packages_keyed : Keyed Pkg.Package := {| key := Pkg.id |}.
Next Obligation. keyed. Qed.
#[export] Program Instance services_keyed : Keyed Svc.Service := {| key := Svc.id |}.
Next Obligation. keyed. Qed.
#[export] Program Instance connectors_keyed : Keyed Connectors.Connector := {| key := Connectors.id |}.
Next Obligation. keyed. Qed.
#[export] Program Instance runs_keyed : Keyed Run.ConnectorRun := {| key := Run.id |}.
Next Obligation. keyed. Qed.
#[export] Program Instance cards_keyed : Keyed Card.WorkCard := {| key := Card.id |}.
Next Obligation. keyed. Qed.
#[export] Program Instance notifications_keyed : Keyed Notif.Notification := {| key := Notif.id |}.
Next Obligation. keyed. Qed.
#[export] Program Instance events_keyed : Keyed Event.CalendarEvent := {| key := Event.id |}.
Next Obligation. keyed. Qed.

Definition any_end {E} (e : option E) (ab : bool) (d : Db) : Prop := True.

Section Keys.
Context {R : Type} {T : Table Db R} {K : Keyed R}.

Lemma filter_key_update f i l :
  (forall r, key (f r) = key r) ->
  List.filter (fun r => key r =? i) (map (fun r => if key r =? i then f r else r) l) =
  map f (List.filter (fun r => key r =? i) l).
Proof. intros Hf. apply filter_update_hit. intros x _ Hx. by rewrite Hf. Qed.

(** A row that is updated by its key is the only one with that key. *)
Lemma update_alone f x d :
  (forall r, key (f r) = key r) -> x ∈ rows d ->
  let l := map (fun r => if key r =? key x then f r else r) (rows d) in
  first_violation (set_rows l d) (map f (List.filter (fun r => key r =? key x) (rows d))) = None ->
  forall y, y ∈ rows d -> key y = key x -> y = x.
Proof.
  intros Hf Hx l Hv y Hy Hk.
  assert (Hu : unique (fun r => key r =? key x) l = true).
  { assert (In (f x) (map f (List.filter (fun r => key r =? key x) (rows d)))) as Hin.
    { apply in_map, filter_In. split; [by apply list_elem_of_In|lia]. }
    revert Hv Hin. generalize (map f (List.filter (fun r => key r =? key x) (rows d))). intros k.
    induction k as [|z k IH]; [done|]. simpl. destruct (violated _ z) eqn:Ez; [done|]. intros Hv [->|Hin]; [|by apply IH].
    apply key_unique in Ez. by rewrite rows_set_rows, Hf in Ez. }
  unfold unique, l in Hu. rewrite filter_key_update, length_map in Hu by done. apply Nat.leb_le in Hu.
  assert (x ∈ List.filter (fun r => key r =? key x) (rows d)) as Hxf by (apply elem_of_filter_b; split; [done|lia]).
  assert (y ∈ List.filter (fun r => key r =? key x) (rows d)) as Hyf by (apply elem_of_filter_b; split; [done|lia]).
  destruct (List.filter _ _) as [|a [|b k]]; [set_solver|set_solver|simpl in Hu; lia].
Qed.

(** One row was put into the table: those that are kept stay as they are, and no
    other key is lost. *)
Definition placed (keep : R -> bool) (d0 : Db) (r : R) (d : Db) : Prop :=
  exists l, d = set_rows l d0 /\ r ∈ l /\ keep r = false /\
    List.filter keep l = List.filter keep (rows d0) /\
    forall x, x ∈ rows d0 -> keep x = false -> exists x', x' ∈ l /\ key x' = key x /\ keep x' = false.

Lemma update_placed keep x f d0 :
  x ∈ rows d0 -> keep x = false -> (forall now r, key (f now r) = key r) -> (forall now, keep (f now x) = false) ->
  hoare (fun d => d = d0) (first_row (exec (sql_update (fun r => key r =? key x) f)))
    (fun r d => placed keep d0 r d /\ exists now, r = f now x) any_end.
Proof.
  intros Hx Hkx Hf Hkf. apply hoare_first_row, hoare_update; [|done]. intros now d' -> Hv.
  pose proof (update_alone (f now) x d0 (Hf now) Hx Hv) as Halone.
  destruct (List.filter _ (rows d0)) as [|y l] eqn:E; [done|]. simpl.
  assert (y ∈ List.filter (fun r => key r =? key x) (rows d0)) as Hy by (rewrite E; left).
  apply elem_of_filter_b in Hy as [Hy Hyk]. rewrite (Halone y) in * by (done || lia). split; [|by exists now].
  eexists. split; [done|]. split_and!.
  - apply (elem_of_update (fun r => key r =? key x) (f now)). left. exists x. split_and!; [done|lia|done].
  - apply Hkf.
  - apply outside_update. intros r Hr Hrk. rewrite (Halone r) by (done || lia). by split.
  - intros z Hz Hkz. destruct (key z =? key x) eqn:Ez.
    + exists (f now z). split_and!; [|apply Hf|rewrite (Halone z) by (done || lia); apply Hkf].
      apply (elem_of_update (fun r => key r =? key x) (f now)). left. by exists z.
    + exists z. split_and!; [|done..]. apply (elem_of_update (fun r => key r =? key x) (f now)). by right.
Qed.

Lemma insert_placed keep mk d0 :
  (forall now id, keep (mk now id) = false) ->
  hoare (fun d => d = d0) (exec (sql_insert mk)) (fun r d => placed keep d0 r d /\ exists now id, r = mk now id) any_end.
Proof.
  intros Hk. apply hoare_insert; [|done]. intros now n d' -> _. split; [|eauto]. eexists. split; [done|]. split_and!.
  - apply elem_of_app. right. left.
  - apply Hk.
  - apply outside_insert. by intros r ->%list_elem_of_singleton.
  - intros x Hx Hkx. exists x. split_and!; [apply elem_of_app; by left|done..].
Qed.

(** Finding a row. *)
Lemma found_row p d0 (Q : R -> Db -> Prop) :
  (forall x, x ∈ rows d0 -> p x = true -> Q x d0) ->
  hoare (fun d => d = d0) (first_row (exec (sql_select p))) Q any_end.
Proof.
  intros H. apply hoare_first_row, hoare_select; [|done].
  destruct (List.filter p (rows d0)) as [|x l] eqn:E; [done|].
  assert (x ∈ List.filter p (rows d0)) as Hx by (rewrite E; left). apply elem_of_filter_b in Hx as [??]. by apply H.
Qed.

(** The two shapes of an upsert: [optional], and a [match] on the error. *)
Lemma upsert_placed keep p mk f d0 :
  (forall x, p x = true -> keep x = false) -> (forall now id, keep (mk now id) = false) ->
  (forall now r, key (f now r) = key r) -> (forall now x, p x = true -> keep (f now x) = false) ->
  hoare (fun d => d = d0)
    (existing <- optional (first_row (exec (sql_select p))) ;;
     match existing with
     | Some x => first_row (exec (sql_update (fun r => key r =? key x) f))
     | None => exec (sql_insert mk)
     end) (placed keep d0) any_end.
Proof.
  intros Hp Hmk Hfk Hf.
  eapply (hoare_bind _ _ _ (fun o d => d = d0 /\ forall x, o = Some x -> x ∈ rows d0 /\ p x = true)).
  - apply hoare_optional, hoare_first_row, hoare_select; [|done].
    destruct (List.filter p (rows d0)) as [|x l] eqn:E; [done|]. split; [done|]. intros ? [= <-].
    assert (x ∈ List.filter p (rows d0)) as Hx by (rewrite E; left). by apply elem_of_filter_b in Hx.
  - intros [x|]; apply hoare_at; intros d [-> Ho].
    + destruct (Ho x eq_refl) as [Hx Hpx]. eapply hoare_conseq; [apply (update_placed keep x f d0); auto|done|by intros ?? []|done].
    + eapply hoare_conseq; [by apply (insert_placed keep mk d0)|done|by intros ?? []|done].
Qed.

Lemma upsert_match_placed keep p mk f d0 :
  (forall x, p x = true -> keep x = false) -> (forall now id, keep (mk now id) = false) ->
  (forall now r, key (f now r) = key r) -> (forall now x, p x = true -> keep (f now x) = false) ->
  hoare (fun d => d = d0)
    (catch (first_row (exec (sql_select p))) (fun r =>
     match r with
     | inr x => first_row (exec (sql_update (fun r => key r =? key x) f))
     | inl DNotFound => exec (sql_insert mk)
     | inl e => fail e
     end)) (placed keep d0) any_end.
Proof.
  intros Hp Hmk Hfk Hf.
  eapply (hoare_catch _ _ _ (fun x d => d = d0 /\ x ∈ rows d0 /\ p x = true)
    (fun e ab d => e = Some DNotFound -> ab = false /\ d = d0)).
  - apply hoare_first_row, hoare_select; [|done]. destruct (List.filter p (rows d0)) as [|x l] eqn:E; [done|].
    assert (x ∈ List.filter p (rows d0)) as Hx by (rewrite E; left). by apply elem_of_filter_b in Hx.
  - intros x. apply hoare_at. intros d (-> & Hx & Hpx).
    eapply hoare_conseq; [apply (update_placed keep x f d0); auto|done|by intros ?? []|done].
  - intros []; [|by apply hoare_fail..]. apply hoare_at. intros d Hd. destruct (Hd eq_refl) as [_ ->].
    eapply hoare_conseq; [by apply (insert_placed keep mk d0)|done|by intros ?? []|done].
  - intros [] c Hab He; [by destruct (He eq_refl)|done..].
  - done.
Qed.
End Keys.

(** ** What belongs to the demonstration *)

Definition demo_sources : list string := [DEMO_SOURCE; DEMO_CALENDAR_SOURCE; DEMO_OUTLOOK_SOURCE; DEMO_ERP_SOURCE].

Definition demo_team (d : Db) (id : Z) : bool :=
  existsb (fun m => (Maint.id m =? id) && (Maint.email m =s DEMO_MAINTAINER_EMAIL)) (maintainers d).
Definition demo_run (d : Db) (id : Z) : bool :=
  existsb (fun r => (Run.id r =? id) && (Run.source r =s DEMO_SOURCE)) (connector_runs d).
Definition demo_connector (d : Db) (id : Z) : bool :=
  existsb (fun k => (Connectors.id k =? id) && (Connectors.source k =s DEMO_SOURCE)) (connectors d).

Definition is_demo (belongs : Z -> bool) (id : option Z) : bool :=
  match id with Some i => belongs i | None => false end.

(** The rows that do not belong to it. *)
Definition other_team (m : Maint.Maintainer) : bool := negb (Maint.email m =s DEMO_MAINTAINER_EMAIL).
Definition other_member (d : Db) (m : Member.MaintainerMember) : bool := negb (demo_team d (Member.maintainer_id m)).
Definition other_package (d : Db) (p : Pkg.Package) : bool := negb (demo_team d (Pkg.maintainer_id p)).
Definition other_service (s : Svc.Service) : bool := negb (Svc.source s =s DEMO_SOURCE).
Definition other_check (d : Db) (h : Check.ServiceHealthCheck) : bool :=
  negb (Check.source h =s DEMO_SOURCE) && negb (is_demo (demo_run d) (Check.connector_run_id h)).
Definition other_connector (k : Connectors.Connector) : bool := negb (one_of_texts (Connectors.source k) demo_sources).
Definition other_config (k : Config.ConnectorConfig) : bool := negb (one_of_texts (Config.source k) demo_sources).
Definition other_run (r : Run.ConnectorRun) : bool := negb (Run.source r =s DEMO_SOURCE).
Definition other_item (d : Db) (i : RunItem.ConnectorRunItem) : bool := negb (demo_run d (RunItem.connector_run_id i)).
Definition other_error (d : Db) (e : ItemError.ConnectorRunItemError) : bool :=
  negb (demo_run d (ItemError.connector_run_id e)).
Definition other_card (d : Db) (r : Card.WorkCard) : bool :=
  negb (Card.source r =s DEMO_SOURCE) && negb (is_demo (demo_connector d) (Card.connector_id r)).
Definition other_notification (d : Db) (r : Notif.Notification) : bool :=
  negb (Notif.source r =s DEMO_SOURCE) && negb (is_demo (demo_connector d) (Notif.connector_id r)).
Definition other_event (d : Db) (r : Event.CalendarEvent) : bool :=
  negb (Event.source r =s DEMO_CALENDAR_SOURCE) && negb (is_demo (demo_connector d) (Event.connector_id r)).

(** The tables seeding never writes. *)
Definition accounts (d : Db) :=
  (users d, roles d, users_roles d, sessions d, login_throttle_buckets d, oidc_login_transactions d,
   external_identities d, connector_workers d, maintenance_runs d, audit_logs d, notification_receipts d).

Definition same {A} (keep : A -> bool) (l l' : list A) : Prop := List.filter keep l' = List.filter keep l.

(** From [d] to [d'] only rows of the demonstration change. *)
Record contained (d d' : Db) : Prop := {
  ct_accounts : accounts d' = accounts d;
  ct_teams : same other_team (maintainers d) (maintainers d');
  ct_members : same (other_member d') (maintainer_members d) (maintainer_members d');
  ct_packages : same (other_package d') (packages d) (packages d');
  ct_services : same other_service (services d) (services d');
  ct_checks : same (other_check d') (service_health_checks d) (service_health_checks d');
  ct_connectors : same other_connector (connectors d) (connectors d');
  ct_configs : same other_config (connector_configs d) (connector_configs d');
  ct_runs : same other_run (connector_runs d) (connector_runs d');
  ct_items : same (other_item d') (connector_run_items d) (connector_run_items d');
  ct_errors : same (other_error d') (connector_run_item_errors d) (connector_run_item_errors d');
  ct_cards : same (other_card d') (work_cards d) (work_cards d');
  ct_notifications : same (other_notification d') (notifications d) (notifications d');
  ct_events : same (other_event d') (calendar_events d) (calendar_events d');
  ct_team_ids : forall i, demo_team d i = true -> demo_team d' i = true;
  ct_run_ids : forall i, demo_run d i = true -> demo_run d' i = true;
  ct_connector_ids : forall i, demo_connector d i = true -> demo_connector d' i = true
}.

Lemma contained_refl d : contained d d.
Proof. by split. Qed.

Lemma other_mono (p q : Z -> bool) i : (forall i, p i = true -> q i = true) -> negb (q i) = true -> negb (p i) = true.
Proof. intros H Hq. apply negb_true_iff in Hq. apply negb_true_iff, not_true_iff_false. intros Hp. by rewrite (H i Hp) in Hq. Qed.

Lemma other_opt_mono b (p q : Z -> bool) i :
  (forall i, p i = true -> q i = true) -> b && negb (is_demo q i) = true -> b && negb (is_demo p i) = true.
Proof.
  intros H [Hb Hq]%andb_prop. rewrite Hb. destruct i as [i|]; simpl in *; [|done]. by apply (other_mono p q).
Qed.

Lemma contained_trans d1 d2 d3 : contained d1 d2 -> contained d2 d3 -> contained d1 d3.
Proof.
  intros [] []. split; unfold same in *; try congruence; auto;
    try (eapply outside_trans; [|eassumption..]; intros r; first [exact id
      | by apply other_mono | by apply other_opt_mono]).
Qed.

#[export] Instance contained_preorder : PreOrder contained.
Proof. split; [exact contained_refl|exact contained_trans]. Qed.

(** A change of one table, which does not say what belongs to the demonstration. *)
Ltac one_table := intros H; split; try done; intros i; exact id.

Lemma contained_members d l :
  same (other_member d) (maintainer_members d) l -> contained d (d <| maintainer_members := l |>).
Proof. one_table. Qed.
Lemma contained_packages d l : same (other_package d) (packages d) l -> contained d (d <| packages := l |>).
Proof. one_table. Qed.
Lemma contained_services d l : same other_service (services d) l -> contained d (d <| services := l |>).
Proof. one_table. Qed.
Lemma contained_checks d l :
  same (other_check d) (service_health_checks d) l -> contained d (d <| service_health_checks := l |>).
Proof. one_table. Qed.
Lemma contained_configs d l : same other_config (connector_configs d) l -> contained d (d <| connector_configs := l |>).
Proof. one_table. Qed.
Lemma contained_items d l : same (other_item d) (connector_run_items d) l -> contained d (d <| connector_run_items := l |>).
Proof. one_table. Qed.
Lemma contained_errors d l :
  same (other_error d) (connector_run_item_errors d) l -> contained d (d <| connector_run_item_errors := l |>).
Proof. one_table. Qed.
Lemma contained_cards d l : same (other_card d) (work_cards d) l -> contained d (d <| work_cards := l |>).
Proof. one_table. Qed.
Lemma contained_notifications d l :
  same (other_notification d) (notifications d) l -> contained d (d <| notifications := l |>).
Proof. one_table. Qed.
Lemma contained_events d l : same (other_event d) (calendar_events d) l -> contained d (d <| calendar_events := l |>).
Proof. one_table. Qed.

(** The three tables that do. *)
Definition demo_keys {R} (id : R -> Z) (demo : R -> bool) (l l' : list R) : Prop :=
  forall x, x ∈ l -> demo x = true -> exists x', x' ∈ l' /\ id x' = id x /\ demo x' = true.

Lemma demo_keys_exist {R} (id : R -> Z) (demo : R -> bool) l l' i :
  demo_keys id demo l l' -> existsb (fun x => (id x =? i) && demo x) l = true ->
  existsb (fun x => (id x =? i) && demo x) l' = true.
Proof.
  intros H (x & Hx & [Hi Hd]%andb_prop)%existsb_exists. apply list_elem_of_In in Hx.
  destruct (H x Hx Hd) as (x' & Hx' & Hi' & Hd'). apply existsb_exists. exists x'.
  split; [by apply list_elem_of_In|]. by rewrite Hi', Hi, Hd'.
Qed.

Lemma demo_keys_update {R} (id : R -> Z) (demo P : R -> bool) f l :
  (forall r, id (f r) = id r) -> (forall r, demo r = true -> demo (f r) = true) ->
  demo_keys id demo l (map (fun r => if P r then f r else r) l).
Proof.
  intros Hi Hd x Hx Hdx. destruct (P x) eqn:E.
  - exists (f x). split_and!; [|done|by apply Hd]. apply (elem_of_update P f). left. by exists x.
  - exists x. split_and!; [|done..]. apply (elem_of_update P f). by right.
Qed.

Lemma demo_keys_insert {R} (id : R -> Z) (demo : R -> bool) l k : demo_keys id demo l (l ++ k).
Proof. intros x Hx Hd. exists x. split_and!; [apply elem_of_app; by left|done..]. Qed.

Lemma contained_teams d l :
  same other_team (maintainers d) l ->
  demo_keys Maint.id (fun m => Maint.email m =s DEMO_MAINTAINER_EMAIL) (maintainers d) l ->
  contained d (d <| maintainers := l |>).
Proof. intros H Hk. split; try done; try (intros i; exact id). intros i. by apply demo_keys_exist. Qed.

Lemma contained_runs d l :
  same other_run (connector_runs d) l ->
  demo_keys Run.id (fun r => Run.source r =s DEMO_SOURCE) (connector_runs d) l ->
  contained d (d <| connector_runs := l |>).
Proof. intros H Hk. split; try done; try (intros i; exact id). intros i. by apply demo_keys_exist. Qed.

Lemma contained_connectors d l :
  same other_connector (connectors d) l ->
  demo_keys Connectors.id (fun k => Connectors.source k =s DEMO_SOURCE) (connectors d) l ->
  contained d (d <| connectors := l |>).
Proof. intros H Hk. split; try done; try (intros i; exact id). intros i. by apply demo_keys_exist. Qed.

(** A row that was put into such a table. *)
Lemma placed_keys {R} {T : Table Db R} {K : Keyed R} (demo : R -> bool) d0 r d :
  placed (fun x => negb (demo x)) d0 r d -> exists l, d = set_rows l d0 /\ r ∈ l /\ demo r = true /\
    same (fun x => negb (demo x)) (rows d0) l /\ demo_keys key demo (rows d0) l.
Proof.
  intros (l & -> & Hr & Hk%negb_false_iff & Hs & Hm). exists l. split_and!; try done.
  intros x Hx Hd. destruct (Hm x Hx) as (x' & Hx' & Hi & Hd'%negb_false_iff); [by rewrite Hd|eauto].
Qed.

(** ** Computations that stay within the demonstration *)

Definition stable (F : Db -> Prop) : Prop := forall d d', contained d d' -> F d -> F d'.

(** Where [F] holds, [m] changes rows of the demonstration only, and establishes [G]. *)
Definition guarded {A} (F : Db -> Prop) (m : Query A) (G : A -> Db -> Prop) : Prop :=
  forall d0, F d0 -> hoare (fun d => d = d0) m (fun a d => contained d0 d /\ G a d) any_end.

Definition anything {A} (a : A) (d : Db) : Prop := True.

Lemma guarded_weaken {A} (F F' : Db -> Prop) (m : Query A) (G G' : A -> Db -> Prop) :
  guarded F m G -> (forall d, F' d -> F d) -> (forall a d, G a d -> G' a d) -> guarded F' m G'.
Proof.
  intros H HF HG d0 H0. eapply hoare_conseq; [by apply H, HF|done| |done]. intros a d [? ?]. auto.
Qed.

Lemma guarded_ret {A} (F : Db -> Prop) (a : A) (G : A -> Db -> Prop) :
  (forall d, F d -> G a d) -> guarded F (ret a) G.
Proof. intros H d0 H0. apply hoare_ret. intros d ->. split; [done|auto]. Qed.

(** A step that establishes all the rest needs. *)
Lemma guarded_seq {A B} (F : Db -> Prop) (m : Query A) (k : A -> Query B) G H :
  guarded F m G -> (forall a, guarded (G a) (k a) H) -> guarded F (bind m k) H.
Proof.
  intros Hm Hk d0 H0. eapply hoare_bind; [by apply Hm|]. intros a. apply hoare_at. intros d1 [Hc Hg].
  eapply hoare_conseq; [by apply (Hk a d1)|done| |done]. intros b d [Hc' ?]. split; [by etrans|done].
Qed.

Lemma guarded_bind {A B} (F : Db -> Prop) (m : Query A) (k : A -> Query B) G H :
  stable F -> guarded F m G -> (forall a, guarded (fun d => F d /\ G a d) (k a) H) -> guarded F (bind m k) H.
Proof.
  intros HF Hm Hk. eapply (guarded_seq _ _ _ (fun a d => F d /\ G a d)); [|exact Hk].
  intros d0 H0. eapply hoare_conseq; [by apply Hm|done| |done]. intros a d [Hc ?]. split_and!; [done|by eapply HF|done].
Qed.

(** Then, with nothing to remember of [m]. *)
Lemma guarded_then {A B} (F : Db -> Prop) (m : Query A) (k : A -> Query B) H :
  stable F -> guarded F m anything -> (forall a, guarded F (k a) H) -> guarded F (bind m k) H.
Proof.
  intros HF Hm Hk. eapply guarded_bind; [done|exact Hm|]. intros a.
  eapply guarded_weaken; [apply Hk|by intros d []|done].
Qed.

Lemma guarded_now {B} (F : Db -> Prop) (k : Z -> Query B) H :
  (forall t, guarded F (k t) H) -> guarded F (bind utc_now k) H.
Proof. intros Hk d0 H0. apply hoare_now. intros t. by apply Hk. Qed.

Lemma guarded_or_panic {A B} (F : Db -> Prop) (o : option A) (k : A -> Query B) H :
  (forall a, guarded F (k a) H) -> guarded F (bind (or_panic o) k) H.
Proof. intros Hk d0 H0. apply hoare_or_panic; [|done]. intros a _. by apply Hk. Qed.

Lemma guarded_same {A} (F : Db -> Prop) (m : Query A) (G : A -> Db -> Prop) :
  (forall d0, F d0 -> hoare (fun d => d = d0) m (fun a d => d = d0 /\ G a d) any_end) -> guarded F m G.
Proof. intros H d0 H0. eapply hoare_conseq; [by apply H|done| |done]. by intros a d [-> ?]. Qed.

(** A row that is read. *)
Lemma guarded_find {R} {T : Table Db R} (F : Db -> Prop) (p : R -> bool) :
  guarded F (first_row (exec (sql_select p))) anything.
Proof. apply guarded_same. intros d0 _. by apply found_row. Qed.

Lemma guarded_optional_find {R} {T : Table Db R} (F : Db -> Prop) (p : R -> bool) :
  guarded F (optional (first_row (exec (sql_select p)))) anything.
Proof.
  apply guarded_same. intros d0 _. apply hoare_optional, hoare_first_row, hoare_select; [|done].
  by destruct (List.filter p (rows d0)).
Qed.

(** Writes. *)
Section Writes.
Context {R : Type} {T : Table Db R} (F : Db -> Prop).

Lemma guarded_update (P : R -> bool) f :
  (forall d now, F d -> contained d (set_rows (map (fun r => if P r then f now r else r) (rows d)) d)) ->
  guarded F (exec (sql_update P f)) anything.
Proof. intros H d0 H0. apply hoare_update; [|done]. intros now d -> _. split; [by apply H|done]. Qed.

Lemma guarded_insert (mk : Z -> Z -> R) :
  (forall d now n, F d -> contained d (set_rows (rows d ++ [mk now n]) d)) ->
  guarded F (exec (sql_insert mk)) anything.
Proof. intros H d0 H0. apply hoare_insert; [|done]. intros now n d -> _. split; [by apply H|done]. Qed.

Lemma guarded_insert_many (mks : list (Z -> Z -> R)) :
  (forall d now n, F d -> contained d (set_rows (rows d ++ mint now n mks) d)) ->
  guarded F (exec (sql_insert_many mks)) anything.
Proof.
  intros H d0 H0. apply hoare_exec; [|done]. intros now n d n' a d' ->. unfold sql_insert_many, checked.
  destruct (first_violation _ _); [done|]. intros [= _ <- <-]. split; [by apply H|done].
Qed.

Lemma guarded_upsert (s : R -> bool) mk f :
  (forall d now n, F d -> contained d (set_rows (rows d ++ [mk now n]) d)) ->
  (forall d now, F d -> contained d (set_rows (map (fun r => if s r then f now r else r) (rows d)) d)) ->
  guarded F (exec (sql_upsert s mk f)) anything.
Proof.
  intros Hi Hu d0 H0. apply hoare_exec; [|done]. intros now n d n' a d' ->.
  intros [[_ ->]| ->]%sql_upsert_inv; (split; [|done]); [by apply Hi|by apply Hu].
Qed.

Lemma guarded_delete (P : R -> bool) :
  (forall gone d, on_delete gone d = inr d) ->
  (forall d, F d -> contained d (set_rows (List.filter (fun r => negb (P r)) (rows d)) d)) ->
  guarded F (exec (sql_delete P)) anything.
Proof.
  intros Hd H d0 H0. apply hoare_delete; [|done]. intros d'. rewrite Hd. intros [= <-]. split; [by apply H|done].
Qed.
End Writes.

Lemma guarded_first_row {R} (F : Db -> Prop) (m : Query (list R)) :
  guarded F m anything -> guarded F (first_row m) anything.
Proof.
  intros H d0 H0. apply hoare_first_row. eapply hoare_conseq; [by apply H|done| |done].
  intros [|r l] d Hd; [done|exact Hd].
Qed.

Lemma guarded_transaction {A} (F : Db -> Prop) (m : Query A) G :
  guarded F m G -> guarded F (query_transaction m) G.
Proof. intros H d0 H0. apply hoare_transaction; [|done]. by apply H. Qed.

Lemma guarded_placed {R} {T : Table Db R} {K : Keyed R} keep (F : Db -> Prop) (m : Query R) G :
  (forall d0, F d0 -> hoare (fun d => d = d0) m (placed (keep d0) d0) any_end) ->
  (forall d0 r d, F d0 -> placed (keep d0) d0 r d -> contained d0 d /\ G r d) -> guarded F m G.
Proof. intros Hm H d0 H0. eapply hoare_conseq; [by apply Hm|done| |done]. intros r d. by apply H. Qed.

(** ** The operations of seeding *)

Definition team (id : Z) (d : Db) : Prop := demo_team d id = true.
Definition run_of (id : Z) (d : Db) : Prop := demo_run d id = true.

Lemma team_stable id : stable (team id).
Proof. intros d d' Hc. apply (ct_team_ids d d' Hc). Qed.
Lemma run_stable id : stable (run_of id).
Proof. intros d d' Hc. apply (ct_run_ids d d' Hc). Qed.
Lemma true_stable : stable (fun _ => True).
Proof. done. Qed.
Lemma and_stable F G : stable F -> stable G -> stable (fun d => F d /\ G d).
Proof. intros HF HG d d' Hc [? ?]. split; [by eapply HF|by eapply HG]. Qed.

Create HintDb demo.
#[export] Hint Resolve team_stable run_stable true_stable and_stable : demo.

Lemma exists_demo {R} (id : R -> Z) (demo : R -> bool) l r :
  r ∈ l -> demo r = true -> existsb (fun x => (id x =? id r) && demo x) l = true.
Proof. intros Hr Hd. apply existsb_exists. exists r. split; [by apply list_elem_of_In|]. by rewrite Z.eqb_refl, Hd. Qed.

Lemma maintainer_guarded : guarded (fun _ => True) ensure_demo_maintainer (fun m => team (Maint.id m)).
Proof.
  apply (guarded_placed (fun _ => other_team)).
  - intros d0 _. refine (upsert_placed other_team (fun m => Maint.email m =s DEMO_MAINTAINER_EMAIL)
      (MaintainerRepository.of_new demo_maintainer)
      (fun _ m => m <| Maint.display_name := "Platform Operations" |> <| Maint.email := DEMO_MAINTAINER_EMAIL |>) d0 _ _ _ _);
      [|done..].
    intros x Hx. unfold other_team. by rewrite Hx.
  - intros d0 m d _ (l & -> & Hm & Hd & Hs & Hk)%placed_keys. split; [by apply contained_teams|].
    by apply (exists_demo Maint.id (fun m => Maint.email m =s DEMO_MAINTAINER_EMAIL)).
Qed.

Lemma member_guarded mid uid role :
  guarded (team mid) (MaintainerMemberRepository.upsert (NewMember.mkNewMaintainerMember mid uid role)) anything.
Proof.
  apply guarded_upsert.
  - intros d now n Ht. apply contained_members, outside_insert. intros r ->%list_elem_of_singleton.
    unfold other_member. simpl. by rewrite Ht.
  - intros d now Ht. apply contained_members, outside_update. intros r _ [Hm%Z.eqb_eq _]%andb_prop. simpl in Hm.
    unfold other_member. simpl. by rewrite Hm, Ht.
Qed.

Lemma package_guarded mid n :
  NewPkg.maintainer_id n = mid -> guarded (team mid) (ensure_demo_package mid n) anything.
Proof.
  intros Hn. apply (guarded_placed other_package).
  - intros d0 Ht. refine (upsert_placed (other_package d0) (package_of mid (NewPkg.slug n)) (PackageRepository.of_new n)
      (fun now p => (PackageRepository.of_new n now (Pkg.id p)) <| Pkg.created_at := Pkg.created_at p |>) d0 _ _ _ _).
    + intros x [Hx%Z.eqb_eq _]%andb_prop. unfold other_package. by rewrite Hx, Ht.
    + intros now id. unfold other_package. simpl. by rewrite Hn, Ht.
    + done.
    + intros now x. unfold other_package. simpl. by rewrite Hn, Ht.
  - intros d0 r d _ (l & -> & _ & _ & Hs & _). split; [by apply contained_packages|done].
Qed.

(** A source of the demonstration, in its three tables. *)
Section Source.
Variable source : string.
Hypothesis is_demo_source : one_of_texts source demo_sources = true.

Lemma source_connector k : ConnectorRepository.from_source source k = true -> other_connector k = false.
Proof. intros Hk. apply str_eqb_eq in Hk. unfold other_connector. by rewrite Hk, is_demo_source. Qed.

Lemma connector_updated F f :
  (forall now k, Connectors.id (f now k) = Connectors.id k /\ Connectors.source (f now k) = Connectors.source k) ->
  guarded F (exec (sql_update (ConnectorRepository.from_source source) f)) anything.
Proof.
  intros Hf. apply guarded_update. intros d now _. apply contained_connectors.
  - apply outside_update. intros r _ Hr. pose proof (source_connector r Hr) as Ho. split; [done|].
    unfold other_connector in *. by rewrite (proj2 (Hf now r)).
  - apply demo_keys_update; [intros r; apply Hf|]. intros r Hr. by rewrite (proj2 (Hf now r)).
Qed.

Lemma connector_created F mk :
  (forall now id, Connectors.source (mk now id) = source) -> guarded F (exec (sql_insert mk)) anything.
Proof.
  intros Hm. apply guarded_insert. intros d now n _. apply contained_connectors; [|apply demo_keys_insert].
  apply outside_insert. intros r ->%list_elem_of_singleton. unfold other_connector. by rewrite Hm, is_demo_source.
Qed.

(** A [match] on whether the connector exists. *)
Lemma connector_cases {A} F (found : Query A) (missing : Query A) :
  guarded F found anything -> guarded F missing anything ->
  guarded F (catch (ConnectorRepository.find_by_source source) (fun r =>
    match r with inr _ => found | inl DNotFound => missing | inl e => fail e end)) anything.
Proof.
  intros Hf Hm d0 H0. eapply (hoare_catch _ _ _ (fun _ d => d = d0) (fun e ab d => e = Some DNotFound -> ab = false /\ d = d0)).
  - apply hoare_first_row, hoare_select; [|done]. by destruct (List.filter _ _).
  - intros _. by apply Hf.
  - intros []; [|by apply hoare_fail..]. apply hoare_at. intros d Hd. destruct (Hd eq_refl) as [_ ->]. by apply Hm.
  - intros [] c Hab He; [by destruct (He eq_refl)|done..].
  - done.
Qed.

Lemma connector_ensured F kind display_name scope_type mid :
  stable F -> guarded F (ensure_connector source kind display_name scope_type mid) anything.
Proof.
  intros HF. apply connector_cases; (eapply guarded_then; [done| |intros ?; by apply guarded_ret]).
  - by apply guarded_first_row, connector_updated.
  - by apply connector_created.
Qed.

Lemma connector_touched F kind status finished :
  guarded F (ConnectorRepository.touch_run_state source kind status finished) anything.
Proof.
  unfold ConnectorRepository.touch_run_state. apply connector_cases.
  - destruct (status =s "success"); by apply guarded_first_row, connector_updated.
  - by apply connector_created.
Qed.

Lemma config_updated F f :
  (forall now k, Config.source (f now k) = Config.source k) ->
  guarded F (exec (sql_update (ConnectorConfigRepository.from_source source) f)) anything.
Proof.
  intros Hf. apply guarded_update. intros d now _. apply contained_configs, outside_update.
  intros r _ Hr%str_eqb_eq. unfold other_config. by rewrite Hf, Hr, is_demo_source.
Qed.

Lemma config_upserted F u : stable F -> guarded F (ConnectorConfigRepository.upsert_by_source source u) anything.
Proof.
  intros HF. apply guarded_then; [done| |].
  { destruct (ConfigUpdate.schedule_cron u); [apply guarded_now; intros t|]; by apply guarded_ret. }
  intros next. apply guarded_upsert.
  - intros d now n _. apply contained_configs, outside_insert. intros r ->%list_elem_of_singleton.
    change (negb (one_of_texts source demo_sources) = false). by rewrite is_demo_source.
  - intros d now _. apply contained_configs, outside_update.
    intros r _ Hr%str_eqb_eq. unfold other_config. split; [by rewrite Hr, is_demo_source|].
    change (negb (one_of_texts (Config.source r) demo_sources) = false). by rewrite Hr, is_demo_source.
Qed.

Lemma first_run_deferred F : stable F -> guarded F (defer_first_run source) anything.
Proof.
  intros HF. apply guarded_now. intros now. apply guarded_or_panic. intros next.
  eapply guarded_then; [done| |intros ?; by apply guarded_ret]. by apply config_updated.
Qed.
End Source.

(** The scope of the connector, with the records it has imported. *)
Definition connector_of (k : Connectors.Connector) (d : Db) : Prop := demo_connector d (Connectors.id k) = true.

Lemma connector_stable k : stable (connector_of k).
Proof. intros d d' Hc. apply (ct_connector_ids d d' Hc). Qed.
#[export] Hint Resolve connector_stable : demo.

Lemma demo_reference b belongs i o :
  belongs i = true -> holds (eq_int o (Some i)) = true -> b && negb (is_demo belongs o) = false.
Proof.
  intros Hb. destruct o as [x|]; [|done]. unfold eq_int, tv_cmp, holds, is_demo.
  destruct (Z.eqb_spec x i) as [->|]; [|done]. by rewrite Hb, andb_false_r.
Qed.

Lemma rescoped_guarded F (f : Z -> Connectors.Connector -> Connectors.Connector) k :
  stable F ->
  (forall now r, Connectors.id (f now r) = Connectors.id r /\ Connectors.source (f now r) = Connectors.source r) ->
  guarded (fun d => F d /\ k ∈ connectors d /\ Connectors.source k = DEMO_SOURCE)
    (first_row (exec (sql_update (fun r => Connectors.id r =? Connectors.id k) f)))
    (fun k d => F d /\ connector_of k d).
Proof.
  intros HF Hf d0 (H0 & Hk & Hs).
  eapply hoare_conseq; [refine (update_placed (fun x => negb (Connectors.source x =s DEMO_SOURCE)) k f d0 Hk _ _ _)|done| |done].
  - by rewrite Hs.
  - intros now r. apply Hf.
  - intros now. by rewrite (proj2 (Hf now k)), Hs.
  - intros r d [(l & -> & Hr & Hd & Hsame & Hkeys)%(placed_keys (fun k => Connectors.source k =s DEMO_SOURCE)) _].
    assert (Hc : contained d0 (d0 <| connectors := l |>)).
    { apply contained_connectors; [|done]. eapply outside_trans; [|exact Hsame|done].
      intros x. unfold other_connector, one_of_texts. simpl. by destruct (Connectors.source x =s DEMO_SOURCE). }
    split_and!; [done|by eapply HF|]. by apply (exists_demo Connectors.id (fun k => Connectors.source k =s DEMO_SOURCE)).
Qed.

Lemma scope_updated F mid :
  stable F -> guarded F (ConnectorRepository.update_scope DEMO_SOURCE "maintainer" None mid) anything.
Proof.
  intros HF. apply guarded_transaction.
  eapply (guarded_seq _ _ _ (fun k d => F d /\ k ∈ connectors d /\ Connectors.source k = DEMO_SOURCE)).
  { apply guarded_same. intros d0 H0. apply found_row. intros k Hk Hs. apply str_eqb_eq in Hs. by split_and!. }
  intros k. eapply (guarded_seq _ _ _ (fun k d => F d /\ connector_of k d)); [by apply rescoped_guarded|].
  intros k'. apply guarded_then; [auto with demo| |intros _].
  { apply guarded_update. intros d now [_ Hk]. apply contained_cards, outside_update. intros r _ Hr.
    split; by apply (demo_reference _ _ (Connectors.id k')). }
  apply guarded_then; [auto with demo| |intros _].
  { apply guarded_update. intros d now [_ Hk]. apply contained_notifications, outside_update. intros r _ Hr.
    split; by apply (demo_reference _ _ (Connectors.id k')). }
  apply guarded_then; [auto with demo| |intros _; by apply guarded_ret].
  apply guarded_update. intros d now [_ Hk]. apply contained_events, outside_update. intros r _ Hr.
  split; by apply (demo_reference _ _ (Connectors.id k')).
Qed.

(** The runs. *)
Lemma run_prepared target trigger started F :
  stable F -> guarded F (prepare_demo_run target trigger started) (fun r d => F d /\ run_of (Run.id r) d).
Proof.
  intros HF. apply (guarded_placed (fun _ => other_run)).
  - assert (Hp : forall x, demo_run_of target trigger x = true -> other_run x = false).
    { intros x [[Hs _]%andb_prop _]%andb_prop. unfold other_run. by rewrite Hs. }
    intros d0 _. refine (upsert_placed other_run (demo_run_of target trigger) _ (fun _ => restarted started) d0 Hp _ _ _);
      [done..|]. intros now x Hx. by apply Hp.
  - intros d0 r d H0 (l & -> & Hr & Hd & Hs & Hk)%(placed_keys (fun r => Run.source r =s DEMO_SOURCE)).
    assert (Hc : contained d0 (d0 <| connector_runs := l |>)) by by apply contained_runs.
    split_and!; [done|by eapply HF|]. by apply (exists_demo Run.id (fun r => Run.source r =s DEMO_SOURCE)).
Qed.

Lemma run_state_updated F id state :
  guarded (fun d => F d /\ run_of id d) (ConnectorRunRepository.update_state id state) anything.
Proof.
  apply guarded_now. intros now.
  intros d0 [_ (x & Hx%list_elem_of_In & [Hid%Z.eqb_eq Hs]%andb_prop)%existsb_exists]. rewrite <- Hid.
  eapply hoare_conseq; [refine (update_placed other_run x
    (fun _ => ConnectorRunRepository.finalized state now) d0 Hx _ _ _)|done| |done].
  - unfold other_run. by rewrite Hs.
  - done.
  - intros t. change (other_run x = false). unfold other_run. by rewrite Hs.
  - intros r d [(l & -> & _ & _ & Hsame & Hk)%(placed_keys (fun r => Run.source r =s DEMO_SOURCE)) _].
    split; [by apply contained_runs|done].
Qed.

Lemma run_finished F run status ok bad message ms :
  guarded (fun d => F d /\ run_of (Run.id run) d) (finish_demo_run run status ok bad message ms) anything.
Proof. apply guarded_or_panic. intros finished. apply run_state_updated. Qed.

Lemma artifacts_cleared F id checks :
  stable F -> guarded (fun d => F d /\ run_of id d) (clear_demo_run_artifacts id checks) anything.
Proof.
  intros HF. assert (Hst : stable (fun d => F d /\ run_of id d)) by auto with demo.
  apply guarded_then; [done| |intros _].
  { apply guarded_delete; [done|]. intros d [_ Hr]. apply contained_errors, outside_delete.
    intros e _ He%Z.eqb_eq. unfold other_error. by rewrite He, Hr. }
  apply guarded_then; [done| |intros _].
  { apply guarded_delete; [done|]. intros d [_ Hr]. apply contained_items, outside_delete.
    intros e _ He%Z.eqb_eq. unfold other_item. by rewrite He, Hr. }
  apply guarded_then; [done| |intros _; by apply guarded_ret].
  destruct checks; [|by apply guarded_ret]. apply guarded_then; [done| |intros _; by apply guarded_ret].
  apply guarded_delete; [done|]. intros d [_ Hr]. apply contained_checks, outside_delete.
  intros h _ Hh. by apply (demo_reference _ _ id).
Qed.

Lemma elem_of_mint {R} (r : R) now mks n : r ∈ mint now n mks -> exists mk i, mk ∈ mks /\ r = mk now i.
Proof.
  revert n. induction mks as [|mk mks IH]; intros n; simpl; [set_solver|].
  intros [->|(mk' & i & Hm & ->)%IH]%elem_of_cons; [exists mk, n; set_solver|exists mk', i; set_solver].
Qed.

Lemma items_created F id items :
  Forall (fun n => NewItem.connector_run_id n = id) items ->
  guarded (fun d => F d /\ run_of id d) (create_many_items items) anything.
Proof.
  intros Hi. destruct items as [|n items]; [by apply guarded_ret|]. apply guarded_insert_many.
  intros d now m [_ Hr]. apply contained_items, outside_insert.
  intros r (mk & i & (x & -> & Hx)%list_elem_of_fmap & ->)%elem_of_mint. rewrite Forall_forall in Hi.
  unfold other_item. simpl. by rewrite (Hi x Hx), Hr.
Qed.

Lemma errors_created F id errors :
  Forall (fun n => NewItemError.connector_run_id n = id) errors ->
  guarded (fun d => F d /\ run_of id d) (create_many_errors errors) anything.
Proof.
  intros Hi. destruct errors as [|n errors]; [by apply guarded_ret|]. apply guarded_insert_many.
  intros d now m [_ Hr]. apply contained_errors, outside_insert.
  intros r (mk & i & (x & -> & Hx)%list_elem_of_fmap & ->)%elem_of_mint. rewrite Forall_forall in Hi.
  unfold other_error. simpl. by rewrite (Hi x Hx), Hr.
Qed.

Lemma imported_items_written F id target records :
  stable F -> guarded (fun d => F d /\ run_of id d) (write_imported_run_items id target records) anything.
Proof.
  intros HF. apply guarded_then; [auto with demo| |intros _; by apply guarded_ret]. apply items_created.
  apply Forall_forall. by intros n (r & -> & _)%list_elem_of_fmap.
Qed.

(** The records. *)
Lemma card_upserted F n :
  NewCard.source n = DEMO_SOURCE -> guarded F (WorkCardRepository.upsert_from_connector n) anything.
Proof.
  intros Hn. apply (guarded_placed other_card).
  - intros d0 _. assert (Hnew : forall r, Card.source r = DEMO_SOURCE -> other_card d0 r = false).
    { intros r Hr. unfold other_card. by rewrite Hr. }
    unfold WorkCardRepository.upsert_from_connector. destruct (NewCard.external_id n).
    + refine (upsert_match_placed (other_card d0) _ (WorkCardRepository.of_new n) (WorkCardRepository.with_new n) d0 _ _ _ _);
        [intros x [Hx%str_eqb_eq _]%andb_prop; apply Hnew; congruence|intros; by apply Hnew|done|intros; by apply Hnew].
    + eapply hoare_conseq; [apply (insert_placed (other_card d0) _ d0); intros; by apply Hnew|done|by intros ?? []|done].
  - intros d0 r d _ (l & -> & _ & _ & Hs & _). split; [by apply contained_cards|done].
Qed.

Lemma notification_upserted F n :
  NewNotif.source n = DEMO_SOURCE -> guarded F (NotificationRepository.upsert_from_connector n) anything.
Proof.
  intros Hn. apply (guarded_placed other_notification).
  - intros d0 _. assert (Hnew : forall r, Notif.source r = DEMO_SOURCE -> other_notification d0 r = false).
    { intros r Hr. unfold other_notification. by rewrite Hr. }
    unfold NotificationRepository.upsert_from_connector. destruct (NewNotif.external_id n).
    + refine (upsert_match_placed (other_notification d0) _ (NotificationRepository.of_new n)
        (NotificationRepository.with_new n) d0 _ _ _ _);
        [intros x [Hx%str_eqb_eq _]%andb_prop; apply Hnew; congruence|intros; by apply Hnew|done|intros; by apply Hnew].
    + eapply hoare_conseq; [apply (insert_placed (other_notification d0) _ d0); intros; by apply Hnew|done|by intros ?? []|done].
  - intros d0 r d _ (l & -> & _ & _ & Hs & _). split; [by apply contained_notifications|done].
Qed.

Lemma event_upserted F n :
  NewEvent.source n = DEMO_CALENDAR_SOURCE -> guarded F (CalendarEventRepository.upsert_from_connector n) anything.
Proof.
  intros Hn. apply (guarded_placed other_event).
  - intros d0 _. assert (Hnew : forall r, Event.source r = DEMO_CALENDAR_SOURCE -> other_event d0 r = false).
    { intros r Hr. unfold other_event. by rewrite Hr. }
    refine (upsert_match_placed (other_event d0) _ (CalendarEventRepository.of_new n)
      (CalendarEventRepository.with_new n) d0 _ _ _ _);
      [intros x [Hx%str_eqb_eq _]%andb_prop; apply Hnew; congruence|intros; by apply Hnew|done|intros; by apply Hnew].
  - intros d0 r d _ (l & -> & _ & _ & Hs & _). split; [by apply contained_events|done].
Qed.

(** A service with the health check written beside it. *)
Lemma service_written F n existing :
  stable F -> NewSvc.source n = DEMO_SOURCE ->
  guarded (fun d => F d /\ forall x, existing = Some x -> x ∈ services d /\ Svc.source x = DEMO_SOURCE)
    (match existing with
     | Some existing => ServiceRepository.update (Svc.id existing) n
     | None => ServiceRepository.create n
     end) (fun s d => F d /\ Svc.source s = DEMO_SOURCE).
Proof.
  intros HF Hn. assert (Hnew : forall s, Svc.source s = DEMO_SOURCE -> other_service s = false).
  { intros s Hs. unfold other_service. by rewrite Hs. }
  apply (guarded_placed (fun _ => other_service)).
  - intros d0 [_ He]. destruct existing as [x|].
    + destruct (He x eq_refl) as [Hx Hs].
      eapply hoare_conseq; [refine (update_placed other_service x (ServiceRepository.with_new n) d0 Hx _ _ _)|done|by intros ?? []|done];
        [by apply Hnew|done|intros now; by apply Hnew].
    + eapply hoare_conseq; [apply (insert_placed other_service _ d0); intros; by apply Hnew|done|by intros ?? []|done].
  - intros d0 s d [H0 _] (l & -> & _ & Hs%negb_false_iff%str_eqb_eq & Hsame & _).
    assert (Hc : contained d0 (d0 <| services := l |>)) by by apply contained_services.
    split_and!; [done|by eapply HF|done].
Qed.

Lemma service_upserted F n run_id raw :
  stable F -> NewSvc.source n = DEMO_SOURCE ->
  guarded F (ServiceRepository.upsert_from_connector_with_health_check n run_id raw) anything.
Proof.
  intros HF Hn. apply guarded_transaction.
  eapply (guarded_seq _ _ _ (fun o d => F d /\ forall x, o = Some x -> x ∈ services d /\ Svc.source x = DEMO_SOURCE)).
  { destruct (NewSvc.external_id n) as [e|]; [|by apply guarded_ret]. apply guarded_same. intros d0 H0.
    apply hoare_optional, hoare_first_row, hoare_select; [|done].
    destruct (List.filter _ _) as [|x l] eqn:E; [by split_and!|]. split_and!; [done..|]. intros ? [= <-].
    match type of E with List.filter ?p ?k = _ => assert (x ∈ List.filter p k) as Hx by (rewrite E; left) end.
    apply elem_of_filter_b in Hx as [Hx [Hs%str_eqb_eq _]%andb_prop]. split; [done|congruence]. }
  intros existing. eapply guarded_seq; [by apply service_written|]. intros service.
  assert (Hst : stable (fun d => F d /\ Svc.source service = DEMO_SOURCE)) by (apply and_stable; [done|by intros ???]).
  apply guarded_then; [done| |intros checked_at].
  { destruct (Svc.last_checked_at service); [by apply guarded_ret|]. intros d0 H0 c Ha Hc. by rewrite <- Hc. }
  apply guarded_then; [done| |intros _; by apply guarded_ret]. apply guarded_insert.
  intros d now id [_ Hs]. apply contained_checks, outside_insert. intros r ->%list_elem_of_singleton.
  unfold other_check. change (negb (Svc.source service =s DEMO_SOURCE) && negb (is_demo (demo_run d) (Some run_id)) = false).
  by rewrite Hs.
Qed.

Lemma seeded_each F seed items :
  stable F -> (forall item, guarded F (seed item) anything) ->
  guarded F (seed_each seed items) (fun l d => F d /\ length l = length items).
Proof.
  intros HF Hs. unfold seed_each.
  assert (H : forall l acc, guarded F (for_each l acc (fun records item => record <- seed item ;; ret (records ++ [record])))
    (fun r d => F d /\ length r = (length acc + length l)%nat)).
  { induction l as [|item l IH]; intros acc; cbn [for_each].
    - apply guarded_ret. intros d Hd. split; [done|simpl; lia].
    - eapply (guarded_seq _ _ _ (fun acc' d => F d /\ length acc' = S (length acc))).
      + apply (guarded_bind _ _ _ anything); [done|apply Hs|]. intros r. apply guarded_ret.
        intros d [Hd _]. split; [done|rewrite length_app; simpl; lia].
      + intros acc' d0 [H0 Hl]. eapply hoare_conseq; [by apply (IH acc')|done| |done].
        intros r d (Hc & Hd & ->). split_and!; [done..|]. simpl. lia. }
  eapply guarded_weaken; [apply (H items [])|done|]. intros r d [? ?]. done.
Qed.

Section Seeded.
Context {CT : ChronoText} {VD : ValueDisplay}.

Lemma service_items_read F mid now :
  guarded F (service_items mid now) (fun items d => F d /\ length items = 3%nat).
Proof. do 3 (apply guarded_or_panic; intros ?). by apply guarded_ret. Qed.

Lemma card_items_read F now assignee :
  guarded F (card_items now assignee) (fun items d => F d /\ length items = 2%nat).
Proof. do 2 (apply guarded_or_panic; intros ?). by apply guarded_ret. Qed.

Lemma calendar_seed_read F :
  guarded F calendar_seed (fun seed d => F d /\ dp_source seed = DEMO_CALENDAR_SOURCE).
Proof.
  assert (Hm : forall n (k : Z -> Query DemoProductConnectorSeed) G,
    (forall t, guarded F (k t) G) -> guarded F (bind (minutes_from_now n) k) G).
  { intros n k G Hk d0 H0 c Ha Hc. unfold minutes_from_now, plus_minutes, bind, utc_now.
    destruct (datetime_add _ _) as [t|]; [|done]. by apply (Hk t d0). }
  do 4 (apply Hm; intros ?). by apply guarded_ret.
Qed.

Lemma demo_connector_ensured mid : guarded (team mid) (ensure_demo_connector mid) anything.
Proof.
  apply guarded_then; [auto with demo|by apply connector_ensured; auto with demo|intros _].
  apply guarded_then; [auto with demo|apply scope_updated; auto with demo|intros _].
  apply guarded_now. intros now. apply guarded_then; [auto with demo| |intros payload].
  { eapply guarded_seq; [apply service_items_read|]. intros items. by apply guarded_ret. }
  apply guarded_then; [auto with demo|by apply config_upserted; auto with demo|intros _].
  apply first_run_deferred; auto with demo.
Qed.

Lemma product_connector_ensured F seed :
  stable F -> one_of_texts (dp_source seed) demo_sources = true ->
  guarded F (ensure_demo_product_connector seed) anything.
Proof.
  intros HF Hs. apply guarded_then; [done|by apply connector_ensured|intros _].
  apply guarded_then; [done|by apply config_upserted|intros _]. by apply first_run_deferred.
Qed.

Lemma product_connectors_ensured F : stable F -> guarded F ensure_demo_product_connectors anything.
Proof.
  intros HF. eapply guarded_seq; [apply calendar_seed_read|]. intros calendar.
  intros d0 [H0 Hs]. revert d0 H0. change (guarded F (ensure_demo_product_connector calendar ;;;
    ensure_demo_product_connector outlook_seed ;;; ensure_demo_product_connector erp_seed) anything).
  apply guarded_then; [done|apply product_connector_ensured; [done|by rewrite Hs]|intros _].
  apply guarded_then; [done|by apply product_connector_ensured|intros _]. by apply product_connector_ensured.
Qed.

Lemma calendar_events_seeded F now :
  stable F -> guarded F (seed_demo_calendar_events now) (fun l d => F d /\ length l = 1%nat).
Proof.
  intros HF. apply guarded_then; [done|apply guarded_find|intros connector].
  apply guarded_or_panic. intros starts. apply guarded_or_panic. intros ends.
  apply guarded_then; [done|by apply event_upserted|intros event]. by apply guarded_ret.
Qed.

Lemma packages_seeded mid : guarded (team mid) (seed_demo_packages mid) (fun l d => team mid d /\ length l = 2%nat).
Proof.
  apply guarded_then; [auto with demo|by apply package_guarded|intros identity].
  apply guarded_then; [auto with demo|by apply package_guarded|intros deploy]. by apply guarded_ret.
Qed.

Lemma service_seeded F mid run_id item : stable F -> guarded F (seed_demo_service mid run_id item) anything.
Proof.
  intros HF. do 4 (apply guarded_or_panic; intros ?).
  apply guarded_then; [done| |intros checked].
  { apply guarded_or_panic. intros t. by apply guarded_ret. }
  apply guarded_then; [done|by apply service_upserted|intros service]. by apply guarded_ret.
Qed.

Lemma card_seeded F connector item : stable F -> guarded F (seed_demo_work_card connector item) anything.
Proof.
  intros HF. do 3 (apply guarded_or_panic; intros ?).
  do 2 (apply guarded_then; [done|apply guarded_or_panic; intros ?; by apply guarded_ret|intros ?]).
  apply guarded_then; [done|by apply card_upserted|intros card]. by apply guarded_ret.
Qed.

Lemma notification_seeded F connector t item : stable F -> guarded F (seed_demo_notification connector t item) anything.
Proof.
  intros HF. do 2 (apply guarded_or_panic; intros ?).
  apply guarded_then; [done|by apply notification_upserted|intros notification]. by apply guarded_ret.
Qed.

(** What follows the records of a run. *)
Lemma run_closed F run status ok bad message ms kind now (records : list SeededRecord) n :
  stable F -> length records = n ->
  guarded (fun d => F d /\ run_of (Run.id run) d)
    (finish_demo_run run status ok bad message ms ;;;
     ConnectorRepository.touch_run_state DEMO_SOURCE kind status now ;;;
     ret records) (fun l d => F d /\ length l = n).
Proof.
  intros HF Hn. apply guarded_then; [auto with demo|apply run_finished|intros _].
  apply guarded_then; [auto with demo|by apply connector_touched|intros _]. apply guarded_ret. by intros d [? _].
Qed.

(** A list whose length is known. *)
Lemma guarded_counted {A B} F (m : Query (list A)) (k : list A -> Query B) n G :
  guarded F m (fun l d => F d /\ length l = n) ->
  (forall l, length l = n -> guarded F (k l) G) -> guarded F (bind m k) G.
Proof. intros Hm Hk. eapply guarded_seq; [exact Hm|]. intros l d0 [H0 Hl]. by apply Hk. Qed.

Lemma services_seeded F mid run_id now :
  stable F -> guarded F (seed_demo_services mid run_id now) (fun l d => F d /\ length l = 3%nat).
Proof.
  intros HF. eapply guarded_seq; [apply service_items_read|]. intros items d0 [H0 Hl].
  rewrite <- Hl. apply seeded_each; [done| |done]. intros item. by apply service_seeded.
Qed.

Lemma notifications_seeded F :
  stable F -> guarded F seed_demo_notifications (fun l d => F d /\ length l = 3%nat).
Proof.
  intros HF. apply guarded_then; [done|apply guarded_find|intros connector]. apply guarded_now. intros t.
  apply (seeded_each F _ notification_items); [done|]. intros item. by apply notification_seeded.
Qed.

Lemma cards_seeded F now assignee :
  stable F -> guarded F (seed_demo_work_cards now assignee) (fun l d => F d /\ length l = 2%nat).
Proof.
  intros HF. apply guarded_then; [done|apply guarded_find|intros connector].
  eapply guarded_seq; [apply card_items_read|]. intros items d0 [H0 Hl].
  rewrite <- Hl. apply seeded_each; [done| |done]. intros item. by apply card_seeded.
Qed.

Lemma health_run_seeded F mid now : stable F -> guarded F (seed_health_run mid now) (fun l d => F d /\ length l = 3%nat).
Proof.
  intros HF. eapply guarded_seq; [by apply run_prepared|]. intros run.
  apply guarded_then; [auto with demo|by apply artifacts_cleared|intros _].
  eapply guarded_counted; [apply services_seeded; auto with demo|]. intros l Hl.
  apply guarded_then; [auto with demo|by apply imported_items_written|intros _]. by apply run_closed.
Qed.

Lemma notification_run_seeded F now : stable F -> guarded F (seed_notification_run now) (fun l d => F d /\ length l = 3%nat).
Proof.
  intros HF. eapply guarded_seq; [by apply run_prepared|]. intros run.
  apply guarded_then; [auto with demo|by apply artifacts_cleared|intros _].
  eapply guarded_counted; [apply notifications_seeded; auto with demo|]. intros l Hl.
  apply guarded_then; [auto with demo|by apply imported_items_written|intros _]. by apply run_closed.
Qed.

Lemma work_run_seeded F now assignee :
  stable F -> guarded F (seed_work_run now assignee) (fun l d => F d /\ length l = 2%nat).
Proof.
  intros HF. eapply guarded_seq; [by apply run_prepared|]. intros run.
  apply guarded_then; [auto with demo|by apply artifacts_cleared|intros _].
  eapply guarded_counted; [apply cards_seeded; auto with demo|]. intros l Hl.
  apply guarded_then; [auto with demo|by apply imported_items_written|intros _].
  apply guarded_then; [auto with demo|by apply errors_created; repeat constructor|intros _].
  apply guarded_then; [auto with demo|by apply items_created; repeat constructor|intros _]. by apply run_closed.
Qed.

(** ** Seeding as a whole *)

Context {U : Unicode}.

(** The summary that is printed. *)
Definition demo_summary (mid : Z) : DemoSeedSummary := mkDemoSeedSummary mid 3 2 2 3 1 3.

Lemma seeding_guarded admin :
  guarded (fun _ => True) (seed_demo_data_transaction admin)
    (fun summary d => exists mid, summary = demo_summary mid /\ demo_team d mid = true).
Proof.
  apply guarded_now. intros now. eapply guarded_seq; [apply maintainer_guarded|]. intros maintainer.
  set (mid := Maint.id maintainer). assert (Hst : stable (team mid)) by auto with demo.
  apply guarded_then; [done|apply guarded_optional_find|intros user].
  apply guarded_then; [done| |intros _].
  { destruct user; [|by apply guarded_ret]. apply guarded_then; [done|apply member_guarded|intros _]. by apply guarded_ret. }
  apply guarded_then; [done|apply demo_connector_ensured|intros _].
  apply guarded_then; [done|by apply product_connectors_ensured|intros _].
  eapply guarded_counted; [by apply calendar_events_seeded|]. intros events He.
  eapply guarded_counted; [apply packages_seeded|]. intros pkgs Hp.
  eapply guarded_counted; [by apply health_run_seeded|]. intros svcs Hs.
  eapply guarded_counted; [by apply notification_run_seeded|]. intros notes Hn.
  eapply guarded_counted; [by apply work_run_seeded|]. intros cards Hc.
  apply guarded_ret. intros d Ht. exists mid. by rewrite He, Hp, Hs, Hn, Hc.
Qed.
End Seeded.

Lemma seeding_effect {CT : ChronoText} {VD : ValueDisplay} {U : Unicode} env admin_username c :
  aborted c = false ->
  match seed_demo_data env admin_username c with
  | (Ok summary, c') =>
      contained (db c) (db c') /\ exists mid, summary = demo_summary mid /\ demo_team (db c') mid = true
  | (_, c') => db c' = db c
  end.
Proof.
  intros Ha. unfold seed_demo_data, unwrap, catch.
  pose proof (transaction_effect id _ c _ Ha (seeding_guarded
    (default "admin" (or_else admin_username (env_text env "SEED_ADMIN_USERNAME"))) (db c) I)) as H.
  unfold query_transaction. by destruct (transaction _ _ c) as [[a|e|] c'].
Qed.

(** C39: Seeding the demonstration data is all or nothing, and it changes rows of the
    demonstration only: the accounts, sessions, identities, workers and the audit trail
    stay as they are, as do the members and packages of every other team, the connectors,
    configurations, runs and services of every other source, their items, errors and
    health checks, and every card, notification and event that neither has a source of
    the demonstration nor was imported by its connector. The printed summary counts what
    was seeded; a failure or a panic changes nothing. *)
Theorem demo_seed_is_contained {CT : ChronoText} {VD : ValueDisplay} {U : Unicode} env admin_username c :
  aborted c = false ->
  match seed_demo_data env admin_username c with
  | (Ok summary, c') =>
      contained (db c) (db c') /\ exists mid, summary = demo_summary mid /\ demo_team (db c') mid = true
  | (_, c') => db c' = db c
  end.
Proof. apply seeding_effect. Qed.

(** A portal with a team, a connector and a card of its own. *)
Definition own_card : Card.WorkCard :=
  WorkCardRepository.of_new (NewCard.mkNewWorkCard "jira" (Some "J-1") "Title" "todo" "low" None None None None None
    None None (Some 3) None None None None None) 0 5.

Definition portal_db : Db := empty_db
  <| users := [Users.mkUser 7 "admin" "hash" 0] |>
  <| maintainers := [Maint.mkMaintainer 2 "Team" "team@example.test" 0] |>
  <| connectors := [Connectors.mkConnector 3 "jira" "jira" "Jira" "active" None None 0 0 "global" None None] |>
  <| work_cards := [own_card] |>.

Definition seed_portal (c : Conn Db) : outcome Empty_set DemoSeedSummary * Conn Db :=
  @seed_demo_data seconds_chrono {| value_text := fun _ => "json" |} ascii_unicode (fun _ => NotPresent) None c.

Lemma portal_is_seeded :
  match seed_portal (calm portal_db 1700000000000000 [] 10) with
  | (Ok _, c') => (length (work_cards (db c')) =? 3)%nat && other_card (db c') own_card
  | _ => false
  end = true.
Proof. vm_compute. reflexivity. Qed.

Lemma demo_seed_is_contained_witness :
  exists summary c', seed_portal (calm portal_db 1700000000000000 [] 10) = (Ok summary, c') /\
    length (work_cards (db c')) = 3%nat /\ own_card ∈ work_cards (db c').
Proof.
  assert (Hp : forall c, aborted c = false -> own_card ∈ work_cards (db c) -> match seed_portal c with
    | (Ok _, c') => other_card (db c') own_card = true -> own_card ∈ work_cards (db c') | _ => True end).
  { intros c Ha Hin. assert (Hl := demo_seed_is_contained (CT:=seconds_chrono) (VD:={| value_text := fun _ => "json" |})
      (U:=ascii_unicode) (fun _ => NotPresent) None c Ha). unfold seed_portal.
    destruct (seed_demo_data _ _ c) as [[r|e|] c']; [|exact I..]. destruct Hl as [Hc _]. intros Ho.
    assert (own_card ∈ List.filter (other_card (db c')) (work_cards (db c'))) as Hk
      by (rewrite (ct_cards _ _ Hc); apply elem_of_filter_b; split; assumption).
    apply elem_of_filter_b in Hk as [Hk _]. exact Hk. }
  specialize (Hp (calm portal_db 1700000000000000 [] 10) eq_refl ltac:(left)). revert Hp. generalize portal_is_seeded.
  generalize (seed_portal (calm portal_db 1700000000000000 [] 10)). intros [[r|e|] c'] Hs Hp; try discriminate Hs.
  apply andb_prop in Hs as [Hn Ho]. exists r, c'. split_and!; [reflexivity|apply Nat.eqb_eq, Hn|apply Hp, Ho].
Defined.
