(* ===== verification/RunSystem.v ===== *)
(** Everything that happens to runs. The steps of the system are the units PostgreSQL
    commits at once: the operations of [ConnectorRunRepository], the transactions in which
    the worker and the import handlers record results, schedule and clean up, and the
    transaction that seeds the demonstration data. Any number of processes take them in any
    order; the programs of the worker and of the handlers are sequences of them. *)
From S2P Require Import Prelude Logic Text Models Schema Api Validation Schedule Runs RunLifecycle RunSafety.
From S2P Require Import Access Sessions Records Connections Runtime AuditLogs SingleSignOn Config Values Accounts.
From S2P Require Import AdapterValues SecretsSafety RuntimeSafety ConnectorWorkers WorkerSafety Commands DemoSeed DemoSafety ConnectorRoutes Authn GraphSafety ConfigSafety.
From stdpp Require Import relations.
Import ConnectorRunRepository.

Open Scope Z_scope.
Open Scope portal_scope.

(** The runs of every source but the demonstration's. *)
Definition product_runs (l : list Run.ConnectorRun) : list Run.ConnectorRun := List.filter other_run l.

(** ** The life cycle on a selection of sources *)

Lemma filter_map_key (p : Run.ConnectorRun -> bool) f l :
  (forall r, r ∈ l -> p (f r) = p r) -> List.filter p (map f l) = map f (List.filter p l).
Proof.
  induction l as [|x l IH]; intros H; [done|]. simpl. rewrite (H x) by left.
  rewrite IH by (intros; apply H; by right). by destruct (p x).
Qed.

Lemma table_step_product l l' : table_step l l' -> rtc table_step (product_runs l) (product_runs l').
Proof.
  unfold product_runs. destruct 1 as [l P f Hf|l r Hr Hid Hfree|l P g Hg].
  - rewrite filter_map_key.
    + apply rtc_once, (ts_update _ P f). intros r [Hr _]%elem_of_filter_b. by apply Hf.
    + intros r Hr. destruct (P r) eqn:E; [|done]. unfold other_run.
      by destruct (lifecycle_keeps _ _ (Hf r Hr E)) as (_ & -> & _).
  - rewrite List.filter_app. simpl. destruct (other_run r); [|by rewrite app_nil_r].
    apply rtc_once, ts_insert; [done|..].
    + intros (x & E & [Hx _]%elem_of_filter_b)%list_elem_of_fmap. apply Hid, list_elem_of_fmap. eauto.
    + intros x [Hx _]%elem_of_filter_b. by apply Hfree.
  - rewrite filter_map_key by done. rewrite filter_comm_b. apply rtc_once, ts_delete.
    intros r [Hr _]%elem_of_filter_b. by apply Hg.
Qed.

Lemma table_steps_product l l' : rtc table_step l l' -> rtc table_step (product_runs l) (product_runs l').
Proof. induction 1 as [|l l1 l2 H _ IH]; [done|]. etrans; [by apply table_step_product|exact IH]. Qed.

Lemma terminal_inactive r : terminal r = true -> active r = false.
Proof.
  rewrite <- not_true_iff_false, active_status. unfold terminal. intros H [E|E]; by rewrite E in H.
Qed.

(** ** The states of one run *)

(** [later x y]: the row [y] is what became of the run [x]: the same run, with no more status
    changes to take, fewer when its status changed, and the same row when [x] was over. *)
Definition later (x y : Run.ConnectorRun) : Prop :=
  Run.id y = Run.id x /\ Run.source y = Run.source x /\
  (active x = false -> same_run x y) /\
  (wf_run x -> wf_run y /\ Run.max_attempts y = Run.max_attempts x /\ remaining y <= remaining x /\
     (Run.status y <> Run.status x -> remaining y < remaining x)).

Lemma later_same x y : same_run x y -> later x y.
Proof.
  intros [p ->]. split_and!; [done|done|by eexists|]. intros Hw.
  split_and!; [by apply wf_run_parent|done|by unfold remaining|done].
Qed.

Lemma later_refl x : later x x.
Proof. apply later_same. exists (Run.parent_run_id x). by destruct x. Qed.

Lemma later_trans x y z : later x y -> later y z -> later x z.
Proof.
  intros (E1 & S1 & A1 & W1) (E2 & S2 & A2 & W2). split_and!; [congruence|congruence|..].
  - intros Ha. pose proof (A1 Ha) as Hs. eapply same_run_trans; [done|]. apply A2.
    destruct (same_run_keeps _ _ Hs) as [_ ->]. done.
  - intros (Hw & M1 & R1 & D1)%W1. destruct (W2 Hw) as (Hw2 & M2 & R2 & D2).
    split_and!; [done|congruence|lia|]. intros Hne.
    destruct (decide (Run.status y = Run.status x)) as [E|E]; [|specialize (D1 E); lia].
    specialize (D2 ltac:(congruence)). lia.
Qed.

Lemma lifecycle_later x y : lifecycle x y -> later x y.
Proof.
  intros H. destruct (lifecycle_keeps _ _ H) as (E & S & _ & M & A). split_and!; [done|done|congruence|].
  intros Hw. destruct (remaining_edge _ _ H Hw) as (_ & ? & ?). split_and!; try done. by eapply lifecycle_wf.
Qed.

Lemma table_step_later l l' x y :
  table_step l l' -> NoDup (run_ids l) -> x ∈ l -> y ∈ l' -> Run.id y = Run.id x -> later x y.
Proof.
  intros Hs Hn Hx Hy Hid. destruct Hs as [l P f Hf|l r Hr Hidr _|l P g _].
  - apply elem_of_update in Hy as [(z & Hz & HP & ->)|[Hy _]].
    + pose proof (Hf z Hz HP) as Hl. destruct (lifecycle_keeps _ _ Hl) as (E & _).
      assert (z = x) as -> by (eapply (NoDup_map_inj Run.id l); [done..|congruence]). by apply lifecycle_later.
    + rewrite (NoDup_map_inj Run.id l y x) by done. apply later_refl.
  - apply elem_of_app in Hy as [Hy|Hy%list_elem_of_singleton].
    + rewrite (NoDup_map_inj Run.id l y x) by done. apply later_refl.
    + subst. contradict Hidr. rewrite Hid. apply list_elem_of_fmap. eauto.
  - apply list_elem_of_fmap in Hy as (z & -> & [Hz _]%elem_of_filter_b).
    rewrite (NoDup_map_inj Run.id l z x) by done. apply later_same. by eexists.
Qed.

Lemma table_updates_later l l' x y :
  rtc table_update l l' -> NoDup (run_ids l) -> x ∈ l -> y ∈ l' -> Run.id y = Run.id x -> later x y.
Proof.
  intros Hs. revert x. induction Hs as [l|l l1 l2 [Hs Hids] _ IH]; intros x Hn Hx Hy Hid.
  - rewrite (NoDup_map_inj Run.id l y x) by done. apply later_refl.
  - assert (Run.id x ∈ run_ids l1) as (z & E & Hz)%list_elem_of_fmap.
    { rewrite Hids. apply list_elem_of_fmap. eauto. }
    eapply later_trans; [by eapply table_step_later|]. apply IH; [by rewrite Hids|done..|congruence].
Qed.

(** ** Seeding *)

Definition keyed_runs (d : Db) : Prop := NoDup (run_ids (connector_runs d)).

Lemma create_keyed n : preserves keyed_runs (ConnectorRunRepository.create_run n).
Proof.
  apply preserves_exec. intros now i d i' r d' Hd (-> & _ & -> & Hv)%sql_insert_inv.
  apply key_unique in Hv. unfold keyed_runs in *. simpl in *.
  unfold run_ids. rewrite map_app. apply NoDup_app. split_and!; [done| |apply NoDup_singleton].
  intros x Hx ->%list_elem_of_singleton. by apply (unique_id_fresh Run.id _ _ Hv).
Qed.

(** An update that keeps the id. *)
Lemma update_keyed P f :
  (forall now r, Run.id (f now r) = Run.id r) -> preserves keyed_runs (exec (sql_update P f)).
Proof.
  intros Hf. apply preserves_exec. intros now i d i' r d' Hd (_ & -> & _)%sql_update_inv.
  unfold keyed_runs in *. cbn. unfold run_ids. rewrite map_map.
  replace (map _ (connector_runs d)) with (run_ids (connector_runs d)); [done|].
  apply map_ext. intros x. by destruct (P x); rewrite ?Hf.
Qed.

Section Seeding.
Context {CT : ChronoText} {VD : ValueDisplay} {U : Unicode}.

Lemma run_prepared_keyed target trigger started : preserves keyed_runs (prepare_demo_run target trigger started).
Proof.
  unfold prepare_demo_run. preserve; [by apply update_keyed|apply create_keyed].
Qed.

Lemma run_finished_keyed run status ok bad message ms :
  preserves keyed_runs (finish_demo_run run status ok bad message ms).
Proof. unfold finish_demo_run, ConnectorRunRepository.update_state. preserve. by apply update_keyed. Qed.

#[local] Hint Resolve run_prepared_keyed run_finished_keyed : portal.
#[local] Opaque prepare_demo_run finish_demo_run.

Lemma seeding_keyed username : preserves keyed_runs (seed_demo_data_transaction username).
Proof.
  unfold seed_demo_data_transaction. preserve.
  all: first [ apply preserves_update; done | apply preserves_insert; done | apply preserves_insert_many; done
             | apply preserves_upsert; done | apply preserves_delete; [done|]; by intros ? d d' Hd [= <-]
             | idtac ].
  all: unfold create_many_items, NotificationRepository.upsert_from_connector, WorkCardRepository.upsert_from_connector;
    preserve_writes.
Qed.

(** Seeding leaves the runs of every other source as they are, and ids unique. *)
Lemma seed_step env username c :
  aborted c = false -> keyed_runs (db c) ->
  keyed_runs (db (snd (seed_demo_data env username c))) /\
  product_runs (connector_runs (db (snd (seed_demo_data env username c)))) = product_runs (connector_runs (db c)).
Proof.
  intros Ha Hk. split.
  - unfold seed_demo_data, unwrap, query_transaction. revert c Ha Hk. intros c _.
    apply preserves_catch; [apply preserves_transaction, seeding_keyed|]. intros [e|a]; preserve.
  - pose proof (seeding_effect env username c Ha) as H.
    destruct (seed_demo_data env username c) as [[a|e|] c']; simpl; [|by rewrite H..].
    destruct H as [Hc _]. apply (ct_runs _ _ Hc).
Qed.
End Seeding.

(** ** The steps of the system *)

Section System.
Context {SJ : SerdeJson} {ED : ErrorDebug} {DD : DieselDisplay} {RI : RawItems} {PL : Payloads} {AD : Adapters}.
Context {CT : ChronoText} {VD : ValueDisplay} {U : Unicode}.

(** The operations on runs: those of the server and the workers, and seeding. *)
Inductive operation_step : Db -> Db -> Prop :=
  | op_run d d' : run_step d d' -> operation_step d d'
  | op_seed env username c :
      aborted c = false -> operation_step (db c) (db (snd (seed_demo_data env username c))).

(** The items of an import request. *)
Inductive ImportRequest :=
  | ImportEvents (request : CalendarEventImport.CalendarEventImportRequest)
  | ImportCards (request : WorkCardImport.WorkCardImportRequest)
  | ImportNotifications (request : NotificationImport.NotificationImportRequest)
  | ImportServices (request : ServiceHealthImport.ServiceHealthImportRequest).

Definition execute_import (source : string) (run_id : Z) (r : ImportRequest) : Handler ConnectorExecution :=
  match r with
  | ImportEvents request => execute_calendar_event_items source run_id (CalendarEventImport.items request)
                              (CalendarEventImport.snapshot_complete request)
  | ImportCards request => execute_work_card_items source run_id (WorkCardImport.items request)
                             (WorkCardImport.snapshot_complete request)
  | ImportNotifications request => execute_notification_items source run_id (NotificationImport.items request)
                                     (NotificationImport.snapshot_complete request)
  | ImportServices request => execute_service_health_items source run_id (ServiceHealthImport.items request)
  end.

(** What one process commits at once: an operation, the transaction that records the result
    of a run or of an import, a scheduler pass, a retention pass. The arguments are
    arbitrary: a process acts on what it read some steps ago. *)
Inductive system_step : Db -> Db -> Prop :=
  | ss_operation d d' : operation_step d d' -> system_step d d'
  | ss_result run w prepared c : system_step (db c) (db (snd (run_transaction run w prepared c)))
  | ss_import source target run r c :
      system_step (db c) (db (snd (api_transaction (
        execution <- execute_import source (Run.id run) r ;;
        finish_connector_run source target run execution) c)))
  | ss_schedule env c : system_step (db c) (db (snd (enqueue_due_scheduled_runs env c)))
  | ss_retention acquired policy w t c :
      system_step (db c) (db (snd (cleanup_connector_retention acquired policy w t c))).

Lemma import_keeps_runs source run r l :
  preserves (fun d => connector_runs d = l) (execute_import source run r).
Proof.
  destruct r; unfold execute_import, execute_calendar_event_items, execute_work_card_items,
    execute_notification_items, execute_service_health_items, reconcile, query, ConnectorRepository.find_by_source.
  all: preserve; unfold store_item, validate_request; preserve;
    unfold WorkCardRepository.upsert_from_connector, NotificationRepository.upsert_from_connector,
      CalendarEventRepository.create; preserve_writes.
Qed.

Lemma import_keeps (I : Db -> Prop) source target run r :
  (forall d d', refines d d' -> (forall i, has_run i d -> has_run i d') -> I d -> I d') ->
  preserves I (api_transaction (
    execution <- execute_import source (Run.id run) r ;; finish_connector_run source target run execution)).
Proof.
  intros HI. apply preserves_transaction, preserves_bind; [|intros; by apply finish_keeps].
  apply keeps_other; [done|]. intros l. apply import_keeps_runs.
Qed.

(** A step is an operation of the queue, a retention pass or a seeding, or records results and
    schedules, which deletes no run. *)
Lemma system_step_cases (I : Db -> Prop) d d' :
  system_step d d' ->
  refines d d' \/
  (exists acquired policy w t c, d = db c /\ d' = db (snd (cleanup_connector_retention acquired policy w t c))) \/
  (exists env username c, aborted c = false /\ d = db c /\ d' = db (snd (seed_demo_data env username c))) \/
  ((forall d d', refines d d' -> (forall i, has_run i d -> has_run i d') -> I d -> I d') -> I d -> I d').
Proof.
  destruct 1 as [d d' [d1 d1' H|env username c Ha]|run w prepared c|source target run r c|env c|acquired policy w t c].
  - left. by apply run_step_refines.
  - right; right; left. eauto 10.
  - do 3 right. intros HI Hc. by apply (run_transaction_keeps I HI run w prepared c).
  - do 3 right. intros HI Hc. by apply (import_keeps I source target run r HI c).
  - do 3 right. intros HI Hc. by apply (scheduler_keeps I HI env c).
  - right; left. eauto 10.
Qed.

(** The runs of the product move along the life cycle. *)
Lemma system_step_product d d' :
  system_step d d' -> keyed_runs d ->
  keyed_runs d' /\ rtc table_step (product_runs (connector_runs d)) (product_runs (connector_runs d')).
Proof.
  intros H Hk. assert (lives d d' -> keyed_runs d' /\
    rtc table_step (product_runs (connector_runs d)) (product_runs (connector_runs d'))) as Hl.
  { intros Hl. split; [by eapply table_steps_keyed; [apply Hl|]|by apply table_steps_product, Hl]. }
  destruct (system_step_cases (lives d) _ _ H)
    as [Hr|[(acquired & policy & w & t & c & -> & ->)|[(env & username & c & Ha & -> & ->)|Hr]]].
  - by apply Hl, lives_refines.
  - apply Hl, (cleanup_follows (lives (db c)) (fun d d' H _ => lives_follows (db c) d d' H) acquired policy w t c), lives_refl.
  - destruct (seed_step env username c Ha Hk) as [Hk' ->]. by split; [|apply rtc_refl].
  - apply Hl, Hr; [|apply lives_refl]. intros ??? _. by apply lives_follows.
Qed.


(** ** One run through the steps *)

Lemma refines_later d d' x y :
  refines d d' -> keyed_runs d -> x ∈ connector_runs d -> y ∈ connector_runs d' ->
  Run.id y = Run.id x -> later x y.
Proof.
  intros H Hn. destruct (H Hn) as [Hs|Hs]; [by apply table_step_later|by apply table_updates_later].
Qed.

(** A later row of the run is there. *)
Definition tracked (x : Run.ConnectorRun) (d : Db) : Prop :=
  keyed_runs d /\ exists y, y ∈ connector_runs d /\ later x y.

Lemma refines_keyed d d' : refines d d' -> keyed_runs d -> keyed_runs d'.
Proof. intros H Hn. by eapply table_steps_keyed; [apply refines_steps|]. Qed.

Lemma tracked_grows x d d' :
  refines d d' -> (forall i, has_run i d -> has_run i d') -> tracked x d -> tracked x d'.
Proof.
  intros H Hi (Hk & y & Hy & Hl). split; [by eapply refines_keyed|].
  assert (has_run (Run.id y) d) as (z & E & Hz)%Hi%list_elem_of_fmap; [apply list_elem_of_fmap; eauto|].
  exists z. split; [done|]. eapply later_trans; [done|]. by eapply refines_later.
Qed.

(** ... or the run was deleted. *)
Definition tracked_or_gone (x : Run.ConnectorRun) (d : Db) : Prop :=
  tracked x d \/ keyed_runs d /\ ~ has_run (Run.id x) d.

Lemma tracked_shrinks x d d' :
  refines d d' -> (forall i, has_run i d' -> has_run i d) -> tracked_or_gone x d -> tracked_or_gone x d'.
Proof.
  intros H Hi [(Hk & y & Hy & Hl)|[Hk Hn]]; pose proof (refines_keyed _ _ H Hk) as Hk'; [|by right; eauto].
  destruct (decide (has_run (Run.id x) d')) as [(z & E & Hz)%list_elem_of_fmap|Hn]; [left|by right].
  split; [done|]. exists z. split; [done|]. eapply later_trans; [done|].
  eapply refines_later; try done. destruct Hl as (E1 & _). congruence.
Qed.

Lemma tracked_found x d y : tracked x d -> y ∈ connector_runs d -> Run.id y = Run.id x -> later x y.
Proof.
  intros (Hk & z & Hz & Hl) Hy E. pose proof (proj1 Hl) as E1.
  rewrite (NoDup_map_inj Run.id (connector_runs d) y z); [done..|congruence].
Qed.

(** Whatever happens, the row of a run outside the demonstration is a later state of it. *)
Lemma system_step_later d d' x y :
  system_step d d' -> keyed_runs d -> Run.source x <> DEMO_SOURCE ->
  x ∈ connector_runs d -> y ∈ connector_runs d' -> Run.id y = Run.id x -> later x y.
Proof.
  intros H Hk Hs Hx Hy E.
  assert (tracked x d) as Hd by (split; [done|]; exists x; by split; [|apply later_refl]).
  destruct (system_step_cases (tracked x) _ _ H)
    as [Hr|[(acquired & policy & w & t & c & -> & ->)|[(env & username & c & Ha & -> & ->)|Hr]]].
  - by eapply refines_later.
  - destruct (cleanup_follows (tracked_or_gone x) (tracked_shrinks x) acquired policy w t c (or_introl Hd))
      as [Ht|[_ []]]; [by eapply tracked_found|]. apply list_elem_of_fmap. eauto.
  - destruct (seed_step env username c Ha Hk) as [Hk' Hp].
    assert (x ∈ product_runs (connector_runs (db (snd (seed_demo_data env username c))))) as [Hx' _]%elem_of_filter_b.
    { rewrite Hp. apply elem_of_filter_b. split; [done|]. unfold other_run. apply negb_true_iff. by apply str_eqb_neq. }
    rewrite (NoDup_map_inj Run.id _ y x Hk' Hy Hx' E). apply later_refl.
  - eapply tracked_found; [apply Hr; [|done]|done..]. by apply tracked_grows.
Qed.

Lemma steps_later d d' r :
  keyed_runs d -> r ∈ connector_runs d -> Run.source r <> DEMO_SOURCE ->
  rtc (fun x y => system_step x y /\ Run.id r ∈ run_ids (connector_runs y)) d d' ->
  exists r', r' ∈ connector_runs d' /\ later r r'.
Proof.
  intros Hk Hr Hd Hs.
  enough (forall x, x ∈ connector_runs d -> later r x -> exists r', r' ∈ connector_runs d' /\ later r r') as H.
  { by apply (H r); [|apply later_refl]. }
  clear Hr. induction Hs as [d|d d1 d2 [Hs (y & E & Hy)%list_elem_of_fmap] _ IH]; intros x Hx Hl; [by eauto|].
  pose proof (proj1 Hl) as E1. pose proof (proj1 (proj2 Hl)) as E2.
  destruct (system_step_product _ _ Hs Hk) as [Hk1 _]. apply (IH Hk1 y Hy).
  eapply later_trans; [done|]. eapply system_step_later; try done; congruence.
Qed.

(** [status_changes i d n d']: along a sequence of steps that keeps the row of the run [i], its
    status was seen to change [n] times. *)
Inductive status_changes (i : Z) : Db -> nat -> Db -> Prop :=
  | changes_nil d : status_changes i d 0 d
  | changes_step d d1 n d2 x y :
      system_step d d1 -> x ∈ connector_runs d -> Run.id x = i -> y ∈ connector_runs d1 -> Run.id y = i ->
      status_changes i d1 n d2 ->
      status_changes i d (if Run.status y =s Run.status x then n else S n) d2.

Lemma changes_bound i d n d' :
  status_changes i d n d' -> forall r, keyed_runs d -> r ∈ connector_runs d -> Run.id r = i ->
  Run.source r <> DEMO_SOURCE -> wf_run r -> Z.of_nat n <= remaining r.
Proof.
  induction 1 as [d|d d1 n d2 x y Hs Hx Ex Hy Ey _ IH]; intros r Hk Hr Er Hd Hw.
  { by apply remaining_nonneg. }
  assert (x = r) as -> by (eapply (NoDup_map_inj Run.id (connector_runs d)); [done..|congruence]).
  destruct (system_step_later _ _ r y Hs Hk Hd Hr Hy ltac:(congruence)) as (_ & S1 & _ & W1).
  destruct (W1 Hw) as (Hw1 & _ & R1 & D1). destruct (system_step_product _ _ Hs Hk) as [Hk1 _].
  specialize (IH y Hk1 Hy Ey ltac:(congruence) Hw1).
  destruct (str_eqb (Run.status y) (Run.status r)) eqn:E; [lia|]. apply str_eqb_neq in E. specialize (D1 E). lia.
Qed.

(** ** The programs are sequences of steps *)


Lemma steps_other {E A} d0 (m : M Db E A) :
  (forall l, preserves (fun d => connector_runs d = l) m) -> preserves (rtc system_step d0) m.
Proof.
  intros H c Hc. eapply rtc_r; [exact Hc|]. apply ss_operation, op_run, rs_other.
  exact (H (connector_runs (db c)) c eq_refl).
Qed.

Lemma steps_operation {A} d0 (m : Query A) :
  (forall c, aborted c = false -> run_step (db c) (db (snd (m c)))) -> refuses m ->
  preserves (rtc system_step d0) m.
Proof.
  intros H Hr c Hc. destruct (aborted c) eqn:Ha.
  - destruct (Hr c Ha) as (k & c' & -> & Hd). simpl. by rewrite Hd.
  - eapply rtc_r; [exact Hc|]. by apply ss_operation, op_run, H.
Qed.

Lemma claim_steps d0 w n : preserves (rtc system_step d0) (claim_next_queued w n).
Proof. apply steps_operation; [intros; by apply rs_claim|apply refuses_transaction]. Qed.

Lemma recover_steps d0 b m n : preserves (rtc system_step d0) (recover_expired_leases b m n).
Proof. apply steps_operation; [intros; by apply rs_recover|apply refuses_transaction]. Qed.

Lemma cancel_steps d0 id : preserves (rtc system_step d0) (request_cancel id).
Proof. apply steps_operation; [intros; by apply rs_request_cancel|apply refuses_transaction]. Qed.

Lemma mark_cancelled_steps d0 id w : preserves (rtc system_step d0) (mark_cancelled_if_requested id w).
Proof.
  apply steps_operation; [intros; by apply rs_mark_cancelled|].
  apply refuses_now. intros t. apply refuses_optional, refuses_bind, refuses_exec.
Qed.

Lemma create_steps d0 n :
  new_run (run_of_new n 0 0) -> preserves (rtc system_step d0) (create_if_no_pending n).
Proof. intros Hn. apply steps_operation; [intros; by apply rs_create|apply refuses_transaction]. Qed.

Lemma retry_steps d0 p n : new_run (run_of_new n 0 0) -> preserves (rtc system_step d0) (create_retry p n).
Proof. intros Hn. apply steps_operation; [intros; by apply rs_retry|apply refuses_transaction]. Qed.

Lemma queued_steps d0 v source target trigger p parent :
  preserves (rtc system_step d0) (create_queued_run_with_parent v source target trigger p parent).
Proof.
  unfold create_queued_run_with_parent, active_run_exists, query.
  apply preserves_bind; [apply preserves_now|]. intros t. cbv zeta.
  destruct parent; (apply preserves_bind; [apply preserves_map_err|intros; apply preserves_ok_or]).
  all: first [apply retry_steps|apply create_steps]; split_and!; try done; left; split_and!; try done;
    apply max_attempts_positive.
Qed.

Lemma default_connector_keeps_runs l source kind :
  preserves (fun d => connector_runs d = l) (ConnectorRepository.find_or_create_default source kind).
Proof. unfold ConnectorRepository.find_or_create_default. preserve; preserve_writes. Qed.

Lemma running_steps d0 source target trigger p :
  preserves (rtc system_step d0) (create_running_run source target trigger p).
Proof.
  unfold create_running_run, active_run_exists, query.
  apply preserves_bind; [apply preserves_map_err, steps_other; intros; apply default_connector_keeps_runs|]. intros _.
  apply preserves_bind; [apply preserves_now|]. intros t.
  apply preserves_bind; [|intros; apply preserves_ok_or]. apply preserves_map_err, create_steps.
  split_and!; try done. right. by split_and!.
Qed.

Lemma result_steps d0 run w prepared : preserves (rtc system_step d0) (run_transaction run w prepared).
Proof. intros c Hc. eapply rtc_r; [exact Hc|apply ss_result]. Qed.

Lemma import_steps d0 source target run r :
  preserves (rtc system_step d0) (api_transaction (
    execution <- execute_import source (Run.id run) r ;; finish_connector_run source target run execution)).
Proof. intros c Hc. eapply rtc_r; [exact Hc|apply ss_import]. Qed.

Lemma scheduler_steps d0 env : preserves (rtc system_step d0) (enqueue_due_scheduled_runs env).
Proof. intros c Hc. eapply rtc_r; [exact Hc|apply ss_schedule]. Qed.

Lemma cleanup_steps d0 acquired policy w t :
  preserves (rtc system_step d0) (cleanup_connector_retention acquired policy w t).
Proof. intros c Hc. eapply rtc_r; [exact Hc|apply ss_retention]. Qed.

Lemma audit_steps d0 actor action kind name m :
  preserves (rtc system_step d0) (record_audit_log actor action kind name m).
Proof.
  apply steps_other. intros l. unfold record_audit_log, AuditLogRepository.create. preserve; preserve_writes.
Qed.

Lemma system_audit_steps d0 action kind name m :
  preserves (rtc system_step d0) (record_system_audit_log action kind name m).
Proof.
  apply steps_other. intros l. unfold record_system_audit_log, AuditLogRepository.create. preserve; preserve_writes.
Qed.

Lemma heartbeat_steps d0 hb status run e :
  preserves (rtc system_step d0) (record_worker_heartbeat hb status run e).
Proof.
  apply steps_other. intros l. unfold record_worker_heartbeat, ConnectorWorkerRepository.upsert_heartbeat, query.
  preserve; preserve_writes.
Qed.

Lemma failure_steps d0 w t e : preserves (rtc system_step d0) (record_retention_cleanup_failure w t e).
Proof.
  apply steps_other. intros l. unfold record_retention_cleanup_failure, MaintenanceRunRepository.create, query.
  preserve; preserve_writes.
Qed.

Lemma payload_steps d0 run : preserves (rtc system_step d0) (load_payload_for_claimed_run run).
Proof.
  apply steps_other. intros l. unfold load_payload_for_claimed_run, ConnectorConfigRepository.update_config, query,
    ConnectorRepository.find_by_source, ConnectorConfigRepository.find_by_source.
  preserve; preserve_writes.
Qed.

#[local] Hint Resolve claim_steps recover_steps cancel_steps mark_cancelled_steps queued_steps running_steps
  result_steps import_steps scheduler_steps cleanup_steps audit_steps system_audit_steps heartbeat_steps
  failure_steps payload_steps : portal.
#[local] Opaque claim_next_queued recover_expired_leases request_cancel mark_cancelled_if_requested
  create_queued_run_with_parent create_running_run run_transaction api_transaction enqueue_due_scheduled_runs
  cleanup_connector_retention record_audit_log record_system_audit_log record_worker_heartbeat
  record_retention_cleanup_failure load_payload_for_claimed_run.

Lemma execution_steps d0 run w : preserves (rtc system_step d0) (execute_connector_run run w).
Proof.
  unfold execute_connector_run, cancelled_response_or_ownership_error, execution_is_active, query. preserve.
Qed.

#[local] Hint Resolve execution_steps : portal.
#[local] Opaque execute_connector_run.

Lemma queue_steps d0 config n s cycle : preserves (rtc system_step d0) (queue_phase config n s cycle).
Proof.
  revert s cycle. induction n as [|n IH]; intros s cycle; simpl; [apply preserves_ret|].
  unfold process_one_queued_run, execute_leased_connector_run, warn_on_error, query. preserve.
Qed.

#[local] Hint Resolve queue_steps : portal.
#[local] Opaque queue_phase.

Lemma cycle_steps d0 env config acquired s :
  preserves (rtc system_step d0) (worker_cycle env config acquired s).
Proof.
  unfold worker_cycle, recovery_phase, retention_phase, scheduler_phase, beat, warn_on_error. preserve.
Qed.

#[local] Hint Resolve cycle_steps : portal.
#[local] Opaque worker_cycle.




Lemma renew_steps d0 id w n : preserves (rtc system_step d0) (renew_lease id w n).
Proof.
  intros c Hc. destruct (aborted c) eqn:Ha; [|eapply rtc_r; [exact Hc|]; by apply ss_operation, op_run, rs_renew].
  unfold renew_lease, bind, utc_now, affected, or_panic. destruct (after_seconds _ n); [|done]. cbn [ret]. unfold bind.
  match goal with |- context [exec ?q ?i] => destruct (exec_aborted q i Ha) as (k & c' & E & Hd) end.
  rewrite E. simpl. by rewrite Hd.
Qed.

#[local] Hint Resolve renew_steps : portal.
#[local] Opaque renew_lease.


(** ** The queue over everything that happens *)

(** C1: every operation on runs moves the run table along the edges of the abstract life cycle
    (claim, renew, finalize, cancel, expire), the creation of a run in a free slot, and the
    deletion of finished runs. The operations of the server and the workers ([run_step]: any
    process, any clock, any injected database failure) do so for the whole table. The plain
    [create] and the unguarded [update_state] of the repository, and the reset of a finished run
    in [prepare_demo_run], occur in the seeding of the demonstration only, whose transaction
    leaves the runs of every other source exactly as they were; ids stay unique throughout. *)
Theorem run_operations_refine_lifecycle d d' :
  operation_step d d' -> keyed_runs d ->
  keyed_runs d' /\ rtc table_step (product_runs (connector_runs d)) (product_runs (connector_runs d')) /\
  (run_step d d' -> rtc table_step (connector_runs d) (connector_runs d')) /\
  (run_step d d' \/ product_runs (connector_runs d') = product_runs (connector_runs d)).
Proof.
  intros H Hk. assert (run_step d d' -> rtc table_step (connector_runs d) (connector_runs d')) as Hs.
  { intros Hr. by apply refines_steps, Hk; apply run_step_refines. }
  destruct H as [d d' Hr|env username c Ha].
  - specialize (Hs Hr). split_and!; [by eapply table_steps_keyed|by apply table_steps_product|done|by left].
  - destruct (seed_step env username c Ha Hk) as [Hk' Hp]. rewrite Hp. split_and!; [done|apply rtc_refl|done|by right].
Qed.


(** C14: outside the demonstration, a run that has succeeded, failed or been cancelled is never
    changed again: whatever the processes do, as long as its row is not deleted it stays the
    same, up to the link to a parent run that retention removed. *)
Theorem finished_runs_are_final d d' r :
  keyed_runs d -> r ∈ connector_runs d -> Run.source r <> DEMO_SOURCE -> terminal r = true ->
  rtc (fun x y => system_step x y /\ Run.id r ∈ run_ids (connector_runs y)) d d' ->
  exists r', r' ∈ connector_runs d' /\ same_run r r'.
Proof.
  intros Hk Hr Hd Ht%terminal_inactive Hs.
  assert (exists r', r' ∈ connector_runs d' /\ later r r') as (r' & Hr' & _ & _ & Hl & _); [|by eauto].
  by apply (steps_later d).
Qed.

(** C19: retries are bounded: outside the demonstration, through any interleaving of steps a
    well-formed run changes its status at most twice its [max_attempts] times, so it reaches a
    terminal state or waits; it is never requeued for ever. *)
Theorem retries_bounded d n d' r :
  keyed_runs d -> r ∈ connector_runs d -> Run.source r <> DEMO_SOURCE -> wf_run r ->
  status_changes (Run.id r) d n d' -> Z.of_nat n <= 2 * Run.max_attempts r.
Proof.
  intros Hk Hr Hd Hw H. pose proof (changes_bound _ _ _ _ H r Hk Hr eq_refl Hd Hw).
  pose proof (remaining_nonneg _ Hw). lia.
Qed.
End System.

(** ** Witnesses *)

(** A claim and a seeding. *)
Lemma run_operations_refine_lifecycle_witness :
  rtc table_step (connector_runs sample_db)
    (connector_runs (db (snd (claim_next_queued "w2" 60 (calm sample_db 200 [] 3))))) /\
  rtc table_step (product_runs (connector_runs sample_db))
    (product_runs (connector_runs (db (snd (seed_portal (calm sample_db 1700000000000000 [] 10)))))).
Proof.
  assert (keyed_runs sample_db) as Hk by apply (wf_ids _ sample_wf).
  pose proof (fun d d' => run_operations_refine_lifecycle (CT:=seconds_chrono)
    (VD:={| value_text := fun _ => "json" |}) (U:=ascii_unicode) d d') as H. split.
  - refine (proj1 (proj2 (proj2 (H sample_db _ (op_run _ _ _) Hk))) _);
      exact (rs_claim (calm sample_db 200 [] 3) "w2" 60 eq_refl).
  - unfold seed_portal. generalize (calm sample_db 1700000000000000 [] 10) (eq_refl : db (calm sample_db 1700000000000000 [] 10) = sample_db)
      (eq_refl : aborted (calm sample_db 1700000000000000 [] 10) = false). revert Hk. intros Hk c E Ha. rewrite <- E in Hk |- *.
    exact (proj1 (proj2 (H _ _ (op_seed (fun _ => NotPresent) None c Ha) Hk))).
Defined.

Section Examples.
#[local] Existing Instances plain_display no_raw plain_payloads plain_adapters seconds_chrono ascii_unicode.
#[local] Instance example_json : SerdeJson := {| json_to_string := fun _ => None |}.
#[local] Instance example_debug : ErrorDebug := {| api_error_debug := fun _ => "error" |}.
#[local] Instance example_text : ValueDisplay := {| value_text := fun _ => "json" |}.


Definition sample_cancelled : Run.ConnectorRun :=
  (sample_run 1 "azure" "cancelled" None None 0) <| Run.cancel_requested_at := Some 150 |>
    <| Run.cancelled_at := Some 150 |> <| Run.finished_at := Some 150 |>.

Lemma finished_runs_are_final_witness :
  exists r', r' ∈ connector_runs (db (snd (request_cancel 1
    (calm (empty_db <| connector_runs := [sample_cancelled] |>) 200 [] 3)))) /\
    same_run sample_cancelled r'.
Proof.
  apply (finished_runs_are_final (empty_db <| connector_runs := [sample_cancelled] |>)).
  - apply NoDup_singleton.
  - left.
  - discriminate.
  - reflexivity.
  - apply rtc_once. split; [|left].
    apply ss_operation, op_run. exact (rs_request_cancel (calm _ 200 [] 3) 1 eq_refl).
Defined.

(** The run of [sample_db] is claimed, then requeued when its lease expired: two changes. *)
Definition claimed_db : Db :=
  Eval vm_compute in db (snd (claim_next_queued "w2" 60 (calm sample_db 200 [] 3))).

Definition requeued_db : Db :=
  Eval vm_compute in db (snd (recover_expired_leases 5 300 100 (calm claimed_db 100000000 [] 3))).

Lemma claimed_step : system_step sample_db claimed_db.
Proof.
  replace claimed_db with (db (snd (claim_next_queued "w2" 60 (calm sample_db 200 [] 3)))) by (vm_compute; reflexivity).
  apply ss_operation, op_run. exact (rs_claim (calm sample_db 200 [] 3) "w2" 60 eq_refl).
Qed.

Lemma requeued_step : system_step claimed_db requeued_db.
Proof.
  replace requeued_db with (db (snd (recover_expired_leases 5 300 100 (calm claimed_db 100000000 [] 3))))
    by (vm_compute; reflexivity).
  apply ss_operation, op_run. exact (rs_recover (calm claimed_db 100000000 [] 3) 5 300 100 eq_refl).
Qed.

Lemma retries_bounded_witness : exists d, status_changes 1 sample_db 2 d /\ Z.of_nat 2 <= 2 * 3.
Proof.
  exists requeued_db. set (first d := hd sample_cancelled (connector_runs d)).
  assert (status_changes 1 sample_db 2 requeued_db) as H.
  { apply (changes_step 1 _ _ 1 _ (first sample_db) (first claimed_db) claimed_step); [left|reflexivity|left|reflexivity|].
    apply (changes_step 1 _ _ 0 _ (first claimed_db) (first requeued_db) requeued_step); [left|reflexivity|left|reflexivity|].
    apply changes_nil. }
  split; [exact H|].
  apply (retries_bounded sample_db 2 requeued_db (sample_run 1 "azure" "queued" None None 0));
    [apply (wf_ids _ sample_wf)|left|discriminate| |exact H].
  apply (wf_rows _ sample_wf). left.
Defined.
End Examples.
