(* ===== verification/StartupSafety.v ===== *)
(** Properties of the start of the processes, of [Startup.v]. *)
From S2P Require Import Prelude Logic Text Models Schema Api Validation Access Sessions Accounts AuditLogs.
From S2P Require Import SingleSignOn Config ConfigSafety ConnectorWorkers Values ConnectorRoutes AdapterValues.
From S2P Require Import Http Authn EntraLogin GraphSafety Commands DemoSeed Startup.

Open Scope Z_scope.
Open Scope portal_scope.

(** ** Test processes work on test databases *)

Section TestProcesses.
Context {UP : UrlParser} {UU : UuidParser} {OW : Outside}.

(** The URL names a test database, and the server confirms the name. *)
Definition test_database (url : string) : Prop :=
  exists name, database_name_from_url url = inr name /\ establish url = Some (Some name) /\
    has_standalone_test_segment name = true.

Lemma validated_target url source o :
  validate_test_database_url "test" url source = inr o ->
  exists name, o = Some (mkTestDatabaseTarget name) /\ database_name_from_url url = inr name.
Proof.
  unfold validate_test_database_url. rewrite str_eqb_refl. simpl. intros H. accepted H. injection H as <-.
  destruct (database_name_from_url url) as [m|name]; [done|]. injection E as ->. eauto.
Qed.

Lemma verified_name actual target source u :
  verify_test_database_connection actual target source = inr u ->
  actual = Some (td_database_name target) /\ has_standalone_test_segment (td_database_name target) = true.
Proof.
  unfold verify_test_database_connection, validate_actual_test_database_name. intros H. accepted H.
  apply some_or_ok in E as ->. apply str_eqb_eq in G as <-. done.
Qed.

Lemma verified_database url s1 s2 target actual u :
  validate_test_database_url "test" url s1 = inr (Some target) -> establish url = Some actual ->
  verify_test_database_connection actual target s2 = inr u -> test_database url.
Proof.
  intros (name & [= ->] & Hn)%validated_target He [-> Ht]%verified_name. by exists name.
Qed.

(** The environment of an accepted configuration is the one that is set. *)
Lemma accepted_app_env env c e :
  Config.from_env env = inr c -> env "APP_ENV" = Present e -> environment c = e.
Proof.
  intros H He. unfold Config.from_env, from_source in H. unfold env_read at 1 in H. rewrite He in H. simpl in H.
  accepted H. by injection H as <-.
Qed.

(** The part the two worker checks share. *)
Lemma worker_database_verified (r : Result string (option TestDatabaseTarget)) url m1 m2 :
  r = match validate_test_database_url "test" url "DATABASE_URL" with
      | inr target => inr target | inl error => inl (ce_message error) end ->
  (let? target := r in
   let? target := some_or target m1 in
   let? actual := some_or (establish url) m2 in
   match verify_test_database_connection actual target "DATABASE_URL" with
   | inr _ => inr tt
   | inl error => inl (ce_message error)
   end) = inr tt -> test_database url.
Proof.
  intros -> H. destruct (validate_test_database_url "test" url "DATABASE_URL") as [e|o] eqn:Ev; [done|]. accepted H.
  injection E as ->. apply some_or_ok in E0 as ->. apply some_or_ok in E1.
  destruct (verify_test_database_connection x1 x0 "DATABASE_URL") as [e|[]] eqn:Ec; [done|].
  by eapply verified_database.
Qed.

(** The URL a worker loop starts with. *)
Lemma worker_url env uuid t worker :
  run_connector_worker_forever env uuid t = inr (Some worker) ->
  worker_enabled env = inr true /\ filled (env_ok env "DATABASE_URL") = Some (fst worker).
Proof.
  unfold run_connector_worker_forever. intros H. accepted H. split.
  - unfold strict_env_flag in E. unfold worker_enabled. destruct x; [|done].
    destruct (env "CONNECTOR_WORKER_ENABLED") as [v| |]; [|done..].
    destruct (one_of_texts _ ["1"; "true"; "yes"]); [done|]. by destruct (one_of_texts _ _).
  - destruct x; [|done]. simpl in H. accepted H. injection H as <-. by apply some_or_ok in E1.
Qed.

Lemma server_pool_verified env c rocket rocket' :
  environment c = "test" -> try_build env c = inr rocket -> ignite rocket = Some rocket' ->
  rocket' = rocket /\ forall url, fg_database_url (rk_figment rocket) = Some url -> test_database url.
Proof.
  intros Ht Hb Hi. unfold ignite in Hi. destruct (_ && _) eqn:Ec; [|done]. injection Hi as <-. split; [done|].
  intros url Hu. apply andb_prop in Ec as [_ Hv]. unfold try_build in Hb. accepted Hb. injection Hb as <-. simpl in Hu.
  unfold verify_test_database_identity in Hv. simpl in Hv. rewrite Hu in Hv.
  unfold effective_test_database_target in E. rewrite Ht, str_eqb_refl in E. simpl in E.
  apply and_then_ok in E as (url' & E0 & E).
  apply some_or_ok in E0. rewrite Hu in E0. injection E0 as <-.
  destruct (validated_target _ _ _ E) as (name & -> & _). simpl in Hv.
  destruct (establish url) as [actual|] eqn:Ee; [|done].
  destruct (verify_test_database_connection _ _ _) as [e|u] eqn:Ev; [done|]. by eapply verified_database.
Qed.

Lemma server_databases env uuid t url :
  env "APP_ENV" = Present "test" -> url ∈ databases (server_main env uuid t) -> test_database url.
Proof.
  intros Ha. unfold server_main. destruct (Config.from_env env) as [e|c] eqn:Hc; [by intros ?%elem_of_nil|].
  pose proof (accepted_app_env env c "test" Hc Ha) as Ht.
  destruct (try_build env c) as [e|rocket] eqn:Hb; [by intros ?%elem_of_nil|].
  destruct (ignite rocket) as [rocket'|] eqn:Hi; [|by intros ?%elem_of_nil].
  destruct (server_pool_verified env c rocket rocket' Ht Hb Hi) as [-> Hpool].
  assert (Hserver : forall u, u ∈ option_list (fg_database_url (rk_figment rocket)) -> test_database u).
  { intros u. destruct (fg_database_url (rk_figment rocket)); [|by intros ?%elem_of_nil].
    intros ->%list_elem_of_singleton. by apply Hpool. }
  destruct (bool_decide _); [|simpl; rewrite app_nil_r; apply Hserver].
  destruct (verify_embedded_worker_database env (environment c)) as [e|[]] eqn:Hw; [by intros ?%elem_of_nil|].
  simpl. intros [Hu|Hu]%elem_of_app; [by apply Hserver|].
  unfold spawn_connector_background_worker in Hu.
  destruct (run_connector_worker_forever env uuid t) as [e|[worker|]] eqn:Hr; try by apply elem_of_nil in Hu.
  apply list_elem_of_singleton in Hu as ->. destruct (worker_url _ _ _ _ Hr) as [_ Hurl].
  unfold verify_embedded_worker_database in Hw. rewrite Ht, str_eqb_refl, Hurl in Hw. simpl in Hw.
  by eapply worker_database_verified.
Qed.

Lemma worker_databases env uuid t url :
  env "APP_ENV" = Present "test" -> url ∈ databases (worker_main env uuid t) -> test_database url.
Proof.
  intros Ha. unfold worker_main. destruct (verify_test_worker_database env) as [e|[]] eqn:Hv; [by intros ?%elem_of_nil|].
  destruct (run_connector_worker_forever env uuid t) as [e|[worker|]] eqn:Hr; try by intros ?%elem_of_nil.
  intros ->%list_elem_of_singleton. destruct (worker_url _ _ _ _ Hr) as [He Hurl].
  unfold verify_test_worker_database in Hv.
  rewrite bool_decide_eq_true_2 in Hv by (unfold env_ok; by rewrite Ha). rewrite He, Hurl in Hv. simpl in Hv.
  destruct (Config.from_env env) as [e|c] eqn:Hc; [done|]. simpl in Hv.
  rewrite (accepted_app_env env c "test" Hc Ha) in Hv. by eapply worker_database_verified.
Qed.

(** A command on a database that is not verified. *)
Section Refused.
Context {U : Unicode} {PH : PasswordHasher} {SJ : SerdeJson} {CT : ChronoText} {VD : ValueDisplay}.
Variable env : Environ.
Hypothesis in_test : env "APP_ENV" = Present "test".
Hypothesis not_test_database : forall url, env "DATABASE_URL" = Present url -> ~ test_database url.

Lemma no_connection : load_db_connection env establish = None.
Proof.
  unfold load_db_connection. rewrite in_test. destruct (env "DATABASE_URL") as [url| |] eqn:Hu; [|done..].
  destruct (validate_test_database_url "test" url "DATABASE_URL") as [e|o] eqn:Hv; [done|].
  destruct (establish url) as [actual|] eqn:He; [|done]. destruct (validated_target _ _ _ Hv) as (name & -> & _).
  destruct (verify_test_database_connection _ _ _) as [e|u] eqn:Hc; [done|].
  exfalso. by eapply not_test_database, verified_database.
Qed.

Lemma no_link m c : exists e, run_link_entra env establish m c = (Err e, c).
Proof.
  unfold run_link_entra, bind at 1, lift. destruct (selected_user m) as [e|selector]; [by eexists|].
  unfold ret at 1. destruct (Config.from_env env) as [e|config] eqn:Hc; [by eexists|].
  pose proof (accepted_app_env env config "test" Hc in_test) as Ht. unfold bind, ok_or, ret, fail.
  destruct (entra config) as [entra|]; [|by eexists]. unfold env_text.
  destruct (env "DATABASE_URL") as [url| |] eqn:Hu; [|by eexists..]. rewrite Ht.
  destruct (validate_test_database_url "test" url "DATABASE_URL") as [e|o] eqn:Hv; [by eexists|].
  destruct (establish url) as [actual|] eqn:He; [|by eexists]. destruct (validated_target _ _ _ Hv) as (name & -> & _).
  destruct (verify_test_database_connection _ _ _) as [e|u] eqn:Hver; [by eexists|].
  exfalso. by eapply not_test_database, verified_database.
Qed.

Lemma command_refused draw i c : snd (cli_main env draw i c) = c.
Proof.
  assert (Hc : forall A (m : Command A), snd (connected env m c) = c).
  { intros A m. unfold connected. by rewrite no_connection. }
  destruct i as [| | | |m| |]; simpl; try apply Hc; [|done]. unfold catch. by destruct (no_link m c) as [e ->].
Qed.
End Refused.

(** C40: With [APP_ENV=test] no process of the portal ever works on a database that is
    not a test database: the pool of the server, its embedded worker and the separate
    worker connect only to URLs that name a database with a standalone [test] segment and
    whose server confirms that name, and every command leaves the connection as it is
    when its database fails this check. *)
Theorem test_processes_use_test_databases {U : Unicode} {PH : PasswordHasher} {SJ : SerdeJson} {CT : ChronoText}
    {VD : ValueDisplay} env uuid started_at :
  env "APP_ENV" = Present "test" ->
  (forall url, url ∈ databases (server_main env uuid started_at) -> test_database url) /\
  (forall url, url ∈ databases (worker_main env uuid started_at) -> test_database url) /\
  ((forall url, env "DATABASE_URL" = Present url -> ~ test_database url) ->
   forall draw i c, snd (cli_main env draw i c) = c).
Proof.
  intros Ha. split_and!.
  - intros url. by apply server_databases.
  - intros url. by apply worker_databases.
  - intros Hn draw i c. by apply command_refused.
Qed.
End TestProcesses.

(** ** A test server with its embedded worker *)

Definition test_env : Environ := assignments
  [("APP_ENV", "test"); ("DATABASE_URL", "postgres://db/portal_test"); ("CONNECTOR_EMBEDDED_WORKER_ENABLED", "true")].

Definition test_urls : UrlParser := {| url_parse := fun _ =>
  Some (mkUrl "postgres" (Some "db") "" None "/portal_test" None None []) |}.

Definition test_world : Outside := {|
  rocket_figment := mkFigment None None;
  pool_init := fun f => bool_decide (is_Some (fg_database_url f));
  establish := fun _ => Some (Some "portal_test")
|}.

Lemma test_server_serves :
  databases (@server_main test_urls sample_uuids test_world test_env "id" 0)
  = ["postgres://db/portal_test"; "postgres://db/portal_test"].
Proof. vm_compute. reflexivity. Qed.

Lemma test_processes_use_test_databases_witness :
  "postgres://db/portal_test" ∈ databases (@server_main test_urls sample_uuids test_world test_env "id" 0) /\
  @test_database test_urls test_world "postgres://db/portal_test".
Proof.
  assert (H := @test_processes_use_test_databases test_urls sample_uuids test_world ascii_unicode
    {| generate_salt := fun _ => "salt"; hash_password := fun _ _ => Some "hash" |}
    {| json_to_string := fun _ => None |} seconds_chrono {| value_text := fun _ => "json" |} test_env "id" 0 eq_refl).
  destruct H as [Hs _]. specialize (Hs "postgres://db/portal_test"). rewrite test_server_serves in *.
  split; [left|apply Hs; left].
Defined.
