(* ===== verification/Routes.v ===== *)
(** The routes of the portal: the attribute and the signature of every handler under
    [src/src/rocket_routes/] and the list that [try_build] of [src/src/server_app.rs]
    mounts at [/], with the catchers of [src/src/api.rs] it registers there. The handlers
    themselves are modelled in the files of their modules. *)
From S2P Require Import Prelude Text Api Authn.

Open Scope Z_scope.

(** A segment of a route's path, and a parameter of its query: [<name>], or [<name..>]
    with the fields of the form it is read into. *)
Inductive Segment :=
  | Static (text : string)
  | Dynamic (name : string).

Inductive QueryField :=
  | Single (name type : string)
  | Trailing (name : string) (fields : list (string * string)).

(** The request guards of a handler: its parameters beside path, query and body. *)
Inductive RouteGuard :=
  | AuthenticatedUserGuard
  | ConnectionGuard
  | StateGuard (type : string)
  | CookieJarGuard
  | LoginClientContextGuard.

(** What a handler answers when it succeeds: [ApiResult<data>], [CreatedApiResult<data>],
    [Result<NoContent, ApiError>], a [NoStoreRedirect], or another responder. *)
Inductive ReturnType :=
  | DataResult (data : string)
  | CreatedResult (data : string)
  | NoContentResult
  | RedirectResult
  | PlainResponse (responder : string).

(** [rt_params] gives the types of the dynamic segments, [rt_data] the name and the type
    of the JSON body. *)
Record Route := mkRoute {
  rt_handler : string;
  rt_method : Method;
  rt_path : list Segment;
  rt_params : list (string * string);
  rt_query : list QueryField;
  rt_rank : option Z;
  rt_format : option string;
  rt_data : option (string * string);
  rt_guards : list RouteGuard;
  rt_returns : ReturnType
}.

#[export] Instance Method_eq_dec : EqDecision Method.
Proof. solve_decision. Defined.
#[export] Instance Segment_eq_dec : EqDecision Segment.
Proof. solve_decision. Defined.
#[export] Instance QueryField_eq_dec : EqDecision QueryField.
Proof. solve_decision. Defined.
#[export] Instance RouteGuard_eq_dec : EqDecision RouteGuard.
Proof. solve_decision. Defined.
#[export] Instance ReturnType_eq_dec : EqDecision ReturnType.
Proof. solve_decision. Defined.
#[export] Instance Route_eq_dec : EqDecision Route.
Proof. solve_decision. Defined.

(** ** [rocket_routes/authorization.rs] *)

Definition login_route : Route :=
  mkRoute "login" Post [Static "login"]
    [] [] None (Some "json") (Some ("credentials", "Credentials"))
    [StateGuard "DbConn"; StateGuard "AppConfig"; CookieJarGuard; LoginClientContextGuard] (DataResult "LoginResponse").

Definition me_route : Route :=
  mkRoute "me" Get [Static "me"]
    [] [] None None None
    [AuthenticatedUserGuard; ConnectionGuard] (DataResult "MeResponse").

Definition me_overview_route : Route :=
  mkRoute "me_overview" Get [Static "me"; Static "overview"]
    [] [] None None None
    [AuthenticatedUserGuard; ConnectionGuard] (DataResult "MeOverviewResponse").

Definition users_route : Route :=
  mkRoute "users" Get [Static "users"]
    [] [] None None None
    [AuthenticatedUserGuard; ConnectionGuard] (DataResult "Vec<UserSummary>").

Definition logout_route : Route :=
  mkRoute "logout" Post [Static "logout"]
    [] [] None None None
    [AuthenticatedUserGuard; ConnectionGuard; StateGuard "AppConfig"; CookieJarGuard] NoContentResult.

Definition revoke_all_sessions_route : Route :=
  mkRoute "revoke_all_sessions" Post [Static "sessions"; Static "revoke-all"]
    [] [] None None None
    [AuthenticatedUserGuard; ConnectionGuard; StateGuard "AppConfig"; CookieJarGuard] (DataResult "RevokeAllSessionsResponse").

(** ** [rocket_routes/entra_auth.rs] *)

Definition auth_config_route : Route :=
  mkRoute "auth_config" Get [Static "auth"; Static "config"]
    [] [] None None None
    [StateGuard "AppConfig"] (PlainResponse "NoStoreAuthConfig").

Definition start_entra_login_route : Route :=
  mkRoute "start_entra_login" Get [Static "auth"; Static "entra"; Static "start"]
    [] [Single "return_to" "Option<&str>"] None None None
    [ConnectionGuard; StateGuard "AppConfig"; CookieJarGuard] RedirectResult.

Definition finish_entra_login_route : Route :=
  mkRoute "finish_entra_login" Get [Static "auth"; Static "entra"; Static "callback"]
    [] [Trailing "query" [("code", "Option<String>"); ("state", "Option<String>"); ("error", "Option<String>"); ("error_description", "Option<String>")]] None None None
    [StateGuard "DbConn"; StateGuard "AppConfig"; StateGuard "EntraOidcClient"; CookieJarGuard; LoginClientContextGuard] RedirectResult.

(** ** [rocket_routes/calendar_events.rs] *)

Definition get_calendar_events_route : Route :=
  mkRoute "get_calendar_events" Get [Static "calendar-events"]
    [] [] None None None
    [AuthenticatedUserGuard; ConnectionGuard] (DataResult "Vec<CalendarEvent>").

Definition view_calendar_event_route : Route :=
  mkRoute "view_calendar_event" Get [Static "calendar-events"; Dynamic "id"]
    [("id", "i32")] [] None None None
    [AuthenticatedUserGuard; ConnectionGuard] (DataResult "CalendarEvent").

(** ** [openapi.rs] *)

Definition openapi_json_route : Route :=
  mkRoute "openapi_json" Get [Static "openapi.json"]
    [] [] None None None
    [] (PlainResponse "Json<OpenApi>").

(** ** [rocket_routes/audit_logs.rs] *)

Definition get_audit_logs_route : Route :=
  mkRoute "get_audit_logs" Get [Static "audit-logs"]
    [] [Trailing "query" [("resource_type", "Option<String>"); ("resource_id", "Option<String>"); ("actor_user_id", "Option<i32>"); ("action", "Option<String>"); ("created_from", "Option<String>"); ("created_to", "Option<String>")]] None None None
    [AuthenticatedUserGuard; ConnectionGuard] (DataResult "Vec<AuditLog>").

(** ** [rocket_routes/connectors/routes.rs] *)

Definition get_connectors_route : Route :=
  mkRoute "get_connectors" Get [Static "connectors"]
    [] [] None None None
    [AuthenticatedUserGuard; ConnectionGuard] (DataResult "Vec<Connector>").

Definition get_connector_operations_route : Route :=
  mkRoute "get_connector_operations" Get [Static "connectors"; Static "operations"]
    [] [] None None None
    [AuthenticatedUserGuard; ConnectionGuard] (DataResult "ConnectorOperationsResponse").

Definition view_connector_route : Route :=
  mkRoute "view_connector" Get [Static "connectors"; Dynamic "source"]
    [("source", "String")] [] None None None
    [AuthenticatedUserGuard; ConnectionGuard] (DataResult "Connector").

Definition create_connector_route : Route :=
  mkRoute "create_connector" Post [Static "connectors"]
    [] [] None (Some "json") (Some ("connector", "NewConnector"))
    [AuthenticatedUserGuard; ConnectionGuard] (CreatedResult "Connector").

Definition update_connector_route : Route :=
  mkRoute "update_connector" Put [Static "connectors"; Dynamic "source"]
    [("source", "String")] [] None (Some "json") (Some ("connector", "ConnectorUpdate"))
    [AuthenticatedUserGuard; ConnectionGuard] (DataResult "Connector").

Definition update_connector_scope_route : Route :=
  mkRoute "update_connector_scope" Put [Static "connectors"; Dynamic "source"; Static "scope"]
    [("source", "String")] [] None (Some "json") (Some ("scope", "ConnectorScopeUpdate"))
    [AuthenticatedUserGuard; ConnectionGuard] (DataResult "Connector").

Definition delete_connector_route : Route :=
  mkRoute "delete_connector" Delete [Static "connectors"; Dynamic "source"]
    [("source", "String")] [] None None None
    [AuthenticatedUserGuard; ConnectionGuard] NoContentResult.

Definition get_connector_config_route : Route :=
  mkRoute "get_connector_config" Get [Static "connectors"; Dynamic "source"; Static "config"]
    [("source", "String")] [] (Some 2) None None
    [AuthenticatedUserGuard; ConnectionGuard] (DataResult "ConnectorConfigResponse").

Definition upsert_connector_config_route : Route :=
  mkRoute "upsert_connector_config" Put [Static "connectors"; Dynamic "source"; Static "config"]
    [("source", "String")] [] None (Some "json") (Some ("config", "ConnectorConfigUpdate"))
    [AuthenticatedUserGuard; ConnectionGuard] (DataResult "ConnectorConfigResponse").

(** ** [rocket_routes/connectors/oauth.rs] *)

Definition start_microsoft_oauth_route : Route :=
  mkRoute "start_microsoft_oauth" Post [Static "connectors"; Dynamic "source"; Static "oauth"; Static "microsoft"; Static "authorize"]
    [("source", "String")] [] None (Some "json") (Some ("request", "MicrosoftOAuthAuthorizeRequest"))
    [AuthenticatedUserGuard; ConnectionGuard] (DataResult "MicrosoftOAuthAuthorizeResponse").

Definition finish_microsoft_oauth_route : Route :=
  mkRoute "finish_microsoft_oauth" Post [Static "connectors"; Static "oauth"; Static "microsoft"; Static "callback"]
    [] [] None (Some "json") (Some ("request", "MicrosoftOAuthCallbackRequest"))
    [AuthenticatedUserGuard; ConnectionGuard] (DataResult "MicrosoftOAuthCallbackResponse").

Definition microsoft_oauth_callback_page_route : Route :=
  mkRoute "microsoft_oauth_callback_page" Get [Static "oauth"; Static "microsoft"; Static "callback"]
    [] [] None None None
    [] (PlainResponse "Option<NamedFile>").

(** ** [rocket_routes/connectors/routes.rs] *)

Definition get_connector_runs_route : Route :=
  mkRoute "get_connector_runs" Get [Static "connectors"; Static "runs"]
    [] [Single "source" "Option<String>"; Single "target" "Option<String>"] None None None
    [AuthenticatedUserGuard; ConnectionGuard] (DataResult "Vec<ConnectorRun>").

Definition get_connector_run_route : Route :=
  mkRoute "get_connector_run" Get [Static "connectors"; Static "runs"; Dynamic "id"]
    [("id", "i32")] [] (Some 1) None None
    [AuthenticatedUserGuard; ConnectionGuard] (DataResult "ConnectorRunDetail").

Definition retry_connector_run_route : Route :=
  mkRoute "retry_connector_run" Post [Static "connectors"; Static "runs"; Dynamic "id"; Static "retry"]
    [("id", "i32")] [] None None None
    [AuthenticatedUserGuard; ConnectionGuard] (CreatedResult "ConnectorRunExecutionResponse").

Definition cancel_connector_run_route : Route :=
  mkRoute "cancel_connector_run" Post [Static "connectors"; Static "runs"; Dynamic "id"; Static "cancel"]
    [("id", "i32")] [] None None None
    [AuthenticatedUserGuard; ConnectionGuard] (DataResult "ConnectorRun").

Definition run_connector_route : Route :=
  mkRoute "run_connector" Post [Static "connectors"; Dynamic "source"; Static "runs"]
    [("source", "String")] [] None (Some "json") (Some ("request", "ManualConnectorRunRequest"))
    [AuthenticatedUserGuard; ConnectionGuard] (CreatedResult "ConnectorRunExecutionResponse").

Definition import_calendar_events_route : Route :=
  mkRoute "import_calendar_events" Post [Static "connectors"; Dynamic "source"; Static "calendar-events"; Static "import"]
    [("source", "String")] [] None (Some "json") (Some ("request", "CalendarEventImportRequest"))
    [AuthenticatedUserGuard; ConnectionGuard] (CreatedResult "ConnectorRunExecutionResponse").

Definition import_notifications_route : Route :=
  mkRoute "import_notifications" Post [Static "connectors"; Dynamic "source"; Static "notifications"; Static "import"]
    [("source", "String")] [] None (Some "json") (Some ("request", "NotificationImportRequest"))
    [AuthenticatedUserGuard; ConnectionGuard] (CreatedResult "ConnectorRunExecutionResponse").

Definition import_service_health_route : Route :=
  mkRoute "import_service_health" Post [Static "connectors"; Dynamic "source"; Static "service-health"; Static "import"]
    [("source", "String")] [] None (Some "json") (Some ("request", "ServiceHealthImportRequest"))
    [AuthenticatedUserGuard; ConnectionGuard] (CreatedResult "ConnectorRunExecutionResponse").

Definition import_work_cards_route : Route :=
  mkRoute "import_work_cards" Post [Static "connectors"; Dynamic "source"; Static "work-cards"; Static "import"]
    [("source", "String")] [] None (Some "json") (Some ("request", "WorkCardImportRequest"))
    [AuthenticatedUserGuard; ConnectionGuard] (CreatedResult "ConnectorRunExecutionResponse").

(** ** [rocket_routes/dashboard.rs] *)

Definition dashboard_route : Route :=
  mkRoute "dashboard" Get [Static "dashboard"]
    [] [Single "maintainer_id" "Option<i32>"; Single "source" "Option<String>"] None None None
    [AuthenticatedUserGuard; ConnectionGuard] (DataResult "DashboardResponse").

(** ** [rocket_routes/health.rs] *)

Definition health_route : Route :=
  mkRoute "health" Get [Static "health"]
    [] [] None None None
    [ConnectionGuard] (DataResult "HealthResponse").

Definition livez_route : Route :=
  mkRoute "livez" Get [Static "livez"]
    [] [] None None None
    [] (DataResult "HealthResponse").

Definition readyz_route : Route :=
  mkRoute "readyz" Get [Static "readyz"]
    [] [] None None None
    [ConnectionGuard] (DataResult "ReadinessResponse").

(** ** [rocket_routes/maintainers.rs] *)

Definition get_maintainers_route : Route :=
  mkRoute "get_maintainers" Get [Static "maintainers"]
    [] [] None None None
    [AuthenticatedUserGuard; ConnectionGuard] (DataResult "Vec<Maintainer>").

Definition view_maintainer_route : Route :=
  mkRoute "view_maintainer" Get [Static "maintainers"; Dynamic "id"]
    [("id", "i32")] [] None None None
    [AuthenticatedUserGuard; ConnectionGuard] (DataResult "Maintainer").

Definition create_maintainer_route : Route :=
  mkRoute "create_maintainer" Post [Static "maintainers"]
    [] [] None (Some "json") (Some ("new_maintainer", "NewMaintainer"))
    [AuthenticatedUserGuard; ConnectionGuard] (CreatedResult "Maintainer").

Definition update_maintainer_route : Route :=
  mkRoute "update_maintainer" Put [Static "maintainers"; Dynamic "id"]
    [("id", "i32")] [] None (Some "json") (Some ("maintainer", "NewMaintainer"))
    [AuthenticatedUserGuard; ConnectionGuard] (DataResult "Maintainer").

Definition delete_maintainer_route : Route :=
  mkRoute "delete_maintainer" Delete [Static "maintainers"; Dynamic "id"]
    [("id", "i32")] [] None None None
    [AuthenticatedUserGuard; ConnectionGuard] NoContentResult.

Definition get_maintainer_members_route : Route :=
  mkRoute "get_maintainer_members" Get [Static "maintainers"; Dynamic "id"; Static "members"]
    [("id", "i32")] [] None None None
    [AuthenticatedUserGuard; ConnectionGuard] (DataResult "Vec<MaintainerMember>").

Definition upsert_maintainer_member_route : Route :=
  mkRoute "upsert_maintainer_member" Post [Static "maintainers"; Dynamic "id"; Static "members"]
    [("id", "i32")] [] None (Some "json") (Some ("member", "MaintainerMemberRequest"))
    [AuthenticatedUserGuard; ConnectionGuard] (CreatedResult "MaintainerMember").

Definition delete_maintainer_member_route : Route :=
  mkRoute "delete_maintainer_member" Delete [Static "maintainers"; Dynamic "id"; Static "members"; Dynamic "user_id"]
    [("id", "i32"); ("user_id", "i32")] [] None None None
    [AuthenticatedUserGuard; ConnectionGuard] NoContentResult.

(** ** [rocket_routes/services.rs] *)

Definition get_services_route : Route :=
  mkRoute "get_services" Get [Static "services"]
    [] [] None None None
    [AuthenticatedUserGuard; ConnectionGuard] (DataResult "Vec<Service>").

Definition view_service_route : Route :=
  mkRoute "view_service" Get [Static "services"; Dynamic "id"]
    [("id", "i32")] [] None None None
    [AuthenticatedUserGuard; ConnectionGuard] (DataResult "Service").

Definition service_overview_route : Route :=
  mkRoute "service_overview" Get [Static "services"; Dynamic "id"; Static "overview"]
    [("id", "i32")] [] None None None
    [AuthenticatedUserGuard; ConnectionGuard] (DataResult "ServiceOverview").

Definition create_service_route : Route :=
  mkRoute "create_service" Post [Static "services"]
    [] [] None (Some "json") (Some ("new_service", "NewService"))
    [AuthenticatedUserGuard; ConnectionGuard] (CreatedResult "Service").

Definition update_service_route : Route :=
  mkRoute "update_service" Put [Static "services"; Dynamic "id"]
    [("id", "i32")] [] None (Some "json") (Some ("service", "NewService"))
    [AuthenticatedUserGuard; ConnectionGuard] (DataResult "Service").

Definition delete_service_route : Route :=
  mkRoute "delete_service" Delete [Static "services"; Dynamic "id"]
    [("id", "i32")] [] None None None
    [AuthenticatedUserGuard; ConnectionGuard] NoContentResult.

(** ** [rocket_routes/packages.rs] *)

Definition get_packages_route : Route :=
  mkRoute "get_packages" Get [Static "packages"]
    [] [] None None None
    [AuthenticatedUserGuard; ConnectionGuard] (DataResult "Vec<Package>").

Definition view_package_route : Route :=
  mkRoute "view_package" Get [Static "packages"; Dynamic "id"]
    [("id", "i32")] [] None None None
    [AuthenticatedUserGuard; ConnectionGuard] (DataResult "Package").

Definition create_package_route : Route :=
  mkRoute "create_package" Post [Static "packages"]
    [] [] None (Some "json") (Some ("new_package", "NewPackage"))
    [AuthenticatedUserGuard; ConnectionGuard] (CreatedResult "Package").

Definition update_package_route : Route :=
  mkRoute "update_package" Put [Static "packages"; Dynamic "id"]
    [("id", "i32")] [] None (Some "json") (Some ("package", "NewPackage"))
    [AuthenticatedUserGuard; ConnectionGuard] (DataResult "Package").

Definition delete_package_route : Route :=
  mkRoute "delete_package" Delete [Static "packages"; Dynamic "id"]
    [("id", "i32")] [] None None None
    [AuthenticatedUserGuard; ConnectionGuard] NoContentResult.

(** ** [rocket_routes/work_cards.rs] *)

Definition get_work_cards_route : Route :=
  mkRoute "get_work_cards" Get [Static "work-cards"]
    [] [] None None None
    [AuthenticatedUserGuard; ConnectionGuard] (DataResult "Vec<WorkCard>").

Definition get_my_work_cards_route : Route :=
  mkRoute "get_my_work_cards" Get [Static "me"; Static "work-cards"]
    [] [Trailing "query" [("status", "Option<String>"); ("due", "Option<String>"); ("project", "Option<String>"); ("work_item_type", "Option<String>"); ("source", "Option<String>"); ("sort", "Option<String>"); ("page", "Option<i64>"); ("page_size", "Option<i64>")]] None None None
    [AuthenticatedUserGuard; ConnectionGuard] (DataResult "MyWorkCardsResponse").

Definition view_work_card_route : Route :=
  mkRoute "view_work_card" Get [Static "work-cards"; Dynamic "id"]
    [("id", "i32")] [] None None None
    [AuthenticatedUserGuard; ConnectionGuard] (DataResult "WorkCard").

Definition create_work_card_route : Route :=
  mkRoute "create_work_card" Post [Static "work-cards"]
    [] [] None (Some "json") (Some ("new_work_card", "NewWorkCard"))
    [AuthenticatedUserGuard; ConnectionGuard] (CreatedResult "WorkCard").

Definition update_work_card_route : Route :=
  mkRoute "update_work_card" Put [Static "work-cards"; Dynamic "id"]
    [("id", "i32")] [] None (Some "json") (Some ("work_card", "NewWorkCard"))
    [AuthenticatedUserGuard; ConnectionGuard] (DataResult "WorkCard").

Definition delete_work_card_route : Route :=
  mkRoute "delete_work_card" Delete [Static "work-cards"; Dynamic "id"]
    [("id", "i32")] [] None None None
    [AuthenticatedUserGuard; ConnectionGuard] NoContentResult.

(** ** [rocket_routes/notifications.rs] *)

Definition get_notifications_route : Route :=
  mkRoute "get_notifications" Get [Static "notifications"]
    [] [] None None None
    [AuthenticatedUserGuard; ConnectionGuard] (DataResult "Vec<NotificationView>").

Definition get_inbox_route : Route :=
  mkRoute "get_inbox" Get [Static "me"; Static "notifications"]
    [] [Trailing "query" [("state", "Option<String>"); ("search", "Option<String>"); ("source", "Option<String>"); ("severity", "Option<String>"); ("page", "Option<i64>"); ("page_size", "Option<i64>")]] None None None
    [AuthenticatedUserGuard; ConnectionGuard] (DataResult "InboxResponse").

Definition view_notification_route : Route :=
  mkRoute "view_notification" Get [Static "notifications"; Dynamic "id"]
    [("id", "i32")] [] None None None
    [AuthenticatedUserGuard; ConnectionGuard] (DataResult "NotificationView").

Definition mark_notification_read_route : Route :=
  mkRoute "mark_notification_read" Post [Static "notifications"; Dynamic "id"; Static "read"]
    [("id", "i32")] [] None None None
    [AuthenticatedUserGuard; ConnectionGuard] (DataResult "NotificationView").

Definition mark_notification_unread_route : Route :=
  mkRoute "mark_notification_unread" Post [Static "notifications"; Dynamic "id"; Static "unread"]
    [("id", "i32")] [] None None None
    [AuthenticatedUserGuard; ConnectionGuard] (DataResult "NotificationView").

Definition dismiss_notification_route : Route :=
  mkRoute "dismiss_notification" Post [Static "notifications"; Dynamic "id"; Static "dismiss"]
    [("id", "i32")] [] None None None
    [AuthenticatedUserGuard; ConnectionGuard] (DataResult "NotificationView").

Definition snooze_notification_route : Route :=
  mkRoute "snooze_notification" Post [Static "notifications"; Dynamic "id"; Static "snooze"]
    [("id", "i32")] [] None (Some "json") (Some ("request", "NotificationSnoozeRequest"))
    [AuthenticatedUserGuard; ConnectionGuard] (DataResult "NotificationView").

Definition restore_notification_route : Route :=
  mkRoute "restore_notification" Post [Static "notifications"; Dynamic "id"; Static "restore"]
    [("id", "i32")] [] None None None
    [AuthenticatedUserGuard; ConnectionGuard] (DataResult "NotificationView").

Definition create_notification_route : Route :=
  mkRoute "create_notification" Post [Static "notifications"]
    [] [] None (Some "json") (Some ("new_notification", "NewNotification"))
    [AuthenticatedUserGuard; ConnectionGuard] (CreatedResult "Notification").

Definition update_notification_route : Route :=
  mkRoute "update_notification" Put [Static "notifications"; Dynamic "id"]
    [("id", "i32")] [] None (Some "json") (Some ("notification", "NewNotification"))
    [AuthenticatedUserGuard; ConnectionGuard] (DataResult "Notification").

Definition delete_notification_route : Route :=
  mkRoute "delete_notification" Delete [Static "notifications"; Dynamic "id"]
    [("id", "i32")] [] None None None
    [AuthenticatedUserGuard; ConnectionGuard] NoContentResult.

(** ** What is mounted *)

(** The handlers of the [routes!] list of [server_app.rs]. Beside it [FileServer] serves the files of
    [frontend/dist] at the root, for anyone. *)
Definition mounted_routes : list Route :=
  [ login_route;
    me_route;
    me_overview_route;
    users_route;
    logout_route;
    revoke_all_sessions_route;
    auth_config_route;
    start_entra_login_route;
    finish_entra_login_route;
    get_calendar_events_route;
    view_calendar_event_route;
    openapi_json_route;
    get_audit_logs_route;
    get_connectors_route;
    get_connector_operations_route;
    view_connector_route;
    create_connector_route;
    update_connector_route;
    update_connector_scope_route;
    delete_connector_route;
    get_connector_config_route;
    upsert_connector_config_route;
    start_microsoft_oauth_route;
    finish_microsoft_oauth_route;
    microsoft_oauth_callback_page_route;
    get_connector_runs_route;
    get_connector_run_route;
    retry_connector_run_route;
    cancel_connector_run_route;
    run_connector_route;
    import_calendar_events_route;
    import_notifications_route;
    import_service_health_route;
    import_work_cards_route;
    dashboard_route;
    health_route;
    livez_route;
    readyz_route;
    get_maintainers_route;
    view_maintainer_route;
    create_maintainer_route;
    update_maintainer_route;
    delete_maintainer_route;
    get_maintainer_members_route;
    upsert_maintainer_member_route;
    delete_maintainer_member_route;
    get_services_route;
    view_service_route;
    service_overview_route;
    create_service_route;
    update_service_route;
    delete_service_route;
    get_packages_route;
    view_package_route;
    create_package_route;
    update_package_route;
    delete_package_route;
    get_work_cards_route;
    get_my_work_cards_route;
    view_work_card_route;
    create_work_card_route;
    update_work_card_route;
    delete_work_card_route;
    get_notifications_route;
    get_inbox_route;
    view_notification_route;
    mark_notification_read_route;
    mark_notification_unread_route;
    dismiss_notification_route;
    snooze_notification_route;
    restore_notification_route;
    create_notification_route;
    update_notification_route;
    delete_notification_route ].

(** ** Catchers *)

(** What answers a request that failed with a status outside of a handler. *)
Definition bad_request : ApiError := BadRequest.
Definition unauthorized : ApiError := Unauthorized.
Definition too_many_requests : ApiError := RateLimited 60.
Definition forbidden : ApiError := Forbidden.
Definition not_found : ApiError := NotFound.
Definition unprocessable_entity : ApiError := BadRequest.
Definition internal_server_error : ApiError := Internal.
Definition service_unavailable : ApiError := ServiceUnavailable.

Definition catchers : list (Z * ApiError) :=
  [ (400, bad_request); (401, unauthorized); (429, too_many_requests); (403, forbidden);
    (404, not_found); (422, unprocessable_entity); (500, internal_server_error);
    (503, service_unavailable) ].

Definition caught (status : Z) : option ApiError :=
  snd <$> head (List.filter (fun c => fst c =? status) catchers).
