(* ===== verification/OpenApi.v ===== *)
(** The API document: [src/src/openapi.rs]. One definition per documented operation,
    the document they are collected in, and the security requirements [SecurityAddon]
    writes into it. Descriptions, which only people read, are left out. *)
From S2P Require Import Prelude Text Authn Routes.

Open Scope Z_scope.
Open Scope portal_scope.

Inductive ParameterIn := PathParameter | QueryParameter | HeaderParameter.

(** A security requirement: the schemes that must all be presented. *)
Definition SecurityRequirement : Type := list string.

Record Operation := mkOperation {
  op_method : Method;
  op_path : string;
  op_tag : string;
  op_id : string;
  op_security : option (list SecurityRequirement);
  op_params : list (string * string * ParameterIn);
  op_body : option (string * string);
  op_responses : list (Z * option string)
}.

#[export] Instance eta_Operation : Eta Operation := fun o =>
  mkOperation (op_method o) (op_path o) (op_tag o) (op_id o) (op_security o) (op_params o) (op_body o) (op_responses o).

(** ** The operations *)

Definition openapi_json_doc : Operation :=
  mkOperation Get "/openapi.json" "Docs" "getOpenApiSpec" None
    []
    None
    [(200, None)].

Definition health_doc : Operation :=
  mkOperation Get "/health" "Health" "getHealth" None
    []
    None
    [(200, Some "ApiResponse<HealthResponse>"); (503, Some "ApiErrorResponse")].

Definition livez_doc : Operation :=
  mkOperation Get "/livez" "Health" "getLiveness" None
    []
    None
    [(200, Some "ApiResponse<HealthResponse>")].

Definition readyz_doc : Operation :=
  mkOperation Get "/readyz" "Health" "getReadiness" None
    []
    None
    [(200, Some "ApiResponse<ReadinessResponse>"); (503, Some "ApiErrorResponse")].

Definition auth_config_doc : Operation :=
  mkOperation Get "/auth/config" "Auth" "getPublicAuthConfig" None
    []
    None
    [(200, Some "ApiResponse<PublicAuthConfig>")].

Definition start_entra_login_doc : Operation :=
  mkOperation Get "/auth/entra/start" "Auth" "startEntraLogin" None
    [("return_to", "Option<String>", QueryParameter)]
    None
    [(303, None); (404, Some "ApiErrorResponse"); (429, Some "ApiErrorResponse"); (503, Some "ApiErrorResponse")].

Definition finish_entra_login_doc : Operation :=
  mkOperation Get "/auth/entra/callback" "Auth" "finishEntraLogin" None
    [("code", "Option<String>", QueryParameter); ("state", "Option<String>", QueryParameter); ("error", "Option<String>", QueryParameter); ("error_description", "Option<String>", QueryParameter)]
    None
    [(303, None); (503, Some "ApiErrorResponse")].

Definition login_doc : Operation :=
  mkOperation Post "/login" "Auth" "login" None
    []
    (Some ("Credentials", "application/json"))
    [(200, Some "ApiResponse<LoginResponse>"); (400, Some "ApiErrorResponse"); (401, Some "ApiErrorResponse"); (403, Some "ApiErrorResponse"); (429, Some "ApiErrorResponse"); (503, Some "ApiErrorResponse")].

Definition logout_doc : Operation :=
  mkOperation Post "/logout" "Auth" "logout" (Some [["bearer_auth"]; ["session_cookie"; "csrf_header"]])
    [("X-IDP-CSRF", "Option<String>", HeaderParameter)]
    None
    [(204, None); (401, Some "ApiErrorResponse"); (403, Some "ApiErrorResponse"); (503, Some "ApiErrorResponse")].

Definition revoke_all_sessions_doc : Operation :=
  mkOperation Post "/sessions/revoke-all" "Auth" "revokeAllSessions" (Some [["bearer_auth"]; ["session_cookie"; "csrf_header"]])
    [("X-IDP-CSRF", "Option<String>", HeaderParameter)]
    None
    [(200, Some "ApiResponse<RevokeAllSessionsResponse>"); (401, Some "ApiErrorResponse"); (403, Some "ApiErrorResponse"); (503, Some "ApiErrorResponse")].

Definition me_doc : Operation :=
  mkOperation Get "/me" "Auth" "getCurrentUser" (Some [["bearer_auth"]; ["session_cookie"]])
    []
    None
    [(200, Some "ApiResponse<MeResponse>"); (401, Some "ApiErrorResponse"); (503, Some "ApiErrorResponse")].

Definition list_users_doc : Operation :=
  mkOperation Get "/users" "Auth" "listUsers" (Some [["bearer_auth"]; ["session_cookie"]])
    []
    None
    [(200, Some "ApiResponse<Vec<UserSummary>>"); (401, Some "ApiErrorResponse"); (403, Some "ApiErrorResponse"); (503, Some "ApiErrorResponse")].

Definition me_overview_doc : Operation :=
  mkOperation Get "/me/overview" "Auth" "getCurrentUserOverview" (Some [["bearer_auth"]; ["session_cookie"]])
    []
    None
    [(200, Some "ApiResponse<MeOverviewResponse>"); (401, Some "ApiErrorResponse"); (503, Some "ApiErrorResponse")].

Definition dashboard_doc : Operation :=
  mkOperation Get "/dashboard" "Dashboard" "getDashboard" (Some [["bearer_auth"]])
    [("maintainer_id", "Option<i32>", QueryParameter); ("source", "Option<String>", QueryParameter)]
    None
    [(200, Some "ApiResponse<DashboardResponse>"); (401, Some "ApiErrorResponse")].

Definition list_calendar_events_doc : Operation :=
  mkOperation Get "/calendar-events" "Calendar" "listCalendarEvents" (Some [["bearer_auth"]])
    []
    None
    [(200, Some "ApiResponse<Vec<CalendarEvent>>")].

Definition get_calendar_event_doc : Operation :=
  mkOperation Get "/calendar-events/{id}" "Calendar" "getCalendarEvent" (Some [["bearer_auth"]])
    [("id", "i32", PathParameter)]
    None
    [(200, Some "ApiResponse<CalendarEvent>"); (404, Some "ApiErrorResponse")].

Definition list_connectors_doc : Operation :=
  mkOperation Get "/connectors" "Connectors" "listConnectors" (Some [["bearer_auth"]])
    []
    None
    [(200, Some "ApiResponse<Vec<Connector>>")].

Definition connector_operations_doc : Operation :=
  mkOperation Get "/connectors/operations" "Connectors" "getConnectorOperations" (Some [["bearer_auth"]])
    []
    None
    [(200, Some "ApiResponse<ConnectorOperationsResponse>"); (403, Some "ApiErrorResponse")].

Definition get_connector_doc : Operation :=
  mkOperation Get "/connectors/{source}" "Connectors" "getConnector" (Some [["bearer_auth"]])
    [("source", "String", PathParameter)]
    None
    [(200, Some "ApiResponse<Connector>"); (404, Some "ApiErrorResponse")].

Definition create_connector_doc : Operation :=
  mkOperation Post "/connectors" "Connectors" "createConnector" (Some [["bearer_auth"]])
    []
    (Some ("NewConnector", "application/json"))
    [(201, Some "ApiResponse<Connector>"); (400, Some "ApiErrorResponse"); (403, Some "ApiErrorResponse")].

Definition update_connector_doc : Operation :=
  mkOperation Put "/connectors/{source}" "Connectors" "updateConnector" (Some [["bearer_auth"]])
    [("source", "String", PathParameter)]
    (Some ("ConnectorUpdate", "application/json"))
    [(200, Some "ApiResponse<Connector>"); (400, Some "ApiErrorResponse"); (403, Some "ApiErrorResponse"); (404, Some "ApiErrorResponse")].

Definition update_connector_scope_doc : Operation :=
  mkOperation Put "/connectors/{source}/scope" "Connectors" "updateConnectorScope" (Some [["bearer_auth"]])
    [("source", "String", PathParameter)]
    (Some ("ConnectorScopeUpdate", "application/json"))
    [(200, Some "ApiResponse<Connector>"); (400, Some "ApiErrorResponse"); (403, Some "ApiErrorResponse"); (404, Some "ApiErrorResponse")].

Definition delete_connector_doc : Operation :=
  mkOperation Delete "/connectors/{source}" "Connectors" "deleteConnector" (Some [["bearer_auth"]])
    [("source", "String", PathParameter)]
    None
    [(204, None); (403, Some "ApiErrorResponse"); (404, Some "ApiErrorResponse")].

Definition get_connector_config_doc : Operation :=
  mkOperation Get "/connectors/{source}/config" "Connectors" "getConnectorConfig" (Some [["bearer_auth"]])
    [("source", "String", PathParameter)]
    None
    [(200, Some "ApiResponse<ConnectorConfigResponse>"); (403, Some "ApiErrorResponse"); (404, Some "ApiErrorResponse")].

Definition upsert_connector_config_doc : Operation :=
  mkOperation Put "/connectors/{source}/config" "Connectors" "upsertConnectorConfig" (Some [["bearer_auth"]])
    [("source", "String", PathParameter)]
    (Some ("ConnectorConfigUpdate", "application/json"))
    [(200, Some "ApiResponse<ConnectorConfigResponse>"); (400, Some "ApiErrorResponse"); (403, Some "ApiErrorResponse"); (404, Some "ApiErrorResponse")].

Definition start_microsoft_oauth_doc : Operation :=
  mkOperation Post "/connectors/{source}/oauth/microsoft/authorize" "Connectors" "startMicrosoftOAuth" (Some [["bearer_auth"]])
    [("source", "String", PathParameter)]
    (Some ("MicrosoftOAuthAuthorizeRequest", "application/json"))
    [(200, Some "ApiResponse<MicrosoftOAuthAuthorizeResponse>"); (400, Some "ApiErrorResponse"); (403, Some "ApiErrorResponse"); (404, Some "ApiErrorResponse")].

Definition finish_microsoft_oauth_doc : Operation :=
  mkOperation Post "/connectors/oauth/microsoft/callback" "Connectors" "finishMicrosoftOAuth" (Some [["bearer_auth"]])
    []
    (Some ("MicrosoftOAuthCallbackRequest", "application/json"))
    [(200, Some "ApiResponse<MicrosoftOAuthCallbackResponse>"); (400, Some "ApiErrorResponse"); (403, Some "ApiErrorResponse"); (404, Some "ApiErrorResponse")].

Definition list_connector_runs_doc : Operation :=
  mkOperation Get "/connectors/runs" "Connectors" "listConnectorRuns" (Some [["bearer_auth"]])
    [("source", "Option<String>", QueryParameter); ("target", "Option<String>", QueryParameter)]
    None
    [(200, Some "ApiResponse<Vec<ConnectorRun>>"); (403, Some "ApiErrorResponse")].

Definition get_connector_run_doc : Operation :=
  mkOperation Get "/connectors/runs/{id}" "Connectors" "getConnectorRun" (Some [["bearer_auth"]])
    [("id", "i32", PathParameter)]
    None
    [(200, Some "ApiResponse<ConnectorRunDetail>"); (403, Some "ApiErrorResponse"); (404, Some "ApiErrorResponse")].

Definition retry_connector_run_doc : Operation :=
  mkOperation Post "/connectors/runs/{id}/retry" "Connectors" "retryConnectorRun" (Some [["bearer_auth"]])
    [("id", "i32", PathParameter)]
    None
    [(201, Some "ApiResponse<ConnectorRunExecutionResponse>"); (400, Some "ApiErrorResponse"); (403, Some "ApiErrorResponse"); (404, Some "ApiErrorResponse")].

Definition cancel_connector_run_doc : Operation :=
  mkOperation Post "/connectors/runs/{id}/cancel" "Connectors" "cancelConnectorRun" (Some [["bearer_auth"]])
    [("id", "i32", PathParameter)]
    None
    [(200, Some "ApiResponse<ConnectorRun>"); (400, Some "ApiErrorResponse"); (403, Some "ApiErrorResponse"); (404, Some "ApiErrorResponse")].

Definition run_connector_doc : Operation :=
  mkOperation Post "/connectors/{source}/runs" "Connectors" "runConnector" (Some [["bearer_auth"]])
    [("source", "String", PathParameter)]
    (Some ("ManualConnectorRunRequest", "application/json"))
    [(201, Some "ApiResponse<ConnectorRunExecutionResponse>"); (400, Some "ApiErrorResponse"); (403, Some "ApiErrorResponse"); (404, Some "ApiErrorResponse")].

Definition import_calendar_events_doc : Operation :=
  mkOperation Post "/connectors/{source}/calendar-events/import" "Connectors" "importCalendarEvents" (Some [["bearer_auth"]])
    [("source", "String", PathParameter)]
    (Some ("CalendarEventImportRequest", "application/json"))
    [(201, Some "ApiResponse<ConnectorRunExecutionResponse>"); (400, Some "ApiErrorResponse"); (403, Some "ApiErrorResponse")].

Definition import_work_cards_doc : Operation :=
  mkOperation Post "/connectors/{source}/work-cards/import" "Connectors" "importWorkCards" (Some [["bearer_auth"]])
    [("source", "String", PathParameter)]
    (Some ("WorkCardImportRequest", "application/json"))
    [(201, Some "ApiResponse<ConnectorRunExecutionResponse>"); (400, Some "ApiErrorResponse"); (403, Some "ApiErrorResponse")].

Definition import_notifications_doc : Operation :=
  mkOperation Post "/connectors/{source}/notifications/import" "Connectors" "importNotifications" (Some [["bearer_auth"]])
    [("source", "String", PathParameter)]
    (Some ("NotificationImportRequest", "application/json"))
    [(201, Some "ApiResponse<ConnectorRunExecutionResponse>"); (400, Some "ApiErrorResponse"); (403, Some "ApiErrorResponse")].

Definition import_service_health_doc : Operation :=
  mkOperation Post "/connectors/{source}/service-health/import" "Connectors" "importServiceHealth" (Some [["bearer_auth"]])
    [("source", "String", PathParameter)]
    (Some ("ServiceHealthImportRequest", "application/json"))
    [(201, Some "ApiResponse<ConnectorRunExecutionResponse>"); (400, Some "ApiErrorResponse"); (403, Some "ApiErrorResponse")].

Definition list_maintainers_doc : Operation :=
  mkOperation Get "/maintainers" "Catalog" "listMaintainers" (Some [["bearer_auth"]])
    []
    None
    [(200, Some "ApiResponse<Vec<Maintainer>>")].

Definition get_maintainer_doc : Operation :=
  mkOperation Get "/maintainers/{id}" "Catalog" "getMaintainer" (Some [["bearer_auth"]])
    [("id", "i32", PathParameter)]
    None
    [(200, Some "ApiResponse<Maintainer>"); (404, Some "ApiErrorResponse")].

Definition create_maintainer_doc : Operation :=
  mkOperation Post "/maintainers" "Catalog" "createMaintainer" (Some [["bearer_auth"]])
    []
    (Some ("NewMaintainer", "application/json"))
    [(201, Some "ApiResponse<Maintainer>"); (400, Some "ApiErrorResponse"); (403, Some "ApiErrorResponse")].

Definition update_maintainer_doc : Operation :=
  mkOperation Put "/maintainers/{id}" "Catalog" "updateMaintainer" (Some [["bearer_auth"]])
    [("id", "i32", PathParameter)]
    (Some ("NewMaintainer", "application/json"))
    [(200, Some "ApiResponse<Maintainer>"); (400, Some "ApiErrorResponse"); (403, Some "ApiErrorResponse"); (404, Some "ApiErrorResponse")].

Definition delete_maintainer_doc : Operation :=
  mkOperation Delete "/maintainers/{id}" "Catalog" "deleteMaintainer" (Some [["bearer_auth"]])
    [("id", "i32", PathParameter)]
    None
    [(204, None); (403, Some "ApiErrorResponse"); (404, Some "ApiErrorResponse")].

Definition list_maintainer_members_doc : Operation :=
  mkOperation Get "/maintainers/{id}/members" "Catalog" "listMaintainerMembers" (Some [["bearer_auth"]])
    [("id", "i32", PathParameter)]
    None
    [(200, Some "ApiResponse<Vec<MaintainerMember>>"); (403, Some "ApiErrorResponse")].

Definition upsert_maintainer_member_doc : Operation :=
  mkOperation Post "/maintainers/{id}/members" "Catalog" "upsertMaintainerMember" (Some [["bearer_auth"]])
    [("id", "i32", PathParameter)]
    (Some ("MaintainerMemberRequest", "application/json"))
    [(201, Some "ApiResponse<MaintainerMember>"); (400, Some "ApiErrorResponse"); (403, Some "ApiErrorResponse")].

Definition delete_maintainer_member_doc : Operation :=
  mkOperation Delete "/maintainers/{id}/members/{user_id}" "Catalog" "deleteMaintainerMember" (Some [["bearer_auth"]])
    [("id", "i32", PathParameter); ("user_id", "i32", PathParameter)]
    None
    [(204, None); (403, Some "ApiErrorResponse")].

Definition list_services_doc : Operation :=
  mkOperation Get "/services" "Catalog" "listServices" (Some [["bearer_auth"]])
    []
    None
    [(200, Some "ApiResponse<Vec<Service>>")].

Definition get_service_doc : Operation :=
  mkOperation Get "/services/{id}" "Catalog" "getService" (Some [["bearer_auth"]])
    [("id", "i32", PathParameter)]
    None
    [(200, Some "ApiResponse<Service>"); (404, Some "ApiErrorResponse")].

Definition get_service_overview_doc : Operation :=
  mkOperation Get "/services/{id}/overview" "Catalog" "getServiceOverview" (Some [["bearer_auth"]])
    [("id", "i32", PathParameter)]
    None
    [(200, Some "ApiResponse<ServiceOverview>"); (404, Some "ApiErrorResponse")].

Definition create_service_doc : Operation :=
  mkOperation Post "/services" "Catalog" "createService" (Some [["bearer_auth"]])
    []
    (Some ("NewService", "application/json"))
    [(201, Some "ApiResponse<Service>"); (400, Some "ApiErrorResponse"); (403, Some "ApiErrorResponse")].

Definition update_service_doc : Operation :=
  mkOperation Put "/services/{id}" "Catalog" "updateService" (Some [["bearer_auth"]])
    [("id", "i32", PathParameter)]
    (Some ("NewService", "application/json"))
    [(200, Some "ApiResponse<Service>"); (400, Some "ApiErrorResponse"); (403, Some "ApiErrorResponse"); (404, Some "ApiErrorResponse")].

Definition delete_service_doc : Operation :=
  mkOperation Delete "/services/{id}" "Catalog" "deleteService" (Some [["bearer_auth"]])
    [("id", "i32", PathParameter)]
    None
    [(204, None); (403, Some "ApiErrorResponse"); (404, Some "ApiErrorResponse")].

Definition list_packages_doc : Operation :=
  mkOperation Get "/packages" "Catalog" "listPackages" (Some [["bearer_auth"]])
    []
    None
    [(200, Some "ApiResponse<Vec<Package>>")].

Definition get_package_doc : Operation :=
  mkOperation Get "/packages/{id}" "Catalog" "getPackage" (Some [["bearer_auth"]])
    [("id", "i32", PathParameter)]
    None
    [(200, Some "ApiResponse<Package>"); (404, Some "ApiErrorResponse")].

Definition create_package_doc : Operation :=
  mkOperation Post "/packages" "Catalog" "createPackage" (Some [["bearer_auth"]])
    []
    (Some ("NewPackage", "application/json"))
    [(201, Some "ApiResponse<Package>"); (400, Some "ApiErrorResponse"); (403, Some "ApiErrorResponse")].

Definition update_package_doc : Operation :=
  mkOperation Put "/packages/{id}" "Catalog" "updatePackage" (Some [["bearer_auth"]])
    [("id", "i32", PathParameter)]
    (Some ("NewPackage", "application/json"))
    [(200, Some "ApiResponse<Package>"); (400, Some "ApiErrorResponse"); (403, Some "ApiErrorResponse"); (404, Some "ApiErrorResponse")].

Definition delete_package_doc : Operation :=
  mkOperation Delete "/packages/{id}" "Catalog" "deletePackage" (Some [["bearer_auth"]])
    [("id", "i32", PathParameter)]
    None
    [(204, None); (403, Some "ApiErrorResponse"); (404, Some "ApiErrorResponse")].

Definition list_work_cards_doc : Operation :=
  mkOperation Get "/work-cards" "Catalog" "listWorkCards" (Some [["bearer_auth"]])
    []
    None
    [(200, Some "ApiResponse<Vec<WorkCard>>")].

Definition list_my_work_cards_doc : Operation :=
  mkOperation Get "/me/work-cards" "Catalog" "listMyWorkCards" (Some [["bearer_auth"]])
    [("status", "Option<String>", QueryParameter); ("due", "Option<String>", QueryParameter); ("project", "Option<String>", QueryParameter); ("work_item_type", "Option<String>", QueryParameter); ("source", "Option<String>", QueryParameter); ("sort", "Option<String>", QueryParameter); ("page", "Option<i64>", QueryParameter); ("page_size", "Option<i64>", QueryParameter)]
    None
    [(200, Some "ApiResponse<MyWorkCardsResponse>"); (400, Some "ApiErrorResponse")].

Definition get_work_card_doc : Operation :=
  mkOperation Get "/work-cards/{id}" "Catalog" "getWorkCard" (Some [["bearer_auth"]])
    [("id", "i32", PathParameter)]
    None
    [(200, Some "ApiResponse<WorkCard>"); (404, Some "ApiErrorResponse")].

Definition create_work_card_doc : Operation :=
  mkOperation Post "/work-cards" "Catalog" "createWorkCard" (Some [["bearer_auth"]])
    []
    (Some ("NewWorkCard", "application/json"))
    [(201, Some "ApiResponse<WorkCard>"); (400, Some "ApiErrorResponse"); (403, Some "ApiErrorResponse")].

Definition update_work_card_doc : Operation :=
  mkOperation Put "/work-cards/{id}" "Catalog" "updateWorkCard" (Some [["bearer_auth"]])
    [("id", "i32", PathParameter)]
    (Some ("NewWorkCard", "application/json"))
    [(200, Some "ApiResponse<WorkCard>"); (400, Some "ApiErrorResponse"); (403, Some "ApiErrorResponse"); (404, Some "ApiErrorResponse")].

Definition delete_work_card_doc : Operation :=
  mkOperation Delete "/work-cards/{id}" "Catalog" "deleteWorkCard" (Some [["bearer_auth"]])
    [("id", "i32", PathParameter)]
    None
    [(204, None); (403, Some "ApiErrorResponse"); (404, Some "ApiErrorResponse")].

Definition list_notifications_doc : Operation :=
  mkOperation Get "/notifications" "Catalog" "listNotifications" (Some [["bearer_auth"]])
    []
    None
    [(200, Some "ApiResponse<Vec<NotificationView>>")].

Definition inbox_doc : Operation :=
  mkOperation Get "/me/notifications" "Catalog" "getInbox" (Some [["bearer_auth"]])
    [("state", "Option<String>", QueryParameter); ("search", "Option<String>", QueryParameter); ("source", "Option<String>", QueryParameter); ("severity", "Option<String>", QueryParameter); ("page", "Option<i64>", QueryParameter); ("page_size", "Option<i64>", QueryParameter)]
    None
    [(200, Some "ApiResponse<InboxResponse>"); (400, Some "ApiErrorResponse")].

Definition get_notification_doc : Operation :=
  mkOperation Get "/notifications/{id}" "Catalog" "getNotification" (Some [["bearer_auth"]])
    [("id", "i32", PathParameter)]
    None
    [(200, Some "ApiResponse<NotificationView>"); (404, Some "ApiErrorResponse")].

Definition mark_notification_read_doc : Operation :=
  mkOperation Post "/notifications/{id}/read" "Catalog" "markNotificationRead" (Some [["bearer_auth"]])
    [("id", "i32", PathParameter)]
    None
    [(200, Some "ApiResponse<NotificationView>"); (404, Some "ApiErrorResponse")].

Definition mark_notification_unread_doc : Operation :=
  mkOperation Post "/notifications/{id}/unread" "Catalog" "markNotificationUnread" (Some [["bearer_auth"]])
    [("id", "i32", PathParameter)]
    None
    [(200, Some "ApiResponse<NotificationView>"); (404, Some "ApiErrorResponse")].

Definition dismiss_notification_doc : Operation :=
  mkOperation Post "/notifications/{id}/dismiss" "Catalog" "dismissNotification" (Some [["bearer_auth"]])
    [("id", "i32", PathParameter)]
    None
    [(200, Some "ApiResponse<NotificationView>"); (404, Some "ApiErrorResponse")].

Definition snooze_notification_doc : Operation :=
  mkOperation Post "/notifications/{id}/snooze" "Catalog" "snoozeNotification" (Some [["bearer_auth"]])
    [("id", "i32", PathParameter)]
    (Some ("NotificationSnoozeRequest", "application/json"))
    [(200, Some "ApiResponse<NotificationView>"); (400, Some "ApiErrorResponse"); (404, Some "ApiErrorResponse")].

Definition restore_notification_doc : Operation :=
  mkOperation Post "/notifications/{id}/restore" "Catalog" "restoreNotification" (Some [["bearer_auth"]])
    [("id", "i32", PathParameter)]
    None
    [(200, Some "ApiResponse<NotificationView>"); (404, Some "ApiErrorResponse")].

Definition create_notification_doc : Operation :=
  mkOperation Post "/notifications" "Catalog" "createNotification" (Some [["bearer_auth"]])
    []
    (Some ("NewNotification", "application/json"))
    [(201, Some "ApiResponse<Notification>"); (400, Some "ApiErrorResponse"); (403, Some "ApiErrorResponse")].

Definition update_notification_doc : Operation :=
  mkOperation Put "/notifications/{id}" "Catalog" "updateNotification" (Some [["bearer_auth"]])
    [("id", "i32", PathParameter)]
    (Some ("NewNotification", "application/json"))
    [(200, Some "ApiResponse<Notification>"); (400, Some "ApiErrorResponse"); (403, Some "ApiErrorResponse"); (404, Some "ApiErrorResponse")].

Definition delete_notification_doc : Operation :=
  mkOperation Delete "/notifications/{id}" "Catalog" "deleteNotification" (Some [["bearer_auth"]])
    [("id", "i32", PathParameter)]
    None
    [(204, None); (403, Some "ApiErrorResponse"); (404, Some "ApiErrorResponse")].

Definition list_audit_logs_doc : Operation :=
  mkOperation Get "/audit-logs" "Audit" "listAuditLogs" (Some [["bearer_auth"]])
    [("resource_type", "Option<String>", QueryParameter); ("resource_id", "Option<String>", QueryParameter); ("actor_user_id", "Option<i32>", QueryParameter); ("action", "Option<String>", QueryParameter); ("created_from", "Option<String>", QueryParameter); ("created_to", "Option<String>", QueryParameter)]
    None
    [(200, Some "ApiResponse<Vec<AuditLog>>"); (403, Some "ApiErrorResponse")].

(** ** The document *)

Definition documented_operations : list Operation :=
    [ openapi_json_doc; health_doc; livez_doc; readyz_doc; auth_config_doc; start_entra_login_doc;
      finish_entra_login_doc; login_doc; logout_doc; revoke_all_sessions_doc; me_doc; list_users_doc;
      me_overview_doc; dashboard_doc; list_calendar_events_doc; get_calendar_event_doc; list_connectors_doc;
      connector_operations_doc; get_connector_doc; create_connector_doc; update_connector_doc;
      update_connector_scope_doc; delete_connector_doc; get_connector_config_doc; upsert_connector_config_doc;
      start_microsoft_oauth_doc; finish_microsoft_oauth_doc; list_connector_runs_doc; get_connector_run_doc;
      retry_connector_run_doc; cancel_connector_run_doc; run_connector_doc; import_calendar_events_doc;
      import_work_cards_doc; import_notifications_doc; import_service_health_doc; list_maintainers_doc;
      get_maintainer_doc; create_maintainer_doc; update_maintainer_doc; delete_maintainer_doc;
      list_maintainer_members_doc; upsert_maintainer_member_doc; delete_maintainer_member_doc; list_services_doc;
      get_service_doc; get_service_overview_doc; create_service_doc; update_service_doc; delete_service_doc;
      list_packages_doc; get_package_doc; create_package_doc; update_package_doc; delete_package_doc;
      list_work_cards_doc; list_my_work_cards_doc; get_work_card_doc; create_work_card_doc; update_work_card_doc;
      delete_work_card_doc; list_notifications_doc; inbox_doc; get_notification_doc; mark_notification_read_doc;
      mark_notification_unread_doc; dismiss_notification_doc; snooze_notification_doc; restore_notification_doc;
      create_notification_doc; update_notification_doc; delete_notification_doc; list_audit_logs_doc ].

Definition documented_schemas : list string :=
    [ "ApiErrorResponse"; "ApiResponse<AuditLog>"; "ApiResponse<CalendarEvent>"; "ApiResponse<Connector>";
      "ApiResponse<ConnectorConfigResponse>"; "ApiResponse<ConnectorOperationsResponse>";
      "ApiResponse<ConnectorRun>"; "ApiResponse<ConnectorRunDetail>"; "ApiResponse<ConnectorRunExecutionResponse>";
      "ApiResponse<DashboardResponse>"; "ApiResponse<HealthResponse>"; "ApiResponse<ReadinessResponse>";
      "ApiResponse<PublicAuthConfig>"; "ApiResponse<RevokeAllSessionsResponse>"; "ApiResponse<LoginResponse>";
      "ApiResponse<Maintainer>"; "ApiResponse<MaintainerMember>"; "ApiResponse<MeOverviewResponse>";
      "ApiResponse<MeResponse>"; "ApiResponse<MicrosoftOAuthAuthorizeResponse>";
      "ApiResponse<MicrosoftOAuthCallbackResponse>"; "ApiResponse<Notification>"; "ApiResponse<NotificationView>";
      "ApiResponse<InboxResponse>"; "ApiResponse<Package>"; "ApiResponse<Service>"; "ApiResponse<ServiceOverview>";
      "ApiResponse<WorkCard>"; "ApiResponse<MyWorkCardsResponse>"; "ApiResponse<Vec<AuditLog>>";
      "ApiResponse<Vec<CalendarEvent>>"; "ApiResponse<Vec<Connector>>"; "ApiResponse<Vec<ConnectorRun>>";
      "ApiResponse<Vec<Maintainer>>"; "ApiResponse<Vec<MaintainerMember>>"; "ApiResponse<Vec<Notification>>";
      "ApiResponse<Vec<NotificationView>>"; "ApiResponse<Vec<Package>>"; "ApiResponse<Vec<Service>>";
      "ApiResponse<Vec<UserSummary>>"; "ApiResponse<Vec<WorkCard>>"; "AuditLog"; "CalendarEvent";
      "CalendarEventImportItem"; "CalendarEventImportRequest"; "Connector"; "ConnectorConfigResponse";
      "ConnectorConfigUpdate"; "ConnectorImportError"; "ConnectorOperationsResponse"; "ConnectorRun";
      "ConnectorRunDetail"; "ConnectorRunExecutionResponse"; "ConnectorRunItem"; "ConnectorRunItemError";
      "ConnectorScopeUpdate"; "ConnectorUpdate"; "ConnectorWorkerStatus"; "Credentials"; "DashboardResponse";
      "DashboardScope"; "DashboardSummary"; "FieldViolation"; "HealthResponse"; "LoginResponse"; "Maintainer";
      "MaintainerMember"; "MaintainerMemberRequest"; "ManualConnectorRunRequest"; "MeOverviewResponse";
      "MeCapabilities"; "MeMaintainerAccess"; "MeResponse"; "MyWorkCardFacets"; "MyWorkCardsResponse";
      "MicrosoftOAuthAuthorizeRequest"; "MicrosoftOAuthAuthorizeResponse"; "MicrosoftOAuthCallbackRequest";
      "MicrosoftOAuthCallbackResponse"; "NewConnector"; "NewMaintainer"; "NewNotification"; "NewPackage";
      "NewService"; "NewWorkCard"; "Notification"; "NotificationSnoozeRequest"; "NotificationView";
      "NotificationImportItem"; "NotificationImportRequest"; "Package"; "PublicAuthConfig"; "ReadinessChecks";
      "ReadinessResponse"; "RevokeAllSessionsResponse"; "Service"; "ServiceHealthCheck"; "ServiceHealthHistory";
      "ServiceHealthHistorySummary"; "ServiceHealthImportItem"; "ServiceHealthImportRequest";
      "ServiceHealthOverview"; "ServiceLinks"; "ServiceOverview"; "ServiceOwner"; "UserSummary"; "WorkCard";
      "WorkCardImportItem"; "WorkCardImportRequest" ].

Definition documented_tags : list string :=
    [ "Docs"; "Auth"; "Dashboard"; "Calendar"; "Catalog"; "Connectors"; "Audit"; "Health" ].

(** utoipa keeps one item per path, with one operation per method. *)
Record PathItem := mkPathItem {
  pi_get : option Operation;
  pi_head : option Operation;
  pi_options : option Operation;
  pi_trace : option Operation;
  pi_post : option Operation;
  pi_put : option Operation;
  pi_patch : option Operation;
  pi_delete : option Operation
}.

#[export] Instance eta_PathItem : Eta PathItem := fun i =>
  mkPathItem (pi_get i) (pi_head i) (pi_options i) (pi_trace i) (pi_post i) (pi_put i) (pi_patch i) (pi_delete i).

Inductive SecurityScheme :=
  | HttpBearer
  | ApiKeyCookie (name : string)
  | ApiKeyHeader (name : string).

Record OpenApi := mkOpenApi {
  oa_paths : list (string * PathItem);
  oa_schemas : list string;
  oa_security_schemes : list (string * SecurityScheme);
  oa_tags : list string
}.

#[export] Instance eta_OpenApi : Eta OpenApi := fun d =>
  mkOpenApi (oa_paths d) (oa_schemas d) (oa_security_schemes d) (oa_tags d).

Definition empty_item : PathItem := mkPathItem None None None None None None None None.

Definition set_operation (o : Operation) (i : PathItem) : PathItem :=
  match op_method o with
  | Get => i <| pi_get := Some o |>
  | Head => i <| pi_head := Some o |>
  | Options => i <| pi_options := Some o |>
  | Post => i <| pi_post := Some o |>
  | Put => i <| pi_put := Some o |>
  | Patch => i <| pi_patch := Some o |>
  | Delete => i <| pi_delete := Some o |>
  | OtherMethod => i <| pi_trace := Some o |>
  end.

Fixpoint add_operation (o : Operation) (paths : list (string * PathItem)) : list (string * PathItem) :=
  match paths with
  | [] => [(op_path o, set_operation o empty_item)]
  | (p, i) :: paths => if p =s op_path o then (p, set_operation o i) :: paths else (p, i) :: add_operation o paths
  end.

Definition ApiDoc : OpenApi :=
  mkOpenApi (foldl (fun paths o => add_operation o paths) [] documented_operations) documented_schemas []
    documented_tags.

(** ** [SecurityAddon] *)

(** The document declares schemas, so it has components the schemes can be added to. *)

Definition replace_documented_security (requirements : list SecurityRequirement) (operation : option Operation)
    : option Operation :=
  match operation with
  | Some o => Some (match op_security o with
                    | Some _ => o <| op_security := Some requirements |>
                    | None => o
                    end)
  | None => None
  end.

Definition read_security : list SecurityRequirement := [["bearer_auth"]; ["session_cookie"]].
Definition write_security : list SecurityRequirement := [["bearer_auth"]; ["session_cookie"; "csrf_header"]].

Definition modify_item (i : PathItem) : PathItem :=
  mkPathItem (replace_documented_security read_security (pi_get i))
    (replace_documented_security read_security (pi_head i))
    (replace_documented_security read_security (pi_options i))
    (replace_documented_security read_security (pi_trace i))
    (replace_documented_security write_security (pi_post i))
    (replace_documented_security write_security (pi_put i))
    (replace_documented_security write_security (pi_patch i))
    (replace_documented_security write_security (pi_delete i)).

Definition modify (openapi : OpenApi) : OpenApi :=
  openapi
    <| oa_security_schemes := oa_security_schemes openapi ++
         [ ("bearer_auth", HttpBearer);
           ("session_cookie", ApiKeyCookie "__Host-idp_session");
           ("csrf_header", ApiKeyHeader "X-IDP-CSRF") ] |>
    <| oa_paths := map (fun p => (fst p, modify_item (snd p))) (oa_paths openapi) |>.

Definition spec : OpenApi := modify ApiDoc.
