(* ===== verification/OpenApiSafety.v ===== *)
(** What the API document promises of the server: that it describes the routes that are
    mounted, that the security it documents is the security the request guard asks for,
    and that no two mounted routes compete for a request. *)
From S2P Require Import Prelude Logic Text Models Api Accounts Sessions Authn Routes OpenApi.

Open Scope Z_scope.
Open Scope portal_scope.

(** ** The operations of a document *)

Definition item_operations (i : PathItem) : list Operation :=
  omap id [pi_get i; pi_head i; pi_options i; pi_trace i; pi_post i; pi_put i; pi_patch i; pi_delete i].

Definition operations (d : OpenApi) : list Operation :=
  concat (map (fun p => item_operations (snd p)) (oa_paths d)).

(** ** Routes as the document writes them *)

Definition segment_template (s : Segment) : string :=
  match s with
  | Static text => text
  | Dynamic name => concat_str ["{"; name; "}"]
  end.

Definition path_template (r : Route) : string :=
  concat_str (map (fun s => concat_str ["/"; segment_template s]) (rt_path r)).

Definition query_names (q : QueryField) : list string :=
  match q with
  | Single name _ => [name]
  | Trailing _ fields => map fst fields
  end.

Definition is_guarded (r : Route) : bool := bool_decide (AuthenticatedUserGuard ∈ rt_guards r).

(** The status and the body that a handler's return type answers with. *)
Definition success_response (t : ReturnType) : Z * option string :=
  match t with
  | DataResult data => (200, Some (concat_str ["ApiResponse<"; data; ">"]))
  | CreatedResult data => (201, Some (concat_str ["ApiResponse<"; data; ">"]))
  | NoContentResult => (204, None)
  | RedirectResult => (303, None)
  | PlainResponse "NoStoreAuthConfig" => (200, Some "ApiResponse<PublicAuthConfig>")
  | PlainResponse _ => (200, None)
  end.

#[export] Instance ParameterIn_eq_dec : EqDecision ParameterIn.
Proof. solve_decision. Defined.

Definition params_in (place : ParameterIn) (o : Operation) : list (string * string) :=
  map fst (List.filter (fun p => bool_decide (snd p = place)) (op_params o)).

Definition addresses (o : Operation) (r : Route) : bool :=
  bool_decide (op_method o = rt_method r) && (op_path o =s path_template r).

(** The operation tells a client what it needs to call the route, and what it answers. *)
Definition describes (o : Operation) (r : Route) : bool :=
  addresses o r
  && Bool.eqb (match op_security o with Some _ => true | None => false end) (is_guarded r)
  && bool_decide (op_body o = (fun d => (snd d, "application/json")) <$> rt_data r)
  && bool_decide (rt_format r = (fun _ => "json") <$> rt_data r)
  && bool_decide (params_in PathParameter o = rt_params r)
  && bool_decide (map fst (params_in QueryParameter o) = mjoin (map query_names (rt_query r)))
  && bool_decide (List.filter (fun a => fst a <? 400) (op_responses o) = [success_response (rt_returns r)]).

Definition schemas_used (o : Operation) : list string :=
  (match op_body o with Some (schema, _) => [schema] | None => [] end) ++ omap snd (op_responses o).

(** ** Routes that compete *)

Definition segment_matches (s : Segment) (text : string) : bool :=
  match s with
  | Static t => t =s text
  | Dynamic _ => true
  end.

Fixpoint path_matches (p : list Segment) (texts : list string) : bool :=
  match p, texts with
  | [], [] => true
  | s :: p, text :: texts => segment_matches s text && path_matches p texts
  | _, _ => false
  end.

Definition route_matches (m : Method) (texts : list string) (r : Route) : bool :=
  bool_decide (rt_method r = m) && path_matches (rt_path r) texts.

Definition segments_overlap (s t : Segment) : bool :=
  match s, t with
  | Static s, Static t => s =s t
  | _, _ => true
  end.

Fixpoint paths_overlap (p q : list Segment) : bool :=
  match p, q with
  | [], [] => true
  | s :: p, t :: q => segments_overlap s t && paths_overlap p q
  | _, _ => false
  end.

(** Rocket ranks a route without an explicit rank by how much of its path and of its query
    is static. *)
Inductive Color := StaticColor | PartialColor | WildColor.

Definition color (dynamic : list bool) : Color :=
  if forallb negb dynamic then StaticColor else if forallb id dynamic then WildColor else PartialColor.

Definition path_color (r : Route) : Color :=
  color (map (fun s => match s with Static _ => false | Dynamic _ => true end) (rt_path r)).

Definition query_color (r : Route) : option Color :=
  match rt_query r with
  | [] => None
  | _ => Some WildColor
  end.

(** Its documented order: default ranks are negative, and a static path comes before a
    partly dynamic one, and that before a wholly dynamic one. *)
Class Rocket := {
  default_rank : Color -> option Color -> Z;
  default_rank_negative p q : default_rank p q < 0;
  default_rank_static q q' : default_rank StaticColor q < default_rank PartialColor q';
  default_rank_partial q q' : default_rank PartialColor q < default_rank WildColor q'
}.

Definition rank `{Rocket} (r : Route) : Z := default (default_rank (path_color r) (query_color r)) (rt_rank r).

(** Ranks that differ whatever the default ranks are. *)
Definition ranks_apart (r s : Route) : bool :=
  match rt_rank r, rt_rank s with
  | Some a, Some b => negb (a =? b)
  | Some a, None => 0 <=? a
  | None, Some b => 0 <=? b
  | None, None =>
      match path_color r, path_color s with
      | StaticColor, StaticColor | PartialColor, PartialColor | WildColor, WildColor => false
      | _, _ => true
      end
  end.

Definition apart (r s : Route) : bool :=
  bool_decide (r = s) || negb (bool_decide (rt_method r = rt_method s)) || negb (paths_overlap (rt_path r) (rt_path s))
  || ranks_apart r s.

(** ** What a request presents *)

Definition scheme_presented (scheme : SecurityScheme) (r : Request) : bool :=
  match scheme with
  | HttpBearer => bool_decide (bearer_token r ≠ None)
  | ApiKeyCookie name => match get_cookie r name with Some token => not_blank token | None => false end
  | ApiKeyHeader name => bool_decide (get_one r name = Some "1")
  end.

Definition scheme_named (d : OpenApi) (name : string) : option SecurityScheme :=
  snd <$> head (List.filter (fun s => fst s =s name) (oa_security_schemes d)).

(** Every scheme of one of the requirements is presented. *)
Definition satisfies (d : OpenApi) (requirements : list SecurityRequirement) (r : Request) : bool :=
  existsb (forallb (fun name => match scheme_named d name with
                                | Some scheme => scheme_presented scheme r
                                | None => false
                                end)) requirements.

(** A client that sends an Authorization header means it. *)
Definition authorization_is_bearer (r : Request) : Prop :=
  contains_header r "Authorization" = true -> bearer_token r ≠ None.

(** ** Overlap *)

Lemma segments_overlap_spec s t text :
  segment_matches s text = true -> segment_matches t text = true -> segments_overlap s t = true.
Proof. destruct s, t; simpl; rewrite ?str_eqb_eq; intros; by subst. Qed.

Lemma paths_overlap_spec p q texts :
  path_matches p texts = true -> path_matches q texts = true -> paths_overlap p q = true.
Proof.
  revert q texts. induction p as [|s p IH]; intros [|t q] [|text texts]; simpl; try done.
  rewrite !andb_true_iff. intros [Hs Hp] [Ht Hq]. split; [|by eapply IH].
  by eapply segments_overlap_spec.
Qed.

Lemma default_rank_color `{Rocket} c c' q q' : c <> c' -> default_rank c q <> default_rank c' q'.
Proof.
  pose proof (default_rank_static q q'). pose proof (default_rank_static q' q).
  pose proof (default_rank_static q' q'). pose proof (default_rank_static q q).
  pose proof (default_rank_partial q q'). pose proof (default_rank_partial q' q).
  destruct c, c'; intros ?; try done; lia.
Qed.

Lemma ranks_apart_spec `{Rocket} r s : ranks_apart r s = true -> rank r <> rank s.
Proof.
  unfold ranks_apart, rank.
  pose proof (default_rank_negative (path_color s) (query_color s)).
  pose proof (default_rank_negative (path_color r) (query_color r)).
  destruct (rt_rank r) as [a|], (rt_rank s) as [b|]; simpl;
    rewrite ?negb_true_iff, ?Z.eqb_neq, ?Z.leb_le; try lia.
  intros Hc. apply default_rank_color. intros E. rewrite E in Hc. by destruct (path_color s).
Qed.

Lemma all_apart : forallb (fun r => forallb (apart r) mounted_routes) mounted_routes = true.
Proof. vm_compute. reflexivity. Qed.

Lemma mounted_apart r s : r ∈ mounted_routes -> s ∈ mounted_routes -> apart r s = true.
Proof.
  rewrite !list_elem_of_In. pose proof all_apart as A. rewrite forallb_forall in A.
  intros Hr Hs. specialize (A r Hr). rewrite forallb_forall in A. by apply A.
Qed.

(** Whatever the method and the path of a request, the routes of the list that match it
    have ranks that differ pairwise, whatever default ranks rocket gives within its documented
    order: so the routes do not collide when the server starts, and the order in which
    rocket tries them on a request is determined. *)
Theorem mounted_routes_are_unambiguous `{Rocket} m texts r s :
  r ∈ List.filter (route_matches m texts) mounted_routes ->
  s ∈ List.filter (route_matches m texts) mounted_routes ->
  r <> s -> rank r <> rank s.
Proof.
  rewrite !list_elem_of_In, !filter_In, <- !list_elem_of_In. unfold route_matches.
  rewrite !andb_true_iff, !bool_decide_eq_true. intros (Hr & Mr & Pr) (Hs & Ms & Ps) Hne.
  pose proof (mounted_apart r s Hr Hs) as A. unfold apart in A.
  rewrite (paths_overlap_spec _ _ _ Pr Ps), Mr, Ms, (bool_decide_eq_true_2 (m = m) eq_refl) in A.
  simpl in A. rewrite !orb_false_r in A.
  apply orb_true_iff in A as [A%bool_decide_eq_true | A%ranks_apart_spec]; done.
Qed.

(** ** The document and the routes *)

Definition described_once (r : Route) : bool :=
  match List.filter (fun o => addresses o r) (operations spec) with
  | [o] => describes o r
  | _ => false
  end.

Definition well_documented (o : Operation) : bool :=
  existsb (describes o) mounted_routes
  && bool_decide (op_tag o ∈ oa_tags spec)
  && forallb (fun schema => bool_decide (schema ∈ oa_schemas spec)) (schemas_used o).

Lemma routes_described :
  forallb (fun r => bool_decide (r = microsoft_oauth_callback_page_route) || described_once r) mounted_routes = true.
Proof. vm_compute. reflexivity. Qed.

Lemma operations_well_documented : forallb well_documented (operations spec) = true.
Proof. vm_compute. reflexivity. Qed.

(** The document describes the handlers of the [routes!] list: every one but the page that receives
    Microsoft's OAuth redirect is the subject of exactly one operation, with its method, path,
    parameters, body and answer, which asks for credentials exactly when the handler takes an
    authenticated user; every operation describes such a handler; operation ids are distinct;
    and nine of the handlers take no authenticated user. *)
Theorem api_document_describes_the_server :
  Forall (fun r => r = microsoft_oauth_callback_page_route \/
    exists o, List.filter (fun o => addresses o r) (operations spec) = [o] /\ describes o r = true) mounted_routes /\
  Forall (fun o => (exists r, r ∈ mounted_routes /\ describes o r = true) /\ op_tag o ∈ oa_tags spec /\
    Forall (fun schema => schema ∈ oa_schemas spec) (schemas_used o)) (operations spec) /\
  NoDup (map op_id (operations spec)) /\
  map rt_handler (List.filter (fun r => negb (is_guarded r)) mounted_routes) =
    [ "login"; "auth_config"; "start_entra_login"; "finish_entra_login"; "openapi_json";
      "microsoft_oauth_callback_page"; "health"; "livez"; "readyz" ].
Proof.
  split_and!.
  - apply List.Forall_forall. intros r Hr. pose proof routes_described as D.
    rewrite forallb_forall in D. specialize (D r Hr).
    apply orb_true_iff in D as [D%bool_decide_eq_true|D]; [by left|right].
    unfold described_once in D. destruct (List.filter _ _) as [|o [|]]; try done. by exists o.
  - apply List.Forall_forall. intros o Ho. pose proof operations_well_documented as D.
    rewrite forallb_forall in D. specialize (D o Ho). unfold well_documented in D.
    rewrite !andb_true_iff, bool_decide_eq_true, existsb_exists in D.
    destruct D as [[(r & Hr%list_elem_of_In & Hd) Ht] Hs]. split_and!; [by exists r|done|].
    apply List.Forall_forall. rewrite forallb_forall in Hs. intros x Hx.
    specialize (Hs x Hx). by apply bool_decide_eq_true in Hs.
  - apply (bool_decide_unpack _). vm_compute. exact I.
  - vm_compute. reflexivity.
Qed.

(** ** The document and the request guard *)

Section Security.
Context {H : Sha256} {U : Unicode}.

Definition required_security (m : Method) : list SecurityRequirement :=
  match m with
  | Post | Put | Patch | Delete => write_security
  | _ => read_security
  end.

Lemma documented_requirements :
  forallb (fun o => match op_security o with
                    | Some requirements => bool_decide (requirements = required_security (op_method o))
                                           && negb (bool_decide (op_method o = OtherMethod))
                    | None => true
                    end) (operations spec) = true.
Proof. vm_compute. reflexivity. Qed.

Lemma no_header_no_bearer r : contains_header r "Authorization" = false -> bearer_token r = None.
Proof.
  unfold contains_header, bearer_token, get_one. intros Hc.
  replace (List.filter _ (headers r)) with (@nil (string * string)); [done|].
  induction (headers r) as [|h hs IH]; simpl in *; [done|].
  apply orb_false_iff in Hc as [-> Hc]. by apply IH.
Qed.

(** The credential the guard acts on, and whether it is let through. *)
Definition credential (config : AppConfig) (r : Request) : option string :=
  match request_token r (session_cookie_name config) with
  | Some (Bearer token) => Some token
  | Some (CookieToken token) =>
      if safe_method (method r) || bool_decide (get_one r CSRF_HEADER_NAME = Some "1") then Some token else None
  | None => None
  end.

Lemma credential_none config pool r c :
  credential config r = None ->
  exists error, from_request (Some config) pool r c = (Ok (GError (status error) error), c) /\
    caught (status error) = Some error /\ (error = Unauthorized \/ error = Forbidden).
Proof.
  unfold credential, from_request. destruct (request_token _ _) as [[token|token]|]; simpl; [done| |by exists Unauthorized; eauto].
  destruct (safe_method _), (bool_decide _); simpl; try done. by exists Forbidden; eauto.
Qed.

Lemma credential_some config r c token :
  credential config r = Some token ->
  from_request (Some config) PoolConnection r c = authenticate token c /\ presents config r token.
Proof.
  unfold credential, from_request, presents. destruct (request_token _ _) as [[t|t]|]; simpl; [| |done].
  - intros [= ->]. by eauto.
  - destruct (safe_method _) eqn:Hm, (bool_decide _) eqn:Hc; simpl; intros [= ->];
      rewrite ?bool_decide_eq_true in Hc; by eauto 6.
Qed.

Lemma satisfies_read r :
  satisfies spec read_security r =
    (scheme_presented HttpBearer r || scheme_presented (ApiKeyCookie "__Host-idp_session") r).
Proof. unfold satisfies. simpl. by rewrite !andb_true_r, orb_false_r. Qed.

Lemma satisfies_write r :
  satisfies spec write_security r =
    (scheme_presented HttpBearer r ||
     (scheme_presented (ApiKeyCookie "__Host-idp_session") r && scheme_presented (ApiKeyHeader "X-IDP-CSRF") r)).
Proof. unfold satisfies. simpl. by rewrite !andb_true_r, orb_false_r. Qed.

(** The requirements of a method, on what the guard reads from a request. *)
Lemma satisfies_required r :
  method r <> OtherMethod ->
  satisfies spec (required_security (method r)) r =
    (bool_decide (bearer_token r ≠ None) ||
     match get_cookie r PRODUCTION_SESSION_COOKIE_NAME with
     | Some token => not_blank token && (safe_method (method r) || bool_decide (get_one r CSRF_HEADER_NAME = Some "1"))
     | None => false
     end).
Proof.
  intros Hm. unfold required_security, safe_method, PRODUCTION_SESSION_COOKIE_NAME, CSRF_HEADER_NAME.
  destruct (method r); try done; rewrite ?satisfies_read, ?satisfies_write; unfold scheme_presented;
    destruct (get_cookie _ _); rewrite ?orb_true_l, ?orb_false_l, ?andb_true_r, ?andb_false_l; done.
Qed.

(** In production, a request has a credential exactly when it satisfies the requirements
    of its method, and any Authorization header it sends is a bearer token. *)
Lemma credential_iff config r :
  environment config = "production" -> method r <> OtherMethod ->
  credential config r <> None <->
  satisfies spec (required_security (method r)) r = true /\ authorization_is_bearer r.
Proof.
  intros He Hm. rewrite satisfies_required by done.
  unfold credential, request_token, session_cookie_name, authorization_is_bearer.
  rewrite He, str_eqb_refl. pose proof (no_header_no_bearer r) as Hn.
  destruct (contains_header r "Authorization").
  - destruct (bearer_token r); simpl; split; try done; intros [_ Hb]; by specialize (Hb eq_refl).
  - rewrite (Hn eq_refl). simpl.
    destruct (get_cookie _ _) as [token|]; [|naive_solver].
    destruct (not_blank token); [|naive_solver].
    simpl. destruct (safe_method _ || _); naive_solver.
Qed.

(** C12: In production the documented security is the security that is enforced. On an
    operation with documented security, a request that satisfies none of the alternatives
    (a bearer token; a session cookie, with the header X-IDP-CSRF: 1 on writes) fails the
    guard with 401 or 403, which the catcher of that status answers with the same error,
    before a connection is taken and with the database untouched; one that satisfies an
    alternative, and whose Authorization header, if it has one, is a bearer token, is
    authenticated by the session of the token it presents. *)
Theorem documented_security_is_enforced config pool o requirements request c :
  environment config = "production" ->
  o ∈ operations spec -> op_security o = Some requirements -> method request = op_method o ->
  (satisfies spec requirements request = false ->
   exists error,
     from_request (Some config) pool request c = (Ok (GError (status error) error), c) /\
     caught (status error) = Some error /\ (error = Unauthorized \/ error = Forbidden)) /\
  (satisfies spec requirements request = true -> authorization_is_bearer request ->
   exists token,
     from_request (Some config) PoolConnection request c = authenticate token c /\ presents config request token).
Proof.
  intros He Ho Hs Hm. pose proof documented_requirements as D. rewrite forallb_forall in D.
  apply list_elem_of_In in Ho. specialize (D o Ho). rewrite Hs in D.
  apply andb_true_iff in D as [->%bool_decide_eq_true Hother]. rewrite <- Hm in *.
  apply negb_true_iff, bool_decide_eq_false in Hother.
  pose proof (credential_iff config request He Hother) as Hc. split.
  - intros Hf. apply credential_none. rewrite Hf in Hc. destruct (credential config request); [|done].
    destruct Hc as [Hc _]. by destruct Hc.
  - intros Ht Hb. destruct (credential config request) as [token|] eqn:E.
    + exists token. by apply credential_some.
    + destruct Hc as [_ Hc]. by destruct Hc.
Qed.

End Security.

(** ** Witnesses *)

(** The default ranks of rocket's documentation. *)
#[export] Instance rocket_default_ranks : Rocket.
Proof.
  refine {| default_rank p q :=
    (match p with StaticColor => -12 | PartialColor => -8 | WildColor => -4 end) +
    (match q with Some StaticColor => 0 | Some PartialColor => 1 | Some WildColor => 2 | None => 3 end) |}.
  - intros [] [[]|]; lia.
  - intros [[]|] [[]|]; lia.
  - intros [[]|] [[]|]; lia.
Defined.

Definition runs_config_path : list string := ["connectors"; "runs"; "config"].

(** Two routes match GET /connectors/runs/config; their ranks tell them apart. *)
Lemma mounted_routes_are_unambiguous_witness :
  map rt_handler (List.filter (route_matches Get runs_config_path) mounted_routes) =
    ["get_connector_config"; "get_connector_run"] /\
  rank get_connector_run_route <> rank get_connector_config_route.
Proof.
  split; [vm_compute; reflexivity|].
  apply (mounted_routes_are_unambiguous Get runs_config_path);
    [apply list_elem_of_In; vm_compute; tauto .. | discriminate].
Defined.

Definition production_config : AppConfig := mkAppConfig "production" 3600 10 true 5 50 900 900 true None.

Definition forged_logout : Request := mkRequest Post [] [("__Host-idp_session", "stolen")].

(** A cross-site POST to /logout carries the cookie and not the header: it is refused. *)
Lemma documented_security_is_enforced_witness :
  exists error,
    @from_request plain_hash ascii_unicode (Some production_config) PoolConnection forged_logout
      (calm live_db 100 [] 3) = (Ok (GError (status error) error), calm live_db 100 [] 3) /\
    caught (status error) = Some error /\ (error = Unauthorized \/ error = Forbidden).
Proof.
  apply (documented_security_is_enforced production_config PoolConnection
           (logout_doc <| op_security := Some write_security |>) write_security forged_logout).
  - reflexivity.
  - apply list_elem_of_In. vm_compute. tauto.
  - reflexivity.
  - reflexivity.
  - vm_compute. reflexivity.
Defined.

(** The alternatives of the document are not alternatives for a request that sends an
    Authorization header of another scheme: its cookie is not looked at. *)
Definition basic_and_cookie : Request :=
  mkRequest Get [("Authorization", "Basic YTpi")] [("__Host-idp_session", "tok")].

Example malformed_header_hides_cookie :
  satisfies spec read_security basic_and_cookie = true /\
  @from_request plain_hash ascii_unicode (Some production_config) PoolConnection basic_and_cookie
    (calm live_db 100 [] 3) = (Ok (GError 401 Unauthorized), calm live_db 100 [] 3).
Proof. split; vm_compute; reflexivity. Qed.
